(* ===== verification/_CoqProject ===== *)
-Q . S2P
Prelude.v
Sha256.v
Url.v
Fetcher.v
Tokens.v
Vocab.v
Ledger.v
Base64.v
Robots.v
Json.v
Loop.v
Crawl.v
Early.v
Crawler11.v
Crawler9.v
Crawler8.v
Ecommerce.v
Cli.v
Log.v
