(* ===== verification/Prelude.v ===== *)
(** * A verification development for the web crawler of
      Mrwan-Atef/web-crawler-and-scrapping

    The repository holds several generations of one Python crawler and a
    separate product scraper.  The newest crawler,
    [src/crawler-updated12.py], is modelled in full (but for I/O); every
    older generation ([crawler-updated11.py], [-9], [-8] and the five
    prototypes [crawler-updated1.py] to [-5]) is modelled on the same loop,
    so that the theorems can say what each one keeps and what the later
    ones fixed; the helper [src/rebuild_mapping.py] and the scraper
    [src/crawler-ecommerce.py] are modelled in full (but for HTML parsing).

    ** The program and how its parts interact

    [main] (crawler-updated12.py, lines 130-185) reads its command line
    with [argparse] ([--seeds-dir], [--max-pages], [--output-dir]),
    creates the output directory, loads the durable state of
    earlier runs (the ledger [all_urls_master.txt], one canonical URL per
    line, and the id mapping [url_mapping.json]), calls [crawl_seed] once
    per seed of every topic, threading the shared [visited] set and
    [mapping] dict through the calls, and writes the mapping back.
    [crawl_seed] (lines 32-127) is a breadth-first loop over a FIFO queue:
    - the Canonicalizer (lines 54-61) percent-encodes the raw URL
      ([requests.utils.requote_uri]), splits it ([urllib.parse.urlparse]),
      keeps [scheme://netloc path] without trailing slashes and drops
      login pages;
    - the Frontier (lines 48-65, 115-119) skips URLs in [visited] or in
      the per-seed [seen] set and appends the same-prefix links;
    - the Fetcher (lines 67-94) performs at most [MAX_RETRIES] GETs, with
      the 429/Retry-After handling, the 404/410 skip and linear backoff;
    - the PersistenceLedger (lines 27-29, 96-113, 145-160, 181-183) appends
      each fetched URL to the ledger, maps [encode_name url] (16 hex digits
      of SHA-256) to the URL and writes the vocabulary file;
    - the ContentProcessor (lines 101-105, 115-119) extracts the alphabetic
      word tokens and the links of the page;
    - the PolitenessPolicy (lines 38-45, 124-127) reads the crawl delay of
      [robots.txt] with [urllib.robotparser.RobotFileParser] and sleeps
      after every fetched page.
    The older versions run the same loop with another body: raw URLs in
    [seen], one GET per page, other file names (URL-safe Base64 in
    crawler-updated8.py, [slugify] in 1-5) and token sets.
    crawler-ecommerce.py runs its own loop from a fixed [target_url]:
    queue-only dedup, unguarded requests, product rows from listing pages
    and a CSV file.

    ** Files, in dependency order

    - [Prelude] (this file): Python string operations ([strip] with the
      Unicode whitespace of [str.strip] on UTF-8 bytes, [rstrip], [in],
      [lower], line splitting) as executable functions with their lemmas; the hint databases [crawl] and [crawl_rw]; shared tactics.
    - [Sha256]: [hashlib.sha256(...).hexdigest()] per FIPS 180-4 on
      byte strings, 32-bit words as [Z] with the wrap-around written out,
      checked on the FIPS test vectors.
    - [Url]: [requote_uri] and Python 3.12's [urlsplit], [urlparse],
      [urljoin] on byte strings ([None] is the [ValueError]); the
      canonical form of lines 54-61 ([canonicalize], [skip_canonical]).
    - [Fetcher]: the retry loop ([fetch_attempts], [fetch]) over a network
      oracle, returning the GETs and sleeps it performs and a tagged
      outcome; the single fetch of the older versions ([fetch_once]).
    - [Tokens]: [re.findall(r"\b\w+\b")], [isalpha] and the vocabulary
      file, over a [CharClasses] interface (a type class) for the Unicode
      tables, with the Latin-1 instance.
    - [Vocab]: [sorted(set(re.findall(..., text.lower())))] of versions
      1-5, with stdpp's [merge_sort] and Python's string order, over a
      [CaseMap] interface for [str.lower].
    - [Ledger]: [encode_name], the ledger file written and read back, the
      mapping dict (a [gmap]) and [rebuild_mapping.py].
    - [Base64]: crawler-updated8.py's [encode_name] / [decode_name] (URL-safe
      Base64 after CPython's [binascii]).
    - [Robots]: [RobotFileParser.read], [parse] and [crawl_delay] as
      crawl_seed calls them (after CPython 3.12's [urllib/robotparser.py]):
      UTF-8 decoding, [splitlines], [unquote] with [errors='replace'], the
      three-state line parser with its exceptions, the default entry and
      [Entry.applies_to].
    - [Json]: [json.dump(mapping, f, indent=2)] (CPython's pure Python
      encoder, [ensure_ascii]) and [json.load] (the [_json.c] scanner,
      with a fuel the length of the text) on code points, the UTF-8 file
      around them, and rebuild_mapping.py's read, [makedirs] and write.
    - [Loop]: the [while queue and count < max_pages] loop shared by all
      crawler versions, as a function of its body ([drain], [crawl_loop])
      and as a step relation ([loop_step] on [cstate]); the store of
      durable state ([store]: visited set, ledger content, mapping,
      vocabulary files, trace of effects); [run_seq] for the [for] loops
      of [main]; the inductive [eventually] of the liveness theorem.
    - [Crawl]: crawler-updated12.py's loop body [visit_url], [crawl_seed],
      [main], the run invariant [run_inv] and the concrete sites of the
      examples.
    - [Early]: crawler-updated1.py to -5: [slugify], the shared body
      [visit_early] and each version's crawl function and [main].
    - [Crawler11], [Crawler9], [Crawler8]: the loop bodies and [main] of
      the versions with a ledger before crawler-updated12.py.
    - [Ecommerce]: crawler-ecommerce.py's loop [ecrawl] and body [estep],
      the [r"/page/\d+/"] search, the rows and the CSV text.
    - [Cli]: [parser.parse_args()] after CPython 3.11's [argparse]
      ([classify] for [_parse_optional], [consume], [finish], [cli_parse])
      for the three parsers of the versions, [int()] ([py_int_of]), and
      the start of every version's [main] from the command line to the
      call of its crawl ([main12_cli] ... [main3_cli]) over a file-system
      oracle ([makedirs], file reads, [json.load], [listdir]); the
      abstract namespace [spec_parse] the refinement theorem is about.
    - [Log]: the [print] calls of the retry loop (lines 75-93) as
      entries among the effects ([fetch_attempts_log], [fetch_log]), with
      the texts their f-strings format.

    ** What the theorems show

    - Deduplication and resume (C1, C2): over a whole run of [main],
      finished or aborted, the ledger is the loaded lines followed by URLs
      appended once each and never already there; two runs in a row leave
      no duplicate line.  The visited set always equals the ledger's URLs.
    - Fetcher (C3, C4, C9, C10, C27-C30): exactly three GETs with sleeps
      2, 4, 6 on persistent 500s, one GET on 404/410, at most three GETs,
      Retry-After honoured when [int()] and [time.sleep] accept it, the
      uncaught [ValueError] of [int()] on a non-ASCII digit or on more
      than 4300 digits and the [OverflowError] of [time.sleep] beyond
      [SLEEP_MAX] seconds; liveness: a server that recovers within three
      attempts yields its page.
    - Frontier and loop (C5-C8): only same-prefix, unvisited, unseen
      links are enqueued; at most [max_pages] pages per seed;
      [crawl_seed] computes the halting state of the step relation, which
      is well founded.
    - Politeness (C14-C16): in a finished run every page written is
      followed by the politeness sleep before the next request, and the
      crawl delay slept is never negative, whatever [robots.txt] holds;
      a group [User-agent: a] / [Crawl-delay: d] gives [int(d)] to every
      agent it applies to, and no delay at all when [d] has more than
      4300 digits.
    - Command line (C17, C18): on a command line of the parser's own
      flags, each with a value of its type, [parse_args] returns the
      defaults updated by the pairs in order (the last one wins) or the
      missing-required error, as the abstract [spec_parse] says
      (refinement); whatever the command line, a namespace it returns
      holds a value of the declared type for every argument, [--flag=--]
      apart.  By example: [--seeds-dir=--] stores an empty list, a
      negative [--max-pages] is accepted, [-h] wins over a later error.
    - The mapping file (C19-C22): [json.load] of the file
      [json.dump(mapping, mp, indent=2)] writes is the same map, so the
      [gmap] model of the mapping holds across runs; the file
      rebuild_mapping.py writes loads as [rebuild_mapping] of the
      ledger; at the level of code points, the dumped text reads back as
      the same dict in the same order; the decoder's fuel never decides
      its outcome.  By example: two lone surrogates are joined, a
      repeated key keeps its first place, an [int] of 4301 digits
      raises.
    - Console (C23, C24): every sleep of the retry loop comes right after
      the printed line that announces it; after a 404 the loop says it
      failed after 3 attempts although it made one.  A lemma,
      [fetch_log_erase], checks the logged loop against [fetch].
    - Mapping (C25, C31, C32): the mapping written is the one
      [rebuild_mapping.py] recomputes from the ledger; ids are never
      dropped.
    - Versions 1-5 and 8 (C11, C26, C34): no URL twice in one crawl's
      ledger; crawler-updated8.py refines their loop; slugs are safe file
      names (which collide, by example).  Lemmas: the vocabulary is the
      sorted set of lower-cased tokens ([vocab_of_spec]) and reads back
      from its file ([vocab_content_roundtrip]).
    - crawler-ecommerce.py (C12, C13, C35): at most 20 GETs, all
      under [target_url]; every row comes from a listing page it fetched;
      the CSV reads back as the rows; by example, pages are refetched and
      one 404 loses every row.
    - Canonical form, ids, tokens (C33, C36-C39): no query, fragment or
      whitespace in a canonical URL; Base64 names decode back to their
      URL; [\b\w+\b] is a split at non-word characters; ids are 16 hex
      digits.
    - Examples: the spec's end-to-end scenario, evaluated
      ([crawl_end_to_end]); examples that exhibit where the code departs
      from the spec; the robots.txt examples show a fractional delay
      ignored and a parse that raises keeping the groups before it.

    ** Bounds and fuel

    The JSON decoder ([scan_once] and its loops, Json.v) recurses on a
    fuel [json_loads] sets to the length of the text plus one: every call
    is made after a character is consumed, and [scan_once_fuel] shows any
    larger fuel gives the same result.  No other definition of the
    program uses fuel; [n_text], the spec-side
    [str(n)] of Cli.v, has [n + 1] steps, enough since each step divides
    [n] by ten.  The crawl loops recurse structurally on the
    page budget [max_pages - count] and, within one unit of budget, on the
    queue: a skipped URL pops the queue, a fetched page spends one unit.
    [loop_step_wf] shows the same measure makes the step relation well
    founded, so the Python loop terminates.  Integers are [Z] or [N]
    where Python has unbounded [int], with the limits the library puts on
    them where the code meets them: [int()] of a [str] of more than 4300
    digits raises ([INT_MAX_STR_DIGITS], in the Retry-After, the
    Crawl-delay, the [--max-pages] value and JSON numbers), and
    [time.sleep] of more than [SLEEP_MAX] = 9223372036 seconds (the int64
    count of nanoseconds) raises [OverflowError] ([sleep_max_value]).  The
    32-bit arithmetic of SHA-256 is masked.

    ** Not modelled

    The [print] calls outside the retry loop (line 122 with the page
    count, line 126 with the random delay, a float, and the lines of
    [main]), which write to the console only, and the text of [argparse]'s help and error messages (an
    exit is its status and error kind); [argparse] features the parsers
    do not use (short options, [nargs], positionals, [fromfile_prefix_chars]);
    the HTML parser (a page
    is the text BeautifulSoup extracts and its [href] values, and for the
    scraper its [li.product] containers); the network (the [web] gives
    each URL's responses and the [robots.txt] response); the [Allow] and
    [Disallow] rules and request rates of [RobotFileParser], kept only for
    the exceptions they raise, since [crawl_delay] does not read them;
    the rounding of a JSON float and the [RecursionError] of deeply
    nested JSON (neither occurs in a mapping file); real time (a sleep is an event
    with its duration; the random politeness jitter is not recorded, so
    the [OverflowError] of [time.sleep(total_delay)] at line 127 for a
    crawl delay above about 9.2e9 seconds, whose threshold depends on the
    jitter, and of the float conversion of a delay above 1.8e308, are not
    modelled); the [ValueError] of [rp.set_url] (line 40) on a seed with
    an unbalanced bracket, which the model raises instead at the seed's
    canonical form in the first step of the loop, the same outcome but
    when [max_pages <= 0]; the non-ASCII cases of [unquote_unreserved]
    and the NFKC check of [urljoin] (see Url.v).  The Unicode tables of [\w],
    [isalpha], [\d] and [str.lower] are parameters, instantiated exactly
    below U+0100. *)

From stdpp Require Export base gmap strings list.
From Stdlib Require Export Ascii ZArith Lia.

Declare Scope crawl_scope.
Delimit Scope crawl_scope with crawl.

(** [u.startswith(p)] *)
Notation "u 'startswith' p" := (String.prefix p u) (at level 35, no associativity) : crawl_scope.

Create HintDb crawl discriminated.
Create Rewrite HintDb crawl_rw.

(** ** Characters *)

Definition char_in (c : ascii) (set : string) : bool :=
  let fix go s := match s with
                  | EmptyString => false
                  | String d t => Ascii.eqb c d || go t
                  end in go set.

Definition is_ascii_upper (c : ascii) : bool :=
  (N_of_ascii "A" <=? N_of_ascii c)%N && (N_of_ascii c <=? N_of_ascii "Z")%N.
Definition is_ascii_lower (c : ascii) : bool :=
  (N_of_ascii "a" <=? N_of_ascii c)%N && (N_of_ascii c <=? N_of_ascii "z")%N.
Definition is_ascii_digit (c : ascii) : bool :=
  (N_of_ascii "0" <=? N_of_ascii c)%N && (N_of_ascii c <=? N_of_ascii "9")%N.
Definition is_ascii_alpha (c : ascii) : bool := is_ascii_upper c || is_ascii_lower c.
Definition is_ascii_alnum (c : ascii) : bool := is_ascii_alpha c || is_ascii_digit c.
Definition is_ascii (c : ascii) : bool := (N_of_ascii c <? 128)%N.

(** [str.lower()] on an ASCII character. *)
Definition ascii_lower (c : ascii) : ascii :=
  if is_ascii_upper c then ascii_of_N (N_of_ascii c + 32) else c.

(** ** Strings, as the crawler's [str] operations use them *)

Fixpoint str_forall (p : ascii -> bool) (s : string) : bool :=
  match s with
  | EmptyString => true
  | String c t => p c && str_forall p t
  end.

Fixpoint str_map (f : ascii -> ascii) (s : string) : string :=
  match s with
  | EmptyString => EmptyString
  | String c t => String (f c) (str_map f t)
  end.

(** [str.lower()] *)
Definition str_lower (s : string) : string := str_map ascii_lower s.

(** [needle in hay] *)
Fixpoint str_contains (needle hay : string) : bool :=
  String.prefix needle hay ||
  match hay with
  | EmptyString => false
  | String _ t => str_contains needle t
  end.

(** [s.rstrip(chars)], the characters given as a predicate. *)
Fixpoint rstrip_by (p : ascii -> bool) (s : string) : string :=
  match s with
  | EmptyString => EmptyString
  | String c t =>
      let t' := rstrip_by p t in
      match t' with
      | EmptyString => if p c then EmptyString else String c EmptyString
      | _ => String c t'
      end
  end.

(** [s.lstrip(chars)] *)
Fixpoint lstrip_by (p : ascii -> bool) (s : string) : string :=
  match s with
  | EmptyString => EmptyString
  | String c t => if p c then lstrip_by p t else s
  end.

(** [s.strip(chars)] *)
Definition strip_by (p : ascii -> bool) (s : string) : string :=
  lstrip_by p (rstrip_by p s).

(** The characters [str.strip()] removes from an ASCII string:
    space, \t \n \v \f \r and the separators \x1c-\x1f. *)
Definition is_py_space (c : ascii) : bool :=
  let n := N_of_ascii c in
  (n =? 32)%N || ((9 <=? n)%N && (n <=? 13)%N) || ((28 <=? n)%N && (n <=? 31)%N).

(** The other whitespace of [str.strip()], as UTF-8 byte sequences:
    U+0085 and U+00A0 in two bytes, and U+1680, U+2000-U+200A, U+2028,
    U+2029, U+202F, U+205F, U+3000 in three. *)
Definition ws2 (c d : ascii) : bool :=
  (N_of_ascii c =? 194)%N && ((N_of_ascii d =? 133)%N || (N_of_ascii d =? 160)%N).

Definition ws3 (c d e : ascii) : bool :=
  let c := N_of_ascii c in let d := N_of_ascii d in let e := N_of_ascii e in
  ((c =? 225) && (d =? 154) && (e =? 128))%N ||
  ((c =? 226) && (d =? 128) &&
     (((128 <=? e) && (e <=? 138)) || (e =? 168) || (e =? 169) || (e =? 175)))%N ||
  ((c =? 226) && (d =? 129) && (e =? 159))%N ||
  ((c =? 227) && (d =? 128) && (e =? 128))%N.

(** [s.lstrip()] on the UTF-8 bytes of a [str]. *)
Fixpoint py_lstrip (s : string) : string :=
  match s with
  | EmptyString => EmptyString
  | String c t =>
      if is_py_space c then py_lstrip t
      else match t with
           | String d t2 =>
               if ws2 c d then py_lstrip t2
               else match t2 with
                    | String e t3 => if ws3 c d e then py_lstrip t3 else s
                    | EmptyString => s
                    end
           | EmptyString => s
           end
  end.

(** [s.rstrip()], on the bytes in reverse order: a whitespace character
    ends the string when its last one, two or three bytes form it. *)
Fixpoint rstrip_rev (l : list ascii) : list ascii :=
  match l with
  | [] => []
  | c :: t =>
      if is_py_space c then rstrip_rev t
      else match t with
           | d :: t2 =>
               if ws2 d c then rstrip_rev t2
               else match t2 with
                    | e :: t3 => if ws3 e d c then rstrip_rev t3 else l
                    | [] => l
                    end
           | [] => l
           end
  end.

Definition py_rstrip (s : string) : string :=
  String.string_of_list_ascii (rev (rstrip_rev (rev (String.list_ascii_of_string s)))).

(** [s.strip()] *)
Definition py_strip (s : string) : string := py_rstrip (py_lstrip s).

(** The code points of a UTF-8 string (of a Python [str]). *)
Fixpoint utf8_cps (s : string) : list N :=
  let cont (c : ascii) := (N_of_ascii c - 128)%N in
  match s with
  | EmptyString => []
  | String a t =>
      let x := N_of_ascii a in
      if (x <? 128)%N then x :: utf8_cps t
      else if (x <? 224)%N then
        match t with String b t' => ((x - 192) * 64 + cont b)%N :: utf8_cps t' | _ => [] end
      else if (x <? 240)%N then
        match t with
        | String b (String c t') => ((x - 224) * 4096 + cont b * 64 + cont c)%N :: utf8_cps t'
        | _ => []
        end
      else
        match t with
        | String b (String c (String d t')) =>
            ((x - 240) * 262144 + cont b * 4096 + cont c * 64 + cont d)%N :: utf8_cps t'
        | _ => []
        end
  end.

(** A byte of an ASCII character that [strip()] keeps. *)
Definition ascii_nonspace (c : ascii) : bool := is_ascii c && negb (is_py_space c).

(** [s.split(c)]: never empty, one more piece than occurrences of [c]. *)
Fixpoint split_on (c : ascii) (s : string) : list string :=
  match s with
  | EmptyString => [EmptyString]
  | String a t =>
      match split_on c t with
      | [] => []
      | w :: ws => if Ascii.eqb a c then EmptyString :: w :: ws
                   else String a w :: ws
      end
  end.

(** [sep.join(l)] *)
Definition str_join (sep : string) (l : list string) : string := String.concat sep l.

(** The prefix before the first character satisfying [p], and the rest
    (which starts with that character, or is empty). *)
Fixpoint break_at (p : ascii -> bool) (s : string) : string * string :=
  match s with
  | EmptyString => (EmptyString, EmptyString)
  | String c t =>
      if p c then (EmptyString, s)
      else let '(x, y) := break_at p t in (String c x, y)
  end.

Fixpoint str_drop (n : nat) (s : string) : string :=
  match n, s with
  | 0, _ => s
  | S n', String _ t => str_drop n' t
  | S _, EmptyString => EmptyString
  end.

Fixpoint str_take (n : nat) (s : string) : string :=
  match n, s with
  | 0, _ => EmptyString
  | S n', String c t => String c (str_take n' t)
  | S _, EmptyString => EmptyString
  end.

Fixpoint str_last (s : string) : option ascii :=
  match s with
  | EmptyString => None
  | String c EmptyString => Some c
  | String _ t => str_last t
  end.

(** ** Shared tactics *)

(** Turn the boolean tests of the code into propositions. *)
Ltac bool_to_prop :=
  repeat match goal with
  | H : (_ && _)%bool = true |- _ => apply andb_prop in H as [? ?]
  | H : (_ || _)%bool = false |- _ => apply orb_false_elim in H as [? ?]
  | H : negb _ = true |- _ => apply negb_true_iff in H
  | H : negb _ = false |- _ => apply negb_false_iff in H
  | H : Ascii.eqb ?a ?b = true |- _ =>
      apply Ascii.eqb_eq in H; first [is_var a; subst a | is_var b; subst b | idtac]
  end.

(** Case on the [if]s and [match]es of a definition's body, simplifying
    each branch. *)
Ltac case_code :=
  repeat (simpl in *; first
    [ match goal with |- context [match ?e with _ => _ end] =>
        let E := fresh "E" in destruct e eqn:E end
    | match goal with H : context [match ?e with _ => _ end] |- _ =>
        let E := fresh "E" in destruct e eqn:E end ]);
  simplify_eq; bool_to_prop.

(** ** Lemmas on the string operations *)

(** stdpp makes [String.append] opaque to [simpl]; its two equations. *)
Lemma str_app_cons c s t : String c s +:+ t = String c (s +:+ t).
Proof. reflexivity. Qed.

Lemma str_app_nil t : EmptyString +:+ t = t.
Proof. reflexivity. Qed.

#[export] Hint Rewrite str_app_cons str_app_nil : crawl_rw.

Ltac str_simpl := repeat progress (simpl in *; rewrite ?str_app_cons, ?str_app_nil in *).

Lemma str_forall_app p s1 s2 :
  str_forall p (s1 +:+ s2) = str_forall p s1 && str_forall p s2.
Proof. induction s1 as [|c s1 IH]; str_simpl; [done|]. by rewrite IH, andb_assoc. Qed.

Lemma str_forall_and p q s :
  str_forall (fun c => p c && q c) s = str_forall p s && str_forall q s.
Proof.
  induction s as [|c s IH]; simpl; [done|]. rewrite IH.
  destruct (p c), (q c), (str_forall p s), (str_forall q s); done.
Qed.

Lemma str_forall_impl (p q : ascii -> bool) s :
  (forall c, p c = true -> q c = true) ->
  str_forall p s = true -> str_forall q s = true.
Proof.
  intros Hpq. induction s as [|c s IH]; str_simpl; [done|].
  intros ?%andb_prop. destruct_and!. rewrite Hpq, IH; auto.
Qed.

Lemma str_forall_map (p : ascii -> bool) f s :
  str_forall p (str_map f s) = str_forall (fun c => p (f c)) s.
Proof. induction s as [|c s IH]; str_simpl; [done|]. by rewrite IH. Qed.

Lemma append_empty_r s : s +:+ EmptyString = s.
Proof. induction s as [|c s IH]; str_simpl; [done|]. by rewrite IH. Qed.

Lemma str_length_app s1 s2 :
  String.length (s1 +:+ s2) = (String.length s1 + String.length s2)%nat.
Proof. induction s1 as [|c s1 IH]; [done|]. rewrite str_app_cons. simpl. by rewrite IH. Qed.

Lemma append_assoc_str s1 s2 s3 : s1 +:+ (s2 +:+ s3) = (s1 +:+ s2) +:+ s3.
Proof. induction s1 as [|c s1 IH]; str_simpl; [done|]. by rewrite IH. Qed.

#[export] Hint Rewrite str_forall_app str_forall_map append_empty_r : crawl_rw.

(** [break_at] splits its argument, and its first part avoids [p]. *)
Lemma break_at_spec p s :
  let '(x, y) := break_at p s in
  s = x +:+ y /\ str_forall (fun c => negb (p c)) x = true /\
  match y with EmptyString => True | String c _ => p c = true end.
Proof.
  induction s as [|c t IH]; simpl; [done|].
  destruct (p c) eqn:Hc; simpl; [by rewrite Hc|].
  destruct (break_at p t) as [x y]. destruct IH as (-> & Hx & Hy).
  split; [done|]. simpl. rewrite Hc, Hx. auto.
Qed.

Lemma break_at_app_hit p x c r :
  str_forall (fun c => negb (p c)) x = true -> p c = true -> break_at p (x +:+ String c r) = (x, String c r).
Proof.
  intros Hx Hc. induction x as [|d t IH]; str_simpl; [by rewrite Hc|].
  apply andb_prop in Hx as [Hd Ht]. apply negb_true_iff in Hd. rewrite Hd, IH; done.
Qed.

Lemma break_at_none p s :
  str_forall (fun c => negb (p c)) s = true -> break_at p s = (s, EmptyString).
Proof.
  induction s as [|c t IH]; simpl; [done|].
  intros ?%andb_prop; destruct_and!. bool_to_prop.
  destruct (p c); [done|]. by rewrite IH.
Qed.

(** [rstrip_by] removes a suffix made of stripped characters, and what it
    keeps does not end with one. *)
Lemma rstrip_by_spec p s :
  exists k, s = rstrip_by p s +:+ k /\ str_forall p k = true.
Proof.
  induction s as [|c t [k [Hk Hp]]]; simpl; [by exists EmptyString|].
  destruct (rstrip_by p t) as [|d u] eqn:E; simpl in *.
  - destruct (p c) eqn:Hc.
    + exists (String c k). simpl. rewrite Hc, Hp. by subst.
    + exists k. by subst.
  - exists k. by subst.
Qed.

Lemma rstrip_by_last p s c :
  str_last (rstrip_by p s) = Some c -> p c = false.
Proof.
  induction s as [|d t IH]; simpl; [done|].
  destruct (rstrip_by p t) as [|e u] eqn:E; simpl.
  - destruct (p d) eqn:Hd; simpl; [done|]. congruence.
  - apply IH.
Qed.

Lemma rstrip_by_forall (p q : ascii -> bool) s :
  str_forall q s = true -> str_forall q (rstrip_by p s) = true.
Proof.
  destruct (rstrip_by_spec p s) as [k [Hk _]].
  rewrite Hk at 1. rewrite str_forall_app. by intros ?%andb_prop; destruct_and!.
Qed.

Lemma rstrip_by_noop p s :
  (forall c, str_last s = Some c -> p c = false) -> rstrip_by p s = s.
Proof.
  induction s as [|c t IH]; simpl; [done|]. intros Hl.
  destruct t as [|d u].
  - by rewrite (Hl c eq_refl).
  - rewrite IH by done. done.
Qed.

Lemma rstrip_by_all p s : str_forall p s = true -> rstrip_by p s = EmptyString.
Proof.
  induction s as [|c t IH]; simpl; [done|]. intros [Hc Ht]%andb_prop.
  by rewrite IH, Hc.
Qed.

(** [rstrip] removes exactly a suffix of stripped characters after a body
    that holds none. *)
Lemma rstrip_by_app_all p x y :
  str_forall (fun c => negb (p c)) x = true -> str_forall p y = true ->
  rstrip_by p (x +:+ y) = x.
Proof.
  induction x as [|c t IH]; simpl; intros Hx Hy; [by apply rstrip_by_all|].
  apply andb_prop in Hx as [Hc Ht]. rewrite IH by done.
  destruct t; [|done]. by destruct (p c).
Qed.

Lemma rstrip_by_idem p s : rstrip_by p (rstrip_by p s) = rstrip_by p s.
Proof. apply rstrip_by_noop, rstrip_by_last. Qed.

(** [needle in hay] when [needle] occurs at some position of [hay]. *)
Lemma str_contains_app_l needle x y :
  str_contains needle y = true -> str_contains needle (x +:+ y) = true.
Proof.
  induction x as [|c x IH]; simpl; [done|]. intros H. by rewrite IH, orb_true_r.
Qed.

(** [s.split(c)] and [c.join(...)] are inverse to each other. *)
Lemma split_on_cons c s : exists w ws, split_on c s = w :: ws.
Proof.
  induction s as [|a t [w [ws IH]]]; simpl; [eauto|].
  rewrite IH. destruct (Ascii.eqb a c); eauto.
Qed.

Lemma join_split_on c s : str_join (String c EmptyString) (split_on c s) = s.
Proof.
  unfold str_join. induction s as [|a t IH]; simpl; [done|].
  destruct (split_on_cons c t) as [w [ws Hs]]. rewrite Hs in IH |- *.
  destruct (Ascii.eqb a c) eqn:E; bool_to_prop.
  - rewrite <- IH. reflexivity.
  - rewrite <- IH. destruct ws; reflexivity.
Qed.

Lemma split_on_nosep c w :
  str_forall (fun d => negb (Ascii.eqb d c)) w = true -> split_on c w = [w].
Proof.
  induction w as [|a t IH]; simpl; [done|].
  intros ?%andb_prop; destruct_and!. bool_to_prop.
  rewrite IH by done. by destruct (Ascii.eqb a c).
Qed.

Lemma split_on_app_sep c w rest :
  str_forall (fun d => negb (Ascii.eqb d c)) w = true ->
  split_on c (w +:+ String c rest) = w :: split_on c rest.
Proof.
  induction w as [|a t IH]; simpl; intros Hw.
  - destruct (split_on_cons c rest) as [x [xs ->]]. by rewrite Ascii.eqb_refl.
  - apply andb_prop in Hw as [Ha Ht]. bool_to_prop. rewrite IH by done.
    by destruct (Ascii.eqb a c).
Qed.

Lemma split_on_join c l :
  l <> [] -> Forall (fun w => str_forall (fun d => negb (Ascii.eqb d c)) w = true) l ->
  split_on c (str_join (String c EmptyString) l) = l.
Proof.
  unfold str_join. induction l as [|w ws IH]; [done|]. intros _ Hall.
  inversion Hall as [|? ? Hw Hws]; subst.
  destruct ws as [|w' ws'].
  - change (String.concat (String c EmptyString) [w]) with w. by apply split_on_nosep.
  - change (String.concat (String c EmptyString) (w :: w' :: ws'))
      with (w +:+ String c EmptyString +:+ String.concat (String c EmptyString) (w' :: ws')).
    rewrite str_app_cons, str_app_nil, split_on_app_sep by done.
    f_equal. by apply IH.
Qed.

Lemma str_map_app f s1 s2 : str_map f (s1 +:+ s2) = str_map f s1 +:+ str_map f s2.
Proof. induction s1 as [|c s1 IH]; str_simpl; [done|]. by rewrite IH. Qed.

#[export] Hint Rewrite str_map_app : crawl_rw.
#[export] Hint Resolve str_forall_impl rstrip_by_forall str_contains_app_l : crawl.

(** ** Substrings keep the character properties of their string *)

(** A property of single characters holds of every character by case
    analysis on the 256 values of [ascii]. *)
Ltac ascii_cases c := destruct c as [[] [] [] [] [] [] [] []]; reflexivity.

Lemma break_at_forall p q s :
  str_forall q s = true ->
  str_forall q (fst (break_at p s)) = true /\ str_forall q (snd (break_at p s)) = true.
Proof.
  pose proof (break_at_spec p s) as Hs. destruct (break_at p s) as [x y].
  destruct Hs as (-> & _ & _). rewrite str_forall_app. intros ?%andb_prop. done.
Qed.

Lemma break_at_fst_avoid p s :
  str_forall (fun c => negb (p c)) (fst (break_at p s)) = true.
Proof.
  pose proof (break_at_spec p s) as Hs. destruct (break_at p s) as [x y]. apply Hs.
Qed.

Lemma str_drop_forall q n s : str_forall q s = true -> str_forall q (str_drop n s) = true.
Proof.
  revert s. induction n as [|n IH]; intros [|c t]; simpl; auto.
  intros ?%andb_prop. destruct_and!. auto.
Qed.

Lemma lstrip_by_forall p q s : str_forall q s = true -> str_forall q (lstrip_by p s) = true.
Proof.
  induction s as [|c t IH]; simpl; [done|]. intros H.
  destruct (p c); [|done]. apply andb_prop in H as [_ H]. auto.
Qed.

(** [rstrip] leaves a non-empty string when something is not stripped. *)
Lemma rstrip_by_empty p s : rstrip_by p s = EmptyString -> str_forall p s = true.
Proof.
  destruct (rstrip_by_spec p s) as [k [Hk Hp]]. intros He. rewrite He in Hk.
  rewrite str_app_nil in Hk. by subst.
Qed.

#[export] Hint Resolve break_at_fst_avoid str_drop_forall lstrip_by_forall : crawl.

Lemma str_take_spec q n s :
  String.length (str_take n s) = Nat.min n (String.length s) /\
  (str_forall q s = true -> str_forall q (str_take n s) = true).
Proof.
  revert s. induction n as [|n IH]; intros [|c t]; simpl; try (split; [lia|done]).
  destruct (IH t) as [Hl Hq]. split; [lia|]. intros ?%andb_prop. destruct_and!.
  rewrite Hq; [|done]. by apply andb_true_intro.
Qed.

Lemma lstrip_by_noop p s :
  match s with EmptyString => True | String c _ => p c = false end -> lstrip_by p s = s.
Proof. destruct s as [|c t]; simpl; [done|]. by intros ->. Qed.

(** [s.strip(chars)] leaves a string with no stripped character alone. *)
Lemma ascii_no_ws2 c d : is_ascii c = true -> ws2 c d = false.
Proof. unfold is_ascii, ws2. intros H%N.ltb_lt. destruct (N.eqb_spec (N_of_ascii c) 194); [lia|done]. Qed.

Lemma ascii_no_ws3 c d e : is_ascii c = true -> ws3 c d e = false.
Proof.
  unfold is_ascii, ws3. intros H%N.ltb_lt.
  destruct (N.eqb_spec (N_of_ascii c) 225), (N.eqb_spec (N_of_ascii c) 226),
    (N.eqb_spec (N_of_ascii c) 227); simpl; lia || done.
Qed.

(** [strip()] keeps a string of ASCII non-space characters. *)
Lemma py_strip_noop s : str_forall ascii_nonspace s = true -> py_strip s = s.
Proof.
  intros Hs. unfold py_strip.
  assert (Hl : py_lstrip s = s).
  { destruct s as [|c t]; [done|]. simpl in Hs. apply andb_prop in Hs as [Hc _].
    unfold ascii_nonspace in Hc. apply andb_prop in Hc as [Ha Hn%negb_true_iff].
    simpl. rewrite Hn. destruct t as [|d t2]; [done|]. rewrite ascii_no_ws2 by done.
    destruct t2; [done|]. by rewrite ascii_no_ws3. }
  rewrite Hl. clear Hl. unfold py_rstrip.
  assert (Hall : Forall (fun c => ascii_nonspace c = true) (rev (String.list_ascii_of_string s))).
  { apply Forall_rev. clear -Hs. induction s as [|c t IH]; [constructor|].
    simpl in Hs. apply andb_prop in Hs as [? ?]. constructor; auto. }
  assert (Hr : rstrip_rev (rev (String.list_ascii_of_string s)) = rev (String.list_ascii_of_string s)).
  { destruct (rev (String.list_ascii_of_string s)) as [|c t]; [done|]. inversion Hall as [|? ? Hc _]; subst.
    unfold ascii_nonspace in Hc. apply andb_prop in Hc as [Ha Hn%negb_true_iff].
    simpl. rewrite Hn. destruct t as [|d t2]; [done|]. inversion Hall as [|? ? _ Ht]; subst.
    inversion Ht as [|? ? Hd _]; subst. apply andb_prop in Hd as [Hd _].
    rewrite ascii_no_ws2 by done. destruct t2 as [|e t3]; [done|].
    inversion Ht as [|? ? _ Ht2]; subst. inversion Ht2 as [|? ? He _]; subst.
    apply andb_prop in He as [He _]. by rewrite ascii_no_ws3. }
  rewrite Hr, rev_involutive. apply String.string_of_list_ascii_of_string.
Qed.

(** The last byte of a whitespace character is not ASCII. *)
Lemma ascii_no_ws2_r c d : is_ascii d = true -> ws2 c d = false.
Proof.
  unfold is_ascii, ws2. intros H%N.ltb_lt.
  destruct (N.eqb_spec (N_of_ascii d) 133), (N.eqb_spec (N_of_ascii d) 160); try lia.
Qed.

Lemma ascii_no_ws3_r c d e : is_ascii e = true -> ws3 c d e = false.
Proof.
  unfold is_ascii, ws3. intros H%N.ltb_lt.
  assert (Hb : forall k, (128 <= k)%N -> (N_of_ascii e =? k)%N = false) by (intros; apply N.eqb_neq; lia).
  rewrite (proj2 (N.leb_gt 128 (N_of_ascii e))) by lia.
  rewrite !Hb by lia. rewrite !andb_false_r. done.
Qed.

(** [lstrip()] keeps a string that starts with an ASCII non-space, and
    [rstrip()] one that ends with one. *)
Lemma py_lstrip_keep c t : ascii_nonspace c = true -> py_lstrip (String c t) = String c t.
Proof.
  unfold ascii_nonspace. intros [Ha Hn%negb_true_iff]%andb_prop. simpl. rewrite Hn.
  destruct t as [|d t2]; [done|]. rewrite ascii_no_ws2 by done.
  destruct t2; [done|]. by rewrite ascii_no_ws3.
Qed.

Lemma rstrip_rev_keep c l : ascii_nonspace c = true -> rstrip_rev (c :: l) = c :: l.
Proof.
  unfold ascii_nonspace. intros [Ha Hn%negb_true_iff]%andb_prop. simpl. rewrite Hn.
  destruct l as [|d t2]; [done|]. rewrite ascii_no_ws2_r by done.
  destruct t2; [done|]. by rewrite ascii_no_ws3_r.
Qed.

Lemma list_ascii_of_string_app s1 s2 :
  String.list_ascii_of_string (s1 +:+ s2) = String.list_ascii_of_string s1 ++ String.list_ascii_of_string s2.
Proof. induction s1 as [|c t IH]; [by rewrite str_app_nil|rewrite str_app_cons; simpl; congruence]. Qed.

Lemma py_rstrip_keep s c : ascii_nonspace c = true -> py_rstrip (s +:+ String c EmptyString) = s +:+ String c EmptyString.
Proof.
  intros Hc. unfold py_rstrip. rewrite list_ascii_of_string_app, rev_app_distr. cbn [String.list_ascii_of_string rev app].
  rewrite rstrip_rev_keep by done.
  change (c :: rev (String.list_ascii_of_string s)) with (rev [c] ++ rev (String.list_ascii_of_string s)).
  rewrite <- rev_app_distr, rev_involutive.
  change [c] with (String.list_ascii_of_string (String c EmptyString)).
  rewrite <- list_ascii_of_string_app. apply String.string_of_list_ascii_of_string.
Qed.

Lemma py_rstrip_keep_tail s d :
  d <> EmptyString -> str_forall ascii_nonspace d = true -> py_rstrip (s +:+ d) = s +:+ d.
Proof.
  revert s. induction d as [|c t IH]; intros s Hd Hf; [done|]. simpl in Hf. apply andb_prop in Hf as [Hc Ht].
  destruct t as [|c' t'].
  - by apply py_rstrip_keep.
  - replace (s +:+ String c (String c' t')) with ((s +:+ String c EmptyString) +:+ String c' t')
      by (rewrite <- append_assoc_str; done).
    by apply IH.
Qed.

(** [strip()] keeps a string that starts with an ASCII non-space and
    ends with a run of them. *)
Lemma py_strip_keep c m d :
  ascii_nonspace c = true -> d <> EmptyString -> str_forall ascii_nonspace d = true ->
  py_strip (String c (m +:+ d)) = String c (m +:+ d).
Proof.
  intros Hc Hd Hf. unfold py_strip. rewrite py_lstrip_keep by done.
  rewrite <- str_app_cons. by apply py_rstrip_keep_tail.
Qed.

(** A leading space is stripped. *)
Lemma py_strip_space s : py_strip (String " " s) = py_strip s.
Proof. reflexivity. Qed.

Lemma strip_by_noop p s : str_forall (fun c => negb (p c)) s = true -> strip_by p s = s.
Proof.
  intros Hs. unfold strip_by. rewrite rstrip_by_noop.
  - apply lstrip_by_noop. destruct s as [|c t]; [done|]. simpl in Hs.
    apply andb_prop in Hs as [Hc _]. by apply negb_true_iff.
  - intros c Hl. clear - Hs Hl. induction s as [|d t IH]; [done|].
    simpl in Hs, Hl. apply andb_prop in Hs as [Hd Ht].
    destruct t as [|e u]; [injection Hl as <-; by apply negb_true_iff|]. auto.
Qed.
