(* ===== verification/Sha256.v ===== *)
(** * SHA-256, as [hashlib.sha256(data).hexdigest()] computes it

    [encode_name] (crawler-updated12.py, lines 27-29, and the same line in
    rebuild_mapping.py) names a page by the first 16 hex digits of the
    SHA-256 digest of its canonical URL's UTF-8 bytes.  This file follows
    FIPS 180-4: bytes are [Z] values in [0, 256), message words are 32-bit
    [Z] values whose sums wrap modulo [2^32] ([add32]), and the message is
    padded with [0x80], zeros and its 64-bit bit length.  The blocks are
    consumed by a byte-at-a-time buffer ([absorb]) so that every function
    is structurally recursive and computes under [vm_compute]; the
    theorems give the digest's width and its hex form. *)

From S2P Require Import Prelude.

Local Open Scope Z_scope.

(** ** 32-bit words *)

Definition mask32 : Z := 2 ^ 32 - 1.

Definition add32 (a b : Z) : Z := Z.land (a + b) mask32.

Definition rotr (x : Z) (n : Z) : Z :=
  Z.land (Z.lor (Z.shiftr x n) (Z.shiftl x (32 - n))) mask32.

Definition shr (x : Z) (n : Z) : Z := Z.shiftr x n.

Definition not32 (x : Z) : Z := Z.lxor x mask32.

Definition Ch (x y z : Z) : Z := Z.lxor (Z.land x y) (Z.land (not32 x) z).
Definition Maj (x y z : Z) : Z :=
  Z.lxor (Z.lxor (Z.land x y) (Z.land x z)) (Z.land y z).
Definition Sigma0 (x : Z) : Z := Z.lxor (Z.lxor (rotr x 2) (rotr x 13)) (rotr x 22).
Definition Sigma1 (x : Z) : Z := Z.lxor (Z.lxor (rotr x 6) (rotr x 11)) (rotr x 25).
Definition sigma0 (x : Z) : Z := Z.lxor (Z.lxor (rotr x 7) (rotr x 18)) (shr x 3).
Definition sigma1 (x : Z) : Z := Z.lxor (Z.lxor (rotr x 17) (rotr x 19)) (shr x 10).

(** The constants of FIPS 180-4, sections 4.2.2 and 5.3.3: the first 32
    bits of the fractional parts of the cube roots of the first 64 primes,
    and of the square roots of the first 8 primes, computed from that
    definition (the test vectors below check them). *)
Definition is_prime (n : nat) : bool :=
  (2 <=? n)%nat && forallb (fun d => negb (n mod d =? 0)%nat) (seq 2 (n - 2)).

Definition first_primes (k : nat) : list Z := map Z.of_nat (firstn k (filter is_prime (seq 2 400))).

(** [lo <= root < hi] narrowed by bisection. *)
Fixpoint root_bisect (k x : Z) (n : nat) (lo hi : Z) : Z :=
  match n with
  | O => lo
  | S n' => let mid := (lo + hi) / 2 in
            if mid ^ k <=? x then root_bisect k x n' mid hi else root_bisect k x n' lo mid
  end.

(** [floor(x ** (1/k))] *)
Definition iroot (k x : Z) : Z := root_bisect k x 128 0 (x + 1).

(** The first 32 bits of the fractional part of the [k]-th root of [p]. *)
Definition frac_bits (k p : Z) : Z := Z.land (iroot k (p * 2 ^ (32 * k))) mask32.

Definition K256 : list Z := Eval vm_compute in map (frac_bits 3) (first_primes 64).

Definition H256_init : list Z := Eval vm_compute in map (frac_bits 2) (first_primes 8).

(** ** Message schedule and compression of one 64-byte block *)

(** Big-endian words of a block. *)
Fixpoint be_words (bs : list Z) : list Z :=
  match bs with
  | b0 :: b1 :: b2 :: b3 :: rest =>
      (b0 * 2 ^ 24 + b1 * 2 ^ 16 + b2 * 2 ^ 8 + b3) :: be_words rest
  | _ => []
  end.

(** W[t] = sigma1(W[t-2]) + W[t-7] + sigma0(W[t-15]) + W[t-16], for the
    48 words after the first 16; [w] holds the words so far, newest first. *)
Fixpoint schedule_ext (n : nat) (w : list Z) : list Z :=
  match n with
  | O => w
  | S n' =>
      let t2 := nth 1 w 0 in let t7 := nth 6 w 0 in
      let t15 := nth 14 w 0 in let t16 := nth 15 w 0 in
      schedule_ext n' (add32 (add32 (sigma1 t2) t7) (add32 (sigma0 t15) t16) :: w)
  end.

Definition schedule (block : list Z) : list Z :=
  rev (schedule_ext 48 (rev (be_words block))).

Record hstate := HS { ha : Z; hb : Z; hc : Z; hd : Z; he : Z; hf : Z; hg : Z; hh : Z }.

Definition round (s : hstate) (kw : Z * Z) : hstate :=
  let '(k, w) := kw in
  let t1 := add32 (add32 (add32 (add32 (hh s) (Sigma1 (he s))) (Ch (he s) (hf s) (hg s))) k) w in
  let t2 := add32 (Sigma0 (ha s)) (Maj (ha s) (hb s) (hc s)) in
  HS (add32 t1 t2) (ha s) (hb s) (hc s) (add32 (hd s) t1) (he s) (hf s) (hg s).

Definition hstate_of (h : list Z) : hstate :=
  HS (nth 0 h 0) (nth 1 h 0) (nth 2 h 0) (nth 3 h 0)
     (nth 4 h 0) (nth 5 h 0) (nth 6 h 0) (nth 7 h 0).

Definition hstate_words (s : hstate) : list Z :=
  [ha s; hb s; hc s; hd s; he s; hf s; hg s; hh s].

Definition compress (h : list Z) (block : list Z) : list Z :=
  let s := fold_left round (combine K256 (schedule block)) (hstate_of h) in
  zip_with add32 h (hstate_words s).

(** ** Padding and the byte-at-a-time absorption *)

Definition be64 (n : Z) : list Z :=
  map (fun i => Z.land (Z.shiftr n (8 * (7 - Z.of_nat i))) 255) (seq 0 8).

Definition pad (msg : list Z) : list Z :=
  let len := Z.of_nat (length msg) in
  let zeros := Z.to_nat ((55 - len) mod 64) in
  msg ++ [0x80] ++ repeat 0 zeros ++ be64 (8 * len).

(** The chaining value and the bytes of the block being filled. *)
Definition absorb (st : list Z * list Z) (b : Z) : list Z * list Z :=
  let '(h, buf) := st in
  let buf' := buf ++ [b] in
  if (length buf' =? 64)%nat then (compress h buf', []) else (h, buf').

Definition sha256 (msg : list Z) : list Z :=
  fst (fold_left absorb (pad msg) (H256_init, [])).

(** ** Hex digest *)

Definition hex_digit (n : Z) : ascii :=
  if n <? 10 then ascii_of_N (Z.to_N (48 + n)) else ascii_of_N (Z.to_N (87 + n)).

Fixpoint hex_word_go (k : nat) (w : Z) (acc : string) : string :=
  match k with
  | O => acc
  | S k' => hex_word_go k' (Z.shiftr w 4) (String (hex_digit (Z.land w 15)) acc)
  end.

(** [format(w, '08x')] *)
Definition hex_word (w : Z) : string := hex_word_go 8 w EmptyString.

Definition hexdigest (ws : list Z) : string :=
  fold_right (fun w acc => hex_word w +:+ acc) EmptyString ws.

(** [s.encode('utf-8')], for a string held as its UTF-8 bytes. *)
Definition utf8_bytes (s : string) : list Z :=
  map (fun c => Z.of_N (N_of_ascii c)) (String.list_ascii_of_string s).

Definition sha256_hexdigest (s : string) : string := hexdigest (sha256 (utf8_bytes s)).

(** ** Width of the digest *)

Definition is_hex_lower (c : ascii) : bool :=
  is_ascii_digit c || ((N_of_ascii "a" <=? N_of_ascii c)%N && (N_of_ascii c <=? N_of_ascii "f")%N).

Lemma add32_range a b : 0 <= add32 a b < 2 ^ 32.
Proof.
  unfold add32, mask32. change (2 ^ 32 - 1) with (Z.ones 32).
  rewrite Z.land_ones by lia. apply Z.mod_pos_bound. lia.
Qed.

Lemma zip_with_add32_length h ws :
  length ws = 8%nat -> length h = 8%nat -> length (zip_with add32 h ws) = 8%nat.
Proof. intros Hw Hh. rewrite length_zip_with. lia. Qed.

Lemma zip_with_add32_range h ws :
  Forall (fun w => 0 <= w < 2 ^ 32) (zip_with add32 h ws).
Proof.
  revert ws. induction h as [|x h IH]; intros [|w ws]; simpl; constructor; auto.
  apply add32_range.
Qed.

Lemma compress_length h b : length h = 8%nat -> length (compress h b) = 8%nat.
Proof. intros Hh. unfold compress. apply zip_with_add32_length; [reflexivity|done]. Qed.

Lemma absorb_invariant st b :
  length (fst st) = 8%nat /\ Forall (fun w => 0 <= w < 2 ^ 32) (fst st) ->
  length (fst (absorb st b)) = 8%nat /\ Forall (fun w => 0 <= w < 2 ^ 32) (fst (absorb st b)).
Proof.
  destruct st as [h buf]. unfold absorb. intros [Hl Hr].
  destruct (length (buf ++ [b]) =? 64)%nat; cbn [fst]; [|done].
  split; [by apply compress_length | apply zip_with_add32_range].
Qed.

Lemma fold_absorb_invariant bs st :
  length (fst st) = 8%nat /\ Forall (fun w => 0 <= w < 2 ^ 32) (fst st) ->
  length (fst (fold_left absorb bs st)) = 8%nat /\
  Forall (fun w => 0 <= w < 2 ^ 32) (fst (fold_left absorb bs st)).
Proof.
  revert st. induction bs as [|b bs IH]; intros st H; cbn [fold_left]; [done|].
  apply IH, absorb_invariant, H.
Qed.

(** The digest is eight 32-bit words. *)
Lemma sha256_words msg :
  length (sha256 msg) = 8%nat /\ Forall (fun w => 0 <= w < 2 ^ 32) (sha256 msg).
Proof.
  apply fold_absorb_invariant. split; [done|].
  repeat constructor; vm_compute; congruence.
Qed.

Lemma hex_digit_hex n : 0 <= n < 16 -> is_hex_lower (hex_digit n) = true.
Proof.
  intros Hn.
  assert (H : forallb (fun k => is_hex_lower (hex_digit k)) (map Z.of_nat (seq 0 16)) = true)
    by reflexivity.
  rewrite forallb_forall in H. apply H, in_map_iff. exists (Z.to_nat n).
  split; [lia|apply in_seq; lia].
Qed.

Lemma hex_word_go_spec k w acc :
  String.length (hex_word_go k w acc) = (k + String.length acc)%nat /\
  (str_forall is_hex_lower acc = true -> str_forall is_hex_lower (hex_word_go k w acc) = true).
Proof.
  revert w acc. induction k as [|k IH]; intros w acc; cbn [hex_word_go]; [done|].
  destruct (IH (Z.shiftr w 4) (String (hex_digit (Z.land w 15)) acc)) as [Hl Hh].
  split; [rewrite Hl; cbn [String.length]; lia|]. intros Hacc. apply Hh.
  cbn [str_forall]. rewrite Hacc, hex_digit_hex; [done|].
  change 15 with (Z.ones 4). rewrite Z.land_ones by lia. apply Z.mod_pos_bound; lia.
Qed.

Lemma hexdigest_spec ws :
  String.length (hexdigest ws) = (8 * length ws)%nat /\
  str_forall is_hex_lower (hexdigest ws) = true.
Proof.
  induction ws as [|w ws [IHl IHh]]; [done|].
  change (hexdigest (w :: ws)) with (hex_word w +:+ hexdigest ws).
  destruct (hex_word_go_spec 8 w EmptyString) as [Hl Hh].
  unfold hex_word. rewrite str_length_app, str_forall_app, Hl, IHl, IHh, Hh by done.
  cbn [String.length length]. split; [lia|done].
Qed.

(** [hexdigest()] is 64 lowercase hex digits. *)
Lemma sha256_hexdigest_shape s :
  String.length (sha256_hexdigest s) = 64%nat /\
  str_forall is_hex_lower (sha256_hexdigest s) = true.
Proof.
  unfold sha256_hexdigest. destruct (hexdigest_spec (sha256 (utf8_bytes s))) as [Hl Hh].
  rewrite Hl, (proj1 (sha256_words _)). auto.
Qed.

(** The FIPS 180-4 test vectors. *)
Example sha256_abc :
  sha256_hexdigest "abc" = "ba7816bf8f01cfea414140de5dae2223b00361a396177a9cb410ff61f20015ad".
Proof. vm_compute. reflexivity. Qed.

Example sha256_empty :
  sha256_hexdigest "" = "e3b0c44298fc1c149afbf4c8996fb92427ae41e4649b934ca495991b7852b855".
Proof. vm_compute. reflexivity. Qed.

Example sha256_two_blocks :
  sha256_hexdigest "abcdbcdecdefdefgefghfghighijhijkijkljklmklmnlmnomnopnopq" =
  "248d6a61d20638b8e5c026930c3e6039a33ce45964ff2167f6ecedd419db06c1".
Proof. vm_compute. reflexivity. Qed.
