(* ===== verification/Url.v ===== *)
(** * The Canonicalizer: lines 54-61 of crawler-updated12.py

    The crawler turns a raw URL into its canonical string in three steps:
    [requests.utils.requote_uri] (percent-encode what is unsafe, after
    decoding the escapes of unreserved characters), [urllib.parse.urlparse]
    (Python 3.12: split off scheme, netloc, query, fragment and the
    [;params] of the last path segment), and
    [f"{scheme}://{netloc}{path}".rstrip('/')].  A canonical string that is
    empty or whose lower-case form contains [signin] or [login] is dropped.

    Strings are the UTF-8 bytes of the Python [str] (so [quote], which
    works on those bytes, is exact).  Where the library raises, the model
    returns [None]: [urlsplit] raises [ValueError] on an unbalanced [\[]
    or [\]] in the netloc, and the crawler does not catch it.  Two library
    details are not modelled: the IPv6-literal validation of a netloc that
    holds both brackets (accepted here); the non-ASCII cases of
    [unquote_unreserved], which tests the two code points after a [%]
    with [str.isalnum] and [int(h, 16)] (both accept non-ASCII letters or
    digits, and a non-ASCII letter there makes [requote_uri] fall back to
    quoting every [%]) where the model tests bytes, never alphanumeric
    above 0x7F, and so keeps the [%]; and the NFKC check of
    [_checknetloc], which [urlparse] of line 57 never meets (its input is
    the quoted, ASCII URL) but [urljoin] of line 117 can, on a raw [href]
    with a non-ASCII netloc. *)

From S2P Require Import Prelude.

(** ** [requests.utils.requote_uri] *)

(** [UNRESERVED_SET] of requests, equal to [_ALWAYS_SAFE] of urllib. *)
Definition is_unreserved (c : ascii) : bool := is_ascii_alnum c || char_in c "-._~".

Definition hex_upper (n : N) : ascii :=
  if (n <? 10)%N then ascii_of_N (48 + n) else ascii_of_N (55 + n).

(** ['%{:02X}'.format(b)] *)
Definition pct_encode (c : ascii) : string :=
  String "%" (String (hex_upper (N_of_ascii c / 16)) (String (hex_upper (N_of_ascii c mod 16)) EmptyString)).

(** [urllib.parse.quote(string, safe)] on the bytes of [string]. *)
Fixpoint quote (safe : string) (s : string) : string :=
  match s with
  | EmptyString => EmptyString
  | String c t =>
      (if is_unreserved c || char_in c safe then String c EmptyString else pct_encode c)
        +:+ quote safe t
  end.

(** [int(h, 16)] on one character. *)
Definition hex_value (c : ascii) : option N :=
  let n := N_of_ascii c in
  if is_ascii_digit c then Some (n - 48)%N
  else if ((97 <=? n) && (n <=? 102))%N then Some (n - 87)%N
  else if ((65 <=? n) && (n <=? 70))%N then Some (n - 55)%N
  else None.

(** One piece after a [%] of [uri.split("%")]; [None] is [InvalidURL]. *)
Definition unquote_part (part : string) : option string :=
  match part with
  | String h1 (String h2 rest) =>
      if is_ascii_alnum h1 && is_ascii_alnum h2 then
        match hex_value h1, hex_value h2 with
        | Some a, Some b =>
            let c := ascii_of_N (16 * a + b) in
            if is_unreserved c then Some (String c rest) else Some (String "%" part)
        | _, _ => None
        end
      else Some (String "%" part)
  | _ => Some (String "%" part)
  end.

Fixpoint unquote_parts (parts : list string) : option string :=
  match parts with
  | [] => Some EmptyString
  | p :: ps =>
      match unquote_part p, unquote_parts ps with
      | Some q, Some r => Some (q +:+ r)
      | _, _ => None
      end
  end.

Definition unquote_unreserved (uri : string) : option string :=
  match split_on "%" uri with
  | [] => Some uri
  | p0 :: ps => match unquote_parts ps with
                | Some r => Some (p0 +:+ r)
                | None => None
                end
  end.

Definition safe_with_percent : string := "!#$%&'()*+,/:;=?@[]~".
Definition safe_without_percent : string := "!#$&'()*+,/:;=?@[]~".

Definition requote_uri (uri : string) : string :=
  match unquote_unreserved uri with
  | Some u => quote safe_with_percent u
  | None => quote safe_without_percent uri
  end.

(** ** [urllib.parse.urlsplit] and [urlparse] (Python 3.12) *)

Record split_result := SplitResult {
  sr_scheme : string; sr_netloc : string; sr_path : string;
  sr_query : string; sr_fragment : string }.

Record parse_result := ParseResult {
  pr_scheme : string; pr_netloc : string; pr_path : string;
  pr_params : string; pr_query : string; pr_fragment : string }.

Definition is_scheme_char (c : ascii) : bool := is_ascii_alnum c || char_in c "+-.".

(** [_WHATWG_C0_CONTROL_OR_SPACE] and [_UNSAFE_URL_BYTES_TO_REMOVE]. *)
Definition is_c0_or_space (c : ascii) : bool := (N_of_ascii c <=? 32)%N.
Definition is_unsafe_url_byte (c : ascii) : bool := char_in c (String "009" (String "013" (String "010" EmptyString))).

Fixpoint remove_chars (p : ascii -> bool) (s : string) : string :=
  match s with
  | EmptyString => EmptyString
  | String c t => if p c then remove_chars p t else String c (remove_chars p t)
  end.

Fixpoint str_has (c : ascii) (s : string) : bool :=
  match s with
  | EmptyString => false
  | String d t => Ascii.eqb c d || str_has c t
  end.

(** [s.split(c, 1)] when [c in s], and [(s, '')] otherwise. *)
Definition split_once (c : ascii) (s : string) : string * string :=
  match break_at (Ascii.eqb c) s with
  | (x, String _ r) => (x, r)
  | (_, EmptyString) => (s, EmptyString)
  end.

(** [i = url.find(':')]; a scheme when [i > 0], [url[0]] is an ASCII letter
    and every character before [i] is a scheme character. *)
Definition split_scheme (url : string) : string * string :=
  match break_at (Ascii.eqb ":") url with
  | (String c0 t as pre, String _ rest) =>
      if is_ascii_alpha c0 && str_forall is_scheme_char pre
      then (str_lower pre, rest) else (EmptyString, url)
  | _ => (EmptyString, url)
  end.

(** The bracket test of [urlsplit]: [ValueError("Invalid IPv6 URL")]. *)
Definition bad_brackets (netloc : string) : bool :=
  (str_has "[" netloc && negb (str_has "]" netloc)) ||
  (str_has "]" netloc && negb (str_has "[" netloc)).

(** The [scheme] argument of [urlsplit] is used when the URL has none. *)
Definition pick_scheme (default_scheme : string) (r : string * string) : string * string :=
  match r with
  | (EmptyString, u) => (default_scheme, u)
  | _ => r
  end.

Definition urlsplit_with (default_scheme : string) (url0 : string) : option split_result :=
  let url1 := remove_chars is_unsafe_url_byte (lstrip_by is_c0_or_space url0) in
  let '(scheme, url2) := pick_scheme default_scheme (split_scheme url1) in
  let '(netloc, url3) :=
    if String.prefix "//" url2
    then break_at (fun c => char_in c "/?#") (str_drop 2 url2)
    else (EmptyString, url2) in
  if bad_brackets netloc then None
  else
    let '(url4, fragment) := split_once "#" url3 in
    let '(url5, query) := split_once "?" url4 in
    Some (SplitResult scheme netloc url5 query fragment).

Definition urlsplit (url : string) : option split_result := urlsplit_with EmptyString url.

Definition uses_params : list string :=
  [""; "ftp"; "hdl"; "prospero"; "http"; "imap"; "https"; "shttp"; "rtsp";
   "rtsps"; "rtspu"; "sip"; "sips"; "mms"; "sftp"; "tel"].

(** The directory part (up to and including the last [/]) and the last
    segment of a path. *)
Fixpoint last_segment_split (s : string) : string * string :=
  match s with
  | EmptyString => (EmptyString, EmptyString)
  | String c t =>
      match last_segment_split t with
      | (EmptyString, l) =>
          if Ascii.eqb c "/" then (String c EmptyString, l) else (EmptyString, String c l)
      | (d, l) => (String c d, l)
      end
  end.

(** [_splitparams]: the [;] searched from the last [/] (or from the start
    when there is none). *)
Definition splitparams (url : string) : string * string :=
  let '(dir, last) := last_segment_split url in
  let '(seg, params) := split_once ";" last in
  (dir +:+ seg, params).

Definition urlparse_with (default_scheme : string) (url : string) : option parse_result :=
  match urlsplit_with default_scheme url with
  | None => None
  | Some r =>
      let '(path, params) :=
        if bool_decide (sr_scheme r ∈ uses_params) && str_has ";" (sr_path r)
        then splitparams (sr_path r) else (sr_path r, EmptyString) in
      Some (ParseResult (sr_scheme r) (sr_netloc r) path params (sr_query r) (sr_fragment r))
  end.

Definition urlparse (url : string) : option parse_result := urlparse_with EmptyString url.

(** ** [urllib.parse.urljoin] (line 117) *)

Definition uses_relative : list string :=
  [""; "ftp"; "http"; "gopher"; "nntp"; "imap"; "wais"; "file"; "https"; "shttp"; "mms";
   "prospero"; "rtsp"; "rtsps"; "rtspu"; "sftp"; "svn"; "svn+ssh"; "ws"; "wss"].

Definition uses_netloc : list string :=
  [""; "ftp"; "http"; "gopher"; "nntp"; "telnet"; "imap"; "wais"; "file"; "mms"; "https";
   "shttp"; "snews"; "prospero"; "rtsp"; "rtsps"; "rtspu"; "rsync"; "svn"; "svn+ssh"; "sftp";
   "nfs"; "git"; "git+ssh"; "ws"; "wss"; "itms-services"].

Definition is_empty (s : string) : bool := String.eqb s EmptyString.

Definition urlunsplit (scheme netloc url query fragment : string) : string :=
  let url :=
    if negb (is_empty netloc) ||
       (negb (is_empty scheme) && bool_decide (scheme ∈ uses_netloc) &&
        negb (String.eqb (str_take 2 url) "//"))
    then let url := if negb (is_empty url) && negb (String.prefix "/" url)
                    then "/" +:+ url else url in
         "//" +:+ netloc +:+ url
    else url in
  let url := if is_empty scheme then url else scheme +:+ ":" +:+ url in
  let url := if is_empty query then url else url +:+ "?" +:+ query in
  if is_empty fragment then url else url +:+ "#" +:+ fragment.

Definition urlunparse (scheme netloc url params query fragment : string) : string :=
  let url := if is_empty params then url else url +:+ ";" +:+ params in
  urlunsplit scheme netloc url query fragment.

(** The [..] and [.] resolution loop of [urljoin]. *)
Fixpoint resolve_segments (segs : list string) (acc : list string) : list string :=
  match segs with
  | [] => rev acc
  | seg :: rest =>
      if String.eqb seg ".." then resolve_segments rest (tail acc)
      else if String.eqb seg "." then resolve_segments rest acc
      else resolve_segments rest (seg :: acc)
  end.

Definition last_or (d : string) (l : list string) : string := default d (last l).

(** [base_parts]: the base path's segments, without its last one when
    that is not empty. *)
Definition base_dir_parts (bpath : string) : list string :=
  let parts := split_on "/" bpath in
  if is_empty (last_or EmptyString parts) then parts else removelast parts.

(** [segments[1:-1] = filter(None, segments[1:-1])] *)
Definition drop_inner_empty (segs : list string) : list string :=
  match segs with
  | [] => []
  | [s] => [s]
  | s0 :: rest =>
      s0 :: filter (fun s => negb (is_empty s)) (removelast rest) ++ [last_or EmptyString rest]
  end.

Definition urljoin (base url : string) : option string :=
  if is_empty base then Some url else
  if is_empty url then Some base else
  match urlparse_with EmptyString base with
  | None => None
  | Some b =>
  match urlparse_with (pr_scheme b) url with
  | None => None
  | Some u =>
    let scheme := pr_scheme u in
    if negb (String.eqb scheme (pr_scheme b)) || negb (bool_decide (scheme ∈ uses_relative))
    then Some url
    else if bool_decide (scheme ∈ uses_netloc) && negb (is_empty (pr_netloc u))
    then Some (urlunparse scheme (pr_netloc u) (pr_path u) (pr_params u) (pr_query u) (pr_fragment u))
    else
      let netloc := if bool_decide (scheme ∈ uses_netloc) then pr_netloc b else pr_netloc u in
      if is_empty (pr_path u) && is_empty (pr_params u) then
        let query := if is_empty (pr_query u) then pr_query b else pr_query u in
        Some (urlunparse scheme netloc (pr_path b) (pr_params b) query (pr_fragment u))
      else
        let segments :=
          if String.prefix "/" (pr_path u) then split_on "/" (pr_path u)
          else drop_inner_empty (base_dir_parts (pr_path b) ++ split_on "/" (pr_path u)) in
        let resolved := resolve_segments segments [] in
        let resolved :=
          if bool_decide (last_or EmptyString segments ∈ ["."; ".."]) then resolved ++ [EmptyString]
          else resolved in
        let path := str_join "/" resolved in
        let path := if is_empty path then "/" else path in
        Some (urlunparse scheme netloc path (pr_params u) (pr_query u) (pr_fragment u))
  end
  end.

(** ** The canonical form and the exclusion filter (lines 56-61) *)

Definition is_slash (c : ascii) : bool := Ascii.eqb c "/".

(** [f"{parsed.scheme}://{parsed.netloc}{parsed.path}".rstrip('/')] of
    [urlparse(requote_uri(raw_url))]; [None] when [urlparse] raises. *)
Definition canonicalize (raw_url : string) : option string :=
  match urlparse (requote_uri raw_url) with
  | None => None
  | Some p => Some (rstrip_by is_slash (pr_scheme p +:+ "://" +:+ pr_netloc p +:+ pr_path p))
  end.

(** [not canonical or any(x in canonical.lower() for x in ['signin', 'login'])] *)
Definition skip_canonical (canonical : string) : bool :=
  String.eqb canonical EmptyString ||
  existsb (fun x => str_contains x (str_lower canonical)) ["signin"; "login"].

(** ** Lemmas: every part [urlparse] returns is made of characters of its input *)

Lemma remove_chars_forall p q s : str_forall q s = true -> str_forall q (remove_chars p s) = true.
Proof.
  induction s as [|c t IH]; simpl; [done|]. intros ?%andb_prop; destruct_and!.
  destruct (p c); simpl; rewrite ?IH; auto with bool.
Qed.

Lemma split_once_forall c q s :
  str_forall q s = true ->
  str_forall q (fst (split_once c s)) = true /\ str_forall q (snd (split_once c s)) = true.
Proof.
  intros Hs. unfold split_once.
  destruct (break_at_forall (Ascii.eqb c) q s Hs) as [Hx Hy].
  destruct (break_at (Ascii.eqb c) s) as [x [|d r]]; simpl in *; [done|].
  apply andb_prop in Hy as [_ Hr]. done.
Qed.

Lemma split_once_fst_avoid c s :
  str_forall (fun d => negb (Ascii.eqb c d)) (fst (split_once c s)) = true.
Proof.
  unfold split_once. pose proof (break_at_spec (Ascii.eqb c) s) as Hs.
  destruct (break_at (Ascii.eqb c) s) as [x [|d r]]; destruct Hs as (Heq & Hx & _); simpl.
  - rewrite Heq, append_empty_r. done.
  - done.
Qed.

Lemma last_segment_split_app s :
  s = fst (last_segment_split s) +:+ snd (last_segment_split s).
Proof.
  induction s as [|c t IH]; [done|]. simpl.
  destruct (last_segment_split t) as [[|d ds] l]; simpl in *.
  - destruct (Ascii.eqb c "/"); simpl; by rewrite IH.
  - by rewrite IH.
Qed.

Lemma splitparams_forall q s :
  str_forall q s = true -> str_forall q (fst (splitparams s)) = true.
Proof.
  intros Hs. unfold splitparams. rewrite (last_segment_split_app s) in Hs.
  destruct (last_segment_split s) as [d l]. simpl in Hs.
  rewrite str_forall_app in Hs. apply andb_prop in Hs as [Hd Hl].
  destruct (split_once_forall ";" q l Hl) as [H1 _].
  destruct (split_once ";" l) as [seg params]. simpl in *.
  by rewrite str_forall_app, Hd, H1.
Qed.

Lemma split_scheme_rest_forall q url :
  str_forall q url = true -> str_forall q (snd (split_scheme url)) = true.
Proof.
  intros Hu. unfold split_scheme.
  destruct (break_at_forall (Ascii.eqb ":") q url Hu) as [_ Hy].
  destruct (break_at (Ascii.eqb ":") url) as [[|c0 t] [|d rest]]; simpl in *; try done.
  destruct (is_ascii_alpha c0 && _); simpl; [|done].
  by apply andb_prop in Hy as [_ ?].
Qed.

Lemma ascii_lower_scheme_char c :
  is_scheme_char c = true -> is_scheme_char (ascii_lower c) = true.
Proof.
  enough (implb (is_scheme_char c) (is_scheme_char (ascii_lower c)) = true) as H.
  { intros Hc. by rewrite Hc in H. }
  ascii_cases c.
Qed.

Lemma split_scheme_scheme url : str_forall is_scheme_char (fst (split_scheme url)) = true.
Proof.
  unfold split_scheme.
  destruct (break_at (Ascii.eqb ":") url) as [[|c0 t] [|d rest]]; simpl; try done.
  destruct (is_ascii_alpha c0 && (is_scheme_char c0 && str_forall is_scheme_char t)) eqn:E;
    simpl; [|done].
  bool_to_prop. unfold str_lower. rewrite str_forall_map. cbn [str_forall].
  rewrite ascii_lower_scheme_char by done.
  eapply str_forall_impl; [apply ascii_lower_scheme_char|done].
Qed.

(** What a successful [urlsplit] returns: a scheme of scheme characters,
    a netloc without [/ ? #], and a path without [?] or [#], the netloc
    and the path made of characters of the input. *)
Lemma pick_scheme_spec d r :
  str_forall is_scheme_char d = true -> str_forall is_scheme_char (fst r) = true ->
  str_forall is_scheme_char (fst (pick_scheme d r)) = true /\ snd (pick_scheme d r) = snd r.
Proof. destruct r as [[|c s] u]; simpl; split; auto. Qed.

Lemma urlsplit_parts q d url r :
  str_forall is_scheme_char d = true ->
  urlsplit_with d url = Some r ->
  str_forall q url = true ->
  str_forall is_scheme_char (sr_scheme r) = true /\
  str_forall (fun c => negb (char_in c "/?#")) (sr_netloc r) = true /\
  str_forall q (sr_netloc r) = true /\
  str_forall (fun c => negb (Ascii.eqb "#" c) && negb (Ascii.eqb "?" c)) (sr_path r) = true /\
  str_forall q (sr_path r) = true.
Proof.
  unfold urlsplit_with. intros Hd Hr Hq.
  set (url1 := remove_chars is_unsafe_url_byte (lstrip_by is_c0_or_space url)) in Hr.
  assert (Hq1 : str_forall q url1 = true) by (apply remove_chars_forall, lstrip_by_forall, Hq).
  pose proof (split_scheme_rest_forall _ _ Hq1) as Hq2.
  destruct (pick_scheme_spec d (split_scheme url1) Hd (split_scheme_scheme url1)) as [Hsch Hsnd].
  rewrite <- Hsnd in Hq2.
  destruct (pick_scheme d (split_scheme url1)) as [scheme url2]. simpl in Hsch, Hq2.
  assert (Hnet : let '(n, u3) := (if String.prefix "//" url2
        then break_at (fun c => char_in c "/?#") (str_drop 2 url2) else (EmptyString, url2)) in
      str_forall (fun c => negb (char_in c "/?#")) n = true /\ str_forall q n = true /\
      str_forall q u3 = true).
  { destruct (String.prefix "//" url2).
    - pose proof (break_at_fst_avoid (fun c => char_in c "/?#") (str_drop 2 url2)).
      destruct (break_at_forall (fun c => char_in c "/?#") q _ (str_drop_forall q 2 _ Hq2)).
      destruct (break_at _ _). auto.
    - auto. }
  destruct (if String.prefix "//" url2 then _ else _) as [netloc url3].
  destruct Hnet as (Hn1 & Hn2 & Hu3).
  destruct (bad_brackets netloc); [done|].
  pose proof (split_once_fst_avoid "#" url3) as Hf.
  destruct (split_once_forall "#" q url3 Hu3) as [Hu4 _].
  destruct (split_once "#" url3) as [url4 fragment]. simpl in Hf, Hu4.
  pose proof (split_once_fst_avoid "?" url4) as Hg.
  destruct (split_once_forall "?" q url4 Hu4) as [Hu5 _].
  destruct (split_once_forall "?" _ url4 Hf) as [Hf5 _].
  destruct (split_once "?" url4) as [url5 query]. simpl in *.
  injection Hr as <-. simpl. repeat split; try done.
  clear - Hf5 Hg. induction url5 as [|c t IH]; simpl in *; [done|].
  bool_to_prop. rewrite IH by done. by rewrite H, H1.
Qed.

(** ** The characters of a canonical URL *)

(** The characters [requote_uri] lets through: unreserved ones, its safe
    set, and the [%] and upper-case hex digits of an escape. *)
Definition is_url_char (c : ascii) : bool := is_unreserved c || char_in c safe_with_percent.

(** Neither a query nor a fragment delimiter. *)
Definition not_query_or_fragment (c : ascii) : bool :=
  negb (Ascii.eqb "#" c) && negb (Ascii.eqb "?" c).

Lemma pct_encode_url_chars c : str_forall is_url_char (pct_encode c) = true.
Proof. ascii_cases c. Qed.

Lemma safe_sets_url_chars c :
  implb (char_in c safe_without_percent || char_in c safe_with_percent) (is_url_char c) = true.
Proof. ascii_cases c. Qed.

Lemma quote_url_chars safe s :
  (forall c, char_in c safe = true -> is_url_char c = true) ->
  str_forall is_url_char (quote safe s) = true.
Proof.
  intros Hsafe. induction s as [|c t IH]; [done|]. simpl.
  rewrite str_forall_app, IH, andb_true_r.
  destruct (is_unreserved c) eqn:Hu; simpl.
  - unfold is_url_char. by rewrite Hu.
  - destruct (char_in c safe) eqn:Hs; [|apply pct_encode_url_chars].
    simpl. by rewrite Hsafe.
Qed.

Lemma requote_uri_url_chars s : str_forall is_url_char (requote_uri s) = true.
Proof.
  unfold requote_uri. destruct (unquote_unreserved s); apply quote_url_chars;
    intros c Hc; pose proof (safe_sets_url_chars c) as H; rewrite Hc in H;
    [rewrite orb_true_r in H|]; done.
Qed.

Lemma scheme_char_url_char c :
  implb (is_scheme_char c) (is_url_char c && not_query_or_fragment c) = true.
Proof. ascii_cases c. Qed.

Lemma netloc_char_not_qf c :
  implb (negb (char_in c "/?#")) (not_query_or_fragment c) = true.
Proof. ascii_cases c. Qed.

(** Both properties of a canonical string's characters follow from their
    one-character versions through [str_forall_impl]. *)
Ltac char_impl lem H :=
  eapply str_forall_impl; [|exact H];
  let c := fresh "c" in let Hc := fresh "Hc" in
  intros c Hc; pose proof (lem c) as Hl; rewrite Hc in Hl; exact Hl.

(** What a successful [urlparse] of a string of characters satisfying [q]
    returns. *)
Lemma urlparse_parts q d url p :
  str_forall is_scheme_char d = true ->
  urlparse_with d url = Some p ->
  str_forall q url = true ->
  str_forall is_scheme_char (pr_scheme p) = true /\
  str_forall (fun c => negb (char_in c "/?#")) (pr_netloc p) = true /\
  str_forall q (pr_netloc p) = true /\
  str_forall not_query_or_fragment (pr_path p) = true /\
  str_forall q (pr_path p) = true.
Proof.
  unfold urlparse_with. intros Hd Hp Hq. destruct (urlsplit_with d url) as [r|] eqn:Hr; [|done].
  destruct (urlsplit_parts q d url r Hd Hr Hq) as (H1 & H2 & H3 & H4 & H5).
  destruct (bool_decide _ && str_has ";" (sr_path r)).
  - pose proof (splitparams_forall _ _ H4). pose proof (splitparams_forall _ _ H5).
    destruct (splitparams (sr_path r)). injection Hp as <-. simpl in *. auto.
  - injection Hp as <-. auto.
Qed.

Lemma canonicalize_parts raw c :
  canonicalize raw = Some c ->
  exists p, c = rstrip_by is_slash (pr_scheme p +:+ "://" +:+ pr_netloc p +:+ pr_path p) /\
  str_forall (fun ch => is_url_char ch && not_query_or_fragment ch)
    (pr_scheme p +:+ "://" +:+ pr_netloc p +:+ pr_path p) = true.
Proof.
  unfold canonicalize. destruct (urlparse (requote_uri raw)) as [p|] eqn:Hp; [|done].
  intros [= <-]. exists p. split; [done|].
  destruct (urlparse_parts is_url_char EmptyString _ p eq_refl Hp (requote_uri_url_chars raw))
    as (H1 & H2 & H3 & H4 & H5).
  rewrite !str_forall_app. cbn [str_forall].
  assert (str_forall (fun ch => is_url_char ch && not_query_or_fragment ch) (pr_scheme p) = true)
    as -> by char_impl scheme_char_url_char H1.
  assert (str_forall not_query_or_fragment (pr_netloc p) = true) by char_impl netloc_char_not_qf H2.
  rewrite !(str_forall_and is_url_char not_query_or_fragment), H3, H4, H5, H. done.
Qed.

(** ** Properties of the canonical form *)

Lemma canonicalize_forall raw c :
  canonicalize raw = Some c ->
  str_forall is_url_char c = true /\ str_forall not_query_or_fragment c = true.
Proof.
  intros (p & -> & Hs)%canonicalize_parts.
  apply (rstrip_by_forall is_slash) in Hs. by apply andb_prop; rewrite <- str_forall_and.
Qed.

(** C36. The canonical form keeps no query and no fragment: no [?] and no
    [#] is left in it, whatever the raw URL was. *)
Theorem canonicalize_no_query_fragment raw c :
  canonicalize raw = Some c -> str_forall not_query_or_fragment c = true.
Proof. intros H. apply (canonicalize_forall raw c H). Qed.

Lemma canonicalize_no_query_fragment_witness :
  canonicalize "https://site.test/shop/?page=2#top" = Some "https://site.test/shop" /\
  str_forall not_query_or_fragment "https://site.test/shop" = true.
Proof.
  split; [vm_compute; reflexivity|].
  apply (canonicalize_no_query_fragment "https://site.test/shop/?page=2#top").
  vm_compute. reflexivity.
Defined.

(** The canonical form never ends with a slash ([rstrip('/')]). *)
Theorem canonicalize_no_trailing_slash raw c :
  canonicalize raw = Some c -> str_last c <> Some "/"%char.
Proof.
  intros (p & -> & _)%canonicalize_parts Hl.
  apply rstrip_by_last in Hl. discriminate.
Qed.

Lemma canonicalize_no_trailing_slash_witness :
  canonicalize "https://site.test/shop//" = Some "https://site.test/shop" /\
  str_last "https://site.test/shop" <> Some "/"%char.
Proof.
  split; [vm_compute; reflexivity|].
  apply (canonicalize_no_trailing_slash "https://site.test/shop//"). vm_compute. reflexivity.
Defined.

Lemma url_char_not_space c : implb (is_url_char c) (ascii_nonspace c) = true.
Proof. ascii_cases c. Qed.

(** A canonical URL holds no whitespace. *)
Lemma canonicalize_no_space raw c :
  canonicalize raw = Some c -> str_forall ascii_nonspace c = true.
Proof.
  intros [Hu _]%canonicalize_forall. eapply str_forall_impl; [|exact Hu].
  intros ch Hch. pose proof (url_char_not_space ch) as H. by rewrite Hch in H.
Qed.

(** C37. A canonical URL is made of the printable ASCII characters
    [requote_uri] lets through, so it holds no whitespace: the ledger line
    written for it reads back unchanged after [line.strip()]. *)
Theorem canonicalize_url_chars raw c :
  canonicalize raw = Some c ->
  str_forall is_url_char c = true /\ str_forall ascii_nonspace c = true.
Proof.
  intros Hc. split; [apply (proj1 (canonicalize_forall raw c Hc))|exact (canonicalize_no_space raw c Hc)].
Qed.

Lemma canonicalize_url_chars_witness :
  canonicalize "https://site.test/a b" = Some "https://site.test/a%20b" /\
  str_forall is_url_char "https://site.test/a%20b" = true /\
  str_forall ascii_nonspace "https://site.test/a%20b" = true.
Proof.
  split; [vm_compute; reflexivity|].
  apply (canonicalize_url_chars "https://site.test/a b"). vm_compute. reflexivity.
Defined.

(** The canonical string is never empty (the [:] of [://] survives the
    [rstrip]), so the [not canonical] test of line 60 never fires: the
    skip decision is the login filter alone. *)
Theorem canonicalize_skip_is_login_filter raw c :
  canonicalize raw = Some c ->
  c <> EmptyString /\
  skip_canonical c = existsb (fun x => str_contains x (str_lower c)) ["signin"; "login"].
Proof.
  intros (p & -> & _)%canonicalize_parts.
  assert (Hne : rstrip_by is_slash (pr_scheme p +:+ "://" +:+ pr_netloc p +:+ pr_path p)
                <> EmptyString).
  { intros Hr%rstrip_by_empty. rewrite !str_forall_app in Hr.
    apply andb_prop in Hr as [_ Hr]. discriminate. }
  split; [done|]. unfold skip_canonical.
  destruct (rstrip_by _ _); [done|]. reflexivity.
Qed.

Lemma canonicalize_skip_is_login_filter_witness :
  canonicalize "HTTPS://Site.test/LogIn/" = Some "https://Site.test/LogIn" /\
  ("https://Site.test/LogIn" <> EmptyString /\
   skip_canonical "https://Site.test/LogIn" =
   existsb (fun x => str_contains x (str_lower "https://Site.test/LogIn")) ["signin"; "login"]).
Proof.
  split; [vm_compute; reflexivity|].
  apply (canonicalize_skip_is_login_filter "HTTPS://Site.test/LogIn/"). vm_compute. reflexivity.
Defined.

(** Canonicalization is not idempotent: [urlparse] drops the
    [;params] of the last path segment only after [rstrip('/')] has turned
    the segment into the last one, so a canonical URL is not always its
    own canonical form. *)
Example canonicalize_not_idempotent :
  canonicalize "http://h.test/a;b/" = Some "http://h.test/a;b" /\
  canonicalize "http://h.test/a;b" = Some "http://h.test/a".
Proof. split; vm_compute; reflexivity. Qed.

(** [urlsplit] raises [ValueError] on an unbalanced bracket in the
    netloc; [crawl_seed] does not catch it. *)
Example canonicalize_bracket_raises : canonicalize "http://[x.test/a" = None.
Proof. vm_compute. reflexivity. Qed.
