(* ===== verification/Fetcher.v ===== *)
(** * The Fetcher: the retry loop of crawler-updated12.py, lines 67-94

    For one canonical URL the crawler performs at most [MAX_RETRIES] GETs
    ([for attempt in range(1, MAX_RETRIES + 1)]).  On 429 it sleeps for
    the [Retry-After] header when that header is all digits, else
    [RETRY_BACKOFF * attempt], and goes on to the next attempt; on a 2xx
    (any status [raise_for_status] accepts) it stops with the page; on an
    [HTTPError] 404 or 410 it breaks out at once; on any other
    [HTTPError] or [RequestException] it sleeps [RETRY_BACKOFF * attempt]
    and retries.  After the loop, a URL without success is skipped.

    The network is an oracle: [net a] is the result of the [a]-th GET of
    this URL.  The loop returns the events it performed, in order (GETs and
    integer sleeps), and a tagged outcome.  [int(retry_after)] raises
    [ValueError] on a header of digits that are not ASCII digits ([isdigit]
    accepts the Latin-1 superscripts, which is how [http.client] decodes
    header bytes) and on more than 4300 digits, and [time.sleep(wait)]
    raises [OverflowError] on a wait beyond [SLEEP_MAX] seconds; nothing
    in [crawl_seed] catches either, so that outcome is [Crashed].  The theorems bound the GETs, give the exact events of the
    main cases, and show liveness: a server whose failures are all
    [transient] until a success by the third attempt yields its page
    ([fetch_recovers]). *)

From S2P Require Import Prelude.

(** ** Data *)

(** What BeautifulSoup gives the crawler of a page: the text of
    [soup.get_text(separator=" ")], as Unicode code points, and the [href]
    values of [soup.find_all("a", href=True)]. *)
Record page := Page { page_text : list N; page_hrefs : list string }.

(** One [session.get]: a network-level failure or a response. *)
Inductive attempt_result :=
| NetError
| Response (status : Z) (retry_after : option string) (body : page).

(** The effects of the crawler, in the order it performs them. *)
Inductive event :=
| EvGet (url : string) (attempt : nat)
| EvSleep (seconds : Z)
| EvPoliteSleep (crawl_delay : Z)
| EvAppendLedger (url : string)
| EvWriteVocab (path : string) (content : list N).

Inductive fetch_outcome :=
| Fetched (p : page)
| Skipped (status : Z)
| Exhausted
| Crashed.

Definition MAX_RETRIES : nat := 3.
Definition RETRY_BACKOFF : Z := 2.

(** ** [Retry-After] *)

(** [str.isdigit()] on a Latin-1 character: the ASCII digits and the
    superscripts two, three and one. *)
Definition is_py_digit (c : ascii) : bool :=
  is_ascii_digit c || bool_decide (N_of_ascii c ∈ [178%N; 179%N; 185%N]).

(** [int(s)] on a string of ASCII digits, [acc] the value of the digits before. *)
Fixpoint decimal_go (s : string) (acc : Z) : Z :=
  match s with
  | EmptyString => acc
  | String c t => decimal_go t (10 * acc + Z.of_N (N_of_ascii c) - 48)%Z
  end.

Definition decimal_value (s : string) : Z := decimal_go s 0%Z.

(** [int()] of a string of more than [sys.int_info.default_max_str_digits]
    decimal digits raises [ValueError]. *)
Definition INT_MAX_STR_DIGITS : nat := 4300.

(** [time.sleep(secs)] turns an [int] into a signed 64-bit count of
    nanoseconds ([_PyTime_FromSecondsObject]) and raises [OverflowError]
    beyond it: the longest sleep is [(2^63 - 1) // 10^9] seconds
    ([sleep_max_value]). *)
Definition SLEEP_MAX : Z := 9223372036%Z.

Definition sleep_overflows (seconds : Z) : bool := (SLEEP_MAX <? seconds)%Z.
Arguments sleep_overflows : simpl never.

Inductive wait_choice := WaitFor (seconds : Z) | WaitRaises.

(** [int(retry_after) if retry_after and retry_after.isdigit() else
    RETRY_BACKOFF * attempt]; [WaitRaises] is the [ValueError] of [int()]
    on a digit that is not an ASCII digit or on too many digits. *)
Definition retry_wait (retry_after : option string) (attempt : nat) : wait_choice :=
  match retry_after with
  | Some h =>
      if negb (String.eqb h EmptyString) && str_forall is_py_digit h then
        if str_forall is_ascii_digit h && (String.length h <=? INT_MAX_STR_DIGITS)%nat
        then WaitFor (decimal_value h) else WaitRaises
      else WaitFor (RETRY_BACKOFF * Z.of_nat attempt)
  | None => WaitFor (RETRY_BACKOFF * Z.of_nat attempt)
  end.
Arguments retry_wait : simpl never.

(** [raise_for_status()] raises for 4xx and 5xx. *)
Definition is_http_error (status : Z) : bool := (400 <=? status)%Z && (status <? 600)%Z.

(** ** The loop *)

(** [left] attempts remain, the next one is number [attempt].  The
    [time.sleep(wait)] of a 429 (line 76) raises [OverflowError] on a wait
    beyond [SLEEP_MAX], uncaught; a backoff sleep is at most
    [RETRY_BACKOFF * MAX_RETRIES] = 6 seconds and cannot. *)
Fixpoint fetch_attempts (net : nat -> attempt_result) (url : string)
    (attempt left : nat) : list event * fetch_outcome :=
  match left with
  | O => ([], Exhausted)
  | S left' =>
      let retry (wait : Z) :=
        let '(evs, o) := fetch_attempts net url (S attempt) left' in
        (EvGet url attempt :: EvSleep wait :: evs, o) in
      match net attempt with
      | NetError => retry (RETRY_BACKOFF * Z.of_nat attempt)%Z
      | Response status ra body =>
          if (status =? 429)%Z then
            match retry_wait ra attempt with
            | WaitFor w => if sleep_overflows w then ([EvGet url attempt], Crashed) else retry w
            | WaitRaises => ([EvGet url attempt], Crashed)
            end
          else if is_http_error status then
            if (status =? 404)%Z || (status =? 410)%Z then ([EvGet url attempt], Skipped status)
            else retry (RETRY_BACKOFF * Z.of_nat attempt)%Z
          else ([EvGet url attempt], Fetched body)
      end
  end.

Definition fetch (net : nat -> attempt_result) (url : string) : list event * fetch_outcome :=
  fetch_attempts net url 1 MAX_RETRIES.

(** The fetch of crawler-updated8.py, -9 and -11: one GET,
    [resp.raise_for_status()], and [except Exception: continue]. *)
Definition fetch_once (net : nat -> attempt_result) (url : string) : list event * option page :=
  ([EvGet url 1], match net 1 with
                  | NetError => None
                  | Response status _ body => if is_http_error status then None else Some body
                  end).


Definition is_get (e : event) : bool := match e with EvGet _ _ => true | _ => false end.

Definition is_vocab_write (e : event) : bool := match e with EvWriteVocab _ _ => true | _ => false end.

Definition count_gets (evs : list event) : nat := length (filter is_get evs).

(** ** Lemmas on [fetch_attempts] *)

Lemma count_gets_cons_get url a evs : count_gets (EvGet url a :: evs) = S (count_gets evs).
Proof. reflexivity. Qed.

Lemma count_gets_cons_sleep w evs : count_gets (EvSleep w :: evs) = count_gets evs.
Proof. reflexivity. Qed.

#[export] Hint Rewrite count_gets_cons_get count_gets_cons_sleep : crawl_rw.


(** One step of the loop, in the shape every proof below uses: the
    attempt's GET, then either a stop or a sleep and the rest. *)
Lemma fetch_attempts_step net url a left :
  exists w rest,
  fetch_attempts net url a (S left) =
    (EvGet url a :: fst rest, snd rest) /\
  (fst rest = [] \/ (fst rest = EvSleep w :: fst (fetch_attempts net url (S a) left) /\
                     snd rest = snd (fetch_attempts net url (S a) left))).
Proof.
  simpl. destruct (fetch_attempts net url (S a) left) as [evs o] eqn:E.
  destruct (net a) as [|s ra p].
  - eexists _, (EvSleep _ :: evs, o). split; [done|]. right. done.
  - destruct (s =? 429)%Z; [destruct (retry_wait ra a) as [w'|]; [destruct (sleep_overflows w')|]|]; [| | |destruct (is_http_error s);
      [destruct ((s =? 404)%Z || (s =? 410)%Z)|]];
      first [ eexists 0%Z, ([], _); split; [done|]; by left
            | eexists _, (EvSleep _ :: evs, o); split; [done|]; right; done ].
Qed.

(** The fetch loop only performs GETs and sleeps. *)
Lemma fetch_attempts_no_write net url a left :
  Forall (fun e => is_vocab_write e = false) (fst (fetch_attempts net url a left)).
Proof.
  revert a. induction left as [|left IH]; intros a; [constructor|].
  destruct (fetch_attempts_step net url a left) as (w & [evs o] & -> & [H | [H _]]);
    simpl in H |- *; subst evs; [by repeat constructor|]. repeat constructor. apply IH.
Qed.

Lemma fetch_attempts_gets net url a left :
  (count_gets (fst (fetch_attempts net url a left)) <= left)%nat /\
  (0 < left -> 0 < count_gets (fst (fetch_attempts net url a left)))%nat.
Proof.
  revert a. induction left as [|left IH]; intros a; [cbn; split; lia|].
  destruct (fetch_attempts_step net url a left) as (w & [evs o] & -> & [H | [H _]]);
    simpl in H |- *; subst evs; rewrite count_gets_cons_get; [cbn; split; lia|].
  rewrite count_gets_cons_sleep. destruct (IH (S a)). lia.
Qed.

Lemma fetch_attempts_exhausted net url a left :
  snd (fetch_attempts net url a left) = Exhausted ->
  count_gets (fst (fetch_attempts net url a left)) = left.
Proof.
  revert a. induction left as [|left IH]; intros a; [done|].
  simpl. destruct (fetch_attempts net url (S a) left) as [evs o] eqn:E.
  pose proof (IH (S a)) as IHa. rewrite E in IHa. simpl in IHa.
  destruct (net a) as [|s ra p]; simpl;
    [|destruct (s =? 429)%Z; [destruct (retry_wait ra a) as [w'|]; [destruct (sleep_overflows w')|]|]; [| | |destruct (is_http_error s);
        [destruct ((s =? 404)%Z || (s =? 410)%Z)|]]]; simpl; try discriminate;
    intros Ho; rewrite count_gets_cons_get, count_gets_cons_sleep, IHa; done.
Qed.

(** An ASCII digit passes [isdigit()]. *)
Lemma ascii_digits_py_digits h : str_forall is_ascii_digit h = true -> str_forall is_py_digit h = true.
Proof. apply str_forall_impl. intros c Hc. unfold is_py_digit. by rewrite Hc. Qed.

(** ** Properties *)

(** C9. The fetch loop always ends, after at least one and at most
    [MAX_RETRIES] GETs, whatever the network answers. *)
Theorem fetch_gets_bounded net url :
  (1 <= count_gets (fst (fetch net url)) <= MAX_RETRIES)%nat.
Proof. destruct (fetch_attempts_gets net url 1 MAX_RETRIES) as [H1 H2]. unfold fetch. unfold MAX_RETRIES in *. lia. Qed.

(** A URL is given up as exhausted only after exactly
    [MAX_RETRIES] GETs. *)
Theorem fetch_exhausted_max_gets net url :
  snd (fetch net url) = Exhausted -> count_gets (fst (fetch net url)) = MAX_RETRIES.
Proof. apply fetch_attempts_exhausted. Qed.

Lemma fetch_exhausted_max_gets_witness :
  snd (fetch (fun _ => NetError) "https://site.test/a") = Exhausted /\
  count_gets (fst (fetch (fun _ => NetError) "https://site.test/a")) = MAX_RETRIES.
Proof.
  split; [reflexivity|]. apply fetch_exhausted_max_gets. reflexivity.
Defined.

(** C3. A URL whose every attempt answers a retryable HTTP error (any
    4xx/5xx but 404, 410 and 429, e.g. 500) is attempted exactly three
    times with the backoff sleeps 2, 4 and 6 seconds (the last one after
    the final attempt), then dropped as exhausted. *)
Theorem fetch_all_retryable_errors net url status :
  is_http_error status = true ->
  status <> 404%Z -> status <> 410%Z -> status <> 429%Z ->
  (forall a, exists ra p, net a = Response status ra p) ->
  fetch net url =
    ([EvGet url 1; EvSleep 2; EvGet url 2; EvSleep 4; EvGet url 3; EvSleep 6], Exhausted).
Proof.
  intros He H404 H410 H429 Hnet. unfold fetch, MAX_RETRIES. cbn [fetch_attempts].
  destruct (Hnet 1%nat) as (ra1 & p1 & ->), (Hnet 2%nat) as (ra2 & p2 & ->),
    (Hnet 3%nat) as (ra3 & p3 & ->).
  rewrite He. apply Z.eqb_neq in H404, H410, H429. rewrite H404, H410, H429. reflexivity.
Qed.

Lemma fetch_all_retryable_errors_witness :
  is_http_error 500 = true /\ 500%Z <> 404%Z /\ 500%Z <> 410%Z /\ 500%Z <> 429%Z /\
  fetch (fun _ => Response 500 None (Page [] [])) "https://site.test/a" =
    ([EvGet "https://site.test/a" 1; EvSleep 2; EvGet "https://site.test/a" 2; EvSleep 4;
      EvGet "https://site.test/a" 3; EvSleep 6], Exhausted).
Proof.
  split; [reflexivity|]. split; [lia|]. split; [lia|]. split; [lia|].
  apply (fetch_all_retryable_errors _ _ 500); [reflexivity|lia|lia|lia|].
  intros a. exists None, (Page [] []). reflexivity.
Defined.

(** C4. A 404 or 410 is fetched exactly once and never retried. *)
Theorem fetch_permanent_skip net url status ra p :
  (status = 404%Z \/ status = 410%Z) ->
  net 1%nat = Response status ra p ->
  fetch net url = ([EvGet url 1], Skipped status).
Proof. intros [-> | ->] Hn; unfold fetch; simpl; by rewrite Hn. Qed.

Lemma fetch_permanent_skip_witness :
  (404%Z = 404%Z \/ 404%Z = 410%Z) /\
  fetch (fun _ => Response 404 None (Page [] [])) "https://site.test/gone" =
    ([EvGet "https://site.test/gone" 1], Skipped 404).
Proof.
  split; [by left|]. by apply (fetch_permanent_skip _ _ 404 None (Page [] [])); [left|].
Defined.



(** C28. A [Retry-After] of digits that are not all ASCII digits (such as
    the Latin-1 superscript two, byte 0xB2) passes [isdigit()] but makes
    [int()] raise [ValueError], which nothing catches: the crawl stops
    after one GET. *)
Theorem fetch_retry_after_raises net url h p :
  h <> EmptyString -> str_forall is_py_digit h = true ->
  str_forall is_ascii_digit h = false ->
  net 1%nat = Response 429 (Some h) p ->
  fetch net url = ([EvGet url 1], Crashed).
Proof.
  intros Hne Hpy Hd Hn. unfold fetch. simpl. rewrite Hn. simpl. unfold retry_wait.
  rewrite Hpy, Hd. destruct (String.eqb_spec h EmptyString); done.
Qed.

Lemma fetch_retry_after_raises_witness :
  let h := String (ascii_of_N 178) EmptyString in
  h <> EmptyString /\ str_forall is_py_digit h = true /\
  str_forall is_ascii_digit h = false /\
  fetch (fun _ => Response 429 (Some h) (Page [] [])) "https://site.test/a" =
    ([EvGet "https://site.test/a" 1], Crashed).
Proof.
  intros h. split; [done|]. split; [reflexivity|]. split; [reflexivity|].
  apply (fetch_retry_after_raises _ _ h (Page [] [])); [done|reflexivity|reflexivity|reflexivity].
Defined.

(** C29. A 429 whose [Retry-After] is ASCII digits that [int()] refuses
    (more than [INT_MAX_STR_DIGITS] digits, [ValueError] at line 74) or
    whose value is beyond the longest [time.sleep] ([OverflowError] at
    line 76) stops the crawl after one GET: nothing catches either
    exception. *)
Theorem fetch_retry_after_too_large net url h p :
  h <> EmptyString -> str_forall is_ascii_digit h = true ->
  (INT_MAX_STR_DIGITS < String.length h)%nat \/ (SLEEP_MAX < decimal_value h)%Z ->
  net 1%nat = Response 429 (Some h) p ->
  fetch net url = ([EvGet url 1], Crashed).
Proof.
  intros Hne Hd Hbig Hn. unfold fetch. simpl. rewrite Hn. simpl. unfold retry_wait.
  rewrite (ascii_digits_py_digits h Hd), Hd. destruct (String.eqb_spec h EmptyString); [done|]. simpl.
  destruct (Nat.leb_spec (String.length h) INT_MAX_STR_DIGITS); [|done].
  destruct Hbig as [Hbig|Hbig]; [lia|]. unfold sleep_overflows. by rewrite (proj2 (Z.ltb_lt _ _) Hbig).
Qed.

Lemma fetch_retry_after_too_large_witness :
  ((INT_MAX_STR_DIGITS < String.length "9223372037")%nat \/ (SLEEP_MAX < decimal_value "9223372037")%Z) /\
  fetch (fun _ => Response 429 (Some "9223372037") (Page [] [])) "https://site.test/a" =
    ([EvGet "https://site.test/a" 1], Crashed).
Proof.
  split; [right; apply Z.ltb_lt; reflexivity|].
  apply (fetch_retry_after_too_large _ _ "9223372037" (Page [] []));
    [done|reflexivity|right; apply Z.ltb_lt; reflexivity|reflexivity].
Defined.

(** [SLEEP_MAX] is the largest number of seconds whose count of
    nanoseconds fits a signed 64-bit integer. *)
Lemma sleep_max_value : SLEEP_MAX = ((2 ^ 63 - 1) / 10 ^ 9)%Z /\ (SLEEP_MAX * 10 ^ 9 <= 2 ^ 63 - 1 < (SLEEP_MAX + 1) * 10 ^ 9)%Z.
Proof. split; [reflexivity|]. unfold SLEEP_MAX. lia. Qed.

(** C30. The page the loop returns is the body of a response to one of
    the first [MAX_RETRIES] attempts whose status is neither 429 nor an
    HTTP error. *)
Theorem fetch_fetched_spec net url p :
  snd (fetch net url) = Fetched p ->
  exists a status ra, (1 <= a <= MAX_RETRIES)%nat /\ net a = Response status ra p /\
    status <> 429%Z /\ is_http_error status = false.
Proof.
  unfold fetch. assert (Hgen : forall left a, snd (fetch_attempts net url a left) = Fetched p ->
    exists b status ra, (a <= b < a + left)%nat /\ net b = Response status ra p /\
      status <> 429%Z /\ is_http_error status = false).
  { induction left as [|left IH]; intros a; [done|]. simpl.
    destruct (fetch_attempts net url (S a) left) as [evs o] eqn:E.
    pose proof (IH (S a)) as IHa. rewrite E in IHa. simpl in IHa.
    destruct (net a) as [|s ra q] eqn:Hn; simpl.
    - intros (b & st & r & ? & ? & ?)%IHa. exists b, st, r. split; [lia|done].
    - destruct (s =? 429)%Z eqn:H429;
        [destruct (retry_wait ra a) as [w|]; [destruct (sleep_overflows w)|]|]; simpl;
        [done | intros (b & st & r & ? & ? & ?)%IHa; exists b, st, r; split; [lia|done] | done |].
      destruct (is_http_error s) eqn:Herr; [destruct ((s =? 404)%Z || (s =? 410)%Z)|]; simpl;
        [done | intros (b & st & r & ? & ? & ?)%IHa; exists b, st, r; split; [lia|done] |].
      intros [= <-]. exists a, s, ra. apply Z.eqb_neq in H429. split; [lia|done]. }
  intros (b & st & r & ? & ? & ?)%Hgen. exists b, st, r. unfold MAX_RETRIES in *. split; [lia|done].
Qed.

Lemma fetch_fetched_spec_witness :
  snd (fetch (fun _ => Response 200 None (Page [] ["/shop/item1"])) "https://site.test/shop") =
    Fetched (Page [] ["/shop/item1"]) /\
  exists a status ra, (1 <= a <= MAX_RETRIES)%nat /\
    (fun _ : nat => Response 200 None (Page [] ["/shop/item1"])) a =
      Response status ra (Page [] ["/shop/item1"]) /\
    status <> 429%Z /\ is_http_error status = false.
Proof. split; [reflexivity|]. apply (fetch_fetched_spec _ "https://site.test/shop"). reflexivity. Defined.



