(* ===== verification/Tokens.v ===== *)
(** * The ContentProcessor's tokenizer: crawler-updated12.py, lines 101-113

    [re.findall(r"\b\w+\b", text, flags=re.UNICODE)] returns the maximal
    runs of word characters of the page text; [t.isalpha()] keeps the runs
    made of letters only; the vocabulary file holds [' '.join(tokens)].
    The text is a list of Unicode code points.  The Unicode tables of [\w],
    [str.isalpha], [\d] (with the digit values [int()] reads) and
    [str.isdigit] are a parameter ([CharClasses]) with the facts
    the tokenizer relies on: a letter is a word character and neither the
    space nor the newline is one; [latin1_classes] gives the exact tables below U+0100 for the
    examples. *)

From S2P Require Import Prelude.

Class CharClasses := {
  is_word : N -> bool;
  is_alpha : N -> bool;
  alpha_is_word : forall c, is_alpha c = true -> is_word c = true;
  space_not_word : is_word 32%N = false;
  newline_not_word : is_word 10%N = false;
  digit_value : N -> option N;
  is_digit : N -> bool;
  ascii_digit : forall c, (48 <= c <= 57)%N -> is_digit c = true /\ digit_value c = Some (c - 48)%N
}.

(** [\d] and [str.isdecimal] on one character: a decimal digit (category Nd). *)
Definition is_decimal `{CharClasses} (c : N) : bool :=
  match digit_value c with Some _ => true | None => false end.

Section Tokenizer.
Context `{CC : CharClasses}.

(** The runs of word characters, [cur] holding the current run reversed. *)
Fixpoint word_runs (text : list N) (cur : list N) : list (list N) :=
  match text with
  | [] => match cur with [] => [] | _ => [rev cur] end
  | c :: t =>
      if is_word c then word_runs t (c :: cur)
      else match cur with
           | [] => word_runs t []
           | _ => rev cur :: word_runs t []
           end
  end.

(** [re.findall(r"\b\w+\b", text)] *)
Definition findall_words (text : list N) : list (list N) := word_runs text [].

(** [t.isalpha()]: non-empty and made of letters. *)
Definition py_isalpha (t : list N) : bool := negb (bool_decide (t = [])) && forallb is_alpha t.

(** [tokens = [t for t in raw_tokens if t.isalpha()]] *)
Definition tokens_of (text : list N) : list (list N) := List.filter py_isalpha (findall_words text).

(** [sep.join(tokens)] for a one-character separator. *)
Fixpoint join_with (sep : N) (toks : list (list N)) : list N :=
  match toks with
  | [] => []
  | [t] => t
  | t :: ts => t ++ sep :: join_with sep ts
  end.

(** [' '.join(tokens)] *)
Definition join_space (toks : list (list N)) : list N := join_with 32 toks.

(** [s.split(sep)] on a list of code points. *)
Fixpoint split_with (sep : N) (s : list N) : list (list N) :=
  match s with
  | [] => [[]]
  | c :: t =>
      match split_with sep t with
      | [] => []
      | w :: ws => if (c =? sep)%N then [] :: w :: ws else (c :: w) :: ws
      end
  end.

(** [s.split(' ')] *)
Definition split_space (s : list N) : list (list N) := split_with 32 s.





Lemma split_with_nosep sep t :
  Forall (fun c => c <> sep) t -> split_with sep t = [t].
Proof.
  induction t as [|c t IH]; intros Ht; [done|]. inversion Ht as [|? ? Hc Ht']; subst.
  simpl. rewrite IH by done. destruct (c =? sep)%N eqn:E; [apply N.eqb_eq in E; done|done].
Qed.

Lemma split_with_app_sep sep t rest :
  Forall (fun c => c <> sep) t -> split_with sep (t ++ sep :: rest) = t :: split_with sep rest.
Proof.
  induction t as [|c t IH]; intros Ht; simpl.
  - rewrite N.eqb_refl. destruct (split_with sep rest) as [|w ws] eqn:E; [|done].
    exfalso. clear -E. induction rest as [|c r IHr]; simpl in E; [done|].
    destruct (split_with sep r); [by apply IHr|]. by destruct (c =? sep)%N.
  - inversion Ht as [|? ? Hc Ht']; subst. rewrite IH by done.
    destruct (c =? sep)%N eqn:E; [apply N.eqb_eq in E; done|done].
Qed.

Lemma split_join_with sep toks :
  toks <> [] -> Forall (Forall (fun c => c <> sep)) toks ->
  split_with sep (join_with sep toks) = toks.
Proof.
  induction toks as [|t ts IH]; intros Hne Hall; [done|].
  inversion Hall as [|? ? Ht Hts]; subst. destruct ts as [|t' ts'].
  - by apply split_with_nosep.
  - change (join_with sep (t :: t' :: ts')) with (t ++ sep :: join_with sep (t' :: ts')).
    rewrite split_with_app_sep by done. f_equal. by apply IH.
Qed.

Lemma split_join_space toks :
  toks <> [] -> Forall (Forall (fun c => c <> 32%N)) toks ->
  split_space (join_space toks) = toks.
Proof. apply split_join_with. Qed.

Lemma tokens_of_words text :
  Forall (Forall (fun c => c <> 32%N)) (tokens_of text).
Proof.
  unfold tokens_of. apply Forall_forall. intros t Ht.
  apply list_elem_of_In, filter_In in Ht as [_ Ha].
  unfold py_isalpha in Ha. apply andb_prop in Ha as [_ Ha].
  apply Forall_forall. intros c Hc Hsp. subst c.
  apply forallb_forall with (x := 32%N) in Ha; [|by apply list_elem_of_In].
  apply alpha_is_word in Ha. by rewrite space_not_word in Ha.
Qed.


(** The vocabulary file [' '.join(tokens)] reads back, split at its
    spaces, as the token list (when there is a token; an empty token list
    gives an empty file). *)
Theorem vocab_file_roundtrip text :
  (tokens_of text <> [] -> split_space (join_space (tokens_of text)) = tokens_of text) /\
  (tokens_of text = [] -> join_space (tokens_of text) = []).
Proof.
  split; [intros Hne; apply split_join_space; [done|apply tokens_of_words]|].
  intros ->. done.
Qed.

End Tokenizer.

(** ** Latin-1 tables *)

Definition latin1_alpha (c : N) : bool :=
  ((65 <=? c) && (c <=? 90))%N || ((97 <=? c) && (c <=? 122))%N ||
  bool_decide (c ∈ [170; 181; 186]%N) || ((192 <=? c) && (c <=? 214))%N ||
  ((216 <=? c) && (c <=? 246))%N || ((248 <=? c) && (c <=? 255))%N.

(** [\w]: [str.isalnum()] or [_]; the Latin-1 digits and numerics are
    [0-9], the superscripts and the vulgar fractions. *)
Definition latin1_word (c : N) : bool :=
  latin1_alpha c || ((48 <=? c) && (c <=? 57))%N ||
  bool_decide (c ∈ [178; 179; 185; 188; 189; 190; 95]%N).

(** The value of a decimal digit (category Nd); below U+0100 only [0-9]. *)
Definition latin1_decimal (c : N) : option N :=
  if ((48 <=? c) && (c <=? 57))%N then Some (c - 48)%N else None.

(** [str.isdigit]: the decimal digits and the superscripts two, three and one. *)
Definition latin1_digit (c : N) : bool := ((48 <=? c) && (c <=? 57))%N || bool_decide (c ∈ [178; 179; 185]%N).

Lemma latin1_alpha_word c : latin1_alpha c = true -> latin1_word c = true.
Proof. intros H. unfold latin1_word. by rewrite H. Qed.

Lemma latin1_ascii_digit c :
  (48 <= c <= 57)%N -> latin1_digit c = true /\ latin1_decimal c = Some (c - 48)%N.
Proof.
  intros Hc. unfold latin1_digit, latin1_decimal.
  assert (H : ((48 <=? c) && (c <=? 57))%N = true) by (apply andb_true_intro; split; apply N.leb_le; lia).
  by rewrite H.
Qed.

#[export] Instance latin1_classes : CharClasses := {|
  is_word := latin1_word; is_alpha := latin1_alpha;
  alpha_is_word := latin1_alpha_word; space_not_word := eq_refl;
  newline_not_word := eq_refl; digit_value := latin1_decimal; is_digit := latin1_digit;
  ascii_digit := latin1_ascii_digit |}.
