(* ===== verification/Vocab.v ===== *)
(** * The vocabulary set of crawler-updated1.py to crawler-updated5.py

    The five early versions write, for every fetched page,
    {v
    tokens = re.findall(r"\b\w+\b", text.lower())
    vocab = sorted(set(tokens))
    vf.write("\n".join(vocab))
    v}
    (crawler-updated1.py lines 58-65 and the same lines in the others).
    [text.lower()] is a parameter ([CaseMap]): Python's [str.lower] is
    Unicode's full lower-case mapping with the final-sigma rule, so it is
    a function of the whole text; [latin1_lower] is the exact mapping
    below U+0100.  Strings compare in Python by their code points, left to
    right, a proper prefix first: [cp_leb].  [sorted(set(tokens))] is
    stdpp's [merge_sort] of the tokens without duplicates; every sort of
    the set gives the same list, which [vocab_of_spec] states.

    The theorems: the vocabulary is the strictly increasing list of the
    distinct tokens, and the file, split at its newlines, gives it back. *)

From stdpp Require Import sorting.
From S2P Require Import Prelude Tokens.

Set Warnings "-clear-no-such-hyp".

(** [str.lower] on an ASCII character. *)
Definition ascii_lower_cp (c : N) : N := if ((65 <=? c) && (c <=? 90))%N then (c + 32)%N else c.

(** [str.lower()] on a text, which on an ASCII text lowers [A-Z] only. *)
Class CaseMap := {
  py_lower : list N -> list N;
  lower_ascii : forall l, Forall (fun c => (c < 128)%N) l -> py_lower l = map ascii_lower_cp l
}.

(** Python's [<=] on strings. *)
Fixpoint cp_leb (x y : list N) : bool :=
  match x, y with
  | [], _ => true
  | _ :: _, [] => false
  | a :: x', b :: y' => (a <? b)%N || ((a =? b)%N && cp_leb x' y')
  end.

Definition cp_le (x y : list N) : Prop := cp_leb x y = true.

#[export] Instance cp_le_dec : RelDecision cp_le := fun x y => decide (cp_leb x y = true).

(** Python's [<] on strings. *)
Definition cp_lt (x y : list N) : Prop := cp_le x y /\ x <> y.

Section Vocab.
Context `{CC : CharClasses} `{CM : CaseMap}.

(** [re.findall(r"\b\w+\b", text.lower())] *)
Definition lower_tokens (text : list N) : list (list N) := findall_words (py_lower text).

(** [sorted(set(tokens))] *)
Definition vocab_of (text : list N) : list (list N) :=
  merge_sort cp_le (remove_dups (lower_tokens text)).

(** ["\n".join(vocab)], the content of the vocabulary file. *)
Definition vocab_content (text : list N) : list N := join_with 10 (vocab_of text).

End Vocab.

(** [str.lower] below U+0100: [A-Z] and [À-Þ] but [×] move by 32. *)
Definition latin1_lower_cp (c : N) : N :=
  if ((65 <=? c) && (c <=? 90))%N || (((192 <=? c) && (c <=? 222))%N && negb (c =? 215)%N)
  then (c + 32)%N else c.

Lemma latin1_lower_ascii l :
  Forall (fun c => (c < 128)%N) l -> map latin1_lower_cp l = map ascii_lower_cp l.
Proof.
  induction 1 as [|c l Hc _ IH]; [done|]. simpl. rewrite IH. f_equal.
  unfold latin1_lower_cp, ascii_lower_cp.
  destruct ((65 <=? c) && (c <=? 90))%N; [done|]. simpl.
  destruct (N.leb_spec 192 c); [lia|done].
Qed.

#[export] Instance latin1_lower : CaseMap := {| py_lower := map latin1_lower_cp; lower_ascii := latin1_lower_ascii |}.

(** ** Theorems *)

(** Python's string order is a total order. *)
Lemma cp_leb_refl x : cp_leb x x = true.
Proof. induction x as [|a x IH]; simpl; [done|]. rewrite N.eqb_refl, IH. apply orb_true_r. Qed.

Lemma cp_leb_step a b x y :
  cp_leb (a :: x) (b :: y) = true <-> (a < b)%N \/ (a = b /\ cp_leb x y = true).
Proof. simpl. rewrite orb_true_iff, andb_true_iff, N.ltb_lt, N.eqb_eq. done. Qed.

#[export] Instance cp_le_total : Total cp_le.
Proof.
  intros x. unfold cp_le. induction x as [|a x IH]; intros [|b y]; try (simpl; intros; first [done|congruence|auto; fail]).
  rewrite !cp_leb_step. destruct (N.lt_trichotomy a b) as [?|[->|?]]; auto.
  destruct (IH y); auto.
Qed.

#[export] Instance cp_le_trans : Transitive cp_le.
Proof.
  intros x. unfold cp_le. induction x as [|a x IH]; intros [|b y] [|c z]; try (simpl; intros; first [done|congruence|auto; fail]).
  rewrite !cp_leb_step. intros [?|[-> ?]] [?|[-> ?]]; eauto with lia.
Qed.

#[export] Instance cp_le_antisymm : AntiSymm (=) cp_le.
Proof.
  intros x. unfold cp_le. induction x as [|a x IH]; intros [|b y]; try (simpl; intros; first [done|congruence]).
  rewrite !cp_leb_step. intros [?|[-> ?]] [?|[? ?]]; try lia. f_equal. by apply IH.
Qed.

(** A list sorted by [<=] without duplicates is sorted by [<]. *)
Lemma strictly_sorted_iff l : StronglySorted cp_lt l <-> StronglySorted cp_le l /\ NoDup l.
Proof.
  induction l as [|x l IH]; [split; [intros; split; constructor|constructor]|].
  rewrite !StronglySorted_cons, NoDup_cons, IH, !Forall_forall. unfold cp_lt. split.
  - intros [Hx [Hs Hd]]. split_and!; [naive_solver|done| |done].
    intros Hin. by destruct (Hx x Hin).
  - intros [[Hx Hs] [Hn Hd]]. split_and!; [|done|done].
    intros y Hy. split; [by apply Hx|]. intros ->. by apply Hn.
Qed.

Section VocabFacts.
Context `{CC : CharClasses} `{CM : CaseMap}.

Lemma vocab_of_elem text t : t ∈ vocab_of text <-> t ∈ lower_tokens text.
Proof. unfold vocab_of. by rewrite (merge_sort_Permutation cp_le), elem_of_remove_dups. Qed.

Lemma vocab_of_sorted text : StronglySorted cp_lt (vocab_of text).
Proof.
  apply strictly_sorted_iff. split; [apply StronglySorted_merge_sort; apply _|].
  unfold vocab_of. rewrite (merge_sort_Permutation cp_le). apply NoDup_remove_dups.
Qed.

Lemma word_runs_words text cur :
  Forall (fun c => is_word c = true) cur ->
  Forall (Forall (fun c => is_word c = true)) (word_runs text cur).
Proof.
  revert cur. induction text as [|c t IH]; intros cur Hc; simpl.
  - destruct cur; repeat constructor; by apply Forall_rev.
  - destruct (is_word c) eqn:E; [apply IH; by constructor|].
    destruct cur; [by apply IH|]. constructor; [by apply Forall_rev|by apply IH].
Qed.

(** Every character of a token is a word character, so no token holds a newline. *)
Lemma vocab_of_no_newline text : Forall (Forall (fun c => c <> 10%N)) (vocab_of text).
Proof.
  apply Forall_forall. intros t Ht. apply vocab_of_elem in Ht.
  assert (Hw := word_runs_words (py_lower text) [] (List.Forall_nil _)).
  rewrite Forall_forall in Hw. eapply Forall_impl; [exact (Hw t Ht)|].
  intros c Hc ->. by rewrite newline_not_word in Hc.
Qed.

(** The vocabulary written by crawler-updated1.py to crawler-updated5.py
    is [sorted(set(tokens))]: a list equals [vocab_of text] exactly when it
    is strictly increasing in Python's string order and holds the tokens of
    the lower-cased text, each once. *)
Theorem vocab_of_spec text l :
  vocab_of text = l <->
  StronglySorted cp_lt l /\ (forall t, t ∈ l <-> t ∈ lower_tokens text).
Proof.
  split; [intros <-; split; [apply vocab_of_sorted|apply vocab_of_elem]|].
  intros [Hs Hel]. apply strictly_sorted_iff in Hs as [Hs Hd].
  destruct (proj1 (strictly_sorted_iff _) (vocab_of_sorted text)) as [Hv Hvd].
  apply (StronglySorted_unique cp_le); [done|done|].
  apply NoDup_Permutation; [done|done|]. intros t. by rewrite vocab_of_elem, Hel.
Qed.

(** The vocabulary file reads back, split at its newlines, as the
    vocabulary (when the page has a token; an empty vocabulary gives an
    empty file). *)
Theorem vocab_content_roundtrip text :
  (vocab_of text <> [] -> split_with 10 (vocab_content text) = vocab_of text) /\
  (vocab_of text = [] -> vocab_content text = []).
Proof.
  unfold vocab_content. split; [intros; apply split_join_with; [done|apply vocab_of_no_newline]|].
  by intros ->.
Qed.

End VocabFacts.

(** [text.lower()] keeps the sharp s, which [str.casefold()] turns into
    [ss]: "Straße straße" has the one word "straße". *)
Example vocab_of_sharp_s :
  vocab_of [83; 116; 114; 97; 223; 101; 32; 115; 116; 114; 97; 223; 101]%N =
  [[115; 116; 114; 97; 223; 101]]%N.
Proof. vm_compute. reflexivity. Qed.
