(* ===== verification/Ledger.v ===== *)
(** * The PersistenceLedger: ledger file, id mapping, vocabulary paths

    crawler-updated12.py keeps three kinds of durable data:
    - the ledger [all_urls_master.txt]: [main] reads it line by line into
      the [visited] set ([visited.add(line.strip())], lines 145-152) and
      [crawl_seed] appends [canonical + "\n"] for every fetched page
      (lines 97-99);
    - the id mapping [url_mapping.json]: [mapping[encode_name(canonical)] =
      canonical] (line 109), loaded at start and dumped at the end of
      [main] (lines 154-160, 181-183); here the file holds the map
      itself, and Json.v models its JSON text and shows that it reads
      back as the same map ([mapping_file_roundtrip]);
    - the vocabulary files [output_dir/topic/vocab_<id>.txt] (lines 108-113).
    [src/rebuild_mapping.py] recomputes the mapping from the ledger.

    A file's content is a [string]; [file_lines] splits it the way
    iterating over a text file does (at each newline, no empty piece after
    a final newline).  The universal-newline translation of a lone [\r] is
    not modelled: no canonical URL holds one. *)

From S2P Require Import Prelude Sha256 Url.

(** ** [encode_name] and the vocabulary path *)

(** [hashlib.sha256(url.encode('utf-8')).hexdigest()[:16]] *)
Definition encode_name (url : string) : string := str_take 16 (sha256_hexdigest url).

(** [os.path.join(a, b)] (posixpath, two components). *)
Definition path_join (a b : string) : string :=
  if String.prefix "/" b then b
  else if is_empty a || bool_decide (str_last a = Some "/"%char) then a +:+ b
  else a +:+ "/" +:+ b.

(** [os.path.join(topic_dir, f"vocab_{safe_name}.txt")] with
    [topic_dir = os.path.join(output_dir, topic)]. *)
Definition vocab_path (output_dir topic url : string) : string :=
  path_join (path_join output_dir topic) ("vocab_" +:+ encode_name url +:+ ".txt").

(** ** The ledger file *)

Definition newline : ascii := "010"%char.

(** [canonical + "\n"] *)
Definition ledger_line (url : string) : string := url +:+ String newline EmptyString.

(** The content of a ledger made of the given lines. *)
Fixpoint render_lines (urls : list string) : string :=
  match urls with
  | [] => EmptyString
  | u :: us => ledger_line u +:+ render_lines us
  end.

(** [for line in f]: the lines, without their newline. *)
Definition file_lines (content : string) : list string :=
  let parts := split_on newline content in
  if is_empty (last_or EmptyString parts) then removelast parts else parts.

(** [visited.add(line.strip())] for every line; an absent file gives the
    empty set (and [main] creates it empty). *)
Definition load_visited (content : option string) : gset string :=
  match content with
  | None => ∅
  | Some c => list_to_set (map py_strip (file_lines c))
  end.

(** [mapping[encode_name(url)] = url] *)
Definition record_mapping (m : gmap string string) (url : string) : gmap string string :=
  <[encode_name url := url]> m.

(** rebuild_mapping.py: [key = sha256(url)[:16]; mapping[key] = url] for
    every stripped line of the ledger. *)
Definition rebuild_mapping (content : string) : gmap string string :=
  fold_left record_mapping (map py_strip (file_lines content)) ∅.

(** Every id of the mapping is the hash prefix of its URL. *)
Definition mapping_consistent (m : gmap string string) : Prop :=
  map_Forall (fun k u => k = encode_name u) m.

(** ** Lemmas *)

Lemma render_lines_app a b : render_lines (a ++ b) = render_lines a +:+ render_lines b.
Proof. induction a as [|u a IH]; [done|]. simpl. by rewrite IH, append_assoc_str. Qed.

Lemma split_on_render urls :
  Forall (fun u => str_forall (fun d => negb (Ascii.eqb d newline)) u = true) urls ->
  split_on newline (render_lines urls) = urls ++ [EmptyString].
Proof.
  induction urls as [|u us IH]; intros Hall; [done|]. inversion Hall; subst.
  simpl. unfold ledger_line. rewrite <- append_assoc_str, str_app_cons, str_app_nil.
  rewrite split_on_app_sep by done. by rewrite IH.
Qed.

Lemma file_lines_render urls :
  Forall (fun u => str_forall (fun d => negb (Ascii.eqb d newline)) u = true) urls ->
  file_lines (render_lines urls) = urls.
Proof.
  intros Hall. unfold file_lines. rewrite split_on_render by done.
  unfold last_or. rewrite last_app. simpl. by rewrite removelast_last.
Qed.

(** A line of ASCII non-space characters has no newline and is its own [strip()]. *)
Lemma no_space_line u :
  str_forall ascii_nonspace u = true ->
  str_forall (fun d => negb (Ascii.eqb d newline)) u = true /\ py_strip u = u.
Proof.
  intros Hu. split; [|by apply py_strip_noop].
  eapply str_forall_impl; [|exact Hu]. intros c.
  enough (implb (ascii_nonspace c) (negb (Ascii.eqb c newline)) = true) as H
    by (intros Hc; by rewrite Hc in H).
  ascii_cases c.
Qed.

Lemma stripped_lines_render urls :
  Forall (fun u => str_forall ascii_nonspace u = true) urls ->
  map py_strip (file_lines (render_lines urls)) = urls.
Proof.
  intros Hall. rewrite file_lines_render.
  - induction Hall as [|u us Hu _ IH]; [done|]. simpl. by rewrite (proj2 (no_space_line u Hu)), IH.
  - eapply Forall_impl; [exact Hall|]. intros u Hu. apply (no_space_line u Hu).
Qed.

(** C39. A page's id is 16 lower-case hex digits. *)
Theorem encode_name_shape url :
  String.length (encode_name url) = 16%nat /\ str_forall is_hex_lower (encode_name url) = true.
Proof.
  destruct (sha256_hexdigest_shape url) as [Hl Hh].
  destruct (str_take_spec is_hex_lower 16 (sha256_hexdigest url)) as [Hl' Hh'].
  unfold encode_name. rewrite Hl', Hl. auto.
Qed.

(** Loading a ledger written by the crawler gives back the set of
    URLs it appended, when those URLs hold no whitespace (every canonical
    URL does, [canonicalize_url_chars]). *)
Theorem ledger_load_roundtrip urls :
  Forall (fun u => str_forall ascii_nonspace u = true) urls ->
  load_visited (Some (render_lines urls)) = list_to_set urls.
Proof. intros Hall. simpl. by rewrite stripped_lines_render. Qed.

Lemma ledger_load_roundtrip_witness :
  Forall (fun u => str_forall ascii_nonspace u = true)
    ["https://site.test/shop"; "https://site.test/shop/item1"] /\
  load_visited (Some (render_lines ["https://site.test/shop"; "https://site.test/shop/item1"])) =
    list_to_set ["https://site.test/shop"; "https://site.test/shop/item1"].
Proof.
  assert (H : Forall (fun u => str_forall ascii_nonspace u = true)
    ["https://site.test/shop"; "https://site.test/shop/item1"])
    by (repeat constructor).
  split; [exact H|]. exact (ledger_load_roundtrip _ H).
Defined.

(** C25. rebuild_mapping.py, run on a ledger written by the crawler,
    records the URLs' ids in the order the ledger lists them. *)
Theorem rebuild_mapping_render urls :
  Forall (fun u => str_forall ascii_nonspace u = true) urls ->
  rebuild_mapping (render_lines urls) = fold_left record_mapping urls ∅.
Proof. intros Hall. unfold rebuild_mapping. by rewrite stripped_lines_render. Qed.

Lemma rebuild_mapping_render_witness :
  Forall (fun u => str_forall ascii_nonspace u = true) ["https://site.test/shop"] /\
  rebuild_mapping (render_lines ["https://site.test/shop"]) =
    fold_left record_mapping ["https://site.test/shop"] ∅.
Proof.
  assert (H : Forall (fun u => str_forall ascii_nonspace u = true)
    ["https://site.test/shop"]) by (repeat constructor).
  split; [exact H|]. exact (rebuild_mapping_render _ H).
Defined.

Lemma record_mapping_consistent m url :
  mapping_consistent m -> mapping_consistent (record_mapping m url).
Proof. intros Hm. by apply map_Forall_insert_2. Qed.

Lemma record_mapping_dom m url : dom m ⊆ dom (record_mapping m url).
Proof. unfold record_mapping. rewrite dom_insert_L. set_solver. Qed.

Lemma fold_record_mapping_consistent urls m :
  mapping_consistent m -> mapping_consistent (fold_left record_mapping urls m).
Proof. revert m. induction urls as [|u us IH]; intros m Hm; simpl; [done|]. by apply IH, record_mapping_consistent. Qed.

Lemma fold_record_mapping_dom urls m : dom m ⊆ dom (fold_left record_mapping urls m).
Proof.
  revert m. induction urls as [|u us IH]; intros m; simpl; [done|].
  etrans; [apply record_mapping_dom|apply IH].
Qed.

#[export] Hint Resolve record_mapping_consistent record_mapping_dom : crawl.
#[export] Hint Resolve fold_record_mapping_consistent fold_record_mapping_dom : crawl.
