(* ===== verification/Base64.v ===== *)
(** * crawler-updated8.py's file names: URL-safe Base64

    crawler-updated8.py names the vocabulary file of a URL by
    [encode_name(url)] (lines 12-15): [base64.urlsafe_b64encode] of the
    URL's UTF-8 bytes, decoded as ASCII, with the padding [=] stripped;
    [decode_name] (lines 17-20) adds the padding back, calls
    [base64.urlsafe_b64decode] and decodes the bytes as UTF-8.

    The library calls are modelled after CPython: [b64encode] is
    [binascii.b2a_base64(s, newline=False)], whose loop turns three bytes
    into four table characters with the shifts and masks written out
    ([b2a_base64]); [urlsafe_*] translate [+/] and [-_]; [b64decode] is
    the non-strict [binascii.a2b_base64] ([a2b_go]), which skips
    characters outside the table, stops at a completing [=] pad and raises
    on a dangling quad; [.encode('ascii')] raises on a non-ASCII character
    and [.decode('utf-8')] on invalid UTF-8 ([utf8_valid]).  A Rocq
    [string] is the UTF-8 byte sequence of a Python [str].

    The theorem [decode_name_encode_name] is the round trip the two
    functions are written for: every URL (every valid UTF-8 string) comes
    back from its file name, so distinct URLs never share a file, unlike
    the 64-bit hash prefix of the later versions. *)

From S2P Require Import Prelude.

Local Open Scope Z_scope.

(** ** Encoding *)

(** [table_b2a_base64] *)
Definition b64_table : string :=
  "ABCDEFGHIJKLMNOPQRSTUVWXYZabcdefghijklmnopqrstuvwxyz0123456789+/".

Definition b64_char (v : Z) : ascii := default "="%char (String.get (Z.to_nat v) b64_table).

Definition byte (c : ascii) : Z := Z.of_N (N_of_ascii c).

(** [binascii.b2a_base64(s, newline=False)]: three bytes at a time, then
    the one or two bytes left with their padding. *)
Fixpoint b2a_base64 (s : string) : string :=
  match s with
  | String a (String b (String c rest)) =>
      String (b64_char (Z.shiftr (byte a) 2))
     (String (b64_char (Z.lor (Z.shiftl (Z.land (byte a) 3) 4) (Z.shiftr (byte b) 4)))
     (String (b64_char (Z.lor (Z.shiftl (Z.land (byte b) 15) 2) (Z.shiftr (byte c) 6)))
     (String (b64_char (Z.land (byte c) 63)) (b2a_base64 rest))))
  | String a (String b EmptyString) =>
      String (b64_char (Z.shiftr (byte a) 2))
     (String (b64_char (Z.lor (Z.shiftl (Z.land (byte a) 3) 4) (Z.shiftr (byte b) 4)))
     (String (b64_char (Z.shiftl (Z.land (byte b) 15) 2)) "="))
  | String a EmptyString =>
      String (b64_char (Z.shiftr (byte a) 2))
     (String (b64_char (Z.shiftl (Z.land (byte a) 3) 4)) "==")
  | EmptyString => EmptyString
  end.

(** [_urlsafe_encode_translation = bytes.maketrans(b'+/', b'-_')] and back. *)
Definition urlsafe_enc_char (c : ascii) : ascii :=
  if Ascii.eqb c "+" then "-" else if Ascii.eqb c "/" then "_" else c.

Definition urlsafe_dec_char (c : ascii) : ascii :=
  if Ascii.eqb c "-" then "+" else if Ascii.eqb c "_" then "/" else c.

Definition is_pad (c : ascii) : bool := Ascii.eqb c "=".

(** [encode_name(url)] *)
Definition encode_name8 (url : string) : string :=
  rstrip_by is_pad (str_map urlsafe_enc_char (b2a_base64 url)).

(** ** Decoding *)

(** [table_a2b_base64]: the value of a character of the table. *)
Definition b64_value (c : ascii) : option Z :=
  let n := byte c in
  if (65 <=? n) && (n <=? 90) then Some (n - 65)
  else if (97 <=? n) && (n <=? 122) then Some (n - 71)
  else if (48 <=? n) && (n <=? 57) then Some (n + 4)
  else if n =? 43 then Some 62
  else if n =? 47 then Some 63
  else None.

Definition byte_of (v : Z) : ascii := ascii_of_N (Z.to_N v).

(** One data character at position [qp] of its quad, with the bits
    [left] kept from the previous one. *)
Definition a2b_data (v : Z) (qp : nat) (left : Z) (out : string) : nat * Z * string :=
  match qp with
  | O => (1%nat, v, out)
  | 1%nat => (2%nat, Z.land v 15, out +:+ String (byte_of (Z.lor (Z.shiftl left 2) (Z.shiftr v 4))) EmptyString)
  | 2%nat => (3%nat, Z.land v 3, out +:+ String (byte_of (Z.lor (Z.shiftl left 4) (Z.shiftr v 2))) EmptyString)
  | _ => (0%nat, 0, out +:+ String (byte_of (Z.lor (Z.shiftl left 6) v)) EmptyString)
  end.

(** The loop of [binascii.a2b_base64(s, strict_mode=False)]: a pad that
    completes a quad ends the input; other pads and characters outside the
    table are skipped; a quad left incomplete raises. *)
Fixpoint a2b_go (s : string) (qp pads : nat) (left : Z) (out : string) : option string :=
  match s with
  | EmptyString => if (qp =? 0)%nat then Some out else None
  | String c t =>
      if is_pad c then
        if (2 <=? qp)%nat then
          if (4 <=? qp + S pads)%nat then Some out else a2b_go t qp (S pads) left out
        else a2b_go t qp pads left out
      else
        match b64_value c with
        | None => a2b_go t qp pads left out
        | Some v => let '(qp', left', out') := a2b_data v qp left out in a2b_go t qp' 0 left' out'
        end
  end.

Definition a2b_base64 (s : string) : option string := a2b_go s 0 0 0 EmptyString.

(** [bytes.decode('utf-8')] succeeds: the well-formed UTF-8 sequences
    (no overlong form, no surrogate, nothing above U+10FFFF). *)
Fixpoint utf8_valid (s : string) : bool :=
  let cont (c : ascii) := ((128 <=? byte c) && (byte c <=? 191)) in
  let within (c : ascii) (lo hi : Z) := ((lo <=? byte c) && (byte c <=? hi)) in
  match s with
  | EmptyString => true
  | String a t =>
      let x := byte a in
      if x <? 128 then utf8_valid t
      else if (194 <=? x) && (x <=? 223) then
        match t with String b t' => cont b && utf8_valid t' | _ => false end
      else if (224 <=? x) && (x <=? 239) then
        match t with
        | String b (String c t') =>
            (if x =? 224 then within b 160 191 else if x =? 237 then within b 128 159 else cont b)
            && cont c && utf8_valid t'
        | _ => false
        end
      else if (240 <=? x) && (x <=? 244) then
        match t with
        | String b (String c (String d t')) =>
            (if x =? 240 then within b 144 191 else if x =? 244 then within b 128 143 else cont b)
            && cont c && cont d && utf8_valid t'
        | _ => false
        end
      else false
  end.

Fixpoint str_repeat (n : nat) (c : ascii) : string :=
  match n with O => EmptyString | S k => String c (str_repeat k c) end.

(** [-len(name) % 4] *)
Definition pad_count (n : nat) : nat := ((4 - n mod 4) mod 4)%nat.

(** [decode_name(name)] *)
Definition decode_name8 (name : string) : option string :=
  let padded := name +:+ str_repeat (pad_count (String.length name)) "=" in
  if negb (str_forall is_ascii padded) then None
  else
    match a2b_base64 (str_map urlsafe_dec_char padded) with
    | None => None
    | Some bytes => if utf8_valid bytes then Some bytes else None
    end.

(** ** Lemmas *)

(** The body of [b2a_base64], without its padding. *)
Fixpoint b2a_body (s : string) : string :=
  match s with
  | String a (String b (String c rest)) =>
      String (b64_char (Z.shiftr (byte a) 2))
     (String (b64_char (Z.lor (Z.shiftl (Z.land (byte a) 3) 4) (Z.shiftr (byte b) 4)))
     (String (b64_char (Z.lor (Z.shiftl (Z.land (byte b) 15) 2) (Z.shiftr (byte c) 6)))
     (String (b64_char (Z.land (byte c) 63)) (b2a_body rest))))
  | String a (String b EmptyString) =>
      String (b64_char (Z.shiftr (byte a) 2))
     (String (b64_char (Z.lor (Z.shiftl (Z.land (byte a) 3) 4) (Z.shiftr (byte b) 4)))
     (String (b64_char (Z.shiftl (Z.land (byte b) 15) 2)) EmptyString))
  | String a EmptyString =>
      String (b64_char (Z.shiftr (byte a) 2))
     (String (b64_char (Z.shiftl (Z.land (byte a) 3) 4)) EmptyString)
  | EmptyString => EmptyString
  end.

(** A character of the table: its value is [v], it is no pad, it is
    ASCII and the URL-safe translation maps it back. *)
Definition table_char (c : ascii) : bool :=
  negb (is_pad c) && is_ascii c && negb (Ascii.eqb c "-") && negb (Ascii.eqb c "_").

Definition good (v : Z) : bool :=
  match b64_value (b64_char v) with Some v' => v' =? v | None => false end && table_char (b64_char v).

(** Checking a property of every value below [n] by evaluation. *)
Definition all_below (n : nat) (P : Z -> bool) : bool := forallb P (map Z.of_nat (seq 0 n)).

Lemma all_below_spec n P x : all_below n P = true -> 0 <= x < Z.of_nat n -> P x = true.
Proof.
  unfold all_below. rewrite forallb_forall. intros H Hx. apply H.
  apply in_map_iff. exists (Z.to_nat x). split; [lia|]. apply in_seq. lia.
Qed.

Lemma byte_range c : 0 <= byte c < 256.
Proof. unfold byte. pose proof (N_ascii_bounded c). lia. Qed.

Lemma byte_of_byte c : byte_of (byte c) = c.
Proof. unfold byte_of, byte. by rewrite N2Z.id, ascii_N_embedding. Qed.

(** The first and second sextets of a group, and the first byte back. *)
Lemma sextets_ab (a b : ascii) :
  good (Z.shiftr (byte a) 2) = true /\
  good (Z.lor (Z.shiftl (Z.land (byte a) 3) 4) (Z.shiftr (byte b) 4)) = true /\
  Z.land (Z.lor (Z.shiftl (Z.land (byte a) 3) 4) (Z.shiftr (byte b) 4)) 15 = Z.shiftr (byte b) 4 /\
  Z.lor (Z.shiftl (Z.shiftr (byte a) 2) 2)
        (Z.shiftr (Z.lor (Z.shiftl (Z.land (byte a) 3) 4) (Z.shiftr (byte b) 4)) 4) = byte a.
Proof.
  assert (H : all_below 256 (fun x => all_below 256 (fun y =>
    good (Z.shiftr x 2) && good (Z.lor (Z.shiftl (Z.land x 3) 4) (Z.shiftr y 4)) &&
    (Z.land (Z.lor (Z.shiftl (Z.land x 3) 4) (Z.shiftr y 4)) 15 =? Z.shiftr y 4) &&
    (Z.lor (Z.shiftl (Z.shiftr x 2) 2) (Z.shiftr (Z.lor (Z.shiftl (Z.land x 3) 4) (Z.shiftr y 4)) 4) =? x)))
    = true) by (vm_compute; reflexivity).
  pose proof (all_below_spec 256 _ (byte a) H (byte_range a)) as Ha.
  pose proof (all_below_spec 256 _ (byte b) Ha (byte_range b)) as Hab.
  apply andb_prop in Hab as [Hab H4]. apply andb_prop in Hab as [Hab H3].
  apply andb_prop in Hab as [H1 H2]. apply Z.eqb_eq in H3, H4. auto.
Qed.

(** The third and fourth sextets, and the second and third bytes back. *)
Lemma sextets_bc (b c : ascii) :
  good (Z.lor (Z.shiftl (Z.land (byte b) 15) 2) (Z.shiftr (byte c) 6)) = true /\
  Z.shiftr (Z.lor (Z.shiftl (Z.land (byte b) 15) 2) (Z.shiftr (byte c) 6)) 2 = Z.land (byte b) 15 /\
  Z.land (Z.lor (Z.shiftl (Z.land (byte b) 15) 2) (Z.shiftr (byte c) 6)) 3 = Z.shiftr (byte c) 6.
Proof.
  assert (H : all_below 256 (fun x => all_below 256 (fun y =>
    good (Z.lor (Z.shiftl (Z.land x 15) 2) (Z.shiftr y 6)) &&
    (Z.shiftr (Z.lor (Z.shiftl (Z.land x 15) 2) (Z.shiftr y 6)) 2 =? Z.land x 15) &&
    (Z.land (Z.lor (Z.shiftl (Z.land x 15) 2) (Z.shiftr y 6)) 3 =? Z.shiftr y 6))) = true)
    by (vm_compute; reflexivity).
  pose proof (all_below_spec 256 _ (byte b) H (byte_range b)) as Hb.
  pose proof (all_below_spec 256 _ (byte c) Hb (byte_range c)) as Hbc.
  apply andb_prop in Hbc as [Hbc H3]. apply andb_prop in Hbc as [H1 H2].
  apply Z.eqb_eq in H2, H3. auto.
Qed.

(** One byte: the last sextet, the padding sextets and the bytes back. *)
Lemma sextets_one (c : ascii) :
  good (Z.land (byte c) 63) = true /\
  Z.lor (Z.shiftl (Z.shiftr (byte c) 6) 6) (Z.land (byte c) 63) = byte c /\
  Z.lor (Z.shiftl (Z.shiftr (byte c) 4) 4) (Z.land (byte c) 15) = byte c /\
  good (Z.shiftl (Z.land (byte c) 15) 2) = true /\
  Z.shiftr (Z.shiftl (Z.land (byte c) 15) 2) 2 = Z.land (byte c) 15 /\
  good (Z.shiftl (Z.land (byte c) 3) 4) = true /\
  Z.lor (Z.shiftl (Z.shiftr (byte c) 2) 2) (Z.shiftr (Z.shiftl (Z.land (byte c) 3) 4) 4) = byte c.
Proof.
  assert (H : all_below 256 (fun x =>
    good (Z.land x 63) && (Z.lor (Z.shiftl (Z.shiftr x 6) 6) (Z.land x 63) =? x) &&
    (Z.lor (Z.shiftl (Z.shiftr x 4) 4) (Z.land x 15) =? x) &&
    good (Z.shiftl (Z.land x 15) 2) && (Z.shiftr (Z.shiftl (Z.land x 15) 2) 2 =? Z.land x 15) &&
    good (Z.shiftl (Z.land x 3) 4) &&
    (Z.lor (Z.shiftl (Z.shiftr x 2) 2) (Z.shiftr (Z.shiftl (Z.land x 3) 4) 4) =? x)) = true)
    by (vm_compute; reflexivity).
  pose proof (all_below_spec 256 _ (byte c) H (byte_range c)) as Hc. cbv beta in Hc.
  repeat match type of Hc with (_ && _) = true => apply andb_prop in Hc as [Hc ?] end.
  rewrite !Z.eqb_eq in *. auto 10.
Qed.

(** Induction along the groups of three bytes of [b2a_base64]. *)
Lemma string_ind3 (P : string -> Prop) :
  P EmptyString -> (forall a, P (String a EmptyString)) ->
  (forall a b, P (String a (String b EmptyString))) ->
  (forall a b c rest, P rest -> P (String a (String b (String c rest)))) ->
  forall s, P s.
Proof.
  intros H0 H1 H2 H3. fix IH 1. intros [|a [|b [|c rest]]]; [exact H0|apply H1|apply H2|].
  apply H3, IH.
Qed.

Lemma good_spec v : good v = true -> b64_value (b64_char v) = Some v /\ table_char (b64_char v) = true.
Proof.
  unfold good. destruct (b64_value (b64_char v)) as [v'|]; [|done].
  intros [Hv Ht]%andb_prop. by apply Z.eqb_eq in Hv as ->.
Qed.

Lemma table_char_not_pad c : table_char c = true -> is_pad c = false.
Proof. unfold table_char. by destruct (is_pad c). Qed.

(** A table character is read as its value. *)
Lemma a2b_go_data v t qp pads left out :
  good v = true ->
  a2b_go (String (b64_char v) t) qp pads left out =
  let '(qp', left', out') := a2b_data v qp left out in a2b_go t qp' 0 left' out'.
Proof.
  intros [Hv Ht]%good_spec. simpl. by rewrite (table_char_not_pad _ Ht), Hv.
Qed.

Lemma app_one3 out a b c :
  ((out +:+ String a EmptyString) +:+ String b EmptyString) +:+ String c EmptyString =
  out +:+ String a (String b (String c EmptyString)).
Proof. by rewrite <- !append_assoc_str. Qed.

(** A group of three bytes decodes to itself. *)
Lemma a2b_group a b c rest out :
  a2b_go (b2a_base64 (String a (String b (String c rest)))) 0 0 0 out =
  a2b_go (b2a_base64 rest) 0 0 0 (out +:+ String a (String b (String c EmptyString))).
Proof.
  destruct (sextets_ab a b) as (G0 & G1 & E1 & D0). destruct (sextets_bc b c) as (G2 & E2 & E3).
  destruct (sextets_one c) as (G3 & D2 & _). destruct (sextets_one b) as (_ & _ & D1 & _).
  cbn [b2a_base64]. repeat (rewrite a2b_go_data by done; cbn [a2b_data]).
  rewrite E1, E2, E3, D0, D1, D2, !byte_of_byte. by rewrite app_one3.
Qed.

(** [b2a_base64] decodes to its input. *)
Lemma a2b_b2a s out : a2b_go (b2a_base64 s) 0 0 0 out = Some (out +:+ s).
Proof.
  revert out. induction s as [|a|a b|a b c rest IH] using string_ind3; intros out.
  - simpl. by rewrite append_empty_r.
  - destruct (sextets_one a) as (_ & _ & _ & _ & _ & G1 & D0).
    destruct (sextets_ab a a) as (G0 & _).
    cbn [b2a_base64]. repeat (rewrite a2b_go_data by done; cbn [a2b_data]). rewrite D0, byte_of_byte.
    reflexivity.
  - destruct (sextets_ab a b) as (G0 & G1 & E1 & D0). destruct (sextets_one b) as (_ & _ & D1 & G2 & E2 & _).
    cbn [b2a_base64]. repeat (rewrite a2b_go_data by done; cbn [a2b_data]). rewrite E1, E2, D0, D1, !byte_of_byte.
    simpl. by rewrite <- append_assoc_str.
  - rewrite a2b_group, IH. by rewrite <- append_assoc_str.
Qed.

Lemma pad_count_4 n : pad_count (S (S (S (S n)))) = pad_count n.
Proof. unfold pad_count. replace (S (S (S (S n)))) with (n + 1 * 4)%nat by lia. by rewrite Nat.Div0.mod_add. Qed.

(** The output of [b2a_base64] is its body and [-len(body) % 4] pads. *)
Lemma b2a_split s : b2a_base64 s = b2a_body s +:+ str_repeat (pad_count (String.length (b2a_body s))) "=".
Proof.
  induction s as [| | |a b c rest IH] using string_ind3; [done|done|done|].
  cbn [b2a_base64 b2a_body String.length]. rewrite pad_count_4, IH. done.
Qed.

Lemma b2a_body_table s : str_forall table_char (b2a_body s) = true.
Proof.
  induction s as [|a|a b|a b c rest IH] using string_ind3; simpl; [done| | |].
  - destruct (sextets_one a) as (_ & _ & _ & _ & _ & G1 & _). destruct (sextets_ab a a) as (G0 & _).
    apply good_spec in G0 as [_ ->], G1 as [_ ->]. done.
  - destruct (sextets_ab a b) as (G0 & G1 & _). destruct (sextets_one b) as (_ & _ & _ & G2 & _).
    apply good_spec in G0 as [_ ->], G1 as [_ ->], G2 as [_ ->]. done.
  - destruct (sextets_ab a b) as (G0 & G1 & _). destruct (sextets_bc b c) as (G2 & _).
    destruct (sextets_one c) as (G3 & _).
    apply good_spec in G0 as [_ ->], G1 as [_ ->], G2 as [_ ->], G3 as [_ ->]. done.
Qed.

(** The URL-safe translation of a table character: no pad, ASCII, and
    translated back to itself. *)
Lemma urlsafe_table_char c :
  implb (table_char c)
    (negb (is_pad (urlsafe_enc_char c)) && is_ascii (urlsafe_enc_char c) &&
     Ascii.eqb (urlsafe_dec_char (urlsafe_enc_char c)) c) = true.
Proof. ascii_cases c. Qed.

Lemma str_map_length f s : String.length (str_map f s) = String.length s.
Proof. induction s as [|c s IH]; simpl; congruence. Qed.

Lemma str_map_repeat f n c : f c = c -> str_map f (str_repeat n c) = str_repeat n c.
Proof. intros Hc. induction n as [|n IH]; simpl; congruence. Qed.

Lemma str_forall_repeat p n c : p c = true -> str_forall p (str_repeat n c) = true.
Proof. intros Hc. induction n as [|n IH]; simpl; [done|]. by rewrite Hc, IH. Qed.

Lemma urlsafe_body s :
  str_forall table_char s = true ->
  str_forall (fun c => negb (is_pad c)) (str_map urlsafe_enc_char s) = true /\
  str_forall is_ascii (str_map urlsafe_enc_char s) = true /\
  str_map urlsafe_dec_char (str_map urlsafe_enc_char s) = s.
Proof.
  induction s as [|c s IH]; simpl; [done|]. intros [Hc Hs]%andb_prop.
  destruct (IH Hs) as (H1 & H2 & H3). pose proof (urlsafe_table_char c) as Hu. rewrite Hc in Hu.
  simpl in Hu. apply andb_prop in Hu as [Hu H5]. apply andb_prop in Hu as [H4 H6].
  apply Ascii.eqb_eq in H5. rewrite H1, H2, H3, H4, H6, H5. auto.
Qed.

(** C33. crawler-updated8.py's [decode_name] inverts [encode_name]: the
    file name of every URL (every string that is valid UTF-8, as the
    encoding of a Python [str] is) decodes back to the URL. *)
Theorem decode_name_encode_name url :
  utf8_valid url = true -> decode_name8 (encode_name8 url) = Some url.
Proof.
  intros Hu. pose proof (b2a_body_table url) as Ht.
  destruct (urlsafe_body _ Ht) as (Hp & Ha & Hd).
  assert (Henc : encode_name8 url = str_map urlsafe_enc_char (b2a_body url)).
  { unfold encode_name8. rewrite b2a_split, str_map_app, (str_map_repeat _ _ "=") by done.
    apply rstrip_by_app_all; [done|]. by apply str_forall_repeat. }
  unfold decode_name8. rewrite Henc, str_map_length, str_forall_app, Ha, str_forall_repeat by done.
  simpl. rewrite str_map_app, Hd, (str_map_repeat _ _ "=") by done. rewrite <- b2a_split.
  unfold a2b_base64. rewrite a2b_b2a, str_app_nil, Hu. done.
Qed.

Lemma decode_name_encode_name_witness :
  utf8_valid "https://site.test/shop" = true /\
  decode_name8 (encode_name8 "https://site.test/shop") = Some "https://site.test/shop".
Proof.
  assert (H : utf8_valid "https://site.test/shop" = true) by reflexivity.
  split; [exact H|]. exact (decode_name_encode_name _ H).
Defined.
