(* ===== verification/Robots.v ===== *)
(** * The crawl delay of robots.txt: crawler-updated12.py, lines 38-44

    {v
    rp = RobotFileParser()
    rp.set_url(f"{seed.rstrip('/')}/robots.txt")
    try:
        rp.read()
    except:
        pass
    crawl_delay = rp.crawl_delay(hdrs['User-Agent']) or 0
    v}
    [RobotFileParser] is modelled from CPython 3.12's [urllib/robotparser.py]
    as far as [crawl_delay] depends on it: [read] ([robots_read]) decodes a
    2xx body as UTF-8 and [parse]s its [splitlines()]; an error response,
    an unreachable host or a body that is not UTF-8 leaves the parser
    unread, and [crawl_delay] of an unread parser is [None].  [parse]
    ([robots_parse]) is the three-state machine over the lines, with
    [urllib.parse.unquote] of every value ([py_unquote]: percent-decoding
    of the ASCII runs, then UTF-8 decoding with [errors='replace']).  An
    exception inside [parse] ([int()] of a digit that is not decimal, or
    [urlparse] of a rule path) ends it, keeping the entries added so far,
    and is swallowed by the bare [except].  The [Allow]/[Disallow] rules
    and the request rates are kept only for the exceptions they raise:
    [crawl_delay] does not read them.  [str.lower] and the digit tables
    come from the [CaseMap] and [CharClasses] parameters. *)

From S2P Require Import Prelude Url Fetcher Tokens Vocab Ledger Base64.

(** ** Data *)

(** What [urllib.request.urlopen(self.url)] gives [read()]. *)
Inductive robots_response :=
| RobotsUnreachable
| RobotsHTTPError (code : Z)
| RobotsBody (raw : string).

(** An [Entry]: its user agents, in order, and its [delay]. *)
Record robots_entry := RobotsEntry { re_agents : list string; re_delay : option Z }.

(** The parser's [entries], [default_entry], and whether [parse] ran
    ([mtime()] is not 0). *)
Record robots_parser := RobotsParser {
  rp_entries : list robots_entry; rp_default : option robots_entry; rp_checked : bool }.

Definition new_entry : robots_entry := RobotsEntry [] None.
Definition robots_init : robots_parser := RobotsParser [] None false.

(** [hdrs['User-Agent']], lines 16-22. *)
Definition user_agent : string :=
  "Mozilla/5.0 (Windows NT 10.0; Win64; x64) AppleWebKit/537.36 (KHTML, like Gecko) Chrome/120.0.0.0 Safari/537.36".

(** ** [urllib.parse.unquote] *)

(** U+FFFD in UTF-8. *)
Definition replacement_char : string :=
  String (ascii_of_N 239) (String (ascii_of_N 191) (String (ascii_of_N 189) EmptyString)).

Definition in_range (lo hi : N) (c : ascii) : bool := ((lo <=? N_of_ascii c) && (N_of_ascii c <=? hi))%N.

(** The continuation bytes a UTF-8 lead byte asks for, and the range of
    the first of them. *)
Definition lead_info (x : N) : option (nat * N * N) :=
  if ((194 <=? x) && (x <=? 223))%N then Some (1%nat, 128%N, 191%N)
  else if (x =? 224)%N then Some (2%nat, 160%N, 191%N)
  else if ((225 <=? x) && (x <=? 236))%N then Some (2%nat, 128%N, 191%N)
  else if (x =? 237)%N then Some (2%nat, 128%N, 159%N)
  else if ((238 <=? x) && (x <=? 239))%N then Some (2%nat, 128%N, 191%N)
  else if (x =? 240)%N then Some (3%nat, 144%N, 191%N)
  else if ((241 <=? x) && (x <=? 243))%N then Some (3%nat, 128%N, 191%N)
  else if (x =? 244)%N then Some (3%nat, 128%N, 143%N)
  else None.

(** [bytes.decode('utf-8', 'replace')]: every maximal invalid subpart
    becomes one U+FFFD. *)
Fixpoint decode_replace (s : string) : string :=
  match s with
  | EmptyString => EmptyString
  | String a t =>
      let x := N_of_ascii a in
      if (x <? 128)%N then String a (decode_replace t)
      else match lead_info x with
           | None => replacement_char +:+ decode_replace t
           | Some (n, lo, hi) =>
               match t with
               | String b t1 =>
                   if in_range lo hi b then
                     match n with
                     | 1%nat => String a (String b (decode_replace t1))
                     | _ =>
                         match t1 with
                         | String c t2 =>
                             if in_range 128 191 c then
                               match n with
                               | 2%nat => String a (String b (String c (decode_replace t2)))
                               | _ =>
                                   match t2 with
                                   | String d t3 =>
                                       if in_range 128 191 d
                                       then String a (String b (String c (String d (decode_replace t3))))
                                       else replacement_char +:+ decode_replace t2
                                   | EmptyString => replacement_char
                                   end
                               end
                             else replacement_char +:+ decode_replace t1
                         | EmptyString => replacement_char
                         end
                     end
                   else replacement_char +:+ decode_replace t
               | EmptyString => replacement_char
               end
           end
  end.

(** [_unquote_impl]: each [%XX] of two hex digits becomes its byte. *)
Fixpoint pct_decode (s : string) : string :=
  match s with
  | EmptyString => EmptyString
  | String c t =>
      if Ascii.eqb c "%" then
        match t with
        | String h1 (String h2 t') =>
            match hex_value h1, hex_value h2 with
            | Some a, Some b => String (ascii_of_N (16 * a + b)) (pct_decode t')
            | _, _ => String c (pct_decode t)
            end
        | _ => String c (pct_decode t)
        end
      else String c (pct_decode t)
  end.

(** [_generate_unquoted_parts]: the ASCII runs are decoded, the other
    characters kept; [run] is the current ASCII run. *)
Fixpoint unquote_go (s run : string) : string :=
  match s with
  | EmptyString => decode_replace (pct_decode run)
  | String c t =>
      if is_ascii c then unquote_go t (run +:+ String c EmptyString)
      else decode_replace (pct_decode run) +:+ String c (unquote_go t EmptyString)
  end.

(** [unquote(string)] *)
Definition py_unquote (s : string) : string :=
  if str_has "%" s then unquote_go s EmptyString else s.

(** ** [str.splitlines()] on UTF-8 bytes *)

(** A line boundary of one byte other than [\r]: [\n], [\v], [\f] and
    the separators [\x1c]-[\x1e]. *)
Definition is_line_break1 (c : ascii) : bool :=
  let n := N_of_ascii c in ((n =? 10) || (n =? 11) || (n =? 12) || ((28 <=? n) && (n <=? 30)))%N.

(** [cur] is the current line; [\r\n], [\r], U+0085, U+2028 and U+2029
    also end a line. *)
Fixpoint splitlines_go (s cur : string) : list string :=
  match s with
  | EmptyString => if is_empty cur then [] else [cur]
  | String c t =>
      if (N_of_ascii c =? 13)%N then
        match t with
        | String d t' => if (N_of_ascii d =? 10)%N then cur :: splitlines_go t' EmptyString
                         else cur :: splitlines_go t EmptyString
        | EmptyString => [cur]
        end
      else if is_line_break1 c then cur :: splitlines_go t EmptyString
      else
        match t with
        | String d t' =>
            if ((N_of_ascii c =? 194) && (N_of_ascii d =? 133))%N then cur :: splitlines_go t' EmptyString
            else match t' with
                 | String e t'' =>
                     if ((N_of_ascii c =? 226) && (N_of_ascii d =? 128) &&
                         ((N_of_ascii e =? 168) || (N_of_ascii e =? 169)))%N
                     then cur :: splitlines_go t'' EmptyString
                     else splitlines_go t (cur +:+ String c EmptyString)
                 | EmptyString => splitlines_go t (cur +:+ String c EmptyString)
                 end
        | EmptyString => splitlines_go t (cur +:+ String c EmptyString)
        end
  end.

Definition py_splitlines (s : string) : list string := splitlines_go s EmptyString.

(** [l1 in l2] on code points. *)
Fixpoint cp_prefix (l1 l2 : list N) : bool :=
  match l1, l2 with
  | [], _ => true
  | a :: l1', b :: l2' => (a =? b)%N && cp_prefix l1' l2'
  | _, [] => false
  end.

Fixpoint cp_infix (l1 l2 : list N) : bool :=
  cp_prefix l1 l2 || match l2 with [] => false | _ :: l2' => cp_infix l1 l2' end.

Section Parser.
Context `{CC : CharClasses} `{CM : CaseMap}.

(** ** [str.isdigit()] and [int()] *)

Definition py_isdigit (s : string) : bool :=
  let cps := utf8_cps s in negb (bool_decide (cps = [])) && forallb is_digit cps.

(** [int(s)] for a string whose [strip()] is made of digits; [None] is
    the [ValueError] of a digit that is not decimal or of more than
    [INT_MAX_STR_DIGITS] digits. *)
Definition py_int (s : string) : option Z :=
  let cps := utf8_cps (py_strip s) in
  if (length cps <=? INT_MAX_STR_DIGITS)%nat then
    fold_left (fun acc c => match acc, digit_value c with
                            | Some a, Some d => Some (10 * a + Z.of_N d)%Z
                            | _, _ => None
                            end) cps (Some 0%Z)
  else None.

(** ** [RobotFileParser.parse] *)

(** [_add_entry]: the first entry for [*] is the default one. *)
Definition add_entry (rp : robots_parser) (e : robots_entry) : robots_parser :=
  if bool_decide ("*" ∈ re_agents e) then
    match rp_default rp with
    | None => RobotsParser (rp_entries rp) (Some e) (rp_checked rp)
    | Some _ => rp
    end
  else RobotsParser (rp_entries rp ++ [e]) (rp_default rp) (rp_checked rp).

Definition key_is (key : string) (name : string) : bool :=
  bool_decide (py_lower (utf8_cps (py_strip key)) = utf8_cps name).

(** The fields of a line [k:v0] ([if len(line) == 2:]): [None] when
    the field raises. *)
Definition parse_field (k v0 : string) (state : nat) (entry : robots_entry) (rp : robots_parser)
    : option (nat * robots_entry * robots_parser) :=
  let v := py_unquote (py_strip v0) in
  if key_is k "user-agent" then
    let '(entry, rp) :=
      if (state =? 2)%nat then (new_entry, add_entry rp entry) else (entry, rp) in
    Some (1%nat, RobotsEntry (re_agents entry ++ [v]) (re_delay entry), rp)
  else if key_is k "disallow" || key_is k "allow" then
    if (state =? 0)%nat then Some (state, entry, rp)
    else match urlparse v with
         | None => None
         | Some _ => Some (2%nat, entry, rp)
         end
  else if key_is k "crawl-delay" then
    if (state =? 0)%nat then Some (state, entry, rp)
    else if py_isdigit (py_strip v) then
      match py_int v with
      | None => None
      | Some d => Some (2%nat, RobotsEntry (re_agents entry) (Some d), rp)
      end
    else Some (2%nat, entry, rp)
  else if key_is k "request-rate" then
    if (state =? 0)%nat then Some (state, entry, rp)
    else match split_on "/" v with
         | [n0; n1] =>
             if py_isdigit (py_strip n0) && py_isdigit (py_strip n1) then
               match py_int n0, py_int n1 with
               | Some _, Some _ => Some (2%nat, entry, rp)
               | _, _ => None
               end
             else Some (2%nat, entry, rp)
         | _ => Some (2%nat, entry, rp)
         end
  else Some (state, entry, rp).

(** One line for the parser in [state] with the current [entry]:
    a blank line ends a group, the comment and the spaces are cut, and a
    line with a colon is a field. *)
Definition parse_line (line : string) (state : nat) (entry : robots_entry) (rp : robots_parser)
    : option (nat * robots_entry * robots_parser) :=
  let '(state, entry, rp) :=
    if is_empty line then
      match state with
      | 1%nat => (0%nat, new_entry, rp)
      | 2%nat => (0%nat, new_entry, add_entry rp entry)
      | _ => (state, entry, rp)
      end
    else (state, entry, rp) in
  let l := py_strip (fst (break_at (Ascii.eqb "#") line)) in
  if is_empty l || negb (str_has ":" l) then Some (state, entry, rp)
  else let '(k, v0) := split_once ":" l in parse_field k v0 state entry rp.

Fixpoint parse_go (lines : list string) (state : nat) (entry : robots_entry) (rp : robots_parser)
    : robots_parser :=
  match lines with
  | [] => if (state =? 2)%nat then add_entry rp entry else rp
  | l :: rest =>
      match parse_line l state entry rp with
      | None => rp
      | Some (state', entry', rp') => parse_go rest state' entry' rp'
      end
  end.

(** [parse(lines)]: [modified()], then the lines. *)
Definition robots_parse (lines : list string) (rp : robots_parser) : robots_parser :=
  parse_go lines 0 new_entry (RobotsParser (rp_entries rp) (rp_default rp) true).

(** [read()] on a fresh parser. *)
Definition robots_read (resp : robots_response) : robots_parser :=
  match resp with
  | RobotsBody raw => if utf8_valid raw then robots_parse (py_splitlines raw) robots_init else robots_init
  | _ => robots_init
  end.

(** ** [crawl_delay] *)

(** [Entry.applies_to(useragent)] *)
Definition applies_to (e : robots_entry) (useragent : string) : bool :=
  let ua := py_lower (utf8_cps (fst (split_once "/" useragent))) in
  existsb (fun agent => String.eqb agent "*" || cp_infix (py_lower (utf8_cps agent)) ua) (re_agents e).

(** [crawl_delay(useragent)] *)
Definition robots_crawl_delay (rp : robots_parser) (useragent : string) : option Z :=
  if negb (rp_checked rp) then None
  else match List.find (fun e => applies_to e useragent) (rp_entries rp) with
       | Some e => re_delay e
       | None => match rp_default rp with Some e => re_delay e | None => None end
       end.

End Parser.

(** A [robots.txt] of one group, [User-agent: agent] and
    [Crawl-delay: delay], each line ended by a newline. *)
Definition robots_group (agent delay : string) : string :=
  "User-agent: " +:+ agent +:+ String newline ("Crawl-delay: " +:+ delay +:+ String newline EmptyString).

(** A delay of 4301 digits, one more than [int()] accepts. *)
Definition long_delay : string := String.string_of_list_ascii (repeat "1"%char 4301).

(** Bytes that [splitlines()] keeps inside a line, and bytes of a field
    value that [strip()], the comment cut and [unquote] keep. *)
Definition line_char (c : ascii) : bool := is_ascii c && negb (is_line_break1 c) && negb (N_of_ascii c =? 13)%N.
Definition value_char (c : ascii) : bool := ascii_nonspace c && negb (Ascii.eqb c "#") && negb (Ascii.eqb c "%").
Definition key_char (c : ascii) : bool := value_char c && negb (Ascii.eqb c ":").

(** Every delay the parser holds is non-negative. *)
Definition delay_ok (e : robots_entry) : Prop := forall d, re_delay e = Some d -> (0 <= d)%Z.
Definition parser_ok (rp : robots_parser) : Prop :=
  Forall delay_ok (rp_entries rp) /\ (forall e, rp_default rp = Some e -> delay_ok e).

(** ** Theorems *)

Ltac char_impl := let H := fresh in
  intros ? H; match goal with c : ascii |- _ => destruct c as [[] [] [] [] [] [] [] []] end;
  vm_compute in H |- *; congruence.

Lemma value_char_line c : value_char c = true -> line_char c = true.
Proof. revert c. char_impl. Qed.
Lemma value_char_nonspace c : value_char c = true -> ascii_nonspace c = true.
Proof. revert c. char_impl. Qed.
Lemma value_char_hash c : value_char c = true -> negb (Ascii.eqb "#" c) = true.
Proof. revert c. char_impl. Qed.
Lemma value_char_pct c : value_char c = true -> negb (Ascii.eqb "%" c) = true.
Proof. revert c. char_impl. Qed.
Lemma key_char_value c : key_char c = true -> value_char c = true.
Proof. revert c. char_impl. Qed.
Lemma key_char_colon c : key_char c = true -> negb (Ascii.eqb ":" c) = true.
Proof. revert c. char_impl. Qed.
Lemma digit_value_char c : is_ascii_digit c = true -> value_char c = true.
Proof. revert c. char_impl. Qed.
Lemma nonspace_ascii c : ascii_nonspace c = true -> is_ascii c = true.
Proof. revert c. char_impl. Qed.
Lemma value_char_ascii c : value_char c = true -> is_ascii c = true.
Proof. revert c. char_impl. Qed.

#[export] Hint Resolve value_char_line value_char_nonspace value_char_hash value_char_pct
  key_char_value key_char_colon digit_value_char nonspace_ascii value_char_ascii : crawl.

Lemma is_ascii_digit_range c : is_ascii_digit c = true -> (48 <= N_of_ascii c <= 57)%N.
Proof. unfold is_ascii_digit. intros [H1%N.leb_le H2%N.leb_le]%andb_prop. done. Qed.

Lemma str_has_avoid x s : str_forall (fun c => negb (Ascii.eqb x c)) s = true -> str_has x s = false.
Proof.
  induction s as [|c t IH]; [done|]. simpl. intros [Hc Ht]%andb_prop.
  apply negb_true_iff in Hc. by rewrite Hc, IH.
Qed.

Lemma str_has_app_hit x s t : str_has x (s +:+ String x t) = true.
Proof. induction s as [|c u IH]; str_simpl; [by rewrite Ascii.eqb_refl|by rewrite IH, orb_true_r]. Qed.

(** ASCII text is valid UTF-8 and its code points are its bytes. *)
Lemma utf8_valid_ascii s : str_forall is_ascii s = true -> utf8_valid s = true.
Proof.
  induction s as [|a t IH]; [done|]. simpl. intros [Ha Ht]%andb_prop.
  unfold is_ascii in Ha. apply N.ltb_lt in Ha.
  assert (Hb : (byte a <? 128)%Z = true) by (unfold byte; lia). rewrite Hb. auto.
Qed.

Lemma utf8_cps_ascii s :
  str_forall is_ascii s = true -> utf8_cps s = map N_of_ascii (String.list_ascii_of_string s).
Proof.
  induction s as [|a t IH]; [done|]. simpl. intros [Ha Ht]%andb_prop.
  unfold is_ascii in Ha. rewrite Ha. f_equal. auto.
Qed.

Lemma ascii_cps_small s :
  str_forall is_ascii s = true -> Forall (fun c => (c < 128)%N) (map N_of_ascii (String.list_ascii_of_string s)).
Proof.
  induction s as [|a t IH]; simpl; [constructor|]. intros [Ha Ht]%andb_prop.
  unfold is_ascii in Ha. apply N.ltb_lt in Ha. constructor; auto.
Qed.

(** A value without [%] is not unquoted. *)
Lemma py_unquote_keep s : str_has "%" s = false -> py_unquote s = s.
Proof. unfold py_unquote. by intros ->. Qed.

(** [str.splitlines()] on lines of plain bytes, each ended by [\n]. *)
Lemma splitlines_go_plain c s cur :
  line_char c = true -> splitlines_go (String c s) cur = splitlines_go s (cur +:+ String c EmptyString).
Proof.
  unfold line_char, is_ascii. intros [[Ha%N.ltb_lt Hb%negb_true_iff]%andb_prop Hr%negb_true_iff]%andb_prop.
  assert (H194 : (N_of_ascii c =? 194)%N = false) by (apply N.eqb_neq; lia).
  assert (H226 : (N_of_ascii c =? 226)%N = false) by (apply N.eqb_neq; lia).
  simpl. rewrite Hr, Hb. destruct s as [|d [|e s']]; [done|rewrite H194; done|rewrite H194, H226; done].
Qed.

Lemma splitlines_go_line a rest cur :
  str_forall line_char a = true ->
  splitlines_go (a +:+ String newline rest) cur = (cur +:+ a) :: splitlines_go rest EmptyString.
Proof.
  revert cur. induction a as [|c t IH]; intros cur Ha.
  - by rewrite str_app_nil, append_empty_r.
  - simpl in Ha. apply andb_prop in Ha as [Hc Ht].
    rewrite str_app_cons, splitlines_go_plain, IH by done.
    by rewrite <- append_assoc_str.
Qed.

Section RobotsFacts.
Context `{CC : CharClasses} `{CM : CaseMap}.

(** A key of ASCII non-spaces is compared after the ASCII lower-casing. *)
Lemma key_is_ascii k name :
  str_forall ascii_nonspace k = true ->
  key_is k name = bool_decide (map ascii_lower_cp (map N_of_ascii (String.list_ascii_of_string k)) = utf8_cps name).
Proof.
  intros Hk. assert (Ha : str_forall is_ascii k = true) by eauto with crawl.
  unfold key_is. rewrite py_strip_noop, utf8_cps_ascii, lower_ascii by auto using ascii_cps_small. done.
Qed.

Ltac key_eval := rewrite key_is_ascii by reflexivity; reflexivity.

Lemma key_user_agent : key_is "User-agent" "user-agent" = true.
Proof. key_eval. Qed.
Lemma key_delay_agent : key_is "Crawl-delay" "user-agent" = false.
Proof. key_eval. Qed.
Lemma key_delay_disallow : key_is "Crawl-delay" "disallow" = false.
Proof. key_eval. Qed.
Lemma key_delay_allow : key_is "Crawl-delay" "allow" = false.
Proof. key_eval. Qed.
Lemma key_delay_delay : key_is "Crawl-delay" "crawl-delay" = true.
Proof. key_eval. Qed.

(** [isdigit()] and [int()] of ASCII digits: the decimal value. *)
Lemma py_isdigit_ascii d :
  d <> EmptyString -> str_forall is_ascii_digit d = true -> py_isdigit d = true.
Proof.
  intros Hne Hd. unfold py_isdigit. rewrite utf8_cps_ascii by eauto with crawl.
  destruct d as [|c t]; [done|]. rewrite bool_decide_false by done. simpl.
  clear Hne. revert c Hd. induction t as [|c' t IH]; intros c Hd; simpl in Hd; apply andb_prop in Hd as [Hc Ht].
  - simpl. apply is_ascii_digit_range in Hc. by rewrite (proj1 (ascii_digit _ Hc)).
  - simpl. apply is_ascii_digit_range in Hc. rewrite (proj1 (ascii_digit _ Hc)). apply (IH c'). done.
Qed.

Lemma py_int_go d acc :
  str_forall is_ascii_digit d = true ->
  fold_left (fun acc c => match acc, digit_value c with
                          | Some a, Some d => Some (10 * a + Z.of_N d)%Z
                          | _, _ => None
                          end) (map N_of_ascii (String.list_ascii_of_string d)) (Some acc) =
  Some (decimal_go d acc).
Proof.
  revert acc. induction d as [|c t IH]; intros acc Hd; [done|]. simpl in Hd. apply andb_prop in Hd as [Hc Ht].
  apply is_ascii_digit_range in Hc. simpl. rewrite (proj2 (ascii_digit _ Hc)).
  rewrite IH by done. f_equal. f_equal. rewrite N2Z.inj_sub by lia. lia.
Qed.

Lemma length_ascii_cps d :
  str_forall is_ascii d = true -> length (utf8_cps d) = String.length d.
Proof.
  intros Hd. rewrite utf8_cps_ascii by done. rewrite length_map.
  clear Hd. induction d as [|c t IH]; [done|]. simpl. by rewrite IH.
Qed.

Lemma py_int_ascii d :
  str_forall is_ascii_digit d = true -> (String.length d <= INT_MAX_STR_DIGITS)%nat ->
  py_int d = Some (decimal_value d).
Proof.
  intros Hd Hlen. unfold py_int. rewrite py_strip_noop by eauto with crawl.
  rewrite length_ascii_cps by eauto with crawl. rewrite (proj2 (Nat.leb_le _ _) Hlen).
  rewrite utf8_cps_ascii by eauto with crawl. by apply py_int_go.
Qed.

(** [int()] of more than [INT_MAX_STR_DIGITS] ASCII digits raises. *)
Lemma py_int_too_long d :
  str_forall is_ascii_digit d = true -> (INT_MAX_STR_DIGITS < String.length d)%nat -> py_int d = None.
Proof.
  intros Hd Hlen. unfold py_int. rewrite py_strip_noop by eauto with crawl.
  rewrite length_ascii_cps by eauto with crawl. by rewrite (proj2 (Nat.leb_gt _ _) Hlen).
Qed.

(** A line [k: v] with a plain key and value is the field [k] with
    value [v]. *)
Lemma parse_line_field k v st e rp :
  k <> EmptyString -> str_forall key_char k = true ->
  v <> EmptyString -> str_forall value_char v = true ->
  parse_line (k +:+ String ":" (String " " v)) st e rp = parse_field k (String " " v) st e rp.
Proof.
  intros Hk Hkc Hv Hvc. destruct k as [|c k']; [done|]. simpl in Hkc. apply andb_prop in Hkc as [Hc Hk'].
  unfold parse_line. rewrite str_app_cons. cbn [is_empty String.eqb].
  assert (Hkv : str_forall value_char k' = true) by eauto with crawl.
  rewrite break_at_none.
  2: { simpl. rewrite str_forall_app. simpl. apply andb_true_intro; split; [eauto with crawl|].
       apply andb_true_intro; split; eauto with crawl. }
  cbn [fst]. replace (k' +:+ String ":" (String " " v)) with ((k' +:+ String ":" (String " " EmptyString)) +:+ v)
    by (rewrite <- append_assoc_str; done).
  rewrite py_strip_keep by eauto with crawl. cbn [is_empty String.eqb].
  rewrite <- append_assoc_str, !str_app_cons, str_app_nil, <- str_app_cons, str_has_app_hit. simpl orb.
  unfold split_once. rewrite break_at_app_hit; [done| |apply Ascii.eqb_refl].
  cbn [str_forall]. apply andb_true_intro; split; [by apply key_char_colon|eauto with crawl].
Qed.

(** The [User-agent] field: the group ends if a rule came before, and
    the agent is added. *)
Lemma parse_field_agent v st e rp :
  str_forall value_char v = true ->
  parse_field "User-agent" (String " " v) st e rp =
    let '(e', rp') := if (st =? 2)%nat then (new_entry, add_entry rp e) else (e, rp) in
    Some (1%nat, RobotsEntry (re_agents e' ++ [v]) (re_delay e'), rp').
Proof.
  intros Hv. unfold parse_field. rewrite py_strip_space, py_strip_noop by eauto with crawl.
  rewrite py_unquote_keep by (apply str_has_avoid; eauto with crawl).
  by rewrite key_user_agent.
Qed.

(** The [Crawl-delay] field of ASCII digits inside a group sets the
    group's delay to their decimal value. *)
Lemma parse_field_delay_int d st e rp :
  d <> EmptyString -> str_forall is_ascii_digit d = true -> st <> 0%nat ->
  parse_field "Crawl-delay" (String " " d) st e rp =
    match py_int d with
    | None => None
    | Some n => Some (2%nat, RobotsEntry (re_agents e) (Some n), rp)
    end.
Proof.
  intros Hne Hd Hst. assert (Hv : str_forall value_char d = true) by eauto with crawl.
  unfold parse_field. rewrite py_strip_space, py_strip_noop by eauto with crawl.
  rewrite py_unquote_keep by (apply str_has_avoid; eauto with crawl).
  rewrite key_delay_agent, key_delay_disallow, key_delay_allow, key_delay_delay. simpl orb.
  destruct (Nat.eqb_spec st 0); [done|].
  rewrite py_strip_noop by eauto with crawl. by rewrite py_isdigit_ascii.
Qed.

Lemma parse_field_delay d st e rp :
  d <> EmptyString -> str_forall is_ascii_digit d = true -> (String.length d <= INT_MAX_STR_DIGITS)%nat ->
  st <> 0%nat ->
  parse_field "Crawl-delay" (String " " d) st e rp =
    Some (2%nat, RobotsEntry (re_agents e) (Some (decimal_value d)), rp).
Proof. intros. rewrite parse_field_delay_int by done. by rewrite py_int_ascii. Qed.

Lemma parse_go_cons l rest st e rp st' e' rp' :
  parse_line l st e rp = Some (st', e', rp') -> parse_go (l :: rest) st e rp = parse_go rest st' e' rp'.
Proof. intros H. cbn [parse_go]. by rewrite H. Qed.

(** The lines [read()] gives [parse] for a [robots.txt] of one group. *)
Lemma robots_read_group agent d :
  str_forall value_char agent = true -> str_forall value_char d = true ->
  robots_read (RobotsBody (robots_group agent d)) =
    parse_go ["User-agent" +:+ String ":" (String " " agent); "Crawl-delay" +:+ String ":" (String " " d)]
      0 new_entry (RobotsParser [] None true).
Proof.
  intros Hac Hdv.
  assert (Haa : str_forall is_ascii agent = true) by eauto with crawl.
  assert (Hda : str_forall is_ascii d = true) by eauto with crawl.
  unfold robots_read, robots_group. rewrite utf8_valid_ascii.
  2: { rewrite !str_forall_app. simpl. rewrite str_app_nil, !str_forall_app, Haa, Hda. done. }
  unfold py_splitlines. rewrite append_assoc_str, splitlines_go_line.
  2: { rewrite str_forall_app. apply andb_true_intro; split; [done|eauto with crawl]. }
  rewrite str_app_nil, append_assoc_str, splitlines_go_line.
  2: { rewrite str_forall_app. apply andb_true_intro; split; [done|eauto with crawl]. }
  rewrite !str_app_nil. done.
Qed.

(** The first line of that group opens it for [agent]. *)
Lemma parse_go_group_agent agent rest :
  agent <> EmptyString -> str_forall value_char agent = true ->
  parse_go (("User-agent" +:+ String ":" (String " " agent)) :: rest) 0 new_entry (RobotsParser [] None true) =
  parse_go rest 1 (RobotsEntry [agent] None) (RobotsParser [] None true).
Proof.
  intros Ha Hac. apply parse_go_cons.
  rewrite parse_line_field by (done || reflexivity). by rewrite parse_field_agent.
Qed.

(** C15. [crawl_delay] reads the [Crawl-delay] of the group that applies:
    for a [robots.txt] of one group, [User-agent: agent] (a plain token,
    [*] included) and [Crawl-delay: d] with [d] at most
    [INT_MAX_STR_DIGITS] ASCII digits, the parser that [read()] leaves
    gives the decimal value of [d] to every user agent the group applies
    to, from the default entry when the agent is [*] and from [entries]
    otherwise. *)
Theorem robots_group_delay agent d ua :
  agent <> EmptyString -> str_forall value_char agent = true ->
  d <> EmptyString -> str_forall is_ascii_digit d = true -> (String.length d <= INT_MAX_STR_DIGITS)%nat ->
  applies_to (RobotsEntry [agent] None) ua = true ->
  robots_crawl_delay (robots_read (RobotsBody (robots_group agent d))) ua = Some (decimal_value d).
Proof.
  intros Ha Hac Hd Hdc Hlen Happ.
  assert (Hdv : str_forall value_char d = true) by eauto with crawl.
  rewrite robots_read_group, parse_go_group_agent by done.
  rewrite (parse_go_cons _ _ _ _ _ 2%nat (RobotsEntry [agent] (Some (decimal_value d))) (RobotsParser [] None true)).
  2: { rewrite parse_line_field by (done || reflexivity). by rewrite parse_field_delay. }
  cbn [parse_go Nat.eqb]. unfold add_entry, robots_crawl_delay.
  case_bool_decide; [done|]. cbn -[applies_to].
  change (applies_to (RobotsEntry [agent] (Some (decimal_value d))) ua) with (applies_to (RobotsEntry [agent] None) ua).
  by rewrite Happ.
Qed.

(** C16. A [Crawl-delay] of more than [INT_MAX_STR_DIGITS] ASCII digits
    passes [isdigit()] but makes [int()] raise inside [parse]; the bare
    [except] of line 43 swallows it and the group being parsed is lost,
    so [crawl_delay] gives [None] for every user agent and the crawler
    uses no delay. *)
Theorem robots_delay_too_long agent d ua :
  agent <> EmptyString -> str_forall value_char agent = true ->
  d <> EmptyString -> str_forall is_ascii_digit d = true -> (INT_MAX_STR_DIGITS < String.length d)%nat ->
  robots_crawl_delay (robots_read (RobotsBody (robots_group agent d))) ua = None.
Proof.
  intros Ha Hac Hd Hdc Hlen.
  assert (Hdv : str_forall value_char d = true) by eauto with crawl.
  rewrite robots_read_group, parse_go_group_agent by done. cbn [parse_go].
  rewrite parse_line_field by (done || reflexivity).
  rewrite parse_field_delay_int, py_int_too_long by done. done.
Qed.

Lemma py_int_nonneg s d : py_int s = Some d -> (0 <= d)%Z.
Proof.
  unfold py_int.
  assert (Hg : forall l o, (forall a, o = Some a -> 0 <= a)%Z ->
     fold_left (fun acc c => match acc, digit_value c with
                             | Some a, Some d => Some (10 * a + Z.of_N d)%Z
                             | _, _ => None
                             end) l o = Some d -> (0 <= d)%Z).
  { induction l as [|c l IH]; intros o Ho; [by apply Ho|]. simpl. apply IH.
    intros a Ha. destruct o as [a0|], (digit_value c) as [n|]; simplify_eq. specialize (Ho a0 eq_refl). lia. }
  cbv zeta. case_match; [|done]. apply Hg. intros a [=<-]. lia.
Qed.

Lemma new_entry_ok : delay_ok new_entry.
Proof. by intros d. Qed.

Lemma add_entry_ok rp e : parser_ok rp -> delay_ok e -> parser_ok (add_entry rp e).
Proof.
  intros [He Hd] Ho. unfold add_entry. case_bool_decide.
  - destruct (rp_default rp) eqn:E; [split; [done|]; intros ? ?; apply Hd; congruence|]. split; [done|]. by intros ? [=<-].
  - split; [apply Forall_app; auto|done].
Qed.

#[local] Hint Resolve new_entry_ok add_entry_ok : crawl.

Lemma parse_field_ok k v st e rp st' e' rp' :
  parser_ok rp -> delay_ok e -> parse_field k v st e rp = Some (st', e', rp') -> parser_ok rp' /\ delay_ok e'.
Proof.
  intros Hp He. unfold parse_field.
  repeat case_match; intros; simplify_eq; split; eauto with crawl; try done.
  - intros x. simpl. intros [=<-]. by eapply py_int_nonneg.
Qed.

Lemma parse_line_ok l st e rp st' e' rp' :
  parser_ok rp -> delay_ok e -> parse_line l st e rp = Some (st', e', rp') -> parser_ok rp' /\ delay_ok e'.
Proof.
  intros Hp He. unfold parse_line.
  destruct (_ : nat * robots_entry * robots_parser) as [[st1 e1] rp1] eqn:E.
  assert (H1 : parser_ok rp1 /\ delay_ok e1) by (repeat case_match; simplify_eq; eauto with crawl).
  destruct H1. repeat case_match; intros; simplify_eq; eauto using parse_field_ok.
Qed.

Lemma parse_go_ok lines st e rp : parser_ok rp -> delay_ok e -> parser_ok (parse_go lines st e rp).
Proof.
  revert st e rp. induction lines as [|l rest IH]; intros st e rp Hp He; simpl.
  - repeat case_match; eauto with crawl.
  - destruct (parse_line l st e rp) as [[[st' e'] rp']|] eqn:E; [|done].
    destruct (parse_line_ok _ _ _ _ _ _ _ Hp He E). auto.
Qed.

Lemma robots_read_ok r : parser_ok (robots_read r).
Proof.
  assert (H0 : parser_ok robots_init) by (split; [constructor|done]).
  destruct r as [| |raw]; simpl; [done|done|]. case_match; [|done].
  apply parse_go_ok; [|apply new_entry_ok]. apply H0.
Qed.

(** Every delay [crawl_delay] returns after [read()] is non-negative,
    whatever the response: [int()] is only applied to a value that
    [isdigit()] accepts. *)
Lemma robots_delay_nonneg r ua d :
  robots_crawl_delay (robots_read r) ua = Some d -> (0 <= d)%Z.
Proof.
  destruct (robots_read_ok r) as [He Hd]. unfold robots_crawl_delay. case_match; [done|].
  destruct (List.find _ _) as [e|] eqn:E.
  - apply List.find_some in E as [Hin _]. rewrite List.Forall_forall in He. exact (He e Hin d).
  - case_match; [|done]. by apply Hd.
Qed.

End RobotsFacts.

(** ** Examples *)

(** [User-agent: mozilla] applies to the crawler's [User-Agent], whose
    product token is [Mozilla]: the delay comes from [entries]. *)
Lemma robots_group_delay_witness :
  str_forall value_char "mozilla" = true /\ str_forall is_ascii_digit "10" = true /\
  (String.length "10" <= INT_MAX_STR_DIGITS)%nat /\
  applies_to (RobotsEntry ["mozilla"] None) user_agent = true /\
  robots_crawl_delay (robots_read (RobotsBody (robots_group "mozilla" "10"))) user_agent = Some (decimal_value "10").
Proof.
  assert (H1 : str_forall value_char "mozilla" = true) by reflexivity.
  assert (H2 : str_forall is_ascii_digit "10" = true) by reflexivity.
  assert (H3 : applies_to (RobotsEntry ["mozilla"] None) user_agent = true) by (vm_compute; reflexivity).
  assert (H4 : (String.length "10" <= INT_MAX_STR_DIGITS)%nat) by (apply Nat.leb_le; reflexivity).
  split; [exact H1|]. split; [exact H2|]. split; [exact H4|]. split; [exact H3|].
  exact (robots_group_delay "mozilla" "10" user_agent ltac:(discriminate) H1 ltac:(discriminate) H2 H4 H3).
Defined.

(** A [Crawl-delay] of 4301 digits under [User-agent: *] gives no delay. *)
Lemma robots_delay_too_long_witness :
  (INT_MAX_STR_DIGITS < String.length long_delay)%nat /\
  robots_crawl_delay (robots_read (RobotsBody (robots_group "*" long_delay))) user_agent = None.
Proof.
  assert (H : (INT_MAX_STR_DIGITS < String.length long_delay)%nat) by (apply Nat.ltb_lt; vm_compute; reflexivity).
  split; [exact H|].
  apply (robots_delay_too_long "*" long_delay user_agent); [discriminate|reflexivity|vm_compute; discriminate|vm_compute; reflexivity|exact H].
Defined.

(** [Crawl-delay: 0.5] is ignored: [isdigit()] rejects the dot, so the
    crawler waits only the jitter. *)
Example robots_fraction_ignored :
  robots_crawl_delay (robots_read (RobotsBody (robots_group "*" "0.5"))) user_agent = None.
Proof. vm_compute. reflexivity. Qed.

(** A parse that raises keeps the groups before it: after the group
    [*] with delay 5 and a blank line, [Crawl-delay: ²] passes
    [isdigit()] and makes [int()] raise, and the delay stays 5. *)
Example robots_partial_parse :
  robots_crawl_delay
    (robots_read (RobotsBody (robots_group "*" "5" +:+ String newline
                                (robots_group "b" (String (ascii_of_N 194) (String (ascii_of_N 178) EmptyString))))))
    user_agent = Some 5%Z.
Proof. vm_compute. reflexivity. Qed.

(** A rule that raises loses the delay of its own group, which is added
    only when the group ends: [Disallow: //[x] after [Crawl-delay: 5]. *)
Example robots_raise_loses_group :
  robots_crawl_delay
    (robots_read (RobotsBody (robots_group "*" "5" +:+ "Disallow: //[x" +:+ String newline EmptyString)))
    user_agent = None.
Proof. vm_compute. reflexivity. Qed.
