(* ===== verification/Json.v ===== *)
(** * The JSON text of the id mapping: [json.dump] and [json.load]

    crawler-updated12.py writes the mapping with
    {v
    with open(mapping_path, 'w', encoding='utf-8') as mp:
        json.dump(mapping, mp, indent=2)
    v}
    (lines 182-183; crawler-updated11.py, -9, -8 and rebuild_mapping.py
    do the same) and the next run reads it back with [json.load(mp)]
    (lines 156-158).  Both are modelled from CPython's [json] package:
    - [json.dump] with an [indent] always takes the pure Python encoder
      [_make_iterencode]; for a dict of [str] to [str] it writes
      [{], then [\n] and two spaces before every item, [,] between items,
      [key: value], and [\n}]; an empty dict is [{}].  Strings go through
      [py_encode_basestring_ascii] ([ensure_ascii=True]): the backslash, the double quote and
      the characters outside [' '..'~'] are escaped, the ones above
      U+FFFF as a surrogate pair ([dump_mapping]);
    - [json.load] is [json.loads(fp.read())] with the C scanner of
      [_json.c]: a leading U+FEFF is an error, whitespace is
      [' \t\n\r'], strings are scanned strictly (a control character is
      an error) and a [\uD8xx\uDCxx] pair is joined into one character,
      a number is an optional [-], [0] or digits not starting with [0], an
      optional fraction [.digits] and an optional exponent, an [int]
      of more than 4300 digits raises [ValueError], [NaN], [Infinity]
      and [-Infinity] are floats, a repeated key keeps its first place
      and takes the last value, and text after the value is an error
      ([json_loads]).
    A Python [str] is the list of its code points; the files are UTF-8
    ([utf8_encode] for the write, [utf8_valid] and [utf8_cps] for the
    read, with the universal-newline translation of text mode).  [None]
    is an exception ([JSONDecodeError], [ValueError],
    [UnicodeDecodeError]).  The decoder recurses on a fuel that
    [json_loads] sets to the length of the text, which
    [scan_once_fuel] shows is enough.  A float is kept as the literal
    [float()] is applied to; its rounding is not modelled.  The
    [RecursionError] of a text nested deeper than the interpreter's
    recursion limit is not modelled either. *)

From S2P Require Import Prelude Sha256 Url Ledger Base64 Robots.

Set Warnings "-clear-no-such-hyp,-register-all".
Local Open Scope N_scope.

(** ** Values and dicts *)

(** What [json.load] returns: [None], a [bool], an [int], a [float] (the
    literal [float()] reads), a [str], a [list], a [dict] (its items in
    insertion order). *)
Inductive json :=
| JNull
| JBool (b : bool)
| JInt (z : Z)
| JFloat (lit : list N)
| JStr (s : list N)
| JArr (items : list json)
| JObj (items : list (list N * json)).

(** [d[k] = v] on a dict as its list of items in insertion order: an
    existing key keeps its place and takes the new value, a new key goes
    last ([PyDict_SetItem]). *)
Fixpoint dict_setitem {K V} `{EqDecision K} (k : K) (v : V) (d : list (K * V)) : list (K * V) :=
  match d with
  | [] => [(k, v)]
  | (k', v') :: d' => if decide (k = k') then (k', v) :: d' else (k', v') :: dict_setitem k v d'
  end.

(** The code points of an ASCII literal. *)
Definition cps_of (s : string) : list N := map N_of_ascii (String.list_ascii_of_string s).

(** ** [json.dump(mapping, fp, indent=2)] *)

(** ['{0:04x}'.format(n)] for [n < 0x10000] *)
Definition hex_digit_cp (d : N) : N := if d <? 10 then 48 + d else 87 + d.

Definition hex4 (n : N) : list N :=
  [hex_digit_cp (n / 4096 mod 16); hex_digit_cp (n / 256 mod 16);
   hex_digit_cp (n / 16 mod 16); hex_digit_cp (n mod 16)].

(** [ESCAPE_DCT]: the two-character escapes and [\u00XX] below U+0020. *)
Definition escape_dct (c : N) : option (list N) :=
  if c =? 92 then Some [92; 92]
  else if c =? 34 then Some [92; 34]
  else if c =? 8 then Some [92; 98]
  else if c =? 12 then Some [92; 102]
  else if c =? 10 then Some [92; 110]
  else if c =? 13 then Some [92; 114]
  else if c =? 9 then Some [92; 116]
  else if c <? 32 then Some (92 :: 117 :: hex4 c)
  else None.

(** [ESCAPE_ASCII]: the backslash, the double quote, and every character
    outside [' '..'~']. *)
Definition escape_ascii (c : N) : bool :=
  (c =? 92) || (c =? 34) || negb ((32 <=? c) && (c <=? 126)).

(** The [replace] of [py_encode_basestring_ascii] on a matched character. *)
Definition escape_ascii_match (c : N) : list N :=
  match escape_dct c with
  | Some e => e
  | None =>
      if c <? 65536 then 92 :: 117 :: hex4 c
      else
        let n := c - 65536 in
        (92 :: 117 :: hex4 (N.lor 55296 (N.land (N.shiftr n 10) 1023))) ++
        (92 :: 117 :: hex4 (N.lor 56320 (N.land n 1023)))
  end.

Definition encode_char (c : N) : list N := if escape_ascii c then escape_ascii_match c else [c].

(** [py_encode_basestring_ascii(s)] *)
Definition encode_basestring_ascii (s : list N) : list N := 34 :: flat_map encode_char s ++ [34].

(** [key: value], [_key_separator] being [': '] *)
Definition encode_item (kv : list N * list N) : list N :=
  encode_basestring_ascii kv.1 ++ [58; 32] ++ encode_basestring_ascii kv.2.

(** The items after the first, each after [item_separator] ([,] and
    [newline_indent]), then the closing [\n}]. *)
Fixpoint encode_rest (d : list (list N * list N)) : list N :=
  match d with
  | [] => [10; 125]
  | kv :: d' => [44; 10; 32; 32] ++ encode_item kv ++ encode_rest d'
  end.

(** [_iterencode_dict(dct, 0)] with [_indent = '  ']: [{], then
    [newline_indent] ([\n] and two spaces) and the items; [{}] for an
    empty dict. *)
Definition dump_mapping (d : list (list N * list N)) : list N :=
  match d with
  | [] => [123; 125]
  | kv :: d' => [123; 10; 32; 32] ++ encode_item kv ++ encode_rest d'
  end.

(** [str.encode('utf-8')] of a string of scalar values. *)
Definition utf8_encode_cp (c : N) : list N :=
  if c <? 128 then [c]
  else if c <? 2048 then [192 + c / 64; 128 + c mod 64]
  else if c <? 65536 then [224 + c / 4096; 128 + c / 64 mod 64; 128 + c mod 64]
  else [240 + c / 262144; 128 + c / 4096 mod 64; 128 + c / 64 mod 64; 128 + c mod 64].

Definition utf8_encode (s : list N) : string :=
  String.string_of_list_ascii (map ascii_of_N (flat_map utf8_encode_cp s)).

(** The bytes of [url_mapping.json] after [json.dump(mapping, mp,
    indent=2)] into a file opened with [encoding='utf-8'], the dict's
    items given in insertion order as UTF-8 byte strings. *)
Definition mapping_file (items : list (string * string)) : string :=
  utf8_encode (dump_mapping (map (fun '(k, v) => (utf8_cps k, utf8_cps v)) items)).

(** ** [json.load(fp)] *)

(** [WHITESPACE = r'[ \t\n\r]*'] *)
Definition is_json_ws (c : N) : bool := (c =? 32) || (c =? 9) || (c =? 10) || (c =? 13).

Fixpoint skip_ws (s : list N) : list N :=
  match s with
  | c :: t => if is_json_ws c then skip_ws t else s
  | [] => []
  end.

Definition is_json_digit (c : N) : bool := (48 <=? c) && (c <=? 57).

(** A hexadecimal digit of a [\u] escape, either case. *)
Definition hex_val (c : N) : option N :=
  if is_json_digit c then Some (c - 48)
  else if (97 <=? c) && (c <=? 102) then Some (c - 87)
  else if (65 <=? c) && (c <=? 70) then Some (c - 55)
  else None.

Definition hex4_val (a b c d : N) : option N :=
  match hex_val a, hex_val b, hex_val c, hex_val d with
  | Some x, Some y, Some z, Some w => Some (((x * 16 + y) * 16 + z) * 16 + w)
  | _, _, _, _ => None
  end.

(** The one-character escapes: a backslash before the double quote, the
    backslash, [/], [b], [f], [n], [r] or [t]. *)
Definition simple_escape (e : N) : option N :=
  if e =? 34 then Some 34
  else if e =? 92 then Some 92
  else if e =? 47 then Some 47
  else if e =? 98 then Some 8
  else if e =? 102 then Some 12
  else if e =? 110 then Some 10
  else if e =? 114 then Some 13
  else if e =? 116 then Some 9
  else None.

Definition is_high_surrogate (u : N) : bool := (55296 <=? u) && (u <=? 56319).
Definition is_low_surrogate (u : N) : bool := (56320 <=? u) && (u <=? 57343).

(** [Py_UNICODE_JOIN_SURROGATES(high, low)] *)
Definition join_surrogates (hi lo : N) : N :=
  N.lor (N.shiftl (N.land hi 1023) 10) (N.land lo 1023) + 65536.

(** [scanstring_unicode] with [strict]: the characters after an opening
    quote up to the closing one (reversed in [acc] while scanning), and
    the text after it.  A high surrogate escape followed by a low one,
    with a character after them, is joined. *)
Fixpoint scanstring (s : list N) (acc : list N) : option (list N * list N) :=
  match s with
  | [] => None
  | c :: t =>
      if c =? 34 then Some (rev acc, t)
      else if c =? 92 then
        match t with
        | [] => None
        | e :: t1 =>
            if negb (e =? 117) then
              match simple_escape e with
              | Some x => scanstring t1 (x :: acc)
              | None => None
              end
            else
              match t1 with
              | a :: b :: c' :: d :: t2 =>
                  match hex4_val a b c' d with
                  | None => None
                  | Some u =>
                      if is_high_surrogate u then
                        match t2 with
                        | x :: y :: a2 :: b2 :: c2 :: d2 :: t3 =>
                            if (x =? 92) && (y =? 117) && negb (bool_decide (t3 = [])) then
                              match hex4_val a2 b2 c2 d2 with
                              | None => None
                              | Some u2 =>
                                  if is_low_surrogate u2
                                  then scanstring t3 (join_surrogates u u2 :: acc)
                                  else scanstring t2 (u :: acc)
                              end
                            else scanstring t2 (u :: acc)
                        | _ => scanstring t2 (u :: acc)
                        end
                      else scanstring t2 (u :: acc)
                  end
              | _ => None
              end
        end
      else if c <? 32 then None
      else scanstring t (c :: acc)
  end.

Fixpoint span_digits (s : list N) : list N * list N :=
  match s with
  | c :: t => if is_json_digit c then let '(ds, r) := span_digits t in (c :: ds, r) else ([], s)
  | [] => ([], [])
  end.

(** The value of a run of decimal digits. *)
Definition digits_value (ds : list N) : Z :=
  fold_left (fun acc c => 10 * acc + Z.of_N (c - 48))%Z ds 0%Z.

(** The fraction [.digits] after the integer part, when a digit follows
    the point. *)
Definition match_frac (s : list N) : list N * list N :=
  match s with
  | p :: d :: r =>
      if (p =? 46) && is_json_digit d then let '(ds, r') := span_digits r in (p :: d :: ds, r')
      else ([], s)
  | _ => ([], s)
  end.

(** An optional sign character among [signs]. *)
Definition match_sign (signs : list N) (s : list N) : list N * list N :=
  match s with
  | x :: r => if bool_decide (x ∈ signs) then ([x], r) else ([], s)
  | [] => ([], s)
  end.

(** The exponent [e] or [E], an optional sign and digits; without a
    digit nothing is taken. *)
Definition match_exp (s : list N) : list N * list N :=
  match s with
  | e :: r =>
      if (e =? 101) || (e =? 69) then
        let '(sg, r1) := match_sign [43; 45] r in
        match span_digits r1 with
        | ([], _) => ([], s)
        | (ds, r2) => (e :: sg ++ ds, r2)
        end
      else ([], s)
  | [] => ([], s)
  end.

(** The integer part: [0], or a digit [1]-[9] and the digits after it. *)
Definition match_int (s : list N) : option (list N * list N) :=
  match s with
  | c :: t =>
      if c =? 48 then Some ([c], t)
      else if (49 <=? c) && (c <=? 57) then let '(ds, r) := span_digits t in Some (c :: ds, r)
      else None
  | [] => None
  end.

(** [_match_number_unicode]: an [int] through [int()], which refuses
    more than 4300 digits, or a [float] when there is a fraction or an
    exponent. *)
Definition match_number (s : list N) : option (json * list N) :=
  let '(sg, s1) := match_sign [45] s in
  match match_int s1 with
  | None => None
  | Some (ids, r1) =>
      let '(frac, r2) := match_frac r1 in
      let '(ex, r3) := match_exp r2 in
      if bool_decide (frac = []) && bool_decide (ex = []) then
        if (length ids <=? 4300)%nat
        then Some (JInt (if bool_decide (sg = []) then digits_value ids else - digits_value ids)%Z, r3)
        else None
      else Some (JFloat (sg ++ ids ++ frac ++ ex), r3)
  end.

(** [null], [true], [false] and the constants [parse_constant] turns
    into floats. *)
Definition match_constant (s : list N) : option (json * list N) :=
  let lit w v := if bool_decide (cps_of w `prefix_of` s)
                 then Some (v, drop (String.length w) s) else None in
  match lit "null" JNull with Some r => Some r | None =>
  match lit "true" (JBool true) with Some r => Some r | None =>
  match lit "false" (JBool false) with Some r => Some r | None =>
  match lit "NaN" (JFloat (cps_of "NaN")) with Some r => Some r | None =>
  match lit "Infinity" (JFloat (cps_of "Infinity")) with Some r => Some r | None =>
  lit "-Infinity" (JFloat (cps_of "-Infinity")) end end end end end.

(** [scan_once_unicode], [_parse_object_unicode] and [_parse_array_unicode]
    on the text from [idx]: [object_members] reads the members from a key
    on, [array_rest] what follows an element.  Each call spends one unit
    of [fuel] and is made after a character is consumed. *)
Fixpoint scan_once (fuel : nat) (s : list N) {struct fuel} : option (json * list N) :=
  match fuel with
  | O => None
  | S f =>
      match s with
      | [] => None
      | c :: t =>
          if c =? 34 then
            match scanstring t [] with
            | Some (str, r) => Some (JStr str, r)
            | None => None
            end
          else if c =? 123 then
            match skip_ws t with
            | c' :: r => if c' =? 125 then Some (JObj [], r) else object_members f (c' :: r) []
            | [] => None
            end
          else if c =? 91 then
            match skip_ws t with
            | c' :: r =>
                if c' =? 93 then Some (JArr [], r)
                else match scan_once f (c' :: r) with
                     | Some (v, t2) => array_rest f t2 [v]
                     | None => None
                     end
            | [] => None
            end
          else match match_constant s with
               | Some r => Some r
               | None => match_number s
               end
      end
  end
with object_members (fuel : nat) (s : list N) (d : list (list N * json)) {struct fuel}
    : option (json * list N) :=
  match fuel with
  | O => None
  | S f =>
      match s with
      | c :: t =>
          if c =? 34 then
            match scanstring t [] with
            | None => None
            | Some (k, t1) =>
                match skip_ws t1 with
                | c1 :: t2 =>
                    if c1 =? 58 then
                      match scan_once f (skip_ws t2) with
                      | None => None
                      | Some (v, t3) =>
                          let d' := dict_setitem k v d in
                          match skip_ws t3 with
                          | c3 :: t4 =>
                              if c3 =? 125 then Some (JObj d', t4)
                              else if c3 =? 44 then object_members f (skip_ws t4) d'
                              else None
                          | [] => None
                          end
                      end
                    else None
                | [] => None
                end
            end
          else None
      | [] => None
      end
  end
with array_rest (fuel : nat) (s : list N) (acc : list json) {struct fuel}
    : option (json * list N) :=
  match fuel with
  | O => None
  | S f =>
      match skip_ws s with
      | c :: t =>
          if c =? 93 then Some (JArr (rev acc), t)
          else if c =? 44 then
            match scan_once f (skip_ws t) with
            | Some (v, t2) => array_rest f t2 (v :: acc)
            | None => None
            end
          else None
      | [] => None
      end
  end.

(** [json.loads(s)]: [JSONDecoder.decode], the value and only whitespace
    after it. *)
Definition json_loads (s : list N) : option json :=
  if bool_decide (head s = Some 65279) then None
  else
    let s1 := skip_ws s in
    match scan_once (S (length s1)) s1 with
    | Some (v, r) => if bool_decide (skip_ws r = []) then Some v else None
    | None => None
    end.

(** Text mode's universal newlines: [\r\n] and [\r] read as [\n]. *)
Fixpoint universal_newlines (s : list N) : list N :=
  match s with
  | c :: t =>
      if c =? 13 then
        match t with
        | d :: t' => if d =? 10 then 10 :: universal_newlines t' else 10 :: universal_newlines t
        | [] => [10]
        end
      else c :: universal_newlines t
  | [] => []
  end.

(** [json.load(f)] of a file opened with [encoding='utf-8']. *)
Definition json_load_file (bytes : string) : option json :=
  if utf8_valid bytes then json_loads (universal_newlines (utf8_cps bytes)) else None.

(** ** rebuild_mapping.py *)

Definition rebuild_master : string := "crawl_output/all_urls_master.txt".
Definition rebuild_out : string := "crawl_output/url_mapping_final.json".

(** Lines 6-11: [mapping[key] = url] for every stripped line of the
    ledger, the dict in insertion order. *)
Definition rebuild_mapping_dict (content : string) : list (string * string) :=
  fold_left (fun d url => dict_setitem (encode_name url) url d) (map py_strip (file_lines content)) [].

(** The script over a file system that gives the ledger's bytes ([None]
    when it does not exist) and says whether [os.makedirs] succeeds: the
    file it writes and its bytes, or [None] for the exception it dies of
    ([FileNotFoundError], [UnicodeDecodeError], [OSError]).  The final
    [print] is not modelled. *)
Definition rebuild_mapping_main (read : string -> option string) (makedirs : string -> bool)
    : option (string * string) :=
  match read rebuild_master with
  | None => None
  | Some content =>
      if negb (utf8_valid content) then None
      else if negb (makedirs "crawl_output") then None
      else Some (rebuild_out, mapping_file (rebuild_mapping_dict content))
  end.

(** ** What a loaded mapping stands for *)

(** A Unicode scalar value: below U+110000 and not a surrogate; the code
    points of a [str] decoded from UTF-8 are scalar values. *)
Definition is_scalar (c : N) : bool := (c <? 1114112) && negb ((55296 <=? c) && (c <=? 57343)).

(** The map of byte strings a dict of [str] to [str] stands for, as the
    crawlers' [mapping] is modelled ([None] when a value is not a string
    or the value is not a dict). *)
Definition mapping_of_json (j : json) : option (gmap string string) :=
  match j with
  | JObj items =>
      list_to_map <$> mapM (fun kv : list N * json =>
                              match kv.2 with
                              | JStr v => Some (utf8_encode kv.1, utf8_encode v)
                              | _ => None
                              end) items
  | _ => None
  end.

(** ** Lemmas *)

(** *** Dicts *)

Section Dicts.
Context {K V : Type} `{EqDecision K}.

Lemma dict_setitem_fresh (k : K) (v : V) d : k ∉ d.*1 -> dict_setitem k v d = d ++ [(k, v)].
Proof.
  induction d as [|[k' v'] d IH]; [done|]. simpl. rewrite not_elem_of_cons. intros [Hne Hd].
  rewrite decide_False by done. by rewrite IH.
Qed.





End Dicts.

(** *** Hexadecimal escapes and surrogate pairs *)

(** A property of the numbers below [n], checked by evaluation. *)
Lemma N_below_forallb (n : nat) (p : N -> bool) :
  forallb p (map N.of_nat (seq 0 n)) = true -> forall d, d < N.of_nat n -> p d = true.
Proof.
  rewrite forallb_forall. intros Hp d Hd. apply Hp. apply in_map_iff.
  exists (N.to_nat d). split; [lia|]. apply in_seq. lia.
Qed.

Lemma hex_val_digit d : d < 16 -> hex_val (hex_digit_cp d) = Some d.
Proof.
  intros Hd. apply (bool_decide_eq_true (hex_val (hex_digit_cp d) = Some d)).
  revert d Hd. apply (N_below_forallb 16 (fun d => bool_decide (hex_val (hex_digit_cp d) = Some d))).
  vm_compute. reflexivity.
Qed.

(** The digits of [hex4] read back. *)
Lemma hex4_val_hex4 n :
  n < 65536 ->
  hex4_val (hex_digit_cp (n / 4096 mod 16)) (hex_digit_cp (n / 256 mod 16))
           (hex_digit_cp (n / 16 mod 16)) (hex_digit_cp (n mod 16)) = Some n.
Proof.
  intros Hn. unfold hex4_val.
  rewrite !hex_val_digit by (apply N.mod_lt; lia). f_equal.
  pose proof (N.div_mod n 16 ltac:(lia)) as H1.
  pose proof (N.div_mod (n / 16) 16 ltac:(lia)) as H2.
  pose proof (N.div_mod (n / 256) 16 ltac:(lia)) as H3.
  rewrite N.Div0.div_div in H2, H3. change (16 * 16) with 256 in H2. change (256 * 16) with 4096 in H3.
  assert (n / 4096 < 16) by (apply N.Div0.div_lt_upper_bound; lia).
  rewrite (N.mod_small (n / 4096)) by done. lia.
Qed.

Lemma hex_digit_small d : d < 16 -> 48 <= hex_digit_cp d <= 102.
Proof. unfold hex_digit_cp. destruct (N.ltb_spec d 10); lia. Qed.

Lemma lor_shiftl_low x y k : y < 2 ^ k -> N.lor (N.shiftl x k) y = x * 2 ^ k + y.
Proof.
  intros Hy. assert (Hl : N.land (N.shiftl x k) y = 0).
  { apply N.bits_inj_0. intros i. rewrite N.land_spec.
    destruct (N.lt_ge_cases i k).
    - by rewrite N.shiftl_spec_low.
    - rewrite <- (N.mod_small y (2 ^ k)) by done. rewrite N.mod_pow2_bits_high by lia.
      apply andb_false_r. }
  rewrite <- N.lxor_lor, <- N.add_nocarry_lxor by done. by rewrite N.shiftl_mul_pow2.
Qed.

Lemma land_1023 x : N.land x 1023 = x mod 1024.
Proof. change 1023 with (N.ones 10). by rewrite N.land_ones. Qed.

(** The two halves [py_encode_basestring_ascii] writes for a character
    above U+FFFF, and what [scanstring] joins them into. *)
Lemma surrogate_pair c :
  65536 <= c < 1114112 ->
  let n := c - 65536 in
  let hi := N.lor 55296 (N.land (N.shiftr n 10) 1023) in
  let lo := N.lor 56320 (N.land n 1023) in
  hi = 55296 + n / 1024 /\ lo = 56320 + n mod 1024 /\ join_surrogates hi lo = c.
Proof.
  intros Hc n hi lo.
  assert (Hq : n / 1024 < 1024) by (apply N.Div0.div_lt_upper_bound; lia).
  assert (Hr : n mod 1024 < 1024) by (apply N.mod_lt; lia).
  assert (Hhi : hi = 55296 + n / 1024).
  { unfold hi. rewrite land_1023, N.shiftr_div_pow2, N.mod_small by done.
    change 55296 with (N.shiftl 54 10). rewrite lor_shiftl_low by done. done. }
  assert (Hlo : lo = 56320 + n mod 1024).
  { unfold lo. rewrite land_1023. change 56320 with (N.shiftl 55 10).
    rewrite lor_shiftl_low by done. done. }
  split_and!; [done|done|]. unfold join_surrogates. rewrite Hhi, Hlo, !land_1023.
  rewrite (N.add_comm 55296), (N.add_comm 56320).
  change 55296 with (54 * 1024). change 56320 with (55 * 1024).
  rewrite !N.Div0.mod_add, !N.mod_small by lia.
  rewrite lor_shiftl_low by done. pose proof (N.div_mod n 1024 ltac:(lia)). simpl. lia.
Qed.

(** *** [scanstring] reads back what [py_encode_basestring_ascii] writes *)

Lemma scan_u_escape u t acc :
  u < 65536 -> is_high_surrogate u = false ->
  scanstring (92 :: 117 :: hex4 u ++ t) acc = scanstring t (u :: acc).
Proof. intros Hu Hh. unfold hex4. simpl. rewrite hex4_val_hex4 by done. by rewrite Hh. Qed.

Lemma scan_pair c t acc :
  65536 <= c < 1114112 -> t <> [] ->
  scanstring (escape_ascii_match c ++ t) acc = scanstring t (c :: acc).
Proof.
  intros Hc Ht. destruct (surrogate_pair c Hc) as (Hhi & Hlo & Hj).
  assert (Hq : (c - 65536) / 1024 < 1024) by (apply N.Div0.div_lt_upper_bound; lia).
  assert (Hr : (c - 65536) mod 1024 < 1024) by (apply N.mod_lt; lia).
  unfold escape_ascii_match, escape_dct.
  repeat (rewrite (proj2 (N.eqb_neq _ _)) by lia). rewrite (proj2 (N.ltb_ge c 32)) by lia.
  rewrite (proj2 (N.ltb_ge c 65536)) by lia.
  revert Hj. cbv zeta. unfold hex4 at 1 2. simpl.
  rewrite !hex4_val_hex4 by lia.
  assert (Hhs : is_high_surrogate (N.lor 55296 (N.land (N.shiftr (c - 65536) 10) 1023)) = true).
  { unfold is_high_surrogate. rewrite Hhi. apply andb_true_intro.
    generalize ((c - 65536) / 1024) Hq. intros. split; apply N.leb_le; lia. }
  assert (Hls : is_low_surrogate (N.lor 56320 (N.land (c - 65536) 1023)) = true).
  { unfold is_low_surrogate. rewrite Hlo. apply andb_true_intro.
    generalize ((c - 65536) mod 1024) Hr. intros. split; apply N.leb_le; lia. }
  rewrite Hhs, Hls. rewrite bool_decide_false by done. simpl. by intros ->.
Qed.

Lemma scan_encode_char c t acc :
  is_scalar c = true -> t <> [] ->
  scanstring (encode_char c ++ t) acc = scanstring t (c :: acc).
Proof.
  unfold is_scalar. intros [Hmax Hsur]%andb_prop Ht. apply N.ltb_lt in Hmax.
  unfold encode_char. destruct (escape_ascii c) eqn:Ee.
  - destruct (N.ltb_spec c 65536) as [Hs|Hs]; [|by apply scan_pair].
    assert (Hh : is_high_surrogate c = false).
    { unfold is_high_surrogate. apply negb_true_iff in Hsur.
      destruct (N.leb_spec 55296 c), (N.leb_spec c 56319), (N.leb_spec c 57343); simpl in *; done || lia. }
    unfold escape_ascii_match, escape_dct.
    repeat match goal with
           | |- context [if (c =? ?k) then _ else _] =>
               destruct (N.eqb_spec c k) as [->|]; [reflexivity|]
           end.
    destruct (N.ltb_spec c 32); [by apply scan_u_escape|].
    rewrite (proj2 (N.ltb_lt c 65536)) by done. by apply scan_u_escape.
  - unfold escape_ascii in Ee. apply orb_false_iff in Ee as [[H92 H34]%orb_false_iff Hr].
    apply negb_false_iff, andb_prop in Hr as [H32 _]. apply N.leb_le in H32.
    simpl. rewrite H34, H92. by rewrite (proj2 (N.ltb_ge c 32)).
Qed.

Lemma scanstring_encoded s t acc :
  Forall (fun c => is_scalar c = true) s ->
  scanstring (flat_map encode_char s ++ 34 :: t) acc = Some (rev acc ++ s, t).
Proof.
  induction 1 as [|c s Hc _ IH] in acc |- *; [by rewrite app_nil_r|].
  simpl. rewrite <- app_assoc, scan_encode_char by (done || by destruct (flat_map encode_char s)).
  rewrite IH. simpl. by rewrite <- app_assoc.
Qed.

(** *** Every scanner consumes text, so the fuel of [json_loads] suffices *)

Lemma skip_ws_length s : (length (skip_ws s) <= length s)%nat.
Proof. induction s as [|c t IH]; simpl; [lia|]. destruct (is_json_ws c); simpl; lia. Qed.

Lemma skip_ws_cons s c t : skip_ws s = c :: t -> (length t < length s)%nat.
Proof. intros E. pose proof (skip_ws_length s) as L. rewrite E in L. simpl in L. lia. Qed.

Lemma scanstring_length_le n s acc x r :
  scanstring s acc = Some (x, r) -> (length s <= n)%nat -> (length r < length s)%nat.
Proof.
  induction n as [|n IH] in s, acc |- *; intros Hs Hn; [destruct s; simpl in *; [done|lia]|].
  destruct s as [|c t]; [done|]. simpl in Hs |- *.
  repeat case_match; simplify_eq; try (simpl; lia); apply IH in Hs; simpl in *; lia.
Qed.

Lemma scanstring_length s acc x r : scanstring s acc = Some (x, r) -> (length r < length s)%nat.
Proof. intros H. by eapply (scanstring_length_le (length s)). Qed.

Lemma span_digits_app s ds r : span_digits s = (ds, r) -> s = ds ++ r.
Proof.
  induction s as [|c t IH] in ds, r |- *; simpl; [by intros [= <- <-]|].
  destruct (is_json_digit c); [|by intros [= <- <-]].
  destruct (span_digits t) as [ds' r']. intros [= <- <-]. simpl. f_equal. by apply IH.
Qed.

Lemma match_frac_app s f r : match_frac s = (f, r) -> s = f ++ r.
Proof.
  unfold match_frac. destruct s as [|p [|d t]]; try by intros [= <- <-].
  destruct ((p =? 46) && is_json_digit d); [|by intros [= <- <-]].
  destruct (span_digits t) as [ds r'] eqn:E. intros [= <- <-]. simpl. by rewrite (span_digits_app _ _ _ E).
Qed.

Lemma match_sign_app signs s x r : match_sign signs s = (x, r) -> s = x ++ r.
Proof. unfold match_sign. destruct s; [by intros [= <- <-]|]. case_decide; by intros [= <- <-]. Qed.

Lemma match_exp_app s x r : match_exp s = (x, r) -> s = x ++ r.
Proof.
  unfold match_exp. destruct s as [|e t]; [by intros [= <- <-]|].
  destruct ((e =? 101) || (e =? 69)); [|by intros [= <- <-]].
  destruct (match_sign _ t) as [sg r1] eqn:E1.
  destruct (span_digits r1) as [[|d ds] r2] eqn:E2; [by intros [= <- <-]|].
  intros [= <- <-]. apply match_sign_app in E1. apply span_digits_app in E2.
  rewrite E1, E2. simpl. by rewrite <- app_assoc.
Qed.

Lemma match_int_app s x r : match_int s = Some (x, r) -> s = x ++ r /\ x <> [].
Proof.
  unfold match_int. destruct s as [|c t]; [done|].
  destruct (c =? 48); [by intros [= <- <-]|]. destruct ((49 <=? c) && (c <=? 57)); [|done].
  destruct (span_digits t) as [ds r'] eqn:E. intros [= <- <-]. by rewrite (span_digits_app _ _ _ E).
Qed.

Lemma match_number_length s v r : match_number s = Some (v, r) -> (length r < length s)%nat.
Proof.
  unfold match_number.
  destruct (match_sign _ s) as [sg s1] eqn:E0. apply match_sign_app in E0 as ->.
  destruct (match_int s1) as [[ids r1]|] eqn:E1; [|done]. apply match_int_app in E1 as [-> Hne].
  destruct (match_frac r1) as [fr r2] eqn:E2. apply match_frac_app in E2 as ->.
  destruct (match_exp r2) as [ex r3] eqn:E3. apply match_exp_app in E3 as ->.
  destruct ids; [done|]. rewrite !length_app. simpl.
  repeat case_match; intros; simplify_eq; lia.
Qed.

Lemma match_constant_length s v r : match_constant s = Some (v, r) -> (length r < length s)%nat.
Proof.
  unfold match_constant. cbv zeta. intros H. repeat case_match; simplify_eq;
    match goal with Hb : bool_decide _ = true |- _ => apply bool_decide_eq_true in Hb as [k ->] end;
    rewrite length_drop, length_app; simpl; lia.
Qed.

(** The facts on lengths the hypotheses of a scanning proof give. *)
Ltac scan_lengths IH1 IH2 IH3 :=
  repeat match goal with
  | E : skip_ws _ = _ :: _ |- _ => apply skip_ws_cons in E
  | E : scanstring _ _ = Some _ |- _ => apply scanstring_length in E
  | E : match_constant _ = Some _ |- _ => apply match_constant_length in E
  | E : match_number _ = Some _ |- _ => apply match_number_length in E
  | E : scan_once _ _ = Some _ |- _ => apply IH1 in E
  | E : object_members _ _ _ = Some _ |- _ => apply IH2 in E
  | E : array_rest _ _ _ = Some _ |- _ => apply IH3 in E
  | _ : context [skip_ws ?x] |- _ =>
      lazymatch goal with
      | _ : (length (skip_ws x) <= length x)%nat |- _ => fail
      | |- _ => pose proof (skip_ws_length x)
      end
  | |- context [skip_ws ?x] =>
      lazymatch goal with
      | _ : (length (skip_ws x) <= length x)%nat |- _ => fail
      | |- _ => pose proof (skip_ws_length x)
      end
  end; simpl in *.

(** What follows a value is shorter than the text it was scanned from. *)
Lemma scan_length f :
  (forall s v r, scan_once f s = Some (v, r) -> (length r < length s)%nat) /\
  (forall s d v r, object_members f s d = Some (v, r) -> (length r < length s)%nat) /\
  (forall s acc v r, array_rest f s acc = Some (v, r) -> (length r < length s)%nat).
Proof.
  induction f as [|f (IH1 & IH2 & IH3)]; [done|]. split_and!.
  - intros [|c t] v r; simpl; [done|].
    repeat case_match; intros; simplify_eq; scan_lengths IH1 IH2 IH3; lia.
  - intros [|c t] d v r; simpl; [done|].
    repeat case_match; intros; simplify_eq; scan_lengths IH1 IH2 IH3; lia.
  - intros s acc v r; simpl.
    repeat case_match; intros; simplify_eq; scan_lengths IH1 IH2 IH3; lia.
Qed.

Lemma scan_once_length f s v r : scan_once f s = Some (v, r) -> (length r < length s)%nat.
Proof. apply scan_length. Qed.
Lemma object_members_length f s d v r : object_members f s d = Some (v, r) -> (length r < length s)%nat.
Proof. apply scan_length. Qed.
Lemma array_rest_length f s acc v r : array_rest f s acc = Some (v, r) -> (length r < length s)%nat.
Proof. apply scan_length. Qed.

Ltac fuel_lengths := scan_lengths scan_once_length object_members_length array_rest_length; lia.

(** Two fuels above the length of the text give the same result. *)
Lemma scan_fuel_irrel f1 :
  (forall f2 s, (length s < f1)%nat -> (length s < f2)%nat -> scan_once f1 s = scan_once f2 s) /\
  (forall f2 s d, (length s < f1)%nat -> (length s < f2)%nat ->
                  object_members f1 s d = object_members f2 s d) /\
  (forall f2 s acc, (length s < f1)%nat -> (length s < f2)%nat ->
                    array_rest f1 s acc = array_rest f2 s acc).
Proof.
  induction f1 as [|g (IH1 & IH2 & IH3)]; [split_and!; intros; lia|]. split_and!.
  - intros [|g2] [|c t] H1 H2; [lia|lia|done|]. simpl.
    destruct (c =? 34); [done|]. destruct (c =? 123).
    { destruct (skip_ws t) as [|c' r] eqn:E; [done|].
      destruct (c' =? 125); [done|]. apply IH2; fuel_lengths. }
    destruct (c =? 91); [|done].
    destruct (skip_ws t) as [|c' r] eqn:E; [done|]. destruct (c' =? 93); [done|].
    rewrite (IH1 g2) by fuel_lengths.
    destruct (scan_once g2 (c' :: r)) as [[v t2]|] eqn:Ev; [|done]. apply IH3; fuel_lengths.
  - intros [|g2] [|c t] d H1 H2; [lia|lia|done|]. simpl.
    destruct (c =? 34); [|done]. destruct (scanstring t []) as [[k t1]|] eqn:Es; [|done].
    destruct (skip_ws t1) as [|c1 t2] eqn:E1; [done|]. destruct (c1 =? 58); [|done].
    rewrite (IH1 g2) by fuel_lengths.
    destruct (scan_once g2 (skip_ws t2)) as [[v t3]|] eqn:Ev; [|done].
    destruct (skip_ws t3) as [|c3 t4] eqn:E3; [done|].
    destruct (c3 =? 125); [done|]. destruct (c3 =? 44); [|done]. apply IH2; fuel_lengths.
  - intros [|g2] s acc H1 H2; [lia|]. simpl.
    destruct (skip_ws s) as [|c t] eqn:E; [done|]. destruct (c =? 93); [done|].
    destruct (c =? 44); [|done]. rewrite (IH1 g2) by fuel_lengths.
    destruct (scan_once g2 (skip_ws t)) as [[v t2]|] eqn:Ev; [|done]. apply IH3; fuel_lengths.
Qed.

(** C22. The decoder terminates on the fuel [json_loads] gives it: with
    any fuel above the length of the text, [scan_once] (and with it the
    object and array loops) returns the same result as with the length
    plus one, so running out of fuel never decides an outcome. *)
Theorem scan_once_fuel s f : (length s < f)%nat -> scan_once f s = scan_once (S (length s)) s.
Proof. intros H. apply (proj1 (scan_fuel_irrel f)); lia. Qed.

(** *** The mapping file reads back as the mapping *)

Lemma encode_item_shape kv t :
  encode_item kv ++ t =
  34 :: flat_map encode_char kv.1 ++ 34 :: 58 :: 32 :: 34 :: flat_map encode_char kv.2 ++ 34 :: t.
Proof. unfold encode_item, encode_basestring_ascii. simpl. rewrite <- !app_assoc. simpl. by rewrite <- !app_assoc. Qed.

Lemma encode_rest_length rest : (length rest < length (encode_rest rest))%nat.
Proof. induction rest as [|kv rest IH]; [simpl; lia|]. cbn [encode_rest]. rewrite !length_app. simpl. lia. Qed.

Lemma scan_once_encoded f s t :
  Forall (fun c => is_scalar c = true) s ->
  scan_once (S f) (34 :: flat_map encode_char s ++ 34 :: t) = Some (JStr s, t).
Proof. intros Hs. simpl. by rewrite scanstring_encoded. Qed.

Lemma scan_once_encoded_S f g s t :
  f = S g -> Forall (fun c => is_scalar c = true) s ->
  scan_once f (34 :: flat_map encode_char s ++ 34 :: t) = Some (JStr s, t).
Proof. intros ->. apply scan_once_encoded. Qed.

Definition scalar_item (kv : list N * list N) : Prop :=
  Forall (fun c => is_scalar c = true) kv.1 /\ Forall (fun c => is_scalar c = true) kv.2.

Lemma object_members_dump f kv rest d :
  Forall scalar_item (kv :: rest) -> NoDup (d.*1 ++ (kv :: rest).*1) -> (length rest < f)%nat ->
  object_members (S f) (encode_item kv ++ encode_rest rest) d =
  Some (JObj (d ++ map (fun kv' => (kv'.1, JStr kv'.2)) (kv :: rest)), []).
Proof.
  induction rest as [|kv' rest IH] in kv, d, f |- *; intros Hs Hd Hf;
    apply Forall_cons in Hs as [[Hk Hv] Hs];
    (destruct f as [|g]; [simpl in Hf; lia|]); remember (S g) as f eqn:Ef;
    rewrite encode_item_shape; simpl; rewrite scanstring_encoded by done; simpl;
    rewrite (scan_once_encoded_S f g) by done; simpl;
    (rewrite dict_setitem_fresh;
     [|rewrite fmap_cons, NoDup_app in Hd; destruct Hd as (_ & Hd & _);
       intros Hin; by apply (Hd kv.1); [|left]]); [done|].
  rewrite Ef. etransitivity; [apply (IH g kv' (d ++ [(kv.1, JStr kv.2)]))|by rewrite <- app_assoc].
  - done.
  - by rewrite fmap_app, <- app_assoc.
  - simpl in Hf. lia.
Qed.

Lemma scan_once_dump n kv rest :
  Forall scalar_item (kv :: rest) -> NoDup (kv :: rest).*1 -> (S (length rest) < n)%nat ->
  scan_once (S n) (dump_mapping (kv :: rest)) =
  Some (JObj (map (fun kv' => (kv'.1, JStr kv'.2)) (kv :: rest)), []).
Proof.
  intros Hs Hd Hn. destruct n as [|[|f]]; [lia|lia|].
  remember (S (S f)) as g eqn:Eg. unfold dump_mapping. simpl. rewrite Eg.
  etransitivity; [apply (object_members_dump (S f) kv rest [])|done]; [done|done|lia].
Qed.

Lemma dump_mapping_length kv rest : (S (S (length rest)) < length (dump_mapping (kv :: rest)))%nat.
Proof.
  unfold dump_mapping. rewrite !length_app. pose proof (encode_rest_length rest).
  simpl. lia.
Qed.

(** C21. [json.load] gives back the dict [json.dump(mapping, f,
    indent=2)] wrote: for a dict of [str] to [str] whose strings are
    Unicode scalar values (what a [str] decoded from UTF-8 holds), the
    text reads as a dict with the same keys in the same order and the
    same string values. *)
Theorem json_loads_dump_mapping d :
  NoDup d.*1 -> Forall scalar_item d ->
  json_loads (dump_mapping d) = Some (JObj (map (fun kv => (kv.1, JStr kv.2)) d)).
Proof.
  intros Hd Hs. destruct d as [|kv rest]; [reflexivity|].
  unfold json_loads. rewrite bool_decide_false by done.
  change (skip_ws (dump_mapping (kv :: rest))) with (dump_mapping (kv :: rest)).
  rewrite scan_once_dump by (done || pose proof (dump_mapping_length kv rest); lia).
  by rewrite bool_decide_true.
Qed.

(** [json.dump] of two lone surrogates in a row: [json.load] joins them,
    which is why [json_loads_dump_mapping] asks for scalar values. *)
Example json_surrogates_joined :
  json_loads (dump_mapping [([97], [55357; 56832])]) = Some (JObj [([97], JStr [128512])]).
Proof. vm_compute. reflexivity. Qed.

(** *** UTF-8: [str.encode('utf-8')] undoes [bytes.decode('utf-8')] *)

Lemma divmod64 q r : r < 64 -> (q * 64 + r) / 64 = q /\ (q * 64 + r) mod 64 = r.
Proof. intros Hr. split; symmetry; [apply (N.div_unique _ _ _ r)|apply (N.mod_unique _ _ q)]; lia. Qed.

Lemma utf8_cp2 x b :
  194 <= x <= 223 -> 128 <= b <= 191 ->
  let cp := (x - 192) * 64 + (b - 128) in utf8_encode_cp cp = [x; b] /\ is_scalar cp = true.
Proof.
  intros Hx Hb cp. destruct (divmod64 (x - 192) (b - 128)) as [Hq Hr]; [lia|].
  unfold utf8_encode_cp, is_scalar. fold cp in Hq, Hr.
  rewrite (proj2 (N.ltb_ge cp 128)), (proj2 (N.ltb_lt cp 2048)) by lia. rewrite Hq, Hr.
  split; [f_equal; [lia|f_equal; lia]|].
  apply andb_true_intro. split; [apply N.ltb_lt; lia|]. apply negb_true_iff.
  destruct (N.leb_spec 55296 cp); [lia|done].
Qed.

Lemma utf8_cp3 x b c :
  224 <= x <= 239 -> 128 <= b <= 191 -> 128 <= c <= 191 ->
  (x = 224 -> 160 <= b) -> (x = 237 -> b <= 159) ->
  let cp := (x - 224) * 4096 + (b - 128) * 64 + (c - 128) in
  utf8_encode_cp cp = [x; b; c] /\ is_scalar cp = true.
Proof.
  intros Hx Hb Hc H224 H237 cp.
  destruct (divmod64 ((x - 224) * 64 + (b - 128)) (c - 128)) as [Hq Hr]; [lia|].
  destruct (divmod64 (x - 224) (b - 128)) as [Hq' Hr']; [lia|].
  assert (Ecp : cp = ((x - 224) * 64 + (b - 128)) * 64 + (c - 128)) by (unfold cp; lia).
  assert (H4096 : cp / 4096 = x - 224).
  { change 4096 with (64 * 64). rewrite <- N.Div0.div_div, Ecp, Hq. exact Hq'. }
  unfold utf8_encode_cp, is_scalar. rewrite <- Ecp in Hq, Hr.
  assert (2048 <= cp < 65536) by (destruct (N.eq_dec x 224); [subst; lia|lia]).
  rewrite (proj2 (N.ltb_ge cp 128)), (proj2 (N.ltb_ge cp 2048)), (proj2 (N.ltb_lt cp 65536)) by lia.
  rewrite H4096, Hq, Hr, Hr'. split; [repeat f_equal; lia|].
  apply andb_true_intro. split; [apply N.ltb_lt; lia|]. apply negb_true_iff.
  destruct (N.leb_spec 55296 cp), (N.leb_spec cp 57343); try done.
  destruct (N.eq_dec x 237); [subst; lia|]. destruct (N.le_gt_cases x 236); lia.
Qed.

Lemma utf8_cp4 x b c d :
  240 <= x <= 244 -> 128 <= b <= 191 -> 128 <= c <= 191 -> 128 <= d <= 191 ->
  (x = 240 -> 144 <= b) -> (x = 244 -> b <= 143) ->
  let cp := (x - 240) * 262144 + (b - 128) * 4096 + (c - 128) * 64 + (d - 128) in
  utf8_encode_cp cp = [x; b; c; d] /\ is_scalar cp = true.
Proof.
  intros Hx Hb Hc Hd H240 H244 cp.
  destruct (divmod64 (((x - 240) * 64 + (b - 128)) * 64 + (c - 128)) (d - 128)) as [Hq1 Hr1]; [lia|].
  destruct (divmod64 ((x - 240) * 64 + (b - 128)) (c - 128)) as [Hq2 Hr2]; [lia|].
  destruct (divmod64 (x - 240) (b - 128)) as [Hq3 Hr3]; [lia|].
  assert (Ecp : cp = (((x - 240) * 64 + (b - 128)) * 64 + (c - 128)) * 64 + (d - 128)) by (unfold cp; lia).
  assert (E1 : cp / 64 = ((x - 240) * 64 + (b - 128)) * 64 + (c - 128)) by (by rewrite Ecp, Hq1).
  assert (E2 : cp / 4096 = (x - 240) * 64 + (b - 128)).
  { change 4096 with (64 * 64). rewrite <- N.Div0.div_div, E1. exact Hq2. }
  assert (E3 : cp / 262144 = x - 240).
  { change 262144 with (4096 * 64). rewrite <- N.Div0.div_div, E2. exact Hq3. }
  unfold utf8_encode_cp, is_scalar. rewrite <- Ecp in Hr1.
  assert (65536 <= cp < 1114112).
  { destruct (N.eq_dec x 240); [subst; lia|]. destruct (N.eq_dec x 244); [subst; lia|lia]. }
  rewrite (proj2 (N.ltb_ge cp 128)), (proj2 (N.ltb_ge cp 2048)), (proj2 (N.ltb_ge cp 65536)) by lia.
  rewrite E1, E2, E3, Hr1, Hr2, Hr3. split; [repeat f_equal; lia|].
  apply andb_true_intro. split; [apply N.ltb_lt; lia|]. apply negb_true_iff.
  destruct (N.leb_spec 55296 cp); [|done]. destruct (N.leb_spec cp 57343); [lia|done].
Qed.

Lemma string_of_list_ascii_app l1 l2 :
  String.string_of_list_ascii (l1 ++ l2) = String.string_of_list_ascii l1 +:+ String.string_of_list_ascii l2.
Proof. induction l1 as [|a l1 IH]; [done|]. simpl. by rewrite IH. Qed.

(** One character's bytes, then the rest. *)
Lemma utf8_encode_unit cp bytes l :
  utf8_encode_cp cp = map N_of_ascii bytes ->
  utf8_encode (cp :: l) = String.string_of_list_ascii bytes +:+ utf8_encode l.
Proof.
  intros H. unfold utf8_encode. simpl. rewrite map_app, string_of_list_ascii_app, H, map_map.
  f_equal. f_equal. rewrite <- (map_id bytes) at 2. apply map_ext. intros. apply ascii_N_embedding.
Qed.

(** Turns the comparisons of a hypothesis into arithmetic facts. *)
Ltac cmp_facts :=
  repeat match goal with
  | H : (_ && _) = true |- _ => apply andb_prop in H as [? ?]
  | H : (_ && _) = false |- _ => apply andb_false_iff in H as [?|?]
  | H : (_ <? _)%Z = true |- _ => apply Z.ltb_lt in H
  | H : (_ <? _)%Z = false |- _ => apply Z.ltb_ge in H
  | H : (_ <=? _)%Z = true |- _ => apply Z.leb_le in H
  | H : (_ <=? _)%Z = false |- _ => apply Z.leb_gt in H
  | H : (_ =? _)%Z = true |- _ => apply Z.eqb_eq in H
  | H : (_ =? _)%Z = false |- _ => apply Z.eqb_neq in H
  | H : (_ <? _)%N = true |- _ => apply N.ltb_lt in H
  | H : (_ <? _)%N = false |- _ => apply N.ltb_ge in H
  | H : (_ <=? _)%N = true |- _ => apply N.leb_le in H
  | H : (_ <=? _)%N = false |- _ => apply N.leb_gt in H
  | H : (_ =? _)%N = true |- _ => apply N.eqb_eq in H
  | H : (_ =? _)%N = false |- _ => apply N.eqb_neq in H
  end.

Lemma utf8_cp1 x : x < 128 -> utf8_encode_cp x = [x] /\ is_scalar x = true.
Proof.
  intros Hx. unfold utf8_encode_cp, is_scalar. rewrite (proj2 (N.ltb_lt x 128)) by done.
  split; [done|]. apply andb_true_intro. split; [apply N.ltb_lt; lia|].
  apply negb_true_iff. destruct (N.leb_spec 55296 x); [lia|done].
Qed.

Lemma utf8_cons_ok cp bytes r :
  utf8_encode_cp cp = map N_of_ascii bytes -> is_scalar cp = true ->
  utf8_encode (utf8_cps r) = r /\ Forall (fun c => is_scalar c = true) (utf8_cps r) ->
  utf8_encode (cp :: utf8_cps r) = String.string_of_list_ascii bytes +:+ r /\
  Forall (fun c => is_scalar c = true) (cp :: utf8_cps r).
Proof. intros He Hs [Hr Hf]. rewrite (utf8_encode_unit _ bytes) by done. split; [by rewrite Hr|by constructor]. Qed.

(** Valid UTF-8 decodes to scalar values, which encode back to the
    same bytes. *)
Lemma utf8_valid_roundtrip_le n s :
  (String.length s <= n)%nat -> utf8_valid s = true ->
  utf8_encode (utf8_cps s) = s /\ Forall (fun c => is_scalar c = true) (utf8_cps s).
Proof.
  induction n as [|n IH] in s |- *; intros Hn Hv; [destruct s; [done|simpl in Hn; lia]|].
  destruct s as [|a t]; [done|]. pose proof (N_ascii_bounded a) as Ha.
  simpl in Hv |- *. unfold byte in Hv.
  repeat case_match; cmp_facts; try lia; try done; cmp_facts;
    match goal with
    | |- _ (_ :: utf8_cps ?r) = String _ (String _ (String _ (String _ _))) /\ _ =>
        destruct (utf8_cp4 (N_of_ascii a) (N_of_ascii a0) (N_of_ascii a1) (N_of_ascii a2)) as [E S];
        [intros; lia..|]; apply (utf8_cons_ok _ [a; a0; a1; a2])
    | |- _ (_ :: utf8_cps ?r) = String _ (String _ (String _ _)) /\ _ =>
        destruct (utf8_cp3 (N_of_ascii a) (N_of_ascii a0) (N_of_ascii a1)) as [E S];
        [intros; lia..|]; apply (utf8_cons_ok _ [a; a0; a1])
    | |- _ (_ :: utf8_cps ?r) = String _ (String _ _) /\ _ =>
        destruct (utf8_cp2 (N_of_ascii a) (N_of_ascii a0)) as [E S];
        [intros; lia..|]; apply (utf8_cons_ok _ [a; a0])
    | |- _ =>
        destruct (utf8_cp1 (N_of_ascii a)) as [E S]; [lia|]; apply (utf8_cons_ok _ [a])
    end; try done; apply IH; simpl in *; (lia || done).
Qed.

Lemma utf8_valid_roundtrip s :
  utf8_valid s = true ->
  utf8_encode (utf8_cps s) = s /\ Forall (fun c => is_scalar c = true) (utf8_cps s).
Proof. apply (utf8_valid_roundtrip_le (String.length s)). done. Qed.

(** *** The file: [json.dump] writes ASCII, which reads back unchanged *)

(** What [json.dump] writes: newlines and printable ASCII. *)
Definition json_text_char (x : N) : bool := (x =? 10) || ((32 <=? x) && (x <=? 126)).

Lemma hex_digit_text d : d < 16 -> json_text_char (hex_digit_cp d) = true.
Proof.
  intros Hd. pose proof (hex_digit_small d Hd). unfold json_text_char.
  apply orb_true_intro. right. apply andb_true_intro. split; apply N.leb_le; lia.
Qed.

Lemma encode_char_text c : Forall (fun x => json_text_char x = true) (encode_char c).
Proof.
  unfold encode_char. destruct (escape_ascii c) eqn:E.
  - unfold escape_ascii_match, escape_dct.
    repeat match goal with |- context [if ?b then _ else _] => destruct b end;
      repeat (apply Forall_app; split); repeat constructor; apply hex_digit_text, N.mod_lt; lia.
  - unfold escape_ascii in E. apply orb_false_iff in E as [_ E].
    apply negb_false_iff in E. repeat constructor. unfold json_text_char. by rewrite E, orb_true_r.
Qed.

Lemma encode_item_text kv : Forall (fun x => json_text_char x = true) (encode_item kv).
Proof.
  assert (Hs : forall s, Forall (fun x => json_text_char x = true) (flat_map encode_char s)).
  { intros s. apply Forall_flat_map, Forall_forall. intros. apply encode_char_text. }
  unfold encode_item, encode_basestring_ascii.
  rewrite !Forall_app, !Forall_cons, !Forall_app. split_and!; try apply Hs; by repeat constructor.
Qed.

Lemma dump_mapping_text d : Forall (fun x => json_text_char x = true) (dump_mapping d).
Proof.
  assert (Hr : forall rest, Forall (fun x => json_text_char x = true) (encode_rest rest)).
  { induction rest as [|kv rest IH]; [by repeat constructor|]. cbn [encode_rest].
    rewrite !Forall_app. split_and!; [by repeat constructor|apply encode_item_text|done]. }
  destruct d as [|kv rest]; [by repeat constructor|]. unfold dump_mapping.
  rewrite !Forall_app. split_and!; [by repeat constructor|apply encode_item_text|apply Hr].
Qed.

(** A text of newlines and printable ASCII is its own UTF-8 encoding,
    and text mode reads it back as it is. *)
Lemma json_text_file l :
  Forall (fun x => json_text_char x = true) l ->
  utf8_valid (utf8_encode l) = true /\ universal_newlines (utf8_cps (utf8_encode l)) = l.
Proof.
  intros Hl.
  assert (Hs : Forall (fun x => x < 128) l).
  { eapply Forall_impl; [exact Hl|]. unfold json_text_char. intros x Hx.
    apply orb_true_iff in Hx as [Hx|Hx]; cmp_facts; lia. }
  assert (Hf : flat_map utf8_encode_cp l = l).
  { clear Hl. induction Hs as [|x l Hx _ IH]; [done|]. simpl. rewrite IH.
    unfold utf8_encode_cp. by rewrite (proj2 (N.ltb_lt x 128)). }
  assert (Ha : str_forall is_ascii (utf8_encode l) = true).
  { unfold utf8_encode. rewrite Hf. clear Hl Hf. induction Hs as [|x l Hx _ IH]; [done|].
    simpl. rewrite IH, andb_true_r. unfold is_ascii. rewrite N_ascii_embedding by lia.
    by apply N.ltb_lt. }
  split; [by apply utf8_valid_ascii|]. rewrite utf8_cps_ascii by done.
  unfold utf8_encode. rewrite Hf, String.list_ascii_of_string_of_list_ascii, map_map.
  clear Ha Hf. induction Hl as [|x l Hx _ IH]; [done|]. inversion Hs; subst.
  simpl. rewrite N_ascii_embedding by lia. rewrite IH by done.
  unfold json_text_char in Hx. destruct (N.eqb_spec x 13); [subst; done|done].
Qed.

(** *** The mapping written, loaded back *)

Definition valid_item (kv : string * string) : Prop := utf8_valid kv.1 = true /\ utf8_valid kv.2 = true.

Lemma mapping_items_nodup items :
  NoDup items.*1 -> Forall valid_item items ->
  NoDup (map (fun '(k, v) => (utf8_cps k, utf8_cps v)) items).*1.
Proof.
  intros Hd Hv.
  replace (map (fun '(k, v) => (utf8_cps k, utf8_cps v)) items).*1 with (utf8_cps <$> items.*1).
  2: { clear Hd Hv. induction items as [|[k v] items IH]; [done|].
       cbn [map]. rewrite !fmap_cons, IH. done. }
  apply NoDup_fmap_2_strong; [|done]. intros k1 k2 H1 H2 Heq.
  apply list_elem_of_fmap in H1 as [[? ?] [-> H1]], H2 as [[? ?] [-> H2]].
  rewrite Forall_forall in Hv. destruct (Hv _ H1) as [V1 _], (Hv _ H2) as [V2 _].
  rewrite <- (proj1 (utf8_valid_roundtrip _ V1)), <- (proj1 (utf8_valid_roundtrip _ V2)). simpl in *. by f_equal.
Qed.

Lemma mapping_items_scalar items :
  Forall valid_item items -> Forall scalar_item (map (fun '(k, v) => (utf8_cps k, utf8_cps v)) items).
Proof.
  induction 1 as [|[k v] items [Vk Vv] _ IH]; constructor; [|done].
  split; [apply (utf8_valid_roundtrip _ Vk)|apply (utf8_valid_roundtrip _ Vv)].
Qed.

Lemma mapping_items_decode items :
  Forall valid_item items ->
  mapM (fun kv : list N * json => match kv.2 with
                                  | JStr v => Some (utf8_encode kv.1, utf8_encode v)
                                  | _ => None
                                  end)
       (map (fun kv => (kv.1, JStr kv.2)) (map (fun '(k, v) => (utf8_cps k, utf8_cps v)) items)) =
  Some items.
Proof.
  induction 1 as [|[k v] items [Vk Vv] _ IH]; [done|]. simpl in *.
  rewrite (proj1 (utf8_valid_roundtrip _ Vk)), (proj1 (utf8_valid_roundtrip _ Vv)), IH. done.
Qed.

(** C19. The mapping a run writes to [url_mapping.json] is the mapping
    the next run loads: for a dict whose keys and values are valid UTF-8
    byte strings, each key once, [json.load] of the file
    [json.dump(mapping, mp, indent=2)] wrote into a UTF-8 text file is
    the same map, whatever the dict's insertion order.  The crawlers'
    [mapping] is therefore modelled as a [gmap] across runs. *)
Theorem mapping_file_roundtrip items :
  NoDup items.*1 -> Forall valid_item items ->
  json_load_file (mapping_file items) ≫= mapping_of_json = Some (list_to_map items).
Proof.
  intros Hd Hv. set (d := map (fun '(k, v) => (utf8_cps k, utf8_cps v)) items).
  destruct (json_text_file (dump_mapping d) (dump_mapping_text d)) as [Hu Hn].
  unfold json_load_file, mapping_file. fold d. rewrite Hu, Hn, json_loads_dump_mapping.
  - simpl. unfold d. by rewrite mapping_items_decode.
  - by apply mapping_items_nodup.
  - by apply mapping_items_scalar.
Qed.

(** *** rebuild_mapping.py writes the mapping [rebuild_mapping] computes *)









Section RebuildFold.




End RebuildFold.


(** ** Witnesses and examples *)

Lemma scan_once_fuel_witness :
  (length (cps_of "[1, [true]]") < 40)%nat /\
  scan_once 40 (cps_of "[1, [true]]") = scan_once (S (length (cps_of "[1, [true]]"))) (cps_of "[1, [true]]").
Proof. split; [vm_compute; lia|apply scan_once_fuel; vm_compute; lia]. Defined.

Lemma json_loads_dump_mapping_witness :
  NoDup [cps_of "k"; cps_of "id"] /\
  Forall scalar_item [(cps_of "k", [233; 10; 128512]); (cps_of "id", cps_of "http://a.test/")] /\
  json_loads (dump_mapping [(cps_of "k", [233; 10; 128512]); (cps_of "id", cps_of "http://a.test/")]) =
  Some (JObj [(cps_of "k", JStr [233; 10; 128512]); (cps_of "id", JStr (cps_of "http://a.test/"))]).
Proof.
  assert (Hn : NoDup [cps_of "k"; cps_of "id"]) by (vm_compute; repeat constructor; set_solver).
  assert (Hs : Forall scalar_item [(cps_of "k", [233; 10; 128512]); (cps_of "id", cps_of "http://a.test/")])
    by (repeat constructor).
  split_and!; [exact Hn|exact Hs|].
  apply (json_loads_dump_mapping [(cps_of "k", [233; 10; 128512]); (cps_of "id", cps_of "http://a.test/")]);
    [exact Hn|exact Hs].
Defined.

Lemma mapping_file_roundtrip_witness :
  NoDup ["a1b2"; "c3d4"] /\
  Forall valid_item [("a1b2", "http://a.test/x"); ("c3d4", "http://a.test/y")] /\
  json_load_file (mapping_file [("a1b2", "http://a.test/x"); ("c3d4", "http://a.test/y")]) ≫= mapping_of_json =
  Some (list_to_map [("a1b2", "http://a.test/x"); ("c3d4", "http://a.test/y")]).
Proof.
  assert (Hn : NoDup ["a1b2"; "c3d4"]) by (repeat constructor; set_solver).
  assert (Hv : Forall valid_item [("a1b2", "http://a.test/x"); ("c3d4", "http://a.test/y")])
    by (repeat constructor).
  split_and!; [exact Hn|exact Hv|].
  apply (mapping_file_roundtrip [("a1b2", "http://a.test/x"); ("c3d4", "http://a.test/y")]); [exact Hn|exact Hv].
Defined.



(** [json.load] keeps the first place of a repeated key and takes its
    last value: [{"a":1,"b":2,"a":3}] is [{'a': 3, 'b': 2}]. *)
Example json_repeated_key :
  json_loads [123; 34; 97; 34; 58; 49; 44; 34; 98; 34; 58; 50; 44; 34; 97; 34; 58; 51; 125] =
  Some (JObj [([97], JInt 3); ([98], JInt 2)]).
Proof. vm_compute. reflexivity. Qed.

(** An [int] of 4301 digits is the [ValueError] of [int()]; with a
    fraction it is a [float]. *)
Example json_int_digit_limit :
  json_loads (repeat 49 4301%nat) = None /\
  json_loads (repeat 49 4300%nat ++ [46; 48]) = Some (JFloat (repeat 49 4300%nat ++ [46; 48])).
Proof. split; vm_compute; reflexivity. Qed.

(** The script dies before writing when the ledger is missing. *)
Example rebuild_mapping_no_ledger : rebuild_mapping_main (fun _ => None) (fun _ => true) = None.
Proof. reflexivity. Qed.
