(* ===== verification/Loop.v ===== *)
(** * The crawl loop shared by every crawler version

    Every crawler version of the repository (crawler-updated1.py to -5,
    -8, -9, -11, -12) runs the same frontier loop:
<<
    while queue and count < max_pages:
        raw_url = queue.pop(0) ...
        if <skip>: continue
        ... fetch, record ...
        for link in ...: queue.append(abs_url)
        count += 1
>>
    and differs only in its body.  This file holds the state the loop
    threads (the [store] of durable effects and the [seen] set), the loop
    itself as a function of its body [visit_fn] ([drain] pops URLs until
    one is fetched, [crawl_loop] repeats that [max_pages - count] times),
    the loop as a step relation [loop_step] on the loop variables
    [cstate], and the facts every version inherits: [crawl_loop] computes
    the state where the [while] loop stops or raises
    ([crawl_loop_steps]), the loop terminates ([loop_step_wf]) and every
    execution reaches a state where it stops or raises
    ([loop_eventually_stops], with the inductive [eventually]), and an
    invariant that every iteration keeps, counting fetched pages, holds of
    the whole loop ([crawl_loop_R]).  Two such invariants are shared by
    the versions: [ledger_appends] (the ledger grows by one line per
    page) and [seen_appends] (each line a URL new to [seen]). *)

From S2P Require Import Prelude Fetcher Ledger Robots.

(** ** State *)

(** The world the crawler talks to: [web_net url a] answers the [a]-th GET
    of one fetch of [url]; [web_robots u] is what [rp.read()]'s
    [urlopen] gets for the robots URL [u]. *)
Record web := Web {
  web_net : string -> nat -> attempt_result;
  web_robots : string -> robots_response }.

(** The durable state and what the loop shares across seeds: the
    [visited] set, the ledger file's content, the [mapping] dict, the
    vocabulary files by path and the trace of effects. *)
Record store := Store {
  st_visited : gset string;
  st_ledger : string;
  st_mapping : gmap string string;
  st_files : gmap string (list N);
  st_trace : list event }.

Inductive run_result := Finished (st : store) | Aborted (st : store).

Definition result_store (r : run_result) : store :=
  match r with Finished st | Aborted st => st end.

Definition add_trace (st : store) (evs : list event) : store :=
  Store (st_visited st) (st_ledger st) (st_mapping st) (st_files st) (st_trace st ++ evs).

(** What one iteration does with the popped URL: [continue] before
    [count += 1] (the new [seen]), a fetched page (the links to append),
    or an exception that escapes the loop. *)
Inductive visit :=
| VSkip (seen : gset string) (st : store)
| VPage (links : list string) (seen : gset string) (st : store)
| VCrash (st : store).

Definition visit_store (v : visit) : store :=
  match v with VSkip _ st | VPage _ _ st | VCrash st => st end.

Inductive drain_result :=
| DEmpty (seen : gset string) (st : store)
| DPage (queue : list string) (seen : gset string) (st : store)
| DCrash (st : store).

(** The variables of the loop. *)
Record cstate := CState {
  cs_queue : list string; cs_seen : gset string; cs_count : nat; cs_store : store }.

Section Loop.
Variable visit_fn : string -> gset string -> store -> visit.

(** Iterations of the loop until one fetches a page or the queue is empty. *)
Fixpoint drain (q : list string) (seen : gset string) (st : store) : drain_result :=
  match q with
  | [] => DEmpty seen st
  | raw :: rest =>
      match visit_fn raw seen st with
      | VSkip seen' st' => drain rest seen' st'
      | VPage links seen' st' => DPage (rest ++ links) seen' st'
      | VCrash st' => DCrash st'
      end
  end.

(** [while queue and count < max_pages], with [budget = max_pages - count]. *)
Fixpoint crawl_loop (budget : nat) (q : list string) (seen : gset string) (st : store) : run_result :=
  match budget with
  | O => Finished st
  | S b =>
      match drain q seen st with
      | DEmpty _ st' => Finished st'
      | DPage q' seen' st' => crawl_loop b q' seen' st'
      | DCrash st' => Aborted st'
      end
  end.

(** One iteration of the loop that does not raise: the popped URL is
    skipped ([continue]) or its page is fetched ([count += 1]). *)
Inductive loop_step (max_pages : nat) : cstate -> cstate -> Prop :=
| LoopSkip raw q seen count st seen' st' :
    count < max_pages -> visit_fn raw seen st = VSkip seen' st' ->
    loop_step max_pages (CState (raw :: q) seen count st) (CState q seen' count st')
| LoopPage raw q seen count st links seen' st' :
    count < max_pages -> visit_fn raw seen st = VPage links seen' st' ->
    loop_step max_pages (CState (raw :: q) seen count st) (CState (q ++ links) seen' (S count) st').

(** The loop condition is false. *)
Definition loop_halted (max_pages : nat) (cs : cstate) : Prop :=
  cs_queue cs = [] \/ max_pages <= cs_count cs.

(** The iteration from [cs] raises, leaving the store [st']. *)
Definition loop_crash (max_pages : nat) (cs : cstate) (st' : store) : Prop :=
  cs_count cs < max_pages /\ exists raw q, cs_queue cs = raw :: q /\
    visit_fn raw (cs_seen cs) (cs_store cs) = VCrash st'.

End Loop.

(** [for x in xs: f(x)] over the shared store; an exception ends the loop. *)
Fixpoint run_seq {A} (f : A -> store -> run_result) (xs : list A) (st : store) : run_result :=
  match xs with
  | [] => Finished st
  | x :: xs' =>
      match f x st with
      | Finished st' => run_seq f xs' st'
      | Aborted st' => Aborted st'
      end
  end.

(** From [x] to [y] the ledger grew by [n] lines. *)
Definition ledger_appends (x y : gset string * store) (n : nat) : Prop :=
  exists new, st_ledger y.2 = st_ledger x.2 +:+ render_lines new /\ length new = n.

(** From [(seen, st)] to [(seen', st')] the ledger received [n] new URLs,
    each once, each added to [seen] on the way: the bookkeeping of the
    versions that append the URL they add to [seen]. *)
Definition seen_appends (x y : gset string * store) (n : nat) : Prop :=
  exists new, st_ledger y.2 = st_ledger x.2 +:+ render_lines new /\ length new = n /\
    NoDup new /\ Forall (fun u => u ∈ y.1 /\ u ∉ x.1) new /\ x.1 ⊆ y.1.

(** [P] holds now, or the system can move and, however it moves, [P]
    eventually holds: the inductive form of "every execution reaches [P]". *)
Inductive eventually {A} (R : A -> A -> Prop) (P : A -> Prop) : A -> Prop :=
| ev_now x : P x -> eventually R P x
| ev_later x : (exists y, R x y) -> (forall y, R x y -> eventually R P y) -> eventually R P x.

(** The loop is over: its condition is false or its next iteration raises. *)
Definition loop_stopped (visit_fn : string -> gset string -> store -> visit) (max_pages : nat)
    (cs : cstate) : Prop :=
  loop_halted max_pages cs \/ exists st', loop_crash visit_fn max_pages cs st'.

(** ** Lemmas: [crawl_loop] runs the [while] loop *)

Section LoopFacts.
Variable visit_fn : string -> gset string -> store -> visit.

Lemma loop_step_det m cs c1 c2 :
  loop_step visit_fn m cs c1 -> loop_step visit_fn m cs c2 -> c1 = c2.
Proof. intros H1 H2. inversion H1; subst; inversion H2; subst; congruence. Qed.

Lemma loop_halted_final m cs cs' : loop_halted m cs -> ~ loop_step visit_fn m cs cs'.
Proof. intros [Hq|Hc] Hs; inversion Hs; subst; simpl in *; first [done|lia]. Qed.

(** The iterations [drain] runs: skips, then a fetched page, a raise or an empty queue. *)
Lemma drain_steps m q seen count st :
  count < m ->
  match drain visit_fn q seen st with
  | DEmpty seen' st' => rtc (loop_step visit_fn m) (CState q seen count st) (CState [] seen' count st')
  | DPage q' seen' st' =>
      rtc (loop_step visit_fn m) (CState q seen count st) (CState q' seen' (S count) st')
  | DCrash st' => exists cs, rtc (loop_step visit_fn m) (CState q seen count st) cs /\
                   loop_crash visit_fn m cs st'
  end.
Proof.
  intros Hc. revert seen st. induction q as [|raw q IH]; intros seen st; simpl; [done|].
  destruct (visit_fn raw seen st) as [seen' st'|links seen' st'|st'] eqn:Hv.
  - specialize (IH seen' st'). destruct (drain visit_fn q seen' st');
      [| |destruct IH as (cs & ? & ?); exists cs; split; [|done]];
      (eapply rtc_l; [by apply LoopSkip|done]).
  - apply rtc_once. by apply LoopPage.
  - exists (CState (raw :: q) seen count st). split; [done|]. split; [done|]. eauto.
Qed.

Lemma crawl_loop_steps m b q seen count st :
  count + b = m ->
  match crawl_loop visit_fn b q seen st with
  | Finished st' => exists cs, rtc (loop_step visit_fn m) (CState q seen count st) cs /\
                      loop_halted m cs /\ cs_store cs = st'
  | Aborted st' => exists cs, rtc (loop_step visit_fn m) (CState q seen count st) cs /\
                      loop_crash visit_fn m cs st'
  end.
Proof.
  revert q seen count st. induction b as [|b IH]; intros q seen count st Hb; simpl.
  { exists (CState q seen count st). split_and!; [done|right; simpl; lia|done]. }
  pose proof (drain_steps m q seen count st ltac:(lia)) as Hd.
  destruct (drain visit_fn q seen st) as [seen' st'|q' seen' st'|st'].
  - exists (CState [] seen' count st'). split_and!; [done|by left|done].
  - specialize (IH q' seen' (S count) st' ltac:(lia)).
    destruct (crawl_loop visit_fn b q' seen' st');
      destruct IH as (cs & Hr & Hs); exists cs; (split; [by eapply rtc_trans|done]).
  - done.
Qed.

(** The lexicographic measure [(max_pages - count, length queue)] decreases. *)
Lemma loop_step_acc m n cs :
  m - cs_count cs <= n -> Acc (flip (loop_step visit_fn m)) cs.
Proof.
  revert cs. induction n as [|n IHn]; intros cs.
  - intros Hn. constructor. intros cs' Hs. inversion Hs; subst; simpl in *; lia.
  - intros Hn. remember (length (cs_queue cs)) as len eqn:Hlen.
    revert cs Hn Hlen. induction len as [len IHl] using lt_wf_ind. intros cs Hn Hlen.
    constructor. intros cs' Hs. inversion Hs; subst; simpl in *.
    + apply (IHl (length q)); simpl; [lia|lia|done].
    + apply IHn. simpl. lia.
Qed.

(** *** An invariant of the iterations is an invariant of the loop

    [R (seen, st) (seen', st') n]: from [seen] and [st] the loop may reach
    [seen'] and [st'] fetching [n] pages. *)
Section Invariant.
Variable R : gset string * store -> gset string * store -> nat -> Prop.
Hypothesis R_refl : forall x, R x x 0.
Hypothesis R_trans : forall x y z n k, R x y n -> R y z k -> R x z (n + k).
Hypothesis visit_R : forall raw seen st,
  match visit_fn raw seen st with
  | VSkip seen' st' => R (seen, st) (seen', st') 0
  | VPage _ seen' st' => R (seen, st) (seen', st') 1
  | VCrash st' => exists seen' n, n <= 1 /\ R (seen, st) (seen', st') n
  end.

Lemma drain_R q seen st :
  match drain visit_fn q seen st with
  | DEmpty seen' st' => R (seen, st) (seen', st') 0
  | DPage _ seen' st' => R (seen, st) (seen', st') 1
  | DCrash st' => exists seen' n, n <= 1 /\ R (seen, st) (seen', st') n
  end.
Proof.
  revert seen st. induction q as [|raw q IH]; intros seen st; simpl; [done|].
  pose proof (visit_R raw seen st) as Hv.
  destruct (visit_fn raw seen st) as [seen' st'|links seen' st'|st']; [|done|done].
  specialize (IH seen' st'). destruct (drain visit_fn q seen' st').
  - exact (R_trans _ _ _ 0 0 Hv IH).
  - exact (R_trans _ _ _ 0 1 Hv IH).
  - destruct IH as (s & n & Hn & HR). exists s, n. split; [done|exact (R_trans _ _ _ 0 n Hv HR)].
Qed.

Lemma crawl_loop_R b q seen st :
  exists seen' n, n <= b /\ R (seen, st) (seen', result_store (crawl_loop visit_fn b q seen st)) n.
Proof.
  revert q seen st. induction b as [|b IH]; intros q seen st; simpl; [exists seen, 0; split; [lia|done]|].
  pose proof (drain_R q seen st) as Hd.
  destruct (drain visit_fn q seen st) as [seen' st'|q' seen' st'|st'].
  - exists seen', 0. split; [lia|done].
  - destruct (IH q' seen' st') as (s & n & Hn & HR). exists s, (1 + n).
    split; [lia|exact (R_trans _ _ _ 1 n Hd HR)].
  - destruct Hd as (s & n & Hn & HR). exists s, n. split; [lia|done].
Qed.

End Invariant.

(** *** An invariant of the iterations that do not raise holds of a loop
    that finishes *)
Section FinishedInvariant.
Variable R : gset string * store -> gset string * store -> Prop.
Hypothesis R_refl : forall x, R x x.
Hypothesis R_trans : forall x y z, R x y -> R y z -> R x z.
Hypothesis visit_R : forall raw seen st,
  match visit_fn raw seen st with
  | VSkip seen' st' | VPage _ seen' st' => R (seen, st) (seen', st')
  | VCrash _ => True
  end.

Lemma drain_finished_R q seen st :
  match drain visit_fn q seen st with
  | DEmpty seen' st' | DPage _ seen' st' => R (seen, st) (seen', st')
  | DCrash _ => True
  end.
Proof.
  revert seen st. induction q as [|raw q IH]; intros seen st; simpl; [done|].
  pose proof (visit_R raw seen st) as Hv.
  destruct (visit_fn raw seen st) as [seen' st'|links seen' st'|st']; [|done|done].
  specialize (IH seen' st'). destruct (drain visit_fn q seen' st'); eauto.
Qed.

Lemma crawl_loop_finished_R b q seen st st' :
  crawl_loop visit_fn b q seen st = Finished st' -> exists seen', R (seen, st) (seen', st').
Proof.
  revert q seen st. induction b as [|b IH]; intros q seen st; simpl; [intros [= <-]; eauto|].
  pose proof (drain_finished_R q seen st) as Hd.
  destruct (drain visit_fn q seen st) as [seen1 st1|q1 seen1 st1|st1]; [intros [= <-]; eauto| |done].
  intros (s & Hs)%IH. eauto.
Qed.

End FinishedInvariant.

(** A relation between stores that every call keeps holds of the [for] loop. *)
Lemma run_seq_R {A} (P : store -> store -> Prop) (f : A -> store -> run_result) xs st :
  (forall st, P st st) -> (forall a b c, P a b -> P b c -> P a c) ->
  (forall x st, P st (result_store (f x st))) ->
  P st (result_store (run_seq f xs st)).
Proof.
  intros Hr Ht Hf. revert st. induction xs as [|x xs IH]; intros st; simpl; [done|].
  specialize (Hf x st). destruct (f x st) as [st'|st']; simpl in *; [|done]. eauto.
Qed.

(** *** Two loop bodies in simulation

    When every iteration of [visit1] that does not raise is matched by
    one of [visit2] with the same [seen] and links and related stores,
    a run of the [visit1] loop that finishes is matched by a run of the
    [visit2] loop that finishes. *)
Section Simulation.
Variables visit1 visit2 : string -> gset string -> store -> visit.
Variable S : store -> store -> Prop.
Hypothesis visit_sim : forall raw seen st1 st2, S st1 st2 ->
  match visit1 raw seen st1 with
  | VSkip seen' st1' => exists st2', visit2 raw seen st2 = VSkip seen' st2' /\ S st1' st2'
  | VPage links seen' st1' => exists st2', visit2 raw seen st2 = VPage links seen' st2' /\ S st1' st2'
  | VCrash _ => True
  end.

Lemma drain_sim q seen st1 st2 : S st1 st2 ->
  match drain visit1 q seen st1 with
  | DEmpty seen' st1' => exists st2', drain visit2 q seen st2 = DEmpty seen' st2' /\ S st1' st2'
  | DPage q' seen' st1' => exists st2', drain visit2 q seen st2 = DPage q' seen' st2' /\ S st1' st2'
  | DCrash _ => True
  end.
Proof.
  revert seen st1 st2. induction q as [|raw q IH]; intros seen st1 st2 HS; simpl; [eauto|].
  pose proof (visit_sim raw seen st1 st2 HS) as Hv.
  destruct (visit1 raw seen st1) as [seen' st1'|links seen' st1'|st1']; [| |done];
    destruct Hv as (st2' & -> & HS'); [by apply IH|eauto].
Qed.

Lemma crawl_loop_sim b q seen st1 st2 st1' : S st1 st2 ->
  crawl_loop visit1 b q seen st1 = Finished st1' ->
  exists st2', crawl_loop visit2 b q seen st2 = Finished st2' /\ S st1' st2'.
Proof.
  revert q seen st1 st2. induction b as [|b IH]; intros q seen st1 st2 HS; simpl; [intros [= <-]; eauto|].
  pose proof (drain_sim q seen st1 st2 HS) as Hd.
  destruct (drain visit1 q seen st1) as [seen1 s1|q1 seen1 s1|s1]; [| |done];
    destruct Hd as (s2 & -> & HS'); [intros [= <-]; eauto|by apply IH].
Qed.

End Simulation.

(** A relation that every finished call keeps holds of a finished [for] loop. *)
Lemma run_seq_finished {A} (P : store -> store -> Prop) (f : A -> store -> run_result) xs st st' :
  (forall st, P st st) -> (forall a b c, P a b -> P b c -> P a c) ->
  (forall x st st', f x st = Finished st' -> P st st') ->
  run_seq f xs st = Finished st' -> P st st'.
Proof.
  intros Hr Ht Hf. revert st. induction xs as [|x xs IH]; intros st; simpl; [by intros [= <-]|].
  destruct (f x st) as [st1|st1] eqn:E; [|done]. intros H. eapply Ht; [eapply Hf, E|by apply IH].
Qed.

Lemma ledger_appends_refl x : ledger_appends x x 0.
Proof. exists []. by rewrite append_empty_r. Qed.

Lemma ledger_appends_same x y : st_ledger y.2 = st_ledger x.2 -> ledger_appends x y 0.
Proof. intros H. exists []. by rewrite H, append_empty_r. Qed.

Lemma ledger_appends_one x y u : st_ledger y.2 = st_ledger x.2 +:+ ledger_line u -> ledger_appends x y 1.
Proof. intros H. exists [u]. simpl. by rewrite H, append_empty_r. Qed.

Lemma ledger_appends_trans x y z n k :
  ledger_appends x y n -> ledger_appends y z k -> ledger_appends x z (n + k).
Proof.
  intros (n1 & H1 & <-) (n2 & H2 & <-). exists (n1 ++ n2).
  rewrite H2, H1, render_lines_app, append_assoc_str. by rewrite length_app.
Qed.

(** Every state of the loop is stopped or can take an iteration. *)
Lemma loop_progress m cs : loop_stopped visit_fn m cs \/ exists cs', loop_step visit_fn m cs cs'.
Proof.
  destruct cs as [[|raw q] seen count st]; [left; left; by left|].
  destruct (decide (m <= count)) as [Hm|Hm]; [left; left; by right|].
  destruct (visit_fn raw seen st) as [seen' st'|links seen' st'|st'] eqn:Hv.
  - right. eexists. apply LoopSkip; [lia|exact Hv].
  - right. eexists. apply LoopPage; [lia|exact Hv].
  - left. right. exists st'. split; [simpl; lia|eauto].
Qed.

(** Liveness of the [while] loop of every crawler version: from
    every state, every sequence of iterations reaches a state where the
    loop condition is false or the next iteration raises. *)
Theorem loop_eventually_stops max_pages cs :
  eventually (loop_step visit_fn max_pages) (loop_stopped visit_fn max_pages) cs.
Proof.
  induction (loop_step_acc max_pages (max_pages - cs_count cs) cs ltac:(lia)) as [cs _ IH].
  destruct (loop_progress max_pages cs) as [Hs|Hstep]; [by apply ev_now|].
  apply ev_later; [done|]. intros cs' Hcs. by apply IH.
Qed.

(** C8. The [while] loop of every crawler version terminates from every
    state: there is no infinite sequence of iterations, although fetched
    pages grow the queue. *)
Theorem loop_step_wf max_pages : well_founded (flip (loop_step visit_fn max_pages)).
Proof. intros cs. apply (loop_step_acc max_pages (max_pages - cs_count cs)). lia. Qed.

End LoopFacts.

Lemma seen_appends_refl x : seen_appends x x 0.
Proof. exists []. rewrite append_empty_r. split_and!; [done|done|constructor|constructor|done]. Qed.

Lemma seen_appends_skip s s' st st' :
  s ⊆ s' -> st_ledger st' = st_ledger st -> seen_appends (s, st) (s', st') 0.
Proof. intros Hs Hl. exists []. simpl. rewrite Hl, append_empty_r. split_and!; [done|done|constructor|constructor|done]. Qed.

Lemma seen_appends_one u s st st' :
  u ∉ s -> st_ledger st' = st_ledger st +:+ ledger_line u ->
  seen_appends (s, st) ({[u]} ∪ s, st') 1.
Proof.
  intros Hu Hl. exists [u]. simpl. rewrite Hl, append_empty_r.
  split_and!; [done|done|repeat constructor; set_solver|repeat constructor; set_solver|set_solver].
Qed.

Lemma seen_appends_trans x y z n k : seen_appends x y n -> seen_appends y z k -> seen_appends x z (n + k).
Proof.
  intros (n1 & L1 & <- & D1 & F1 & S1) (n2 & L2 & <- & D2 & F2 & S2). exists (n1 ++ n2).
  rewrite L2, L1, render_lines_app, append_assoc_str, length_app. split_and!; [done|done| | |set_solver].
  - apply NoDup_app. split_and!; [done| |done]. intros u Hu1 Hu2.
    rewrite Forall_forall in F1, F2. destruct (F1 u Hu1), (F2 u Hu2). done.
  - apply Forall_app. split.
    + eapply Forall_impl; [exact F1|]. intros u [? ?]. set_solver.
    + eapply Forall_impl; [exact F2|]. intros u [? ?]. set_solver.
Qed.
