(* ===== verification/Crawl.v ===== *)
(** * The Orchestrator and the Frontier: [crawl_seed] and [main]

    [crawl_seed] (crawler-updated12.py, lines 32-127) runs
    [while queue and count < max_pages:] over a FIFO [queue] that starts
    as [[seed]].  One iteration pops the head, strips and canonicalizes it,
    drops login pages and URLs already in [visited] or [seen], adds the URL
    to [seen], runs the fetch loop, and on success adds it to [visited],
    appends it to the ledger, records its id in [mapping], writes its
    vocabulary file, appends its same-prefix links to the queue, counts the
    page and sleeps [crawl_delay + uniform(1, 3)].  [main] (lines 130-185)
    loads the ledger and the mapping, runs [crawl_seed] for every seed of
    every topic and dumps the mapping.

    The durable and shared state is the [store]: the [visited] set shared
    by all seeds, the ledger file's content, the [mapping] dict, the
    vocabulary files and the trace of effects.  An exception that escapes
    (a [ValueError] of [urlparse] or of [int(retry_after)]) aborts the run:
    the result is [Aborted] with the store as it was when it was raised;
    the ledger keeps what was appended, the mapping file is not rewritten.

    The loop is [Loop.crawl_loop] run with the body [visit_url]; the
    theorems show the run invariant [run_inv] of every iteration, hence
    of [crawl_seed] and [main] (deduplication across seeds and runs), the
    page bound, the refinement of [loop_step], the link filter, the
    mapping refinement, the end-to-end scenario and the examples behind
    the findings. *)

From S2P Require Import Prelude Sha256 Url Fetcher Tokens Vocab Ledger Robots Loop.

Set Warnings "-clear-no-such-hyp".
Local Open Scope crawl_scope.

(** ** State *)

(** What one seed's loop reads but never changes. *)
Record seed_env := SeedEnv {
  se_output_dir : string; se_topic : string;
  se_base : string; se_delay : Z }.

Section Crawl.
Context `{CC : CharClasses} `{CM : CaseMap}.
Variable w : web.

(** ** One URL *)

(** Lines 38-44: [crawl_delay = rp.crawl_delay(hdrs['User-Agent']) or 0]
    after [rp.read()] of [seed.rstrip('/') + "/robots.txt"]. *)
Definition crawl_delay_of (seed : string) : Z :=
  default 0%Z (robots_crawl_delay (robots_read (web_robots w (rstrip_by is_slash seed +:+ "/robots.txt")))
                                  user_agent).

(** Lines 116-119: [abs_url = urljoin(canonical, link["href"])], appended
    when it starts with [base] and is neither visited nor seen; [None]
    when [urljoin] raises. *)
Fixpoint enqueue_links (canonical base : string) (visited seen : gset string)
    (hrefs : list string) : option (list string) :=
  match hrefs with
  | [] => Some []
  | h :: hs =>
      match urljoin canonical h with
      | None => None
      | Some abs =>
          match enqueue_links canonical base visited seen hs with
          | None => None
          | Some rest =>
              Some (if (abs startswith base) && negb (bool_decide (abs ∈ visited))
                       && negb (bool_decide (abs ∈ seen))
                    then abs :: rest else rest)
          end
      end
  end.

(** The writes of lines 97-113 for a fetched page. *)
Definition record_page (env : seed_env) (c : string) (p : page) (st : store) : store :=
  let path := vocab_path (se_output_dir env) (se_topic env) c in
  let content := join_space (tokens_of (page_text p)) in
  Store ({[c]} ∪ st_visited st) (st_ledger st +:+ ledger_line c)
        (record_mapping (st_mapping st) c) (<[path := content]> (st_files st))
        (st_trace st ++ [EvAppendLedger c; EvWriteVocab path content]).

(** Lines 54-127 for the URL [raw] popped from the queue. *)
Definition visit_url (env : seed_env) (raw : string) (seen : gset string) (st : store) : visit :=
  match canonicalize (py_strip raw) with
  | None => VCrash st
  | Some c =>
      if skip_canonical c then VSkip seen st
      else if bool_decide (c ∈ st_visited st) || bool_decide (c ∈ seen) then VSkip seen st
      else
        let seen' := {[c]} ∪ seen in
        let '(evs, o) := fetch (web_net w c) c in
        let st1 := add_trace st evs in
        match o with
        | Crashed => VCrash st1
        | Skipped _ | Exhausted => VSkip seen' st1
        | Fetched p =>
            let st2 := record_page env c p st1 in
            match enqueue_links c (se_base env) (st_visited st2) seen' (page_hrefs p) with
            | None => VCrash st2
            | Some links => VPage links seen' (add_trace st2 [EvPoliteSleep (se_delay env)])
            end
        end
  end.

Definition seed_env_of (output_dir topic seed : string) : seed_env :=
  SeedEnv output_dir topic (rstrip_by is_slash seed) (crawl_delay_of seed).

(** [crawl_seed(topic, seed, max_pages, ...)] *)
Definition crawl_seed (output_dir topic seed : string) (max_pages : nat) (st : store) : run_result :=
  crawl_loop (visit_url (seed_env_of output_dir topic seed)) max_pages [seed] ∅ st.

(** ** [main] *)

(** [for seed in seeds: crawl_seed(...)]; an exception ends everything. *)
Definition crawl_seeds (output_dir topic : string) (seeds : list string) (max_pages : nat)
    (st : store) : run_result :=
  run_seq (fun s => crawl_seed output_dir topic s max_pages) seeds st.

(** [for topic, seeds in topics.items(): ...] *)
Definition crawl_topics (output_dir : string) (topics : list (string * list string))
    (max_pages : nat) (st : store) : run_result :=
  run_seq (fun ts => crawl_seeds output_dir ts.1 ts.2 max_pages) topics st.

End Crawl.

(** [[line.strip() for line in f if line.strip()]] *)
Definition seeds_of (content : string) : list string :=
  List.filter (fun s => negb (is_empty s)) (map py_strip (file_lines content)).

(** [os.path.splitext(fname)[0]] for a name ending in [.txt]: the
    extension is not split off when only dots precede it. *)
Definition topic_of (stem : string) (fname : string) : string :=
  if str_forall (Ascii.eqb ".") stem then fname else stem.

(** [topics[topic] = seeds]: a dict keeps the first position of a key. *)
Fixpoint dict_set (k : string) (v : list string) (d : list (string * list string))
    : list (string * list string) :=
  match d with
  | [] => [(k, v)]
  | (k', v') :: d' => if String.eqb k k' then (k, v) :: d' else (k', v') :: dict_set k v d'
  end.

(** [fname.endswith('.txt')], and the name without [.txt]. *)
Definition txt_stem (fname : string) : option string :=
  let n := String.length fname in
  if (4 <=? n)%nat && String.eqb (str_drop (n - 4) fname) ".txt"
  then Some (str_take (n - 4) fname) else None.

(** Lines 163-171 over the directory listing, in [os.listdir] order
    (file name, content): the [.txt] files with at least one seed. *)
Definition load_topics (listing : list (string * string)) : list (string * list string) :=
  fold_left (fun d '(fname, content) =>
               match txt_stem fname with
               | Some stem =>
                   let seeds := seeds_of content in
                   if bool_decide (seeds = []) then d else dict_set (topic_of stem fname) seeds d
               | None => d
               end)
            listing [].

(** [main]: the ledger file (absent or its content), the mapping file,
    the seeds directory; the result store and the mapping file after the run. *)
Definition main `{CharClasses} `{CaseMap} (w : web) (output_dir : string) (max_pages : nat)
    (ledger0 : option string) (mapping0 : option (gmap string string))
    (listing : list (string * string)) : run_result * option (gmap string string) :=
  let st0 := Store (load_visited ledger0) (default EmptyString ledger0)
                   (default ∅ mapping0) ∅ [] in
  match crawl_topics w output_dir (load_topics listing) max_pages st0 with
  | Finished st => (Finished st, Some (st_mapping st))
  | Aborted st => (Aborted st, mapping0)
  end.

(** ** What a run does to the durable state *)

(** A URL the ledger file can hold on one line and give back by [strip()]. *)
Definition no_space (u : string) : Prop := str_forall ascii_nonspace u = true.

(** From [st0] to [st] the run appended the URLs [new] to the ledger, in
    this order: each once, none visited before, each added to [visited]
    and recorded in [mapping]. *)
Record run_inv (st0 st : store) (new : list string) : Prop := {
  ri_ledger : st_ledger st = st_ledger st0 +:+ render_lines new;
  ri_visited : st_visited st = st_visited st0 ∪ list_to_set new;
  ri_nodup : NoDup new;
  ri_fresh : Forall (fun u => u ∉ st_visited st0) new;
  ri_mapping : st_mapping st = fold_left record_mapping new (st_mapping st0);
  ri_clean : Forall no_space new }.

(** What one iteration of the loop body does to the durable state. *)
Definition visit_inv (st : store) (v : visit) : Prop :=
  match v with
  | VSkip _ st' => run_inv st st' []
  | VPage _ _ st' => exists c, run_inv st st' [c]
  | VCrash st' => exists new, run_inv st st' new /\ length new <= 1
  end.

(** The loop invariant: [n] pages fetched, and [run_inv] for the URLs
    they appended. *)
Definition pages_inv (x y : gset string * store) (n : nat) : Prop :=
  exists new, run_inv x.2 y.2 new /\ length new = n.

(** ** Sites for the examples *)

(** A page text given as an ASCII string. *)
Definition txt (s : string) : list N := map N_of_ascii (String.list_ascii_of_string s).

(** A site answering every GET of a listed URL with its response, and 404 otherwise. *)
Definition site_web (pages : list (string * attempt_result)) : web :=
  Web (fun u _ => match List.find (fun kv => String.eqb (fst kv) u) pages with
                  | Some (_, r) => r
                  | None => Response 404 None (Page [] [])
                  end)
      (fun _ => RobotsHTTPError 404).

Definition ok (text : string) (hrefs : list string) : attempt_result :=
  Response 200 None (Page (txt text) hrefs).

(** The site of the end-to-end scenario: the seed page links to one page
    in the prefix and to another host, which also answers. *)
Definition shop_web : web := site_web
  [("https://site.test/shop", ok "Shop items" ["/shop/item1"; "https://other.test/"]);
   ("https://site.test/shop/item1", ok "Item one" ["/shop/item2"]);
   ("https://site.test/shop/item2", ok "Item two" []);
   ("https://other.test", ok "Elsewhere" [])].

(** A seed page linking to a missing page [a] and to a page [b]. *)
Definition skip_web : web := site_web
  [("https://site.test/shop", ok "Shop" ["/shop/a"; "/shop/b"]);
   ("https://site.test/shop/b", ok "B" [])].

(** A site whose only page links to itself with a query string. *)
Definition self_link_web : web := site_web
  [("https://site.test/shop", ok "Shop" ["/shop/?ref=nav"])].

(** A site whose host publishes a crawl delay of 5 seconds in its
    [robots.txt]. *)
Definition delay_web : web :=
  Web (web_net shop_web)
      (fun u => if String.eqb u "https://site.test/robots.txt"
                then RobotsBody ("User-agent: *" +:+ String newline ("Crawl-delay: 5" +:+ String newline EmptyString))
                else RobotsHTTPError 404).

(** The seeds directory: [shop.txt] holding the seed. *)
Definition shop_listing : list (string * string) :=
  [("shop.txt", "https://site.test/shop/" +:+ String newline EmptyString)].

(** A ledger file holding the lines [L0] (or no file and no lines). *)
Definition ledger_holds (ledger0 : option string) (L0 : list string) : Prop :=
  (ledger0 = None /\ L0 = []) \/ ledger0 = Some (render_lines L0).

(** Every vocabulary write of the trace is directly followed by a
    politeness sleep of a non-negative crawl delay. *)
Definition sleeps_after_pages (tr : list event) : Prop :=
  forall i path content, tr !! i = Some (EvWriteVocab path content) ->
    exists d, tr !! S i = Some (EvPoliteSleep d) /\ (0 <= d)%Z.

(** From [x] to [y] the trace grew by events that keep [sleeps_after_pages]. *)
Definition polite_growth (x y : gset string * store) : Prop :=
  exists evs, st_trace y.2 = st_trace x.2 ++ evs /\ sleeps_after_pages evs.

(** ** Lemmas: the politeness sleeps *)

Lemma sleeps_after_pages_app tr evs :
  sleeps_after_pages tr -> sleeps_after_pages evs -> sleeps_after_pages (tr ++ evs).
Proof.
  intros H1 H2 i path content [Hi|[Hlen Hi]]%lookup_app_Some.
  - destruct (H1 i path content Hi) as (d & Hd & Hd0). exists d. split; [apply lookup_app_l_Some, Hd|done].
  - destruct (H2 _ path content Hi) as (d & Hd & Hd0). exists d. rewrite lookup_app_r by lia.
    by replace (S i - length tr) with (S (i - length tr)) by lia.
Qed.

Lemma sleeps_after_pages_no_write evs :
  Forall (fun e => is_vocab_write e = false) evs -> sleeps_after_pages evs.
Proof.
  intros Hall i path content Hi. rewrite Forall_lookup in Hall. by specialize (Hall i _ Hi).
Qed.

Lemma polite_growth_refl x : polite_growth x x.
Proof. exists []. split; [by rewrite app_nil_r|]. by apply sleeps_after_pages_no_write. Qed.

Lemma polite_growth_trans x y z : polite_growth x y -> polite_growth y z -> polite_growth x z.
Proof.
  intros (e1 & H1 & P1) (e2 & H2 & P2). exists (e1 ++ e2).
  rewrite H2, H1, app_assoc. split; [done|by apply sleeps_after_pages_app].
Qed.

(** ** Lemmas: the run invariant *)

Lemma run_inv_refl st : run_inv st st [].
Proof.
  split; simpl; rewrite ?append_empty_r; auto; [set_solver|constructor].
Qed.

Lemma run_inv_add_trace st0 st new evs : run_inv st0 st new -> run_inv st0 (add_trace st evs) new.
Proof. intros []. by split. Qed.

Lemma run_inv_record_page `{CharClasses} env st c p :
  c ∉ st_visited st -> no_space c -> run_inv st (record_page env c p st) [c].
Proof.
  intros Hc Hs. split; simpl; rewrite ?append_empty_r; auto.
  - set_solver.
  - constructor; [set_solver|constructor].
Qed.

Lemma run_inv_trans st0 st1 st2 n1 n2 :
  run_inv st0 st1 n1 -> run_inv st1 st2 n2 -> run_inv st0 st2 (n1 ++ n2).
Proof.
  intros [L1 V1 D1 F1 M1 C1] [L2 V2 D2 F2 M2 C2]. split.
  - by rewrite L2, L1, render_lines_app, append_assoc_str.
  - rewrite V2, V1, list_to_set_app_L. set_solver.
  - apply NoDup_app. split_and!; [done| |done].
    intros u Hu1 Hu2. rewrite Forall_forall in F2. apply (F2 u Hu2). rewrite V1.
    apply elem_of_union_r, elem_of_list_to_set, Hu1.
  - apply Forall_app. split; [done|]. eapply Forall_impl; [exact F2|].
    intros u Hu. rewrite V1 in Hu. set_solver.
  - by rewrite M2, M1, fold_left_app.
  - by apply Forall_app.
Qed.

#[export] Hint Resolve run_inv_refl run_inv_add_trace run_inv_record_page : crawl.

Section CrawlFacts.
Context `{CC : CharClasses} `{CM : CaseMap}.
Variable w : web.

Lemma visit_url_inv env raw seen st : visit_inv st (visit_url w env raw seen st).
Proof.
  unfold visit_url. destruct (canonicalize _) as [c|] eqn:Hc; simpl; [|exists []; auto with crawl].
  destruct (skip_canonical c); simpl; [auto with crawl|].
  destruct (bool_decide (c ∈ st_visited st)) eqn:Hv; simpl; [auto with crawl|].
  destruct (bool_decide (c ∈ seen)); simpl; [auto with crawl|].
  apply bool_decide_eq_false in Hv. apply canonicalize_no_space in Hc.
  destruct (fetch _ _) as [evs o]. destruct o as [p| | |]; simpl; auto with crawl.
  - assert (Hr : run_inv st (record_page env c p (add_trace st evs)) [c]).
    { apply (run_inv_trans _ (add_trace st evs) _ [] [c]); [auto with crawl|].
      by apply run_inv_record_page. }
    destruct (enqueue_links _ _ _ _ _); simpl; eauto with crawl.
  - exists []. auto with crawl.
Qed.

Lemma pages_inv_refl x : pages_inv x x 0.
Proof. exists []. split; [apply run_inv_refl|done]. Qed.

Lemma pages_inv_trans x y z n k : pages_inv x y n -> pages_inv y z k -> pages_inv x z (n + k).
Proof.
  intros (n1 & H1 & <-) (n2 & H2 & <-). exists (n1 ++ n2).
  split; [by eapply run_inv_trans|apply length_app].
Qed.

Lemma visit_url_pages env raw seen st :
  match visit_url w env raw seen st with
  | VSkip seen' st' => pages_inv (seen, st) (seen', st') 0
  | VPage _ seen' st' => pages_inv (seen, st) (seen', st') 1
  | VCrash st' => exists seen' n, n <= 1 /\ pages_inv (seen, st) (seen', st') n
  end.
Proof.
  pose proof (visit_url_inv env raw seen st) as Hv.
  destruct (visit_url w env raw seen st) as [seen' st'|links seen' st'|st']; simpl in Hv.
  - by exists [].
  - destruct Hv as [c Hc]. by exists [c].
  - destruct Hv as (new & Hn & Hl). exists ∅, (length new). split; [done|by exists new].
Qed.

(** The crawl delay of a seed is never negative. *)
Lemma crawl_delay_of_nonneg seed : (0 <= crawl_delay_of w seed)%Z.
Proof.
  unfold crawl_delay_of. destruct (robots_crawl_delay _ _) eqn:E; simpl; [by eapply robots_delay_nonneg|lia].
Qed.

Lemma visit_url_polite env raw seen st :
  (0 <= se_delay env)%Z ->
  match visit_url w env raw seen st with
  | VSkip seen' st' | VPage _ seen' st' => polite_growth (seen, st) (seen', st')
  | VCrash _ => True
  end.
Proof.
  intros Hd. unfold visit_url. destruct (canonicalize _) as [c|]; simpl; [|done].
  destruct (skip_canonical c); simpl; [apply polite_growth_refl|].
  destruct (bool_decide (c ∈ st_visited st) || bool_decide (c ∈ seen)); [apply polite_growth_refl|].
  unfold fetch. pose proof (fetch_attempts_no_write (web_net w c) c 1 MAX_RETRIES) as Hw.
  destruct (fetch_attempts _ _ _ _) as [evs o]. simpl in Hw.
  destruct o as [p| | |]; simpl; [| | |done];
    try (exists evs; split; [done|by apply sleeps_after_pages_no_write]).
  destruct (enqueue_links _ _ _ _ _); [|done].
  eexists. split; [simpl; by rewrite <- !app_assoc|].
  apply sleeps_after_pages_app; [by apply sleeps_after_pages_no_write|].
  intros [|[|[|i]]] path content; simpl; try discriminate. eauto.
Qed.

(** A loop with budget [b] appends at most [b] URLs. *)
Lemma crawl_loop_inv env b q seen st :
  exists new, run_inv st (result_store (crawl_loop (visit_url w env) b q seen st)) new /\
              length new <= b.
Proof.
  destruct (crawl_loop_R (visit_url w env) pages_inv pages_inv_refl pages_inv_trans
              (visit_url_pages env) b q seen st) as (s & n & Hn & new & Hr & <-).
  by exists new.
Qed.

Lemma crawl_seed_inv output_dir topic seed max_pages st :
  exists new, run_inv st (result_store (crawl_seed w output_dir topic seed max_pages st)) new.
Proof.
  unfold crawl_seed. match goal with |- context [crawl_loop (visit_url w ?env) ?b ?q ?s ?st0] =>
    destruct (crawl_loop_inv env b q s st0) as (n & Hn & _) end. eauto.
Qed.

Lemma crawl_topics_inv output_dir topics max_pages st :
  exists new, run_inv st (result_store (crawl_topics w output_dir topics max_pages st)) new.
Proof.
  apply (run_seq_R (fun a b => exists new, run_inv a b new)).
  - eauto with crawl.
  - intros a b c [n1 H1] [n2 H2]. eauto using run_inv_trans.
  - intros [topic seeds] st'. apply (run_seq_R (fun a b => exists new, run_inv a b new)).
    + eauto with crawl.
    + intros a b c [n1 H1] [n2 H2]. eauto using run_inv_trans.
    + intros s st''. apply crawl_seed_inv.
Qed.

(** ** Lemmas: [main] *)

(** The store [main] starts from. *)
Lemma main_fst output_dir max_pages ledger0 mapping0 listing :
  fst (main w output_dir max_pages ledger0 mapping0 listing) =
  crawl_topics w output_dir (load_topics listing) max_pages
    (Store (load_visited ledger0) (default EmptyString ledger0) (default ∅ mapping0) ∅ []).
Proof. unfold main. by destruct (crawl_topics _ _ _ _ _). Qed.

Lemma ledger_holds_load ledger0 L0 :
  ledger_holds ledger0 L0 -> Forall no_space L0 ->
  load_visited ledger0 = list_to_set L0 /\ default EmptyString ledger0 = render_lines L0.
Proof.
  intros [[-> ->]| ->] HL; [done|]. split; [|done]. simpl. by rewrite stripped_lines_render.
Qed.

Lemma main_inv output_dir max_pages ledger0 mapping0 listing L0 :
  ledger_holds ledger0 L0 -> Forall no_space L0 ->
  exists new, run_inv (Store (list_to_set L0) (render_lines L0) (default ∅ mapping0) ∅ [])
                (result_store (fst (main w output_dir max_pages ledger0 mapping0 listing))) new.
Proof.
  intros Hl HL. destruct (ledger_holds_load _ _ Hl HL) as [Hv Hd].
  rewrite main_fst, Hv, Hd. apply crawl_topics_inv.
Qed.

(** ** Theorems *)

(** C1. Deduplication across runs: starting from a ledger of lines [L0]
    (or none), the ledger after [main] (finished or aborted by an
    exception) is [L0] followed by new URLs, each appended once and none
    already in [L0]; the in-memory [visited] set is exactly the ledger's
    URLs, so a URL skipped or exhausted is not marked visited. *)
Theorem main_ledger_dedup output_dir max_pages ledger0 mapping0 listing L0 :
  ledger_holds ledger0 L0 -> Forall no_space L0 ->
  exists new,
    st_ledger (result_store (fst (main w output_dir max_pages ledger0 mapping0 listing)))
      = render_lines (L0 ++ new) /\
    NoDup new /\ Forall (fun u => u ∉ L0) new /\
    st_visited (result_store (fst (main w output_dir max_pages ledger0 mapping0 listing)))
      = list_to_set (L0 ++ new).
Proof.
  intros Hl HL. destruct (main_inv output_dir max_pages ledger0 mapping0 listing L0 Hl HL)
    as [new [HLd HV HN HF _ _]]. simpl in *.
  exists new. rewrite HLd, HV, render_lines_app, list_to_set_app_L. split_and!; [done|done| |done].
  eapply Forall_impl; [exact HF|]. intros u Hu Hin. apply Hu, elem_of_list_to_set, Hin.
Qed.


(** C6. One seed's crawl appends at most [max_pages] URLs to the ledger
    (and the run invariant holds for them), whatever the site answers. *)
Theorem crawl_seed_page_bound output_dir topic seed max_pages st :
  exists new, run_inv st (result_store (crawl_seed w output_dir topic seed max_pages st)) new /\
              length new <= max_pages.
Proof. apply crawl_loop_inv. Qed.

(** C7. [crawl_seed] runs the [while] loop: from [queue = [seed]],
    [seen = set()], [count = 0] it takes loop iterations up to a state
    where the loop condition is false (and its store is the result), or
    up to an iteration that raises (and the store is the one left when it
    raised).  [loop_step] being deterministic ([loop_step_det]), that state
    is the one the Python loop reaches. *)
Theorem crawl_seed_refines output_dir topic seed max_pages st :
  match crawl_seed w output_dir topic seed max_pages st with
  | Finished st' => exists cs,
      rtc (loop_step (visit_url w (seed_env_of w output_dir topic seed)) max_pages) (CState [seed] ∅ 0 st) cs /\
      loop_halted max_pages cs /\ cs_store cs = st'
  | Aborted st' => exists cs,
      rtc (loop_step (visit_url w (seed_env_of w output_dir topic seed)) max_pages) (CState [seed] ∅ 0 st) cs /\
      loop_crash (visit_url w (seed_env_of w output_dir topic seed)) max_pages cs st'
  end.
Proof. apply crawl_loop_steps. lia. Qed.

(** C5. Same-prefix restriction: every link [crawl_seed] appends to the
    queue starts with [base] and is neither visited nor seen. *)
Theorem enqueue_links_prefix canonical base visited seen hrefs links :
  enqueue_links canonical base visited seen hrefs = Some links ->
  Forall (fun u => (u startswith base) = true /\ (u ∉ visited) /\ (u ∉ seen)) links.
Proof.
  revert links. induction hrefs as [|h hs IH]; intros links; simpl; [by intros [= <-]|].
  destruct (urljoin canonical h) as [abs|]; [|done].
  destruct (enqueue_links canonical base visited seen hs) as [rest|]; [|done].
  intros [= <-]. specialize (IH rest eq_refl).
  destruct (String.prefix base abs) eqn:Hp; simpl; [|done].
  destruct (bool_decide (abs ∈ visited)) eqn:Hv; simpl; [done|].
  destruct (bool_decide (abs ∈ seen)) eqn:Hs; simpl; [done|].
  apply bool_decide_eq_false in Hv, Hs. by constructor.
Qed.

(** The links loop is a map then a filter: [enqueue_links] is the
    list of [urljoin(canonical, href)] kept by the prefix and dedup test,
    and raises when one [urljoin] raises. *)
Theorem enqueue_links_spec canonical base visited seen hrefs :
  enqueue_links canonical base visited seen hrefs =
  (List.filter (fun abs => (abs startswith base) && negb (bool_decide (abs ∈ visited))
                           && negb (bool_decide (abs ∈ seen))))
    <$> mapM (urljoin canonical) hrefs.
Proof.
  induction hrefs as [|h hs IH]; [done|]. simpl. rewrite IH.
  destruct (urljoin canonical h) as [abs|]; [|done]. simpl.
  by destruct (mapM (urljoin canonical) hs).
Qed.

(** C31. The mapping file [main] writes is the one [rebuild_mapping.py]
    recomputes from the ledger, when the run started from a mapping that
    agreed with the ledger; an aborted run leaves the mapping file as it was. *)
Theorem main_mapping_rebuild output_dir max_pages ledger0 mapping0 listing L0 :
  ledger_holds ledger0 L0 -> Forall no_space L0 ->
  default ∅ mapping0 = rebuild_mapping (render_lines L0) ->
  match main w output_dir max_pages ledger0 mapping0 listing with
  | (Finished st, mf) => mf = Some (rebuild_mapping (st_ledger st))
  | (Aborted _, mf) => mf = mapping0
  end.
Proof.
  intros Hl HL Hm. pose proof (main_inv output_dir max_pages ledger0 mapping0 listing L0 Hl HL) as Hr.
  revert Hr. unfold main. cbv zeta. destruct (crawl_topics _ _ _ _ _) as [st|st]; simpl; [|done].
  intros [new [HLd _ _ _ HM HC]]. simpl in HLd, HM. f_equal.
  rewrite HLd, HM, Hm, <- render_lines_app. unfold rebuild_mapping.
  rewrite !stripped_lines_render by (rewrite ?Forall_app; auto). by rewrite fold_left_app.
Qed.

(** C32. The id mapping is additive: a finished run keeps every id the
    mapping file held and, when every id was its URL's hash prefix, so is
    every id it writes. *)
Theorem main_mapping_additive output_dir max_pages ledger0 mapping0 listing :
  mapping_consistent (default ∅ mapping0) ->
  match main w output_dir max_pages ledger0 mapping0 listing with
  | (Finished st, mf) => mf = Some (st_mapping st) /\
      dom (default ∅ mapping0) ⊆ dom (st_mapping st) /\ mapping_consistent (st_mapping st)
  | (Aborted _, mf) => mf = mapping0
  end.
Proof.
  intros Hc. unfold main. cbv zeta.
  match goal with |- context [crawl_topics w ?o ?t ?m ?st0] =>
    destruct (crawl_topics_inv o t m st0) as [new [_ _ _ _ HM _]];
    destruct (crawl_topics w o t m st0) as [st|st] end; simpl in *; [|done].
  rewrite HM. split_and!; auto with crawl.
Qed.

(** C14. Politeness: in a run of [main] that finishes, every page written
    is directly followed by the politeness sleep [crawl_delay + jitter]
    (the jitter not recorded), before the next request, and the crawl
    delay read from [robots.txt] is never negative, so [time.sleep]
    never receives a negative argument. *)
Theorem main_polite output_dir max_pages ledger0 mapping0 listing st :
  fst (main w output_dir max_pages ledger0 mapping0 listing) = Finished st ->
  sleeps_after_pages (st_trace st).
Proof.
  rewrite main_fst. intros Hr.
  assert (Hg : polite_growth (∅, Store (load_visited ledger0) (default EmptyString ledger0)
                                      (default ∅ mapping0) ∅ []) (∅, st)).
  { revert Hr. apply (run_seq_finished (fun a b => polite_growth (∅, a) (∅, b)));
      [intros; apply polite_growth_refl|intros ? ? ?; apply polite_growth_trans|].
    intros ts st0 st1. apply (run_seq_finished (fun a b => polite_growth (∅, a) (∅, b)));
      [intros; apply polite_growth_refl|intros ? ? ?; apply polite_growth_trans|].
    intros seed st2 st3 Hs. destruct (crawl_loop_finished_R _ (fun x y => polite_growth x y)
      polite_growth_refl polite_growth_trans (fun raw seen st => visit_url_polite (seed_env_of w output_dir ts.1 seed) raw seen st (crawl_delay_of_nonneg seed)) _ _ _ _ _ Hs) as [s' (evs & He & Hp)].
    by exists evs. }
  destruct Hg as (evs & He & Hp). simpl in He. by rewrite He.
Qed.

End CrawlFacts.

(** C2. Resume idempotence: two runs of [main], the second on the ledger
    the first left (whatever the site answers, whichever seeds are
    listed and whether a run aborts), leave a ledger without a duplicate line. *)
Theorem main_resume_no_duplicates `{CharClasses} `{CaseMap} (w1 w2 : web) output_dir max_pages mapping0 mapping1 listing1 listing2 :
  let st1 := result_store (fst (main w1 output_dir max_pages None mapping0 listing1)) in
  let st2 := result_store (fst (main w2 output_dir max_pages (Some (st_ledger st1)) mapping1 listing2)) in
  exists L, st_ledger st2 = render_lines L /\ NoDup L.
Proof.
  intros st1 st2.
  destruct (main_inv w1 output_dir max_pages None mapping0 listing1 [] ltac:(by left) ltac:(done))
    as [n1 [L1 _ N1 _ _ C1]].
  simpl in L1. fold st1 in L1. rewrite str_app_nil in L1.
  destruct (main_inv w2 output_dir max_pages (Some (st_ledger st1)) mapping1 listing2 n1
              ltac:(right; by rewrite L1) C1) as [n2 [L2 _ N2 F2 _ _]].
  simpl in L2. fold st2 in L2. exists (n1 ++ n2). rewrite L2, render_lines_app. split; [done|].
  apply NoDup_app. split_and!; [done| |done]. intros u Hu1 Hu2.
  rewrite Forall_forall in F2. apply (F2 u Hu2), elem_of_list_to_set, Hu1.
Qed.

(** ** Witnesses and examples *)

Lemma main_ledger_dedup_witness :
  ledger_holds (Some (render_lines ["https://site.test/shop"])) ["https://site.test/shop"] /\
  Forall no_space ["https://site.test/shop"] /\
  exists new,
    st_ledger (result_store (fst (main shop_web "output" 2
      (Some (render_lines ["https://site.test/shop"])) None shop_listing)))
      = render_lines (["https://site.test/shop"] ++ new) /\
    NoDup new /\ Forall (fun u => u ∉ ["https://site.test/shop"]) new /\
    st_visited (result_store (fst (main shop_web "output" 2
      (Some (render_lines ["https://site.test/shop"])) None shop_listing)))
      = list_to_set (["https://site.test/shop"] ++ new).
Proof.
  assert (Hl : ledger_holds (Some (render_lines ["https://site.test/shop"])) ["https://site.test/shop"])
    by (by right).
  assert (HL : Forall no_space ["https://site.test/shop"]) by (repeat constructor).
  split; [exact Hl|]. split; [exact HL|].
  exact (main_ledger_dedup shop_web "output" 2 _ None shop_listing _ Hl HL).
Defined.

Lemma enqueue_links_prefix_witness :
  enqueue_links "https://site.test/shop" "https://site.test/shop" ∅ {["https://site.test/shop"]}
    ["/shop/item1"; "https://other.test/"] = Some ["https://site.test/shop/item1"] /\
  Forall (fun u => (u startswith "https://site.test/shop") = true /\ (u ∉ (∅ : gset string)) /\
                   (u ∉ ({["https://site.test/shop"]} : gset string)))
    ["https://site.test/shop/item1"].
Proof.
  assert (H : enqueue_links "https://site.test/shop" "https://site.test/shop" ∅ {["https://site.test/shop"]}
    ["/shop/item1"; "https://other.test/"] = Some ["https://site.test/shop/item1"]) by (vm_compute; reflexivity).
  split; [exact H|]. exact (enqueue_links_prefix _ _ _ _ _ _ H).
Defined.

Lemma main_mapping_rebuild_witness :
  ledger_holds None [] /\ Forall no_space [] /\ default ∅ None = rebuild_mapping (render_lines []) /\
  match main shop_web "output" 2 None None shop_listing with
  | (Finished st, mf) => mf = Some (rebuild_mapping (st_ledger st))
  | (Aborted _, mf) => mf = None
  end.
Proof.
  assert (Hl : ledger_holds None []) by (by left).
  assert (HL : Forall no_space []) by constructor.
  assert (Hm : default ∅ None = rebuild_mapping (render_lines [])) by reflexivity.
  split_and!; [exact Hl|exact HL|exact Hm|].
  exact (main_mapping_rebuild shop_web "output" 2 None None shop_listing [] Hl HL Hm).
Defined.

Lemma main_mapping_additive_witness :
  mapping_consistent (default ∅ None) /\
  match main shop_web "output" 2 None None shop_listing with
  | (Finished st, mf) => mf = Some (st_mapping st) /\
      dom (default ∅ (None : option (gmap string string))) ⊆ dom (st_mapping st) /\
      mapping_consistent (st_mapping st)
  | (Aborted _, mf) => mf = None
  end.
Proof.
  assert (Hc : mapping_consistent (default ∅ None)) by apply map_Forall_empty.
  split; [exact Hc|]. exact (main_mapping_additive shop_web "output" 2 None None shop_listing Hc).
Defined.

(** The end-to-end scenario: seed [https://site.test/shop/],
    [max_pages = 2], the seed page linking to [/shop/item1] and to
    [https://other.test/]: the run finishes with exactly two URLs in the
    ledger and two vocabulary files, and its only page GETs are those of
    the two pages: [other.test] is never fetched, nor [/shop/item2], which
    [item1] links to, past the page cap.  (The GET of [robots.txt] by
    [rp.read()], line 42, is not an event of the model: its response is
    the [web]'s [robots_response].) *)
Example crawl_end_to_end :
  match main shop_web "output" 2 None None shop_listing with
  | (Finished st, Some m) =>
      st_ledger st = render_lines ["https://site.test/shop"; "https://site.test/shop/item1"] /\
      dom (st_files st) = {[vocab_path "output" "shop" "https://site.test/shop";
                            vocab_path "output" "shop" "https://site.test/shop/item1"]} /\
      List.filter is_get (st_trace st) =
        [EvGet "https://site.test/shop" 1; EvGet "https://site.test/shop/item1" 1] /\
      m = rebuild_mapping (st_ledger st)
  | _ => False
  end.
Proof. vm_compute. split_and!; reflexivity. Qed.

(** The queue can hold a URL twice, against the spec's once-per-run
    enqueue: [seen] only receives a URL when it is popped, so two links to
    one page of the same page are both appended. *)
Example enqueue_links_duplicates :
  enqueue_links "https://site.test/shop" "https://site.test/shop" ∅ {["https://site.test/shop"]}
    ["/shop/item1"; "/shop/item1"] = Some ["https://site.test/shop/item1"; "https://site.test/shop/item1"].
Proof. vm_compute. reflexivity. Qed.

(** A URL already in the ledger is enqueued again under another
    spelling: the test [abs_url not in visited] compares the raw joined
    URL, not its canonical form, so [/shop/item1/] is appended although
    [https://site.test/shop/item1] is visited (it is dropped when popped). *)
Example enqueue_links_visited_variant :
  enqueue_links "https://site.test/shop" "https://site.test/shop" {["https://site.test/shop/item1"]}
    {["https://site.test/shop"]} ["/shop/item1/"] = Some ["https://site.test/shop/item1/"] /\
  canonicalize "https://site.test/shop/item1/" = Some "https://site.test/shop/item1".
Proof. split; vm_compute; reflexivity. Qed.

(** Relative links resolve against the canonical URL, whose trailing
    slash was stripped: from the seed [https://site.test/shop/] the link
    [item1] resolves to [https://site.test/item1], outside the prefix, and
    is dropped. *)
Example relative_link_leaves_prefix :
  urljoin "https://site.test/shop" "item1" = Some "https://site.test/item1" /\
  enqueue_links "https://site.test/shop" "https://site.test/shop" ∅ {["https://site.test/shop"]}
    ["item1"] = Some [].
Proof. split; vm_compute; reflexivity. Qed.

(** The prefix test compares raw strings, not canonical forms: with
    the seed [HTTPS://site.test/shop/] the base keeps the upper-case
    scheme while the joined links carry the lower-case one, so no link is
    followed and only the seed page is crawled. *)
Example seed_prefix_not_canonical :
  st_ledger (result_store (crawl_seed shop_web "output" "shop" "HTTPS://site.test/shop/" 2
                             (Store ∅ EmptyString ∅ ∅ [])))
    = render_lines ["https://site.test/shop"].
Proof. vm_compute. reflexivity. Qed.

(** The politeness delay follows fetched pages only: after a 404 the
    next URL is requested at once, with no sleep between the two GETs. *)
Example no_polite_sleep_after_skip :
  List.filter (fun e => match e with EvGet _ _ | EvPoliteSleep _ | EvSleep _ => true | _ => false end)
    (st_trace (result_store (crawl_seed skip_web "output" "shop" "https://site.test/shop/" 5
                               (Store ∅ EmptyString ∅ ∅ [])))) =
  [EvGet "https://site.test/shop" 1; EvPoliteSleep 0;
   EvGet "https://site.test/shop/a" 1; EvGet "https://site.test/shop/b" 1; EvPoliteSleep 0].
Proof. vm_compute. reflexivity. Qed.

(** The robots file is looked up under the seed's path,
    [https://site.test/shop/robots.txt], not at the host's root, where the
    spec fetches it: the host's crawl delay of 5 seconds is ignored. *)
Example robots_under_seed_path :
  robots_crawl_delay (robots_read (web_robots delay_web "https://site.test/robots.txt")) user_agent =
    Some 5%Z /\
  crawl_delay_of delay_web "https://site.test/shop/" = 0%Z.
Proof. split; vm_compute; reflexivity. Qed.

Lemma main_polite_witness :
  fst (main shop_web "output" 2 None None shop_listing) =
    Finished (result_store (fst (main shop_web "output" 2 None None shop_listing))) /\
  sleeps_after_pages (st_trace (result_store (fst (main shop_web "output" 2 None None shop_listing)))).
Proof.
  assert (H : fst (main shop_web "output" 2 None None shop_listing) =
                Finished (result_store (fst (main shop_web "output" 2 None None shop_listing))))
    by (vm_compute; reflexivity).
  split; [exact H|exact (main_polite shop_web _ _ _ _ _ _ H)].
Defined.
