(* ===== verification/Early.v ===== *)
(** * crawler-updated1.py to crawler-updated5.py: slug-named vocabulary sets

    The five oldest versions share one loop body (crawler-updated1.py
    lines 37-75, and the same lines of the others): pop the URL as it was
    enqueued, skip it when it is in [seen], add it, fetch it once
    ([fetch_once]), append the URL to the ledger, write the vocabulary set
    of the page ([vocab_content], [Vocab]) to [vocab_<slugify(url)>.txt],
    and enqueue every [urljoin(url, href)] that starts with [seeds[0]] and
    is not in [seen].  [visit_early] is that body, parametrised by the
    directory of the vocabulary files and the prefix.  The versions differ
    in what surrounds it:
    - crawler-updated1.py: two hard-coded topics, 100 pages each, one
      ledger [output/<topic>/all_urls.txt] per topic, truncated when the
      topic starts ([crawl_topic1], [main1]);
    - crawler-updated2.py: one hard-coded topic and one ledger
      [output/all_urls_master.txt] truncated when the module is loaded
      ([crawl_topic2], [main2]);
    - crawler-updated3.py: one seeds file; the ledger is
      [<output_dir>/<stem>_all_urls_master.txt] and the vocabulary files
      go to [output_dir] itself ([crawl3], [main3]);
    - crawler-updated4.py and -5: the ledger [<output_dir>/all_urls_master.txt]
      truncated by [main]; topics hard-coded (4) or read from a seeds
      directory (5) ([crawl_topic4], [main4], [crawl_topic5], [main5]).

    [slugify(url)] is [re.sub(r"[^a-zA-Z0-9]", "_", urlparse(url).path.strip("/")) or "root"].
    Python substitutes code points; the strings here are the UTF-8 bytes
    of Python's strings, so a character outside ASCII, whose bytes are a
    lead byte (at least [0xC0]) and continuation bytes ([0x80]-[0xBF]),
    becomes one [_] from its lead byte. *)

From S2P Require Import Prelude Url Fetcher Tokens Vocab Ledger Loop Crawl.

(** ** [slugify] *)

(** A continuation byte of UTF-8. *)
Definition is_utf8_cont (c : ascii) : bool :=
  ((128 <=? N_of_ascii c) && (N_of_ascii c <? 192))%N.

(** The replacement of one byte by [re.sub(r"[^a-zA-Z0-9]", "_", ...)]. *)
Definition slug_char (c : ascii) : string :=
  if is_ascii_alnum c then String c EmptyString
  else if is_utf8_cont c then EmptyString
  else "_".

Fixpoint slug_chars (s : string) : string :=
  match s with
  | EmptyString => EmptyString
  | String c t => slug_char c +:+ slug_chars t
  end.

(** [slugify(url)]; [None] when [urlparse] raises. *)
Definition slugify (url : string) : option string :=
  match urlparse url with
  | None => None
  | Some r =>
      let slug := slug_chars (strip_by is_slash (pr_path r)) in
      Some (if is_empty slug then "root" else slug)
  end.

(** ** The loop body *)

(** [with open(master, "a") as f: f.write(url + "\n")] *)
Definition append_ledger (url : string) (st : store) : store :=
  Store (st_visited st) (st_ledger st +:+ ledger_line url) (st_mapping st) (st_files st)
        (st_trace st ++ [EvAppendLedger url]).

(** [open(all_urls_path, "w").close()] *)
Definition reset_ledger (st : store) : store :=
  Store (st_visited st) EmptyString (st_mapping st) (st_files st) (st_trace st).

(** [s.rpartition(c)] when [c] occurs: the text before and after its
    last occurrence. *)
Fixpoint rsplit_last (c : ascii) (s : string) : option (string * string) :=
  match s with
  | EmptyString => None
  | String x t =>
      match rsplit_last c t with
      | Some (b, a) => Some (String x b, a)
      | None => if Ascii.eqb x c then Some (EmptyString, t) else None
      end
  end.

(** [os.path.basename(p)] *)
Definition py_basename (p : string) : string :=
  match rsplit_last "/" p with Some (_, a) => a | None => p end.

(** [os.path.splitext(name)[0]] for a name without [/]: the last dot
    starts the extension unless only dots precede it. *)
Definition py_splitext_root (name : string) : string :=
  match rsplit_last "." name with
  | Some (b, _) => if str_forall (Ascii.eqb ".") b then name else b
  | None => name
  end.

(** The characters a slug is made of: [[a-zA-Z0-9_]]. *)
Definition is_slug_char (c : ascii) : bool := is_ascii_alnum c || Ascii.eqb c "_".

Section Early.
Context `{CC : CharClasses} `{CM : CaseMap}.
Variable w : web.

(** The vocabulary file of [url] in [dir]; [None] when [slugify] raises. *)
Definition write_vocab_early (dir url : string) (p : page) (st : store) : option store :=
  match slugify url with
  | None => None
  | Some safe_name =>
      let path := path_join dir ("vocab_" +:+ safe_name +:+ ".txt") in
      let content := vocab_content (page_text p) in
      Some (Store (st_visited st) (st_ledger st) (st_mapping st) (<[path := content]> (st_files st))
                  (st_trace st ++ [EvWriteVocab path content]))
  end.

(** One iteration for the popped [url]: the ledger line is written before
    the page is parsed, so a [slugify] that raises leaves it. *)
Definition visit_early (dir base : string) (url : string) (seen : gset string) (st : store) : visit :=
  if bool_decide (url ∈ seen) then VSkip seen st
  else
    let seen' := {[url]} ∪ seen in
    let '(evs, o) := fetch_once (web_net w url) url in
    let st1 := add_trace st evs in
    match o with
    | None => VSkip seen' st1
    | Some p =>
        let st2 := append_ledger url st1 in
        match write_vocab_early dir url p st2 with
        | None => VCrash st2
        | Some st3 =>
            match enqueue_links url base ∅ seen' (page_hrefs p) with
            | None => VCrash st3
            | Some links => VPage links seen' st3
            end
        end
    end.

(** The loop of one crawl: the queue [list(seeds)], [seen = set()], and
    the prefix [seeds[0]] (read only once a page is fetched, so never
    when [seeds] is empty). *)
Definition crawl_topic_early (dir : string) (seeds : list string) (max_pages : nat)
    (st : store) : run_result :=
  crawl_loop (visit_early dir (default EmptyString (head seeds))) max_pages seeds ∅ st.

(** *** crawler-updated1.py *)

Definition topics1 : list (string * list string) :=
  [("electronics", ["https://example.com/electronics/"]);
   ("books", ["https://example.com/books/"])].

Definition max_pages_per_topic : nat := 100.

Definition all_urls_path1 (topic : string) : string :=
  path_join (path_join "output" topic) "all_urls.txt".

(** [crawl_topic(topic, seeds)]: the topic's ledger starts empty. *)
Definition crawl_topic1 (topic : string) (seeds : list string) (st : store) : run_result :=
  crawl_topic_early (path_join "output" topic) seeds max_pages_per_topic (reset_ledger st).

(** [for topic, seeds in topics.items(): crawl_topic(topic, seeds)]: the
    ledger files written, each with its final content, and the result. *)
Fixpoint main1_go (topics : list (string * list string)) (st : store)
    : list (string * string) * run_result :=
  match topics with
  | [] => ([], Finished st)
  | (topic, seeds) :: rest =>
      match crawl_topic1 topic seeds st with
      | Finished st' =>
          let '(files, r) := main1_go rest st' in ((all_urls_path1 topic, st_ledger st') :: files, r)
      | Aborted st' => ([(all_urls_path1 topic, st_ledger st')], Aborted st')
      end
  end.

Definition main1 : list (string * string) * run_result :=
  main1_go topics1 (Store ∅ EmptyString ∅ ∅ []).

(** *** crawler-updated2.py *)

Definition topics2 : list (string * list string) :=
  [("ecommerce", ["https://www.scrapingcourse.com/ecommerce/"])].

Definition OUTPUT_DIR : string := "output".

Definition crawl_topic2 (topic : string) (seeds : list string) (st : store) : run_result :=
  crawl_topic_early (path_join OUTPUT_DIR topic) seeds max_pages_per_topic st.

(** The master file is truncated when the module is loaded. *)
Definition main2 : run_result :=
  run_seq (fun ts => crawl_topic2 ts.1 ts.2) topics2 (Store ∅ EmptyString ∅ ∅ []).

(** *** crawler-updated3.py *)

(** [crawl(seeds, max_pages, output_dir)] with the global
    [args.seeds_file]: the ledger path and the result of the loop, whose
    vocabulary files go to [output_dir]. *)
Definition crawl3 (seeds_file : string) (seeds : list string) (max_pages : nat)
    (output_dir : string) : string * run_result :=
  let topic := py_splitext_root (py_basename seeds_file) in
  let master_path := path_join output_dir (topic +:+ "_all_urls_master.txt") in
  (master_path, crawl_topic_early output_dir seeds max_pages (Store ∅ EmptyString ∅ ∅ [])).

(** [main]: the seeds file (its path and content) and the arguments. *)
Definition main3 (seeds_file content : string) (max_pages : nat) (output_dir : string)
    : string * run_result :=
  crawl3 seeds_file (seeds_of content) max_pages output_dir.

(** *** crawler-updated4.py *)

Definition topics4 : list (string * list string) :=
  [("ecommerce", ["https://www.scrapingcourse.com/ecommerce/"])].

(** [crawl_topic(topic, seeds, max_pages, master_file, output_dir)]; the
    store's ledger is [master_file]. *)
Definition crawl_topic4 (topic : string) (seeds : list string) (max_pages : nat)
    (output_dir : string) (st : store) : run_result :=
  crawl_topic_early (path_join output_dir topic) seeds max_pages st.

(** [main]: the master file truncated, then every topic in turn. *)
Definition main4 (max_pages : nat) (output_dir : string) : run_result :=
  run_seq (fun ts => crawl_topic4 ts.1 ts.2 max_pages output_dir) topics4 (Store ∅ EmptyString ∅ ∅ []).

(** *** crawler-updated5.py *)

(** [crawl_topic]: as in crawler-updated4.py, the prefix named [base]. *)
Definition crawl_topic5 (topic : string) (seeds : list string) (max_pages : nat)
    (output_dir : string) (st : store) : run_result :=
  crawl_topic_early (path_join output_dir topic) seeds max_pages st.

(** [main]: the master file truncated, the topics read from the seeds
    directory listing, and an early [return] when there is none. *)
Definition main5 (max_pages : nat) (output_dir : string) (listing : list (string * string))
    : run_result :=
  let st0 := Store ∅ EmptyString ∅ ∅ [] in
  let topics := load_topics listing in
  if bool_decide (topics = []) then Finished st0
  else run_seq (fun ts => crawl_topic5 ts.1 ts.2 max_pages output_dir) topics st0.

End Early.

(** A site under the prefix of crawler-updated2.py and -4 whose seed
    links to two pages whose paths differ in one character. *)
Definition course_web : web := site_web
  [("https://www.scrapingcourse.com/ecommerce/", ok "Shop" ["a-b"; "a_b"]);
   ("https://www.scrapingcourse.com/ecommerce/a-b", ok "Dash" []);
   ("https://www.scrapingcourse.com/ecommerce/a_b", ok "Underscore" [])].

(** ** Theorems *)

Lemma slug_chars_slug s : str_forall is_slug_char (slug_chars s) = true.
Proof.
  induction s as [|c s IH]; [done|]. cbn [slug_chars]. rewrite str_forall_app, IH, andb_true_r.
  unfold slug_char. destruct (is_ascii_alnum c) eqn:E; [cbn [str_forall]; unfold is_slug_char; by rewrite E|].
  by destruct (is_utf8_cont c).
Qed.

(** C34. A vocabulary file name of crawler-updated1.py to -5 stays in its
    directory: [slugify] gives a non-empty name made of ASCII letters,
    digits and underscores. *)
Theorem slugify_safe url s :
  slugify url = Some s -> s <> EmptyString /\ str_forall is_slug_char s = true.
Proof.
  unfold slugify. destruct (urlparse url) as [r|]; [|done]. intros [= <-].
  destruct (is_empty _) eqn:E; [done|]. split; [|apply slug_chars_slug].
  intros Hs. by rewrite Hs in E.
Qed.

Lemma slugify_safe_witness :
  slugify "https://site.test/shop/a-b/?q=1" = Some "shop_a_b" /\
  "shop_a_b" <> EmptyString /\ str_forall is_slug_char "shop_a_b" = true.
Proof.
  assert (H : slugify "https://site.test/shop/a-b/?q=1" = Some "shop_a_b") by (vm_compute; reflexivity).
  split; [exact H|exact (slugify_safe _ _ H)].
Defined.

Section EarlyFacts.
Context `{CC : CharClasses} `{CM : CaseMap}.
Variable w : web.

Lemma visit_early_appends dir base url seen st :
  match visit_early w dir base url seen st with
  | VSkip seen' st' => seen_appends (seen, st) (seen', st') 0
  | VPage _ seen' st' => seen_appends (seen, st) (seen', st') 1
  | VCrash st' => exists seen' n, n <= 1 /\ seen_appends (seen, st) (seen', st') n
  end.
Proof.
  unfold visit_early. case_bool_decide as Hin; [by apply seen_appends_skip|].
  destruct (fetch_once _ _) as [evs [p|]]; simpl; [|apply seen_appends_skip; [set_solver|done]].
  assert (Hp := seen_appends_one url seen st (append_ledger url (add_trace st evs)) Hin eq_refl).
  unfold write_vocab_early. destruct (slugify url); [|exists ({[url]} ∪ seen), 1; split; [lia|done]].
  destruct (enqueue_links _ _ _ _ _); [done|]. exists ({[url]} ∪ seen), 1. split; [lia|done].
Qed.

(** C11. Within one crawl of crawler-updated1.py to -5 the ledger
    receives every URL at most once, and at most [max_pages] of them. *)
Theorem crawl_topic_early_no_duplicates dir seeds max_pages st :
  exists new, st_ledger (result_store (crawl_topic_early w dir seeds max_pages st)) =
              st_ledger st +:+ render_lines new /\ NoDup new /\ length new <= max_pages.
Proof.
  destruct (crawl_loop_R _ seen_appends seen_appends_refl seen_appends_trans
              (visit_early_appends dir (default EmptyString (head seeds)))
              max_pages seeds ∅ st) as (s & n & Hn & new & Hl & <- & Hd & _).
  by exists new.
Qed.

End EarlyFacts.

(** crawler-updated4.py names two different pages by one vocabulary
    file: [slugify] maps the paths [ecommerce/a-b] and [ecommerce/a_b] to
    [ecommerce_a_b], so the ledger holds three URLs and the topic folder
    two vocabulary files, the second page's vocabulary replacing the first's. *)
Example slugify_collision :
  let st := result_store (main4 course_web 5 "output") in
  st_ledger st = render_lines ["https://www.scrapingcourse.com/ecommerce/";
                               "https://www.scrapingcourse.com/ecommerce/a-b";
                               "https://www.scrapingcourse.com/ecommerce/a_b"] /\
  size (st_files st) = 2 /\
  st_files st !! "output/ecommerce/vocab_ecommerce_a_b.txt" = Some (txt "underscore").
Proof. vm_compute. split_and!; reflexivity. Qed.
