(* ===== verification/Crawler11.v ===== *)
(** * crawler-updated11.py: the resumable crawler before retries

    The version before crawler-updated12.py has the same [main] (ledger
    and mapping loaded at start, one [crawl_seed] per seed of every topic,
    shared [visited] set) and the same page recording, but its loop body
    differs in two ways:
    - it deduplicates the popped URL {i before} canonicalizing it
      ([if raw_url in visited or raw_url in seen], line 40) and puts the
      raw URL in [seen];
    - it fetches once, without retries or [Retry-After]: any exception of
      [session.get] or [raise_for_status] skips the URL (lines 50-55);
      there is no [robots.txt] and no politeness delay.

    [visit_url11] is the body, run by the loop of [Loop]; [main11] is
    [main].  The theorems show what the version keeps (at most
    [max_pages] pages per seed) and, by examples, what the raw-URL dedup
    loses: a page reached again under another spelling is fetched and
    appended to the ledger a second time, within one run and on resume. *)

From S2P Require Import Prelude Sha256 Url Fetcher Tokens Vocab Ledger Loop Crawl.

Section Crawl11.
Context `{CC : CharClasses}.
Variable w : web.

(** Lines 39-79 for the URL [raw] popped from the queue. *)
Definition visit_url11 (env : seed_env) (raw : string) (seen : gset string) (st : store) : visit :=
  let r := py_strip raw in
  if bool_decide (r ∈ st_visited st) || bool_decide (r ∈ seen) then VSkip seen st
  else
    let seen' := {[r]} ∪ seen in
    match canonicalize r with
    | None => VCrash st
    | Some c =>
        if skip_canonical c then VSkip seen' st
        else
          let '(evs, o) := fetch_once (web_net w c) c in
          let st1 := add_trace st evs in
          match o with
          | None => VSkip seen' st1
          | Some p =>
              let st2 := record_page env c p st1 in
              match enqueue_links c (se_base env) (st_visited st2) seen' (page_hrefs p) with
              | None => VCrash st2
              | Some links => VPage links seen' st2
              end
          end
    end.

(** [crawl_seed(topic, seed, max_pages, ...)], lines 27-79. *)
Definition crawl_seed11 (output_dir topic seed : string) (max_pages : nat) (st : store) : run_result :=
  crawl_loop (visit_url11 (SeedEnv output_dir topic (rstrip_by is_slash seed) 0)) max_pages [seed] ∅ st.

(** Lines 125-130. *)
Definition crawl_topics11 (output_dir : string) (topics : list (string * list string))
    (max_pages : nat) (st : store) : run_result :=
  run_seq (fun ts => run_seq (fun s => crawl_seed11 output_dir ts.1 s max_pages) ts.2) topics st.

End Crawl11.

(** [main], lines 82-136: as crawler-updated12.py's. *)
Definition main11 `{CharClasses} (w : web) (output_dir : string) (max_pages : nat)
    (ledger0 : option string) (mapping0 : option (gmap string string))
    (listing : list (string * string)) : run_result * option (gmap string string) :=
  let st0 := Store (load_visited ledger0) (default EmptyString ledger0)
                   (default ∅ mapping0) ∅ [] in
  match crawl_topics11 w output_dir (load_topics listing) max_pages st0 with
  | Finished st => (Finished st, Some (st_mapping st))
  | Aborted st => (Aborted st, mapping0)
  end.

(** ** Theorems *)

Section Crawl11Facts.
Context `{CC : CharClasses}.
Variable w : web.

Lemma visit_url11_appends env raw seen st :
  match visit_url11 w env raw seen st with
  | VSkip seen' st' => ledger_appends (seen, st) (seen', st') 0
  | VPage _ seen' st' => ledger_appends (seen, st) (seen', st') 1
  | VCrash st' => exists seen' n, n <= 1 /\ ledger_appends (seen, st) (seen', st') n
  end.
Proof.
  unfold visit_url11. repeat case_match; simplify_eq/=;
    first [ apply ledger_appends_same; reflexivity
          | exists ∅, 0; split; [lia|by apply ledger_appends_same]
          | exists ∅, 1; split; [lia|by eapply ledger_appends_one]
          | by eapply ledger_appends_one ].
Qed.

(** One seed's crawl in crawler-updated11.py appends at most
    [max_pages] lines to the ledger. *)
Theorem crawl_seed11_page_bound output_dir topic seed max_pages st :
  exists new, st_ledger (result_store (crawl_seed11 w output_dir topic seed max_pages st)) =
              st_ledger st +:+ render_lines new /\ length new <= max_pages.
Proof.
  destruct (crawl_loop_R _ ledger_appends ledger_appends_refl ledger_appends_trans
              (visit_url11_appends (SeedEnv output_dir topic (rstrip_by is_slash seed) 0))
              max_pages [seed] ∅ st) as (s & n & Hn & new & Hl & <-).
  by exists new.
Qed.

End Crawl11Facts.

(** In crawler-updated11.py one run can append a URL to the ledger
    twice: a page linking to itself with a query string is popped under a
    raw URL that is neither visited nor seen, canonicalizes to the page
    already fetched, and is fetched and appended again. *)
Example crawl11_duplicate_in_one_run :
  st_ledger (result_store (fst (main11 self_link_web "output" 5 None None shop_listing))) =
  render_lines ["https://site.test/shop"; "https://site.test/shop"].
Proof. vm_compute. reflexivity. Qed.

(** crawler-updated11.py does not resume: the ledger holds the
    canonical [https://site.test/shop], the seed is spelled
    [https://site.test/shop/], so the raw-URL test lets it through and the
    page is fetched and appended again.  crawler-updated12.py skips it
    ([main_ledger_dedup]). *)
Example crawl11_resume_refetches :
  st_ledger (result_store (fst (main11 self_link_web "output" 1
                                  (Some (render_lines ["https://site.test/shop"])) None shop_listing))) =
  render_lines ["https://site.test/shop"; "https://site.test/shop"] /\
  st_ledger (result_store (fst (main self_link_web "output" 1
                                  (Some (render_lines ["https://site.test/shop"])) None shop_listing))) =
  render_lines ["https://site.test/shop"].
Proof. split; vm_compute; reflexivity. Qed.
