(* ===== verification/Crawler9.v ===== *)
(** * crawler-updated9.py: one crawl per topic, no resume

    This version crawls each topic once from all its seeds
    ([crawl_topic], lines 28-87): the queue starts as the seed list, the
    prefix is the first seed as written ([seeds[0]], not stripped of its
    slash), [seen] holds raw URLs, there is no [visited] set, and the
    fetch is a single attempt ([fetch_once]).  [main] (lines 90-138)
    truncates the ledger ([open(master_file, "w")]), starts from an empty
    mapping and writes the mapping file only when there is a topic.

    [visit_url9] is the loop body run by the loop of [Loop]; the store's
    [st_visited] is not used by this version.  The theorems: the ledger
    after a run holds exactly the URLs of this run, at most [max_pages]
    per topic; and, by example, the same page can be appended twice within
    one topic (the raw-URL dedup of [crawler-updated11.py]). *)

From S2P Require Import Prelude Sha256 Url Fetcher Tokens Vocab Ledger Loop Crawl.

Section Crawl9.
Context `{CC : CharClasses}.
Variable w : web.

(** Lines 60-77: the ledger line, the mapping entry and the vocabulary file. *)
Definition record_page9 (env : seed_env) (c : string) (p : page) (st : store) : store :=
  let path := vocab_path (se_output_dir env) (se_topic env) c in
  let content := join_space (tokens_of (page_text p)) in
  Store (st_visited st) (st_ledger st +:+ ledger_line c)
        (record_mapping (st_mapping st) c) (<[path := content]> (st_files st))
        (st_trace st ++ [EvAppendLedger c; EvWriteVocab path content]).

(** Lines 81-84: [abs_url.startswith(seeds[0]) and abs_url not in seen];
    this is [enqueue_links] with no URL visited. *)
Definition enqueue_links9 (canonical base : string) (seen : gset string) (hrefs : list string)
    : option (list string) :=
  enqueue_links canonical base ∅ seen hrefs.

(** Lines 38-87 for the URL [raw] popped from the queue. *)
Definition visit_url9 (env : seed_env) (raw : string) (seen : gset string) (st : store) : visit :=
  let r := py_strip raw in
  if bool_decide (r ∈ seen) then VSkip seen st
  else
    let seen' := {[r]} ∪ seen in
    match canonicalize r with
    | None => VCrash st
    | Some c =>
        if skip_canonical c then VSkip seen' st
        else
          let '(evs, o) := fetch_once (web_net w c) c in
          let st1 := add_trace st evs in
          match o with
          | None => VSkip seen' st1
          | Some p =>
              let st2 := record_page9 env c p st1 in
              match enqueue_links9 c (se_base env) seen' (page_hrefs p) with
              | None => VCrash st2
              | Some links => VPage links seen' st2
              end
          end
    end.

(** [crawl_topic(topic, seeds, max_pages, ...)]: the queue is [list(seeds)]
    and the prefix [seeds[0]] (never read when [seeds] is empty: the loop
    does not run). *)
Definition crawl_topic9 (output_dir topic : string) (seeds : list string) (max_pages : nat)
    (st : store) : run_result :=
  crawl_loop (visit_url9 (SeedEnv output_dir topic (default EmptyString (head seeds)) 0))
             max_pages seeds ∅ st.

End Crawl9.

(** [main], lines 108-135: [mapping0] is the mapping file left by an
    earlier run, which is rewritten only when some topic has seeds. *)
Definition main9 `{CharClasses} (w : web) (output_dir : string) (max_pages : nat)
    (mapping0 : option (gmap string string)) (listing : list (string * string))
    : run_result * option (gmap string string) :=
  let st0 := Store ∅ EmptyString ∅ ∅ [] in
  let topics := load_topics listing in
  if bool_decide (topics = []) then (Finished st0, mapping0)
  else
    match run_seq (fun ts => crawl_topic9 w output_dir ts.1 ts.2 max_pages) topics st0 with
    | Finished st => (Finished st, Some (st_mapping st))
    | Aborted st => (Aborted st, mapping0)
    end.

(** ** Theorems *)

Section Crawl9Facts.
Context `{CC : CharClasses}.
Variable w : web.

Lemma visit_url9_appends env raw seen st :
  match visit_url9 w env raw seen st with
  | VSkip seen' st' => ledger_appends (seen, st) (seen', st') 0
  | VPage _ seen' st' => ledger_appends (seen, st) (seen', st') 1
  | VCrash st' => exists seen' n, n <= 1 /\ ledger_appends (seen, st) (seen', st') n
  end.
Proof.
  unfold visit_url9. repeat case_match; simplify_eq/=;
    first [ apply ledger_appends_same; reflexivity
          | exists ∅, 0; split; [lia|by apply ledger_appends_same]
          | exists ∅, 1; split; [lia|by eapply ledger_appends_one]
          | by eapply ledger_appends_one ].
Qed.

Lemma crawl_topic9_appends output_dir topic seeds max_pages st :
  exists new, st_ledger (result_store (crawl_topic9 w output_dir topic seeds max_pages st)) =
              st_ledger st +:+ render_lines new /\ length new <= max_pages.
Proof.
  destruct (crawl_loop_R _ ledger_appends ledger_appends_refl ledger_appends_trans
              (visit_url9_appends (SeedEnv output_dir topic (default EmptyString (head seeds)) 0))
              max_pages seeds ∅ st) as (s & n & Hn & new & Hl & <-).
  by exists new.
Qed.

End Crawl9Facts.

(** crawler-updated9.py starts every run from an empty ledger: after
    a run the ledger holds only URLs fetched by this run, at most
    [max_pages] for each topic. *)
Theorem main9_ledger_fresh `{CharClasses} w output_dir max_pages mapping0 listing :
  exists new, st_ledger (result_store (fst (main9 w output_dir max_pages mapping0 listing))) =
              render_lines new /\ length new <= max_pages * length (load_topics listing).
Proof.
  unfold main9. cbv zeta. destruct (bool_decide _); [exists []; simpl; split; [done|lia]|].
  assert (Hrun : forall topics st0,
    exists new, st_ledger (result_store (run_seq (fun ts => crawl_topic9 w output_dir ts.1 ts.2 max_pages)
                                                 topics st0)) = st_ledger st0 +:+ render_lines new /\
                length new <= max_pages * length topics).
  { induction topics as [|ts topics IH]; intros st0; simpl.
    - exists []. split; [by rewrite append_empty_r|simpl; lia].
    - destruct (crawl_topic9_appends w output_dir ts.1 ts.2 max_pages st0) as (n1 & H1 & L1).
      destruct (crawl_topic9 w output_dir ts.1 ts.2 max_pages st0) as [st1|st1]; simpl in *.
      + destruct (IH st1) as (n2 & H2 & L2). exists (n1 ++ n2).
        rewrite H2, H1, render_lines_app, append_assoc_str, length_app. split; [done|lia].
      + exists n1. split; [done|lia]. }
  destruct (Hrun (load_topics listing) (Store ∅ EmptyString ∅ ∅ [])) as (new & Hl & Hn).
  exists new. simpl in Hl. rewrite ?str_app_nil in Hl.
  destruct (run_seq _ _ _); simpl in *; auto.
Qed.

(** crawler-updated9.py can append a page twice within one topic:
    [seen] holds raw URLs, so a self-link with a query string is fetched
    again under the canonical URL already recorded. *)
Example crawl9_duplicate_in_topic :
  st_ledger (result_store (fst (main9 self_link_web "output" 5 None shop_listing))) =
  render_lines ["https://site.test/shop"; "https://site.test/shop"].
Proof. vm_compute. reflexivity. Qed.
