(* ===== verification/Crawler8.v ===== *)
(** * crawler-updated8.py: raw URLs and Base64 file names

    The oldest version with a ledger and a mapping.  [crawl_topic]
    (lines 23-82) pops URLs as they were enqueued (no [strip], no
    canonicalization), deduplicates them on [seen], fetches each once
    ([fetch_once]), appends the URL itself to the ledger, names its
    vocabulary file by [encode_name8] (URL-safe Base64, [Base64]) and
    keeps the links [urljoin(url, href)] that start with [seeds[0]] and
    are not seen.  Tokens are the runs of Arabic letters (U+0600-U+06FF)
    or ASCII letters ([tokens8]).  [main] (lines 85-136) truncates the
    ledger, crawls each topic with a fresh [seen] and a shared mapping,
    and writes the mapping only when some topic has seeds.

    The theorems: within one topic the ledger never receives a URL twice
    ([crawl_topic8_no_duplicates], the URL appended is the one added to
    [seen]); across topics it can ([crawl8_duplicate_across_topics]), as
    [seen] is per topic.  The loop is the one of crawler-updated1.py to -5
    with other file names and tokens: a finished crawl of their body
    [visit_early] is matched by a finished crawl of [visit_url8] with the
    same ledger and requests ([crawl_topic8_refines_early]). *)

From S2P Require Import Prelude Fetcher Url Tokens Vocab Ledger Base64 Loop Crawl Early.

(** ** Tokens *)

Definition is_arabic (c : N) : bool := ((1536 <=? c) && (c <=? 1791))%N.
Definition is_latin_letter (c : N) : bool := ((65 <=? c) && (c <=? 90))%N || ((97 <=? c) && (c <=? 122))%N.

(** The alternative of [r"[\u0600-\u06FF]+|[A-Za-z]+"] a character starts:
    [Some true] for Arabic, [Some false] for Latin. *)
Definition letter_class (c : N) : option bool :=
  if is_arabic c then Some true else if is_latin_letter c then Some false else None.

(** [re.findall] of the pattern: [cur] is the current run, reversed, of
    class [cls]. *)
Fixpoint letter_runs (text : list N) (cls : option bool) (cur : list N) : list (list N) :=
  let flush := match cur with [] => [] | _ => [rev cur] end in
  match text with
  | [] => flush
  | c :: t =>
      match letter_class c with
      | None => flush ++ letter_runs t None []
      | Some k =>
          if bool_decide (cls = Some k) then letter_runs t cls (c :: cur)
          else flush ++ letter_runs t (Some k) [c]
      end
  end.

Definition tokens8 (text : list N) : list (list N) := letter_runs text None [].

(** ** The loop body *)

Section Crawl8.
Variable w : web.

(** Lines 46-71. *)
Definition record_page8 (env : seed_env) (url : string) (p : page) (st : store) : store :=
  let safe_name := encode_name8 url in
  let path := path_join (path_join (se_output_dir env) (se_topic env)) ("vocab_" +:+ safe_name +:+ ".txt") in
  let content := join_space (tokens8 (page_text p)) in
  Store (st_visited st) (st_ledger st +:+ ledger_line url)
        (<[safe_name := url]> (st_mapping st)) (<[path := content]> (st_files st))
        (st_trace st ++ [EvAppendLedger url; EvWriteVocab path content]).

(** Lines 33-81 for the URL popped from the queue; the link test of lines
    76-79 is [enqueue_links] with no URL visited. *)
Definition visit_url8 (env : seed_env) (url : string) (seen : gset string) (st : store) : visit :=
  if bool_decide (url ∈ seen) then VSkip seen st
  else
    let seen' := {[url]} ∪ seen in
    let '(evs, o) := fetch_once (web_net w url) url in
    let st1 := add_trace st evs in
    match o with
    | None => VSkip seen' st1
    | Some p =>
        let st2 := record_page8 env url p st1 in
        match enqueue_links url (se_base env) ∅ seen' (page_hrefs p) with
        | None => VCrash st2
        | Some links => VPage links seen' st2
        end
    end.

(** [crawl_topic(topic, seeds, max_pages, ...)] *)
Definition crawl_topic8 (output_dir topic : string) (seeds : list string) (max_pages : nat)
    (st : store) : run_result :=
  crawl_loop (visit_url8 (SeedEnv output_dir topic (default EmptyString (head seeds)) 0))
             max_pages seeds ∅ st.

End Crawl8.

(** [main], lines 103-133. *)
Definition main8 (w : web) (output_dir : string) (max_pages : nat)
    (mapping0 : option (gmap string string)) (listing : list (string * string))
    : run_result * option (gmap string string) :=
  let st0 := Store ∅ EmptyString ∅ ∅ [] in
  let topics := load_topics listing in
  if bool_decide (topics = []) then (Finished st0, mapping0)
  else
    match run_seq (fun ts => crawl_topic8 w output_dir ts.1 ts.2 max_pages) topics st0 with
    | Finished st => (Finished st, Some (st_mapping st))
    | Aborted st => (Aborted st, mapping0)
    end.

(** Two stores of two versions' runs agree on the ledger and on the
    requests made, whatever files they wrote. *)
Definition same_run (st1 st2 : store) : Prop :=
  st_ledger st1 = st_ledger st2 /\ List.filter is_get (st_trace st1) = List.filter is_get (st_trace st2).

(** The seeds directory of two topics with the same seed. *)
Definition two_topics_listing : list (string * string) :=
  [("a.txt", "https://site.test/shop" +:+ String newline EmptyString);
   ("b.txt", "https://site.test/shop" +:+ String newline EmptyString)].

(** ** Theorems *)

Lemma visit_url8_appends w env url seen st :
  match visit_url8 w env url seen st with
  | VSkip seen' st' => seen_appends (seen, st) (seen', st') 0
  | VPage _ seen' st' => seen_appends (seen, st) (seen', st') 1
  | VCrash st' => exists seen' n, n <= 1 /\ seen_appends (seen, st) (seen', st') n
  end.
Proof.
  unfold visit_url8. case_bool_decide as Hin; [by apply seen_appends_skip|].
  destruct (fetch_once _ _) as [evs [p|]]; simpl; [|apply seen_appends_skip; [set_solver|done]].
  assert (Hp := seen_appends_one url seen st (record_page8 env url p (add_trace st evs)) Hin eq_refl).
  destruct (enqueue_links _ _ _ _ _); [done|]. exists ({[url]} ∪ seen), 1. split; [lia|done].
Qed.

(** Within one topic crawler-updated8.py appends every URL at most
    once, and at most [max_pages] of them. *)
Theorem crawl_topic8_no_duplicates w output_dir topic seeds max_pages st :
  exists new, st_ledger (result_store (crawl_topic8 w output_dir topic seeds max_pages st)) =
              st_ledger st +:+ render_lines new /\ NoDup new /\ length new <= max_pages.
Proof.
  destruct (crawl_loop_R _ seen_appends seen_appends_refl seen_appends_trans
              (visit_url8_appends w (SeedEnv output_dir topic (default EmptyString (head seeds)) 0))
              max_pages seeds ∅ st) as (s & n & Hn & new & Hl & <- & Hd & _).
  by exists new.
Qed.

Lemma visit_early_sim8 `{CharClasses} `{CaseMap} w dir env raw seen st1 st2 :
  same_run st1 st2 ->
  match visit_early w dir (se_base env) raw seen st1 with
  | VSkip seen' st1' => exists st2', visit_url8 w env raw seen st2 = VSkip seen' st2' /\ same_run st1' st2'
  | VPage links seen' st1' => exists st2', visit_url8 w env raw seen st2 = VPage links seen' st2' /\ same_run st1' st2'
  | VCrash _ => True
  end.
Proof.
  intros [HL HG]. unfold visit_early, visit_url8. case_bool_decide; [exists st2; by split|].
  destruct (fetch_once (web_net w raw) raw) as [evs [p|]].
  - unfold write_vocab_early. destruct (slugify raw); [|done].
    destruct (enqueue_links _ _ _ _ _); [|done]. eexists. split; [done|].
    unfold same_run; simpl. rewrite HL, !List.filter_app, HG. simpl. by rewrite !app_nil_r.
  - eexists. split; [done|]. unfold same_run; simpl. rewrite !List.filter_app, HG. done.
Qed.

(** C26. crawler-updated8.py refines the crawl of crawler-updated1.py to
    -5: it runs the same loop with other file names and tokens, so when a
    crawl of the early body finishes, crawler-updated8.py's crawl of the
    same seeds finishes too, with the same ledger and the same requests. *)
Theorem crawl_topic8_refines_early `{CharClasses} `{CaseMap} w dir output_dir topic seeds max_pages st1 st2 st1' :
  same_run st1 st2 ->
  crawl_topic_early w dir seeds max_pages st1 = Finished st1' ->
  exists st2', crawl_topic8 w output_dir topic seeds max_pages st2 = Finished st2' /\ same_run st1' st2'.
Proof.
  intros HS. apply (crawl_loop_sim _ _ same_run); [|done].
  intros raw seen s1 s2. apply (visit_early_sim8 w dir (SeedEnv output_dir topic (default EmptyString (head seeds)) 0)).
Qed.

Lemma crawl_topic8_refines_early_witness :
  let st0 := Store ∅ EmptyString ∅ ∅ [] in
  let r := crawl_topic_early skip_web "output/shop" ["https://site.test/shop"] 5 st0 in
  same_run st0 st0 /\ r = Finished (result_store r) /\
  exists st2', crawl_topic8 skip_web "output" "shop" ["https://site.test/shop"] 5 st0 = Finished st2' /\
               same_run (result_store r) st2'.
Proof.
  intros st0 r. assert (Hr : r = Finished (result_store r)) by (vm_compute; reflexivity).
  assert (HS : same_run st0 st0) by done.
  split; [exact HS|]. split; [exact Hr|].
  exact (crawl_topic8_refines_early skip_web "output/shop" "output" "shop" _ 5 st0 st0 _ HS Hr).
Defined.

(** Across topics crawler-updated8.py appends a URL twice: each topic
    starts a fresh [seen] and there is no [visited] set, so two topics
    with the same seed both fetch and record it. *)
Example crawl8_duplicate_across_topics :
  st_ledger (result_store (fst (main8 self_link_web "output" 5 None two_topics_listing))) =
  render_lines ["https://site.test/shop"; "https://site.test/shop"].
Proof. vm_compute. reflexivity. Qed.

(** The tokenizer splits Arabic and Latin runs and drops digits:
    "Hi" followed by two Arabic letters and "42". *)
Example tokens8_runs : tokens8 [72; 105; 1575; 1604; 32; 52; 50]%N = [[72; 105]; [1575; 1604]]%N.
Proof. reflexivity. Qed.
