(* ===== verification/Ecommerce.v ===== *)
(** * crawler-ecommerce.py: the product scraper

    A script separate from the crawler versions: from [target_url] it
    visits at most [max_crawl = 20] pages ([crawler], lines 21-74), with
    one [requests.get] per page and no exception handler, so a network
    error or an HTTP error status ([raise_for_status]) ends the script
    before the CSV file is written.  The loop keeps no [seen] set: a link
    is appended when it starts with [target_url] and is not in the queue
    {i at that moment}; every popped URL is fetched and counted.  A
    relative link is resolved against [target_url], not against the page.
    On a page whose URL matches [r"/page/\d+/"], every [li.product] yields
    a row [(Url, Image, Name, Price)]; a container without one of its four
    elements raises ([None["href"]] or [None.get_text()]).

    [ecrawl] is the [while] loop, [estep] its body; the page content is
    the [attempt_result] of [net] (its text and links) and the product
    containers [containers url] of the page.  [ecommerce_main] runs the
    loop and gives the rows the CSV file receives ([None] when the script
    raises first). *)

From S2P Require Import Prelude Url Fetcher Tokens Loop.

Set Warnings "-clear-no-such-hyp".
Local Open Scope crawl_scope.

(** ** Data *)

(** A [li.product] element: the four elements [find] looks for, [None]
    when absent. *)
Record product_container := ProductContainer {
  pc_link : option string; pc_image : option string;
  pc_name : option string; pc_price : option string }.

(** [{"Url": ..., "Image": ..., "Name": ..., "Price": ...}] *)
Record product := Product {
  prod_url : string; prod_image : string; prod_name : string; prod_price : string }.

(** The outcome of one iteration: the queue, the rows and the effects
    after it, or the state where it raised. *)
Inductive estep_result :=
| ENext (queue : list string) (data : list product) (trace : list event)
| ECrash (data : list product) (trace : list event).

Inductive ecrawl_result :=
| EDone (queue : list string) (data : list product) (trace : list event)
| ERaised (data : list product) (trace : list event).

Definition ecrawl_trace (r : ecrawl_result) : list event :=
  match r with EDone _ _ tr | ERaised _ tr => tr end.

Definition ecrawl_data (r : ecrawl_result) : list product :=
  match r with EDone _ d _ | ERaised d _ => d end.

Definition target_url : string := "https://www.scrapingcourse.com/ecommerce/".
Definition max_crawl : nat := 20.

(** Lines 61-68: [None] when one of the four [find]s gives [None]. *)
Definition extract_product (pc : product_container) : option product :=
  match pc with
  | ProductContainer (Some u) (Some i) (Some n) (Some pr) => Some (Product u i n pr)
  | _ => None
  end.

(** A URL of the site: it starts with [target_url]. *)
Definition on_site (u : string) : Prop := (u startswith target_url) = true.

(** A row of the CSV comes from a product container of a page the
    crawler fetched and whose URL matches the pattern. *)
Definition row_from (containers : string -> list product_container) (pattern : string -> bool)
    (urls : list string) (p : product) : Prop :=
  exists u pc, u ∈ urls /\ pattern u = true /\ pc ∈ containers u /\ extract_product pc = Some p.

(** ** [url_pattern.search(current_url)] *)

Definition cps (s : string) : list N := map N_of_ascii (String.list_ascii_of_string s).

(** The rest of [l] after the prefix [p]. *)
Fixpoint strip_prefix (p l : list N) : option (list N) :=
  match p, l with
  | [], _ => Some l
  | a :: p', b :: l' => if (a =? b)%N then strip_prefix p' l' else None
  | _, [] => None
  end.

Section Pattern.
Context `{CC : CharClasses}.

(** [\d+/] at the start of the text. *)
Fixpoint digits_slash (l : list N) (seen_digit : bool) : bool :=
  match l with
  | [] => false
  | c :: t => if (c =? 47)%N then seen_digit else is_decimal c && digits_slash t true
  end.

(** [/page/\d+/] at the start of the text. *)
Definition page_pattern_at (l : list N) : bool :=
  match strip_prefix (cps "/page/") l with
  | Some rest => digits_slash rest false
  | None => false
  end.

(** [url_pattern.search(s)]: a match at some position. *)
Fixpoint pattern_search (l : list N) : bool :=
  page_pattern_at l || match l with [] => false | _ :: t => pattern_search t end.

Definition url_pattern_search (url : string) : bool := pattern_search (utf8_cps url).

End Pattern.

(** ** The loop *)

(** Lines 60-71: the rows appended, and [false] when a container raises
    (the rows before it are appended). *)
Fixpoint scrape (pcs : list product_container) (data : list product) : list product * bool :=
  match pcs with
  | [] => (data, true)
  | pc :: rest =>
      match extract_product pc with
      | None => (data, false)
      | Some p => scrape rest (data ++ [p])
      end
  end.

(** Lines 38-52: the queue after the links of the page; [None] when
    [urljoin] raises. *)
Fixpoint add_links (hrefs : list string) (q : list string) : option (list string) :=
  match hrefs with
  | [] => Some q
  | h :: hs =>
      let abs := if h startswith "http" then Some h else urljoin target_url h in
      match abs with
      | None => None
      | Some a =>
          add_links hs (if (a startswith target_url) && negb (bool_decide (a ∈ q))
                        then q ++ [a] else q)
      end
  end.

Section Ecommerce.
Context `{CC : CharClasses}.
Variable net : string -> attempt_result.
Variable containers : string -> list product_container.

(** Lines 28-74 for [current_url] popped from the queue, [rest] the queue after the pop. *)
Definition estep (url : string) (rest : list string) (data : list product) (tr : list event)
    : estep_result :=
  let tr1 := tr ++ [EvGet url 1] in
  match net url with
  | NetError => ECrash data tr1
  | Response status _ body =>
      if is_http_error status then ECrash data tr1
      else
        match add_links (page_hrefs body) rest with
        | None => ECrash data tr1
        | Some q' =>
            if url_pattern_search url then
              let '(data', complete) := scrape (containers url) data in
              if complete then ENext q' data' tr1 else ECrash data' tr1
            else ENext q' data tr1
        end
  end.

(** [while urls_to_visit and crawl_count < max_crawl], with
    [budget = max_crawl - crawl_count]. *)
Fixpoint ecrawl (budget : nat) (q : list string) (data : list product) (tr : list event)
    : ecrawl_result :=
  match budget with
  | O => EDone q data tr
  | S b =>
      match q with
      | [] => EDone [] data tr
      | url :: rest =>
          match estep url rest data tr with
          | ENext q' data' tr' => ecrawl b q' data' tr'
          | ECrash data' tr' => ERaised data' tr'
          end
      end
  end.

(** [crawler()] from the module's initial state. *)
Definition crawler : ecrawl_result := ecrawl max_crawl [target_url] [] [].

(** The rows [writer.writerows(product_data)] writes; [None] when
    [crawler()] raises and the file is not written. *)
Definition ecommerce_main : option (list product) :=
  match crawler with
  | EDone _ data _ => Some data
  | ERaised _ _ => None
  end.

End Ecommerce.

(** ** [products.csv] (lines 79-84)

    [csv.DictWriter] with the default dialect: fields separated by [,],
    records ended by [\r\n], and [QUOTE_MINIMAL]: a field holding [,],
    the quote, [\r] or [\n] is written between quotes with its quotes
    doubled. *)

Definition dquote : ascii := "034"%char.
Definition cr : ascii := "013"%char.
Definition lf : ascii := "010"%char.

Definition csv_needs_quote (f : string) : bool :=
  str_has ","%char f || str_has dquote f || str_has cr f || str_has lf f.

Fixpoint double_quotes (f : string) : string :=
  match f with
  | EmptyString => EmptyString
  | String c t =>
      if Ascii.eqb c dquote then String dquote (String dquote (double_quotes t))
      else String c (double_quotes t)
  end.

Definition csv_field (f : string) : string :=
  if csv_needs_quote f then String dquote (double_quotes f +:+ String dquote EmptyString) else f.

(** [writer.writerow(fields)] *)
Definition csv_row (fields : list string) : string :=
  str_join "," (map csv_field fields) +:+ String cr (String lf EmptyString).

Definition csv_fieldnames : list string := ["Url"; "Image"; "Name"; "Price"].

(** [DictWriter._dict_to_list]: the values in the order of [fieldnames]. *)
Definition product_fields (p : product) : list string :=
  [prod_url p; prod_image p; prod_name p; prod_price p].

(** [writer.writerows(rows)]: one record after the other. *)
Fixpoint csv_rows (rows : list product) : string :=
  match rows with
  | [] => EmptyString
  | p :: rest => csv_row (product_fields p) +:+ csv_rows rest
  end.

(** The content of [products.csv]: [writeheader()], then [writerows]. *)
Definition products_csv (rows : list product) : string := csv_row csv_fieldnames +:+ csv_rows rows.

(** A reader of that format, to state what the file holds: [CStart] at
    the start of a field, [CUnq] inside an unquoted one, [CQuoted] inside
    a quoted one, [CQuote] after a quote in it, [CCr] after the [\r] that
    ends a record. *)
Inductive csv_mode := CStart | CUnq | CQuoted | CQuote | CCr.

Fixpoint csv_go (s : string) (mode : csv_mode) (fld : string) (row : list string)
    : option (list (list string)) :=
  let add (c : ascii) := fld +:+ String c EmptyString in
  match s with
  | EmptyString =>
      match mode, row with CStart, [] => Some [] | _, _ => None end
  | String c t =>
      match mode with
      | CStart | CUnq | CQuote =>
          if Ascii.eqb c ","%char then csv_go t CStart EmptyString (row ++ [fld])
          else if Ascii.eqb c cr then csv_go t CCr fld row
          else if Ascii.eqb c dquote then
            match mode with
            | CStart => csv_go t CQuoted fld row
            | CQuote => csv_go t CQuoted (add c) row
            | _ => None
            end
          else match mode with CQuote => None | _ => csv_go t CUnq (add c) row end
      | CQuoted =>
          if Ascii.eqb c dquote then csv_go t CQuote fld row else csv_go t CQuoted (add c) row
      | CCr =>
          if Ascii.eqb c lf then option_map (cons (row ++ [fld])) (csv_go t CStart EmptyString [])
          else None
      end
  end.

Definition csv_parse (s : string) : option (list (list string)) := csv_go s CStart EmptyString [].

(** A character written as is in an unquoted field. *)
Definition csv_plain (c : ascii) : bool :=
  negb (Ascii.eqb c ","%char || Ascii.eqb c dquote || Ascii.eqb c cr || Ascii.eqb c lf).

(** The modes in which a [,] or [\r\n] ends the field. *)
Definition field_end (mode : csv_mode) : Prop := mode = CStart \/ mode = CUnq \/ mode = CQuote.

(** A site answering each listed URL, and 404 otherwise. *)
Definition shop_net (pages : list (string * attempt_result)) (u : string) : attempt_result :=
  match List.find (fun kv => String.eqb (fst kv) u) pages with
  | Some (_, r) => r
  | None => Response 404 None (Page [] [])
  end.

Definition page_with (hrefs : list string) : attempt_result := Response 200 None (Page [] hrefs).

(** The home page links to a page [a/], which links back home. *)
Definition pingpong_net : string -> attempt_result :=
  shop_net [(target_url, page_with ["a/"]); (target_url +:+ "a/", page_with [target_url])].

(** The home page links to a listing page and to a missing page. *)
Definition listing_net : string -> attempt_result :=
  shop_net [(target_url, page_with ["page/2/"; "missing/"]); (target_url +:+ "page/2/", page_with [])].

Definition hoodie : product := Product "https://www.scrapingcourse.com/ecommerce/product/hoodie/"
  "hoodie.jpg" "Hoodie" "$57.00".

Definition listing_containers (u : string) : list product_container :=
  if String.eqb u (target_url +:+ "page/2/")
  then [ProductContainer (Some (prod_url hoodie)) (Some (prod_image hoodie))
                         (Some (prod_name hoodie)) (Some (prod_price hoodie))]
  else [].

(** ** Theorems *)

Lemma add_links_on_site hrefs q q' :
  Forall on_site q -> add_links hrefs q = Some q' -> Forall on_site q'.
Proof.
  revert q. induction hrefs as [|h hs IH]; intros q Hq; simpl; [by intros [= <-]|].
  destruct (if String.prefix "http" h then _ else _) as [a|]; [|done].
  apply IH. destruct (String.prefix target_url a) eqn:E; simpl; [|done].
  case_bool_decide; simpl; [done|]. apply Forall_app. split; [done|]. by repeat constructor.
Qed.

Lemma scrape_rows pcs data data' ok :
  scrape pcs data = (data', ok) ->
  forall p, p ∈ data' -> p ∈ data \/ exists pc, pc ∈ pcs /\ extract_product pc = Some p.
Proof.
  revert data. induction pcs as [|pc pcs IH]; intros data; simpl; [intros [= <- _]; auto|].
  destruct (extract_product pc) as [p0|] eqn:E; [|intros [= <- _]; auto].
  intros Hs p Hp. destruct (IH _ Hs p Hp) as [Hin|(pc' & ? & ?)]; [|right; exists pc'; set_solver].
  apply elem_of_app in Hin as [?|Hin]; [auto|]. right. exists pc. set_solver.
Qed.

(** *** The CSV file *)

Lemma csv_plain_of f : csv_needs_quote f = false -> str_forall csv_plain f = true.
Proof.
  unfold csv_needs_quote. induction f as [|c f IH]; [done|]. cbn [str_has str_forall].
  rewrite !orb_false_iff. intros [[[[H1 H1'] [H2 H2']] [H3 H3']] [H4 H4']].
  apply andb_true_intro. split; [|apply IH; by rewrite H1', H2', H3', H4'].
  unfold csv_plain. rewrite (Ascii.eqb_sym c ","%char), (Ascii.eqb_sym c dquote), (Ascii.eqb_sym c cr),
    (Ascii.eqb_sym c lf), H1, H2, H3, H4. done.
Qed.

Lemma csv_go_unquoted f rest fld row :
  str_forall csv_plain f = true ->
  csv_go (f +:+ rest) CUnq fld row = csv_go rest CUnq (fld +:+ f) row.
Proof.
  revert fld. induction f as [|c f IH]; intros fld; [by rewrite append_empty_r|].
  cbn [str_forall]. intros [Hc Hf]%andb_prop. unfold csv_plain in Hc. simpl.
  destruct (Ascii.eqb c ","%char), (Ascii.eqb c cr), (Ascii.eqb c dquote); try done.
  rewrite IH by done. by rewrite <- append_assoc_str.
Qed.

Lemma csv_go_quoted f rest fld row :
  csv_go (double_quotes f +:+ String dquote rest) CQuoted fld row = csv_go rest CQuote (fld +:+ f) row.
Proof.
  revert fld. induction f as [|c f IH]; intros fld; [by rewrite append_empty_r|].
  cbn [double_quotes]. destruct (Ascii.eqb c dquote) eqn:E; simpl; rewrite ?E.
  - apply Ascii.eqb_eq in E as ->. simpl. rewrite IH. by rewrite <- append_assoc_str.
  - rewrite IH. by rewrite <- append_assoc_str.
Qed.

Lemma csv_go_field f rest row :
  exists mode, field_end mode /\ csv_go (csv_field f +:+ rest) CStart EmptyString row = csv_go rest mode f row.
Proof.
  unfold csv_field. destruct (csv_needs_quote f) eqn:Hq.
  - exists CQuote. split; [right; by right|]. simpl. rewrite <- append_assoc_str. apply csv_go_quoted.
  - apply csv_plain_of in Hq. destruct f as [|c f]; [exists CStart; split; [by left|done]|].
    exists CUnq. split; [right; by left|]. cbn [str_forall] in Hq. apply andb_prop in Hq as [Hc Hf].
    unfold csv_plain in Hc. simpl.
    destruct (Ascii.eqb c ","%char), (Ascii.eqb c cr), (Ascii.eqb c dquote); try done.
    by rewrite csv_go_unquoted.
Qed.

Lemma csv_go_comma mode fld rest row :
  field_end mode -> csv_go (String ","%char rest) mode fld row = csv_go rest CStart EmptyString (row ++ [fld]).
Proof. by intros [->|[->| ->]]. Qed.

Lemma csv_go_crlf mode fld rest row :
  field_end mode ->
  csv_go (String cr (String lf rest)) mode fld row =
  option_map (cons (row ++ [fld])) (csv_go rest CStart EmptyString []).
Proof. by intros [->|[->| ->]]. Qed.

Lemma csv_go_row fs rest acc :
  fs <> [] ->
  csv_go (csv_row fs +:+ rest) CStart EmptyString acc =
  option_map (cons (acc ++ fs)) (csv_go rest CStart EmptyString []).
Proof.
  unfold csv_row. revert acc. induction fs as [|f fs IH]; intros acc Hne; [done|].
  destruct fs as [|f' fs].
  - cbn [map str_join String.concat]. rewrite <- append_assoc_str.
    destruct (csv_go_field f (String cr (String lf EmptyString) +:+ rest) acc) as (m & Hm & ->).
    by apply csv_go_crlf.
  - change (str_join "," (map csv_field (f :: f' :: fs)))
      with (csv_field f +:+ ("," +:+ str_join "," (map csv_field (f' :: fs)))).
    rewrite <- !append_assoc_str.
    match goal with |- context [csv_go (csv_field f +:+ ?r) _ _ _] =>
      destruct (csv_go_field f r acc) as (m & Hm & ->) end.
    rewrite str_app_cons, str_app_nil, csv_go_comma by done.
    rewrite append_assoc_str, IH by done. by rewrite <- app_assoc.
Qed.

Section EcommerceFacts.
Context `{CC : CharClasses}.
Variable net : string -> attempt_result.
Variable containers : string -> list product_container.

(** What one iteration does: one GET of [url], a queue of site URLs, and
    rows from the containers of [url] when it matches the pattern. *)
Lemma estep_spec url rest data tr :
  Forall on_site rest ->
  match estep net containers url rest data tr with
  | ENext q' data' tr' => tr' = tr ++ [EvGet url 1] /\ Forall on_site q' /\
      forall p, p ∈ data' -> p ∈ data \/ row_from containers url_pattern_search [url] p
  | ECrash data' tr' => tr' = tr ++ [EvGet url 1] /\
      forall p, p ∈ data' -> p ∈ data \/ row_from containers url_pattern_search [url] p
  end.
Proof.
  intros Hr. unfold estep.
  assert (Hrow : forall d' ok, url_pattern_search url = true -> scrape (containers url) data = (d', ok) ->
            forall p, p ∈ d' -> p ∈ data \/ row_from containers url_pattern_search [url] p).
  { intros d' ok Hm Hs p Hp. destruct (scrape_rows _ _ _ _ Hs p Hp) as [?|(pc & ? & ?)]; [auto|].
    right. exists url, pc. set_solver. }
  destruct (net url) as [|status ra body]; [split; auto|].
  destruct (is_http_error status); [split; auto|].
  destruct (add_links (page_hrefs body) rest) as [q'|] eqn:Hl; [|split; auto].
  pose proof (add_links_on_site _ _ _ Hr Hl).
  destruct (url_pattern_search url) eqn:Hm; [|split_and!; auto].
  destruct (scrape (containers url) data) as [d' []] eqn:Hs; split_and!; eauto.
Qed.

(** The whole loop: the URLs it fetches, at most [budget], all on the
    site, and the provenance of every row. *)
Lemma ecrawl_spec b q data tr :
  Forall on_site q ->
  exists urls, ecrawl_trace (ecrawl net containers b q data tr) = tr ++ map (fun u => EvGet u 1) urls /\
    length urls <= b /\ Forall on_site urls /\
    forall p, p ∈ ecrawl_data (ecrawl net containers b q data tr) ->
      p ∈ data \/ row_from containers url_pattern_search urls p.
Proof.
  revert q data tr. induction b as [|b IH]; intros q data tr Hq; simpl.
  { exists []. rewrite app_nil_r. split_and!; auto. }
  destruct q as [|url rest]; [exists []; rewrite app_nil_r; split_and!; simpl; auto; lia|].
  inversion Hq as [|? ? Hu Hr]; subst.
  pose proof (estep_spec url rest data tr Hr) as Hs.
  destruct (estep net containers url rest data tr) as [q' d' t'|d' t'].
  - destruct Hs as (-> & Hq' & Hd). destruct (IH q' d' (tr ++ [EvGet url 1]) Hq') as (urls & Ht & Hlen & Hon & Hp).
    exists (url :: urls). rewrite Ht, <- app_assoc. split_and!; [done|simpl; lia|by constructor|].
    intros p Hin. destruct (Hp p Hin) as [Hd'|(u & pc & ? & ?)]; [|right; exists u, pc; set_solver].
    destruct (Hd p Hd') as [?|(u & pc & ? & ?)]; [auto|right; exists u, pc; set_solver].
  - destruct Hs as (-> & Hd). exists [url]. split_and!; [done|simpl; lia|by repeat constructor|].
    intros p Hin. destruct (Hd p Hin) as [?|(u & pc & ? & ?)]; [auto|right; exists u, pc; set_solver].
Qed.

(** C12. crawler-ecommerce.py requests at most [max_crawl] pages, one GET
    each, all of them URLs that start with [target_url]. *)
Theorem crawler_requests_bounded :
  exists urls, ecrawl_trace (crawler net containers) = map (fun u => EvGet u 1) urls /\
    length urls <= max_crawl /\ Forall on_site urls.
Proof.
  destruct (ecrawl_spec max_crawl [target_url] [] [] ltac:(repeat constructor)) as (urls & Ht & Hl & Ho & _).
  by exists urls.
Qed.

(** C35. Every row crawler-ecommerce.py collects comes from a product
    container of a page it fetched whose URL matches [r"/page/\d+/"]. *)
Theorem crawler_rows_provenance :
  exists urls, ecrawl_trace (crawler net containers) = map (fun u => EvGet u 1) urls /\
    forall p, p ∈ ecrawl_data (crawler net containers) -> row_from containers url_pattern_search urls p.
Proof.
  destruct (ecrawl_spec max_crawl [target_url] [] [] ltac:(repeat constructor)) as (urls & Ht & _ & _ & Hp).
  exists urls. split; [done|]. intros p Hin. by destruct (Hp p Hin) as [Hn%elem_of_nil|?].
Qed.

End EcommerceFacts.

(** crawler-ecommerce.py fetches the same pages again and again: the
    home page, popped, is no longer in the queue when page [a/] links back
    to it, so the two pages alternate until the 20 requests are spent. *)
Example ecommerce_refetches :
  ecrawl_trace (crawler pingpong_net (fun _ => [])) =
  concat (repeat [EvGet target_url 1; EvGet (target_url +:+ "a/") 1] 10).
Proof. vm_compute. reflexivity. Qed.

(** One missing page loses every row: the listing page [page/2/]
    yields its product, then the 404 of [missing/] raises in
    [raise_for_status] and the script ends before writing the CSV. *)
Example ecommerce_error_loses_rows :
  ecrawl_data (crawler listing_net listing_containers) = [hoodie] /\
  ecommerce_main listing_net listing_containers = None.
Proof. vm_compute. split; reflexivity. Qed.

(** A relative link is resolved against [target_url]: on page [page/2/]
    the link [3/] gives [ecommerce/3/], where the page's own URL would
    give [ecommerce/page/2/3/]. *)
Example ecommerce_relative_to_target :
  add_links ["3/"] [] = Some [target_url +:+ "3/"] /\
  urljoin (target_url +:+ "page/2/") "3/" = Some (target_url +:+ "page/2/3/").
Proof. vm_compute. split; reflexivity. Qed.

(** C13. The CSV file crawler-ecommerce.py writes reads back, record by
    record, as the header and the four fields of every row, whatever
    commas, quotes or line breaks the fields hold. *)
Theorem products_csv_roundtrip rows :
  csv_parse (products_csv rows) = Some (csv_fieldnames :: map product_fields rows).
Proof.
  assert (Hrows : csv_go (csv_rows rows) CStart EmptyString [] = Some (map product_fields rows)).
  { induction rows as [|p rows IH]; [done|]. cbn [csv_rows]. rewrite csv_go_row by done. by rewrite IH. }
  unfold csv_parse, products_csv. rewrite csv_go_row by done. by rewrite Hrows.
Qed.
