(* ===== verification/Cli.v ===== *)
(** * The command line: [argparse] as the crawlers configure it

    Seven versions start [main] with
    {v
    parser = argparse.ArgumentParser(description=...)
    parser.add_argument("--seeds-dir", required=True, help=...)
    parser.add_argument("--max-pages", type=int, default=100, help=...)
    parser.add_argument("--output-dir", default="output", help=...)
    args = parser.parse_args()
    v}
    (crawler-updated12.py lines 131-140, and [--seeds-file] in
    crawler-updated3.py, no seeds option in crawler-updated4.py).
    [ArgumentParser.parse_args] is modelled from CPython 3.11's
    [argparse.py] for parsers of long options that take one value, with
    the [-h]/[--help] action [add_help] puts first:
    - [_parse_optional] classifies every string before anything is
      consumed ([classify]): [--] ends the options, an option string is
      found exactly, before an [=], or as an unambiguous prefix
      ([_get_option_tuples]); a negative number, a string with a space
      and a lone [-] are values; an ambiguous prefix is an error at once;
    - the strings are then consumed left to right ([consume]): an option
      takes the next string when it is a value, or its [=] part; the type
      is applied then ([int()], [py_int_of]), so an invalid [int] stops
      the parse there; [-h] exits at once; other strings are extras;
    - unseen options get their defaults (a [str] default through the
      type), a missing required option is an error, and extras are the
      error of [parse_args].
    An error is [parser.error] ([exit(2)]), the help is [exit(0)].  The
    arguments are Python [str]s, given as their UTF-8 bytes. *)

From S2P Require Import Prelude Url Fetcher Tokens Vocab Ledger Robots Loop Crawl Early Crawler11 Crawler9 Crawler8.

Set Warnings "-clear-no-such-hyp".
Local Open Scope crawl_scope.

(** ** The parser's arguments *)

Inductive arg_type := TStr | TInt.

(** A value of the namespace: [None], a [str], an [int], or the empty
    list a one-value option gets from [--flag=--]. *)
Inductive arg_value := VNone | VStr (s : string) | VInt (z : Z) | VEmptyList.

(** [parser.add_argument(flag, required=..., type=..., default=...)] *)
Record arg_spec := ArgSpec {
  as_flag : string; as_required : bool; as_type : arg_type; as_default : arg_value }.

(** What an option string stands for: the help, or the [i]-th argument. *)
Inductive action := AHelp | AStore (i : nat).

(** The option strings of the arguments [sps], the first one the [k]-th. *)
Fixpoint opts_from (sps : list arg_spec) (k : nat) : list (string * action) :=
  match sps with [] => [] | sp :: rest => (as_flag sp, AStore k) :: opts_from rest (S k) end.

(** [self._option_string_actions], in insertion order. *)
Definition option_strings (specs : list arg_spec) : list (string * action) :=
  ("-h", AHelp) :: ("--help", AHelp) :: opts_from specs 0.

Definition lookup_opt (opts : list (string * action)) (s : string) : option action :=
  snd <$> List.find (fun p => String.eqb p.1 s) opts.

Inductive cli_error :=
| ErrAmbiguous (arg : string) (matches : list string)
| ErrExpectedOne (flag : string)
| ErrInvalidInt (flag value : string)
| ErrIgnoredExplicit (flag explicit : string)
| ErrRequired (flags : list string)
| ErrUnrecognized (args : list string).

(** An argument string as [_parse_known_args] sees it: the separator
    [--], a value (['A']), or an option (['O']) with its action ([None]
    for an unknown option), the option string and the explicit value. *)
Inductive arg_kind :=
| KSep
| KPos
| KOpt (a : option action) (flag : string) (explicit : option string).

(** ** [_parse_optional] *)

(** [_get_option_tuples(option_string)] *)
Definition option_tuples (opts : list (string * action)) (s : string) : list (action * string * option string) :=
  match s with
  | String c1 (String c2 _) =>
      if Ascii.eqb c1 "-" && Ascii.eqb c2 "-" then
        let '(prefix, explicit) :=
          if str_has "=" s then let '(p, e) := split_once "=" s in (p, Some e) else (s, None) in
        omap (fun '(o, a) => if o startswith prefix then Some (a, o, explicit) else None) opts
      else if Ascii.eqb c1 "-" then
        let short_prefix := String c1 (String c2 EmptyString) in
        omap (fun '(o, a) =>
                if String.eqb o short_prefix then Some (a, o, Some (str_drop 2 s))
                else if o startswith s then Some (a, o, None) else None) opts
      else []
  | _ => []
  end.

(** [\d] of a [str] pattern: a decimal digit of any script. *)
Definition re_decimal `{CharClasses} (c : N) : bool :=
  if (c <? 128)%N then ((48 <=? c) && (c <=? 57))%N else is_decimal c.

(** [\d+] *)
Definition re_digits `{CharClasses} (l : list N) : bool :=
  negb (bool_decide (l = [])) && forallb re_decimal l.

(** [\d*\.\d+]: digits up to the first dot, at least one digit after it. *)
Fixpoint re_fraction `{CharClasses} (l : list N) : bool :=
  match l with
  | [] => false
  | c :: t => if (c =? 46)%N then re_digits t else re_decimal c && re_fraction t
  end.

(** [_negative_number_matcher = re.compile(r'^-\d+$|^-\d*\.\d+$')];
    [$] also matches before a final newline. *)
Definition negative_number `{CharClasses} (s : string) : bool :=
  match utf8_cps s with
  | 45%N :: rest =>
      let body := match rev rest with c :: r => if (c =? 10)%N then rev r else rest | [] => rest end in
      re_digits body || re_fraction body
  | _ => false
  end.

(** [_parse_optional(arg_string)]: [inr None] for a value, [inl] for
    the error of an ambiguous prefix. *)
Definition parse_optional `{CharClasses} (opts : list (string * action)) (arg : string)
    : cli_error + option (option action * string * option string) :=
  match arg with
  | EmptyString => inr None
  | String c rest =>
      if negb (Ascii.eqb c "-") then inr None
      else match lookup_opt opts arg with
      | Some a => inr (Some (Some a, arg, None))
      | None =>
          if is_empty rest then inr None
          else
            let by_eq :=
              if str_has "=" arg then
                let '(o, e) := split_once "=" arg in
                match lookup_opt opts o with Some a => Some (Some a, o, Some e) | None => None end
              else None in
            match by_eq with
            | Some t => inr (Some t)
            | None =>
                match option_tuples opts arg with
                | [(a, o, e)] => inr (Some (Some a, o, e))
                | (_ :: _ :: _) as ts => inl (ErrAmbiguous arg (map (fun t => t.1.2) ts))
                | [] =>
                    if negative_number arg then inr None
                    else if str_has " " arg then inr None
                    else inr (Some (None, arg, None))
                end
            end
      end
  end.

(** The classification loop of [_parse_known_args]: after [--] every
    string is a value. *)
Fixpoint classify `{CharClasses} (opts : list (string * action)) (args : list string)
    : cli_error + list (string * arg_kind) :=
  match args with
  | [] => inr []
  | a :: rest =>
      if String.eqb a "--" then inr ((a, KSep) :: map (fun s => (s, KPos)) rest)
      else match parse_optional opts a with
           | inl e => inl e
           | inr o =>
               let k := match o with None => KPos | Some (act, flag, ex) => KOpt act flag ex end in
               match classify opts rest with
               | inl e => inl e
               | inr ks => inr ((a, k) :: ks)
               end
           end
  end.

(** ** [int()] *)

(** The whitespace [int()] skips: ASCII [\t\n\v\f\r] and space, and the
    non-ASCII spaces of [str.isspace]; [\x1c]-[\x1f] are not skipped. *)
Definition int_space (c : N) : bool :=
  (((9 <=? c) && (c <=? 13)) || (c =? 32) || (c =? 133) || (c =? 160) || (c =? 5760) ||
   ((8192 <=? c) && (c <=? 8202)) || (c =? 8232) || (c =? 8233) || (c =? 8239) ||
   (c =? 8287) || (c =? 12288))%N.

(** A digit: ASCII [0-9], or the decimal value of a non-ASCII digit. *)
Definition cp_digit `{CharClasses} (c : N) : option N :=
  if (c <? 128)%N then (if ((48 <=? c) && (c <=? 57))%N then Some (c - 48)%N else None)
  else digit_value c.

Fixpoint drop_space (l : list N) : list N :=
  match l with [] => [] | c :: t => if int_space c then drop_space t else l end.

(** Base-10 digits, an underscore allowed between two of them. *)
Fixpoint int_digits `{CharClasses} (l : list N) (acc : Z) (after_digit : bool) : option Z :=
  match l with
  | [] => if after_digit then Some acc else None
  | c :: t =>
      if (c =? 95)%N then
        if after_digit then match t with [] => None | _ => int_digits t acc false end else None
      else match cp_digit c with
           | Some d => int_digits t (10 * acc + Z.of_N d)%Z true
           | None => None
           end
  end.

(** The number of digits of a number's text, its underscores apart. *)
Definition int_digit_count (body : list N) : nat := length (List.filter (fun c => negb (c =? 95)%N) body).

(** [int()] refuses more than [INT_MAX_STR_DIGITS] digits. *)
Definition int_limit (body : list N) (r : option Z) : option Z :=
  if (int_digit_count body <=? INT_MAX_STR_DIGITS)%nat then r else None.

(** [int(s)]; [None] is the [ValueError]. *)
Definition py_int_of `{CharClasses} (s : string) : option Z :=
  match rev (drop_space (rev (drop_space (utf8_cps s)))) with
  | c :: t =>
      if (c =? 45)%N then int_limit t (Z.opp <$> int_digits t 0 false)
      else if (c =? 43)%N then int_limit t (int_digits t 0 false)
      else int_limit (c :: t) (int_digits (c :: t) 0 false)
  | [] => None
  end.

(** ** Consuming the strings *)

(** The name [argparse] gives an action in its messages. *)
Definition action_name (specs : list arg_spec) (a : action) : string :=
  match a with AHelp => "-h/--help" | AStore i => default EmptyString (as_flag <$> specs !! i) end.

(** [_get_value]: the [type] applied to a string. *)
Definition convert `{CharClasses} (sp : arg_spec) (v : string) : cli_error + arg_value :=
  match as_type sp with
  | TStr => inr (VStr v)
  | TInt => match py_int_of v with Some z => inr (VInt z) | None => inl (ErrInvalidInt (as_flag sp) v) end
  end.

(** [take_action] of the [i]-th argument on the strings [vals] it
    consumed: [_get_values] removes the first [--], and a one-value
    option left with no string stores an empty list. *)
Definition take_store `{CharClasses} (specs : list arg_spec) (i : nat) (vals : list string)
    (ns : list arg_value) : cli_error + list arg_value :=
  match specs !! i with
  | None => inr ns
  | Some sp =>
      match vals with
      | [v] => if String.eqb v "--" then inr (<[i := VEmptyList]> ns)
               else match convert sp v with inl e => inl e | inr x => inr (<[i := x]> ns) end
      | _ => inr (<[i := VEmptyList]> ns)
      end
  end.

(** [-h] with an explicit argument: [-hh...h] is the help again, the
    first other character is an ignored explicit argument. *)
Fixpoint help_chain (e : string) : option string :=
  match e with
  | EmptyString => None
  | String c rest =>
      if Ascii.eqb c "h" then match rest with EmptyString => None | _ => help_chain rest end
      else Some e
  end.

Definition second_is_dash (flag : string) : bool :=
  match flag with String _ (String c _) => Ascii.eqb c "-" | _ => false end.

Inductive consumed :=
| CDone (ns : list arg_value) (seen : list nat) (extras : list string)
| CHelp
| CErr (e : cli_error).

(** The consuming loop of [_parse_known_args] ([consume_optional] for
    each option, the other strings into [extras]). *)
Fixpoint consume `{CharClasses} (specs : list arg_spec) (ks : list (string * arg_kind))
    (ns : list arg_value) (seen : list nat) (extras : list string) : consumed :=
  match ks with
  | [] => CDone ns seen extras
  | (_, KOpt (Some AHelp) flag ex) :: _ =>
      match ex with
      | None => CHelp
      | Some e =>
          if is_empty e || second_is_dash flag then CErr (ErrIgnoredExplicit "-h/--help" e)
          else match help_chain e with None => CHelp | Some x => CErr (ErrIgnoredExplicit "-h/--help" x) end
      end
  | (_, KOpt (Some (AStore i)) _ (Some e)) :: rest =>
      match take_store specs i [e] ns with
      | inl err => CErr err
      | inr ns' => consume specs rest ns' (i :: seen) extras
      end
  | (_, KOpt (Some (AStore i)) _ None) :: rest =>
      match rest with
      | (v, KPos) :: rest' =>
          match take_store specs i [v] ns with
          | inl err => CErr err
          | inr ns' => consume specs rest' ns' (i :: seen) extras
          end
      | _ => CErr (ErrExpectedOne (action_name specs (AStore i)))
      end
  | (s, _) :: rest => consume specs rest ns seen (extras ++ [s])
  end.

(** After the loop: the defaults of the unseen arguments that are
    strings go through the type, and the required ones unseen are
    listed; [i] is the index of the first spec of [sps]. *)
Fixpoint finish `{CharClasses} (sps : list arg_spec) (i : nat) (ns : list arg_value) (seen : list nat)
    (missing : list string) : cli_error + list arg_value :=
  match sps with
  | [] => match missing with [] => inr ns | _ => inl (ErrRequired missing) end
  | sp :: rest =>
      if bool_decide (i ∈ seen) then finish rest (S i) ns seen missing
      else if as_required sp then finish rest (S i) ns seen (missing ++ [as_flag sp])
      else match as_default sp with
           | VStr d =>
               match convert sp d with
               | inl e => inl e
               | inr x => finish rest (S i) (<[i := x]> ns) seen missing
               end
           | _ => finish rest (S i) ns seen missing
           end
  end.

Inductive cli_outcome :=
| CliArgs (ns : list arg_value)
| CliHelp
| CliError (e : cli_error).

(** [parser.parse_args(argv)] *)
Definition cli_parse `{CharClasses} (specs : list arg_spec) (argv : list string) : cli_outcome :=
  match classify (option_strings specs) argv with
  | inl e => CliError e
  | inr ks =>
      match consume specs ks (map as_default specs) [] [] with
      | CHelp => CliHelp
      | CErr e => CliError e
      | CDone ns seen extras =>
          match finish specs 0 ns seen [] with
          | inl e => CliError e
          | inr ns' => match extras with [] => CliArgs ns' | _ => CliError (ErrUnrecognized extras) end
          end
      end
  end.

(** ** The parsers of the crawlers *)

Definition max_pages_arg : arg_spec := ArgSpec "--max-pages" false TInt (VInt 100).
Definition output_dir_arg : arg_spec := ArgSpec "--output-dir" false TStr (VStr "output").

(** crawler-updated5.py, -8, -9, -11, -12 *)
Definition seeds_dir_parser : list arg_spec :=
  [ArgSpec "--seeds-dir" true TStr VNone; max_pages_arg; output_dir_arg].

(** crawler-updated3.py *)
Definition seeds_file_parser : list arg_spec :=
  [ArgSpec "--seeds-file" true TStr VNone; max_pages_arg; output_dir_arg].

(** crawler-updated4.py *)
Definition topics_parser : list arg_spec := [max_pages_arg; output_dir_arg].

(** ** [main()] *)

(** What the crawlers read from the file system. *)
Record filesystem := FileSystem {
  (** [os.makedirs(path, exist_ok=True)] succeeds *)
  fs_makedirs : string -> bool;
  (** the text of a file, [None] when it does not exist *)
  fs_read : string -> option string;
  (** [json.load] of an existing mapping file, as the map it stands for
      (a file the crawlers wrote loads as the map they dumped: Json.v) *)
  fs_json : string -> option (gmap string string);
  (** [os.listdir(path)] with each entry's content; [None] is the [OSError] *)
  fs_listdir : string -> option (list (string * string))
}.

(** How [python crawler.py argv] ends: the [SystemExit] of [parse_args]
    (0 for the help, 2 for an error), an exception before any page is
    crawled (the [TypeError] of a list where a path or a number is
    expected, an [OSError]), or the run. *)
Inductive cli_run (A : Type) :=
| RunExit (code : Z)
| RunRaises
| RunDone (r : A).
Arguments RunExit {A} code.
Arguments RunRaises {A}.
Arguments RunDone {A} r.

Definition exit_of {A} (o : cli_outcome) : cli_run A :=
  match o with CliHelp => RunExit 0%Z | _ => RunExit 2%Z end.

(** [args.max_pages] as the loop [while queue and count < max_pages]
    reads it: an [int] (a negative one runs no iteration), or the empty
    list of [--max-pages=--], which raises [TypeError] at the first test
    of a crawl whose queue is not empty ([crawls]). *)
Definition budget_of (v : arg_value) (crawls : bool) : option nat :=
  match v with
  | VInt z => Some (Z.to_nat z)
  | VEmptyList => if crawls then None else Some 0
  | _ => None
  end.

(** crawler-updated12.py, [main()]: lines 131-143 and the reads of lines
    146-164. *)
Definition main12_cli `{CharClasses} `{CaseMap} (w : web) (fs : filesystem) (argv : list string)
    : cli_run (run_result * option (gmap string string)) :=
  match cli_parse seeds_dir_parser argv with
  | CliArgs [VStr seeds_dir; mp; VStr output_dir] =>
      if negb (fs_makedirs fs output_dir) then RunRaises
      else match fs_listdir fs seeds_dir with
           | None => RunRaises
           | Some listing =>
               match budget_of mp (negb (bool_decide (load_topics listing = []))) with
               | None => RunRaises
               | Some n =>
                   RunDone (main w output_dir n (fs_read fs (path_join output_dir "all_urls_master.txt"))
                                 (fs_json fs (path_join output_dir "url_mapping.json")) listing)
               end
           end
  | CliArgs _ => RunRaises
  | o => exit_of o
  end.

(** crawler-updated11.py, [main()]: lines 83-95 and the reads of lines
    98-116. *)
Definition main11_cli `{CharClasses} (w : web) (fs : filesystem) (argv : list string)
    : cli_run (run_result * option (gmap string string)) :=
  match cli_parse seeds_dir_parser argv with
  | CliArgs [VStr seeds_dir; mp; VStr output_dir] =>
      if negb (fs_makedirs fs output_dir) then RunRaises
      else match fs_listdir fs seeds_dir with
           | None => RunRaises
           | Some listing =>
               match budget_of mp (negb (bool_decide (load_topics listing = []))) with
               | None => RunRaises
               | Some n =>
                   RunDone (main11 w output_dir n (fs_read fs (path_join output_dir "all_urls_master.txt"))
                                   (fs_json fs (path_join output_dir "url_mapping.json")) listing)
               end
           end
  | CliArgs _ => RunRaises
  | o => exit_of o
  end.

(** crawler-updated9.py, [main()]: lines 91-110 and the listing of line
    115; the mapping file is only written. *)
Definition main9_cli `{CharClasses} (w : web) (fs : filesystem) (argv : list string)
    : cli_run (run_result * option (gmap string string)) :=
  match cli_parse seeds_dir_parser argv with
  | CliArgs [VStr seeds_dir; mp; VStr output_dir] =>
      if negb (fs_makedirs fs output_dir) then RunRaises
      else match fs_listdir fs seeds_dir with
           | None => RunRaises
           | Some listing =>
               match budget_of mp (negb (bool_decide (load_topics listing = []))) with
               | None => RunRaises
               | Some n => RunDone (main9 w output_dir n (fs_json fs (path_join output_dir "url_mapping.json")) listing)
               end
           end
  | CliArgs _ => RunRaises
  | o => exit_of o
  end.

(** crawler-updated8.py, [main()]: lines 86-105 and the listing of line
    110. *)
Definition main8_cli (w : web) (fs : filesystem) (argv : list string)
    : cli_run (run_result * option (gmap string string)) :=
  match cli_parse seeds_dir_parser argv with
  | CliArgs [VStr seeds_dir; mp; VStr output_dir] =>
      if negb (fs_makedirs fs output_dir) then RunRaises
      else match fs_listdir fs seeds_dir with
           | None => RunRaises
           | Some listing =>
               match budget_of mp (negb (bool_decide (load_topics listing = []))) with
               | None => RunRaises
               | Some n => RunDone (main8 w output_dir n (fs_json fs (path_join output_dir "url_mapping.json")) listing)
               end
           end
  | CliArgs _ => RunRaises
  | o => exit_of o
  end.

(** crawler-updated5.py, [main()]: lines 65-90. *)
Definition main5_cli `{CharClasses} `{CaseMap} (w : web) (fs : filesystem) (argv : list string)
    : cli_run run_result :=
  match cli_parse seeds_dir_parser argv with
  | CliArgs [VStr seeds_dir; mp; VStr output_dir] =>
      if negb (fs_makedirs fs output_dir) then RunRaises
      else match fs_listdir fs seeds_dir with
           | None => RunRaises
           | Some listing =>
               match budget_of mp (negb (bool_decide (load_topics listing = []))) with
               | None => RunRaises
               | Some n => RunDone (main5 w n output_dir listing)
               end
           end
  | CliArgs _ => RunRaises
  | o => exit_of o
  end.

(** crawler-updated4.py, [main()]: lines 77-92; its topics are fixed and
    not empty, so a crawl always starts. *)
Definition main4_cli `{CharClasses} `{CaseMap} (w : web) (fs : filesystem) (argv : list string)
    : cli_run run_result :=
  match cli_parse topics_parser argv with
  | CliArgs [mp; VStr output_dir] =>
      if negb (fs_makedirs fs output_dir) then RunRaises
      else match budget_of mp true with
           | None => RunRaises
           | Some n => RunDone (main4 w n output_dir)
           end
  | CliArgs _ => RunRaises
  | o => exit_of o
  end.

(** crawler-updated3.py, [parse_args()] (lines 10-26) and [main()]
    (lines 91-98): the seeds file is read before [crawl] makes the
    output directory; an empty seeds file starts no crawl. *)
Definition main3_cli `{CharClasses} `{CaseMap} (w : web) (fs : filesystem) (argv : list string)
    : cli_run (string * run_result) :=
  match cli_parse seeds_file_parser argv with
  | CliArgs [VStr seeds_file; mp; VStr output_dir] =>
      match fs_read fs seeds_file with
      | None => RunRaises
      | Some content =>
          if negb (fs_makedirs fs output_dir) then RunRaises
          else match budget_of mp (negb (bool_decide (seeds_of content = []))) with
               | None => RunRaises
               | Some n => RunDone (main3 w seeds_file content n output_dir)
               end
      end
  | CliArgs _ => RunRaises
  | o => exit_of o
  end.

(** ** What [parse_args] promises *)

(** The namespace of [flag value] pairs: the defaults, then each value
    in turn, the last one of a flag winning; [given] pairs the index of
    an argument with its value. *)
Definition spec_namespace (specs : list arg_spec) (given : list (nat * arg_value)) : list arg_value :=
  fold_left (fun ns iv => <[iv.1 := iv.2]> ns) given (map as_default specs).

(** The required arguments not given, in the order they were added. *)
Fixpoint spec_missing (sps : list arg_spec) (k : nat) (given : list (nat * arg_value)) : list string :=
  match sps with
  | [] => []
  | sp :: rest =>
      (if as_required sp && negb (bool_decide (k ∈ map fst given)) then [as_flag sp] else [])
        ++ spec_missing rest (S k) given
  end.

(** The abstract parse: the namespace, or the error that lists the
    missing required arguments. *)
Definition spec_parse (specs : list arg_spec) (given : list (nat * arg_value)) : cli_outcome :=
  match spec_missing specs 0 given with
  | [] => CliArgs (spec_namespace specs given)
  | missing => CliError (ErrRequired missing)
  end.

(** [str(n)] of a natural number: its decimal digits. *)
Definition digit_char (d : N) : ascii := ascii_of_N (48 + d).

Fixpoint n_text_go (fuel : nat) (n : N) (acc : string) : string :=
  match fuel with
  | O => acc
  | S f =>
      let acc' := String (digit_char (n mod 10)) acc in
      if (n <? 10)%N then acc' else n_text_go f (n / 10) acc'
  end.

Definition n_text (n : N) : string := n_text_go (S (N.to_nat n)) n EmptyString.

(** [str(z)] *)
Definition z_text (z : Z) : string :=
  if (z <? 0)%Z then String "-" (n_text (Z.to_N (- z))) else n_text (Z.to_N z).

(** A value as typed on the command line. *)
Definition render_value (v : arg_value) : string :=
  match v with VStr s => s | VInt z => z_text z | _ => EmptyString end.

(** The command line [flag1 value1 flag2 value2 ...] of [given]. *)
Definition render_args (specs : list arg_spec) (given : list (nat * arg_value)) : list string :=
  List.flat_map (fun iv => [default EmptyString (as_flag <$> specs !! iv.1); render_value iv.2]) given.

(** A string [_parse_optional] reads as a value: it does not start
    with [-]. *)
Definition plain (s : string) : bool :=
  match s with String c _ => negb (Ascii.eqb c "-") | EmptyString => true end.

(** A flag [--name] other than [--help]. *)
Definition long_flag (f : string) : bool :=
  match f with
  | String a (String b (String _ _)) => Ascii.eqb a "-" && Ascii.eqb b "-" && negb (String.eqb f "--help")
  | _ => false
  end.

(** A default of the argument's type, or [None]. *)
Definition default_typed (sp : arg_spec) : bool :=
  match as_type sp, as_default sp with TStr, VStr _ | TInt, VInt _ | _, VNone => true | _, _ => false end.

(** The parsers of the crawlers: distinct long flags, defaults typed. *)
Definition parser_ok (specs : list arg_spec) : bool :=
  forallb (fun sp => long_flag (as_flag sp) && default_typed sp) specs &&
  bool_decide (NoDup (map as_flag specs)).

(** A value of the argument's type: a [str] value plain, an [int] one
    that [str()] can write, of at most [INT_MAX_STR_DIGITS] digits. *)
Definition value_fits (sp : arg_spec) (v : arg_value) : bool :=
  match as_type sp, v with
  | TStr, VStr s => plain s
  | TInt, VInt z => (Z.abs z <? 10 ^ Z.of_nat INT_MAX_STR_DIGITS)%Z
  | _, _ => false
  end.

Definition given_ok (specs : list arg_spec) (given : list (nat * arg_value)) : bool :=
  forallb (fun iv => match specs !! iv.1 with Some sp => value_fits sp iv.2 | None => false end) given.

(** A value of the namespace has the argument's type; [None] only for
    an optional argument. *)
Definition value_typed (sp : arg_spec) (v : arg_value) : Prop :=
  match as_type sp, v with
  | TStr, VStr _ | TInt, VInt _ => True
  | _, VNone => as_required sp = false
  | _, _ => False
  end.

(** A value stored from the command line has the argument's type. *)
Definition value_stored (sp : arg_spec) (v : arg_value) : Prop :=
  match as_type sp, v with TStr, VStr _ | TInt, VInt _ => True | _, _ => False end.

(** No argument whose part after its first [=] is [--]. *)
Definition no_eq_sep (argv : list string) : Prop := Forall (fun a => snd (split_once "=" a) <> "--") argv.

(** The classified strings as [classify] leaves them: all values after
    [--], no [--] taken as a value before, no explicit [--] of a
    one-value option. *)
Fixpoint kinds_ok (ks : list (string * arg_kind)) : Prop :=
  match ks with
  | [] => True
  | (_, KSep) :: rest => Forall (fun p => p.2 = KPos) rest
  | (s, KPos) :: rest => s <> "--" /\ kinds_ok rest
  | (_, KOpt (Some (AStore _)) _ (Some e)) :: rest => e <> "--" /\ kinds_ok rest
  | (_, KOpt _ _ _) :: rest => kinds_ok rest
  end.

(** The invariant of the consuming loop: a seen argument holds a value
    of its type, an unseen one its default. *)
Definition ns_inv (specs : list arg_spec) (ns : list arg_value) (seen : list nat) : Prop :=
  forall i sp, specs !! i = Some sp ->
    exists v, ns !! i = Some v /\ (i ∈ seen -> value_stored sp v) /\ (i ∉ seen -> v = as_default sp).

(** A file system with the seeds directory [seeds] of the shop
    examples, writable everywhere and without earlier outputs. *)
Definition seeds_fs : filesystem :=
  FileSystem (fun _ => true) (fun _ => None) (fun _ => None)
             (fun p => if String.eqb p "seeds" then Some shop_listing else None).

(** The classified strings of [render_args specs given]. *)
Definition render_kinds (specs : list arg_spec) (given : list (nat * arg_value)) : list (string * arg_kind) :=
  List.flat_map (fun iv => let f := default EmptyString (as_flag <$> specs !! iv.1) in
                           [(f, KOpt (Some (AStore iv.1)) f None); (render_value iv.2, KPos)]) given.

(** ** Theorems *)

Section CliFacts.
Context `{CC : CharClasses}.

(** *** [int(str(z)) == z] *)

Lemma digit_char_N d : (d < 10)%N -> N_of_ascii (digit_char d) = (48 + d)%N.
Proof. intros. unfold digit_char. apply N_ascii_embedding. lia. Qed.

Lemma utf8_cps_digit d s : (d < 10)%N -> utf8_cps (String (digit_char d) s) = (48 + d)%N :: utf8_cps s.
Proof.
  intros Hd. cbn [utf8_cps]. rewrite digit_char_N by done.
  destruct (N.ltb_spec (48 + d) 128); [done|lia].
Qed.

Lemma digit_cases d : (d < 10)%N ->
  d = 0%N \/ d = 1%N \/ d = 2%N \/ d = 3%N \/ d = 4%N \/ d = 5%N \/ d = 6%N \/ d = 7%N \/ d = 8%N \/ d = 9%N.
Proof. lia. Qed.

Lemma cp_digit_ascii d : (d < 10)%N -> cp_digit (48 + d)%N = Some d /\ (48 + d =? 95)%N = false.
Proof. intros Hd. destruct (digit_cases d Hd) as [->|[->|[->|[->|[->|[->|[->|[->|[->| ->]]]]]]]]]; done. Qed.

Lemma int_space_digit d : (d < 10)%N -> int_space (48 + d)%N = false.
Proof. intros Hd. destruct (digit_cases d Hd) as [->|[->|[->|[->|[->|[->|[->|[->|[->| ->]]]]]]]]]; done. Qed.

Lemma int_digits_digits ds rest a b :
  ds <> [] -> Forall (fun d => (d < 10)%N) ds ->
  int_digits (map (N.add 48) ds ++ rest) a b =
  int_digits rest (fold_left (fun a d => 10 * a + Z.of_N d)%Z ds a) true.
Proof.
  revert a b. induction ds as [|d ds IH]; intros a b Hne Hf; [done|].
  inversion Hf as [|? ? Hd Hds]; subst. destruct (cp_digit_ascii d Hd) as [Hc H95].
  cbn [map app int_digits]. rewrite H95, Hc. destruct ds as [|d' ds']; [done|]. by apply IH.
Qed.

Lemma n_text_go_spec f n acc :
  (N.to_nat n < f)%nat ->
  exists ds, utf8_cps (n_text_go f n acc) = map (N.add 48) ds ++ utf8_cps acc /\ ds <> [] /\
    Forall (fun d => (d < 10)%N) ds /\
    (forall a, fold_left (fun a d => 10 * a + Z.of_N d)%Z ds a = a * 10 ^ Z.of_nat (length ds) + Z.of_N n)%Z /\
    exists d s, n_text_go f n acc = String (digit_char d) s /\ (d < 10)%N.
Proof.
  revert n acc. induction f as [|f IH]; intros n acc Hf; [lia|]. cbn [n_text_go].
  assert (Hm : (n mod 10 < 10)%N) by (apply N.mod_lt; lia).
  destruct (N.ltb_spec n 10) as [Hn|Hn].
  - rewrite N.mod_small by done. exists [n]. rewrite N.mod_small in Hm by done.
    split_and!; [by rewrite utf8_cps_digit|done|by repeat constructor| |by eexists _, _].
    intros a. simpl. lia.
  - assert (Hlt : (N.to_nat (n / 10) < f)%nat).
    { assert (n / 10 < n)%N by (apply N.div_lt; lia). lia. }
    destruct (IH (n / 10)%N (String (digit_char (n mod 10)) acc) Hlt) as (ds & Hc & Hne & Hds & Hv & Hh).
    exists (ds ++ [n mod 10])%N. split_and!; [| |apply Forall_app; split; [done|by repeat constructor]| |done].
    + rewrite Hc, utf8_cps_digit, map_app by done. by rewrite <- app_assoc.
    + by destruct ds.
    + intros a. rewrite fold_left_app, Hv, length_app. cbn [fold_left length].
      rewrite Nat2Z.inj_add, Z.pow_add_r by lia.
      assert (Hd := N.div_mod n 10 ltac:(lia)). lia.
Qed.

(** [str(n)] of a number below [10 ^ (S k)] has at most [S k] digits. *)
Lemma n_text_go_length f n acc k :
  (N.to_nat n < f)%nat -> (Z.of_N n < 10 ^ Z.of_nat (S k))%Z ->
  (length (utf8_cps (n_text_go f n acc)) <= S k + length (utf8_cps acc))%nat.
Proof.
  revert n acc k. induction f as [|f IH]; intros n acc k Hf Hn; [lia|]. cbn [n_text_go].
  assert (Hm : (n mod 10 < 10)%N) by (apply N.mod_lt; lia).
  destruct (N.ltb_spec n 10) as [Hlt|Hge].
  - rewrite utf8_cps_digit by done. simpl. lia.
  - destruct k as [|k]; [simpl in Hn; lia|].
    assert (Hlt : (N.to_nat (n / 10) < f)%nat).
    { assert (n / 10 < n)%N by (apply N.div_lt; lia). lia. }
    assert (Hdiv : (Z.of_N (n / 10) < 10 ^ Z.of_nat (S k))%Z).
    { rewrite N2Z.inj_div. apply Z.div_lt_upper_bound; [lia|].
      replace (Z.of_nat (S (S k))) with (Z.of_nat (S k) + 1)%Z in Hn by lia.
      rewrite Z.pow_add_r in Hn by lia. lia. }
    pose proof (IH (n / 10)%N (String (digit_char (n mod 10)) acc) k Hlt Hdiv) as H.
    rewrite utf8_cps_digit in H by done. simpl in H. lia.
Qed.

Lemma int_digit_count_digits ds : Forall (fun d => (d < 10)%N) ds -> int_digit_count (map (N.add 48) ds) = length ds.
Proof.
  induction 1 as [|d ds Hd _ IH]; [done|]. unfold int_digit_count in *. cbn [map List.filter].
  rewrite (proj2 (cp_digit_ascii d Hd)). cbn [negb length]. by rewrite IH.
Qed.

Lemma int_limit_ok body r : (int_digit_count body <= INT_MAX_STR_DIGITS)%nat -> int_limit body r = r.
Proof. intros H. unfold int_limit. by rewrite (proj2 (Nat.leb_le _ _) H). Qed.

Lemma drop_space_keep l :
  match l with c :: _ => int_space c = false | [] => True end -> drop_space l = l.
Proof. destruct l as [|c t]; [done|]. simpl. by intros ->. Qed.

(** [int()] strips nothing from a sign and digits. *)
Lemma drop_space_number pre ds :
  ds <> [] -> Forall (fun d => (d < 10)%N) ds -> (pre = [] \/ pre = [45%N]) ->
  rev (drop_space (rev (drop_space (pre ++ map (N.add 48) ds)))) = pre ++ map (N.add 48) ds.
Proof.
  intros Hne Hf Hpre. rewrite (drop_space_keep (pre ++ map (N.add 48) ds)).
  2: { destruct Hpre as [->| ->]; [|reflexivity]. destruct ds as [|d ds]; [done|]. inversion Hf. by apply int_space_digit. }
  rewrite drop_space_keep; [apply rev_involutive|].
  rewrite rev_app_distr, <- map_rev. destruct (rev ds) as [|d r] eqn:E.
  - by apply (f_equal (@rev N)) in E; rewrite rev_involutive in E.
  - simpl. apply int_space_digit. apply Forall_rev in Hf. rewrite E in Hf. by inversion Hf.
Qed.

(** The digits of [str(n)] for [n] below [10 ^ INT_MAX_STR_DIGITS]. *)
Lemma n_text_digits_limit n ds :
  (Z.of_N n < 10 ^ Z.of_nat INT_MAX_STR_DIGITS)%Z ->
  utf8_cps (n_text n) = map (N.add 48) ds ++ utf8_cps EmptyString ->
  (int_digit_count (map (N.add 48) ds) <= INT_MAX_STR_DIGITS)%nat \/ ~ Forall (fun d => (d < 10)%N) ds.
Proof.
  intros Hn Hc. destruct (decide (Forall (fun d => (d < 10)%N) ds)) as [Hds|]; [left|by right].
  pose proof (n_text_go_length (S (N.to_nat n)) n EmptyString (pred INT_MAX_STR_DIGITS) ltac:(lia) Hn) as L.
  change (S (pred INT_MAX_STR_DIGITS)) with INT_MAX_STR_DIGITS in L. fold (n_text n) in L.
  rewrite Hc, length_app, length_map in L. cbn [utf8_cps length] in L.
  rewrite int_digit_count_digits by done. lia.
Qed.

Lemma py_int_of_z_text z :
  (Z.abs z < 10 ^ Z.of_nat INT_MAX_STR_DIGITS)%Z -> py_int_of (z_text z) = Some z.
Proof.
  intros Hlim. unfold py_int_of, z_text. destruct (Z.ltb_spec z 0) as [Hz|Hz].
  - destruct (n_text_go_spec (S (N.to_nat (Z.to_N (- z)))) (Z.to_N (- z)) EmptyString ltac:(lia))
      as (ds & Hc & Hne & Hds & Hv & _).
    destruct (n_text_digits_limit (Z.to_N (- z)) ds) as [Hl|]; [rewrite Z2N.id; lia|exact Hc| |done].
    unfold n_text. set (t := n_text_go _ _ _) in *.
    assert (Hm : utf8_cps (String "-" t) = 45%N :: utf8_cps t) by reflexivity.
    rewrite Hm, Hc, app_nil_r.
    change (45%N :: map (N.add 48) ds) with ([45%N] ++ map (N.add 48) ds).
    rewrite drop_space_number by auto. cbn [app N.eqb Pos.eqb]. rewrite int_limit_ok by done.
    rewrite <- (app_nil_r (map (N.add 48) ds)), int_digits_digits by done. simpl.
    rewrite Hv. rewrite Z2N.id by lia. f_equal. lia.
  - destruct (n_text_go_spec (S (N.to_nat (Z.to_N z))) (Z.to_N z) EmptyString ltac:(lia))
      as (ds & Hc & Hne & Hds & Hv & _).
    destruct (n_text_digits_limit (Z.to_N z) ds) as [Hl|]; [rewrite Z2N.id; lia|exact Hc| |done].
    unfold n_text. rewrite Hc, app_nil_r. rewrite <- (app_nil_l (map (N.add 48) ds)), drop_space_number by auto.
    destruct ds as [|d ds']; [done|]. inversion Hds as [|? ? Hd _]; subst.
    assert (H45 : (48 + d =? 45)%N = false) by (apply N.eqb_neq; lia).
    assert (H43 : (48 + d =? 43)%N = false) by (apply N.eqb_neq; lia).
    cbn [app map]. rewrite H45, H43.
    change (N.add 48 d :: map (N.add 48) ds') with (map (N.add 48) (d :: ds')) in *.
    rewrite int_limit_ok by done.
    rewrite <- (app_nil_r (map (N.add 48) (d :: ds'))).
    rewrite int_digits_digits by done. cbn [int_digits]. rewrite Hv. by rewrite Z2N.id by lia.
Qed.

(** *** The strings of a rendered command line *)

Lemma find_all_false {A} (f : A -> bool) l : Forall (fun x => f x = false) l -> List.find f l = None.
Proof. induction 1 as [|x l Hx _ IH]; simpl; [done|]. by rewrite Hx. Qed.

Lemma omap_all_none {A B} (f : A -> option B) l : Forall (fun x => f x = None) l -> omap f l = [].
Proof. induction 1 as [|x l Hx _ IH]; simpl; [done|]. by rewrite Hx. Qed.

(** An option string of the crawlers' parsers is [-h] or starts with [--]. *)
Definition opt_shape (p : string * action) : Prop :=
  exists c r, p.1 = String "-" (String c r) /\ (c = "h" \/ c = "-")%char.

Lemma long_flag_shape f : long_flag f = true -> exists r, f = String "-" (String "-" r) /\ String.eqb f "--help" = false.
Proof.
  destruct f as [|a [|b [|c r]]]; try discriminate. simpl.
  intros [[Ha%Ascii.eqb_eq Hb%Ascii.eqb_eq]%andb_prop Hh%negb_true_iff]%andb_prop. subst. by eexists.
Qed.

Lemma opts_from_shape sps k :
  forallb (fun sp => long_flag (as_flag sp)) sps = true -> Forall opt_shape (opts_from sps k).
Proof.
  revert k. induction sps as [|sp rest IH]; intros k H; simpl; [constructor|].
  apply andb_prop in H as [Hf Hr]. constructor; [|by apply IH].
  destruct (long_flag_shape _ Hf) as (r & -> & _). exists "-"%char, r. auto.
Qed.

Lemma option_strings_shape specs :
  forallb (fun sp => long_flag (as_flag sp)) specs = true -> Forall opt_shape (option_strings specs).
Proof.
  intros H. repeat constructor; [exists "h"%char, EmptyString|exists "-"%char, "help"|by apply opts_from_shape]; auto.
Qed.

(** A string [-c...] whose second character is neither [h] nor [-] is
    no option string and no prefix of one. *)
Lemma dash_other_lookup opts c t :
  Forall opt_shape opts -> c <> "h"%char -> c <> "-"%char ->
  lookup_opt opts (String "-" (String c t)) = None /\ option_tuples opts (String "-" (String c t)) = [].
Proof.
  intros Hs Hh Hd. split.
  - unfold lookup_opt. rewrite find_all_false; [done|]. eapply Forall_impl; [exact Hs|].
    intros [o a] (c' & r & Ho & Hc'); simpl in *; subst. apply String.eqb_neq. intros [=]. subst. naive_solver.
  - unfold option_tuples. replace (Ascii.eqb "-" "-" && Ascii.eqb c "-") with false
      by (symmetry; apply andb_false_intro2, Ascii.eqb_neq; done).
    cbn [Ascii.eqb andb].
    apply omap_all_none. eapply Forall_impl; [exact Hs|].
    intros [o a] (c' & r & Ho & Hc'); simpl in *; subst.
    assert (Hne : c' <> c) by naive_solver.
    rewrite (proj2 (String.eqb_neq _ _)) by (intros [=]; auto).
    simpl. destruct (ascii_dec "-" "-"); [|done]. destruct (ascii_dec c c'); [congruence|done].
Qed.

Lemma find_opts_from sps k i sp :
  NoDup (map as_flag sps) -> sps !! i = Some sp ->
  List.find (fun p => String.eqb p.1 (as_flag sp)) (opts_from sps k) = Some (as_flag sp, AStore (k + i)).
Proof.
  revert k i. induction sps as [|sp0 rest IH]; intros k i Hnd Hi; [done|].
  simpl in Hnd. apply NoDup_cons in Hnd as [Hnin Hnd]. destruct i as [|i]; simpl in *.
  - injection Hi as ->. rewrite String.eqb_refl. by rewrite Nat.add_0_r.
  - rewrite (proj2 (String.eqb_neq _ _)).
    + rewrite (IH (S k) i Hnd Hi). do 3 f_equal. lia.
    + intros Heq. apply Hnin. rewrite Heq. apply (list_elem_of_fmap_2 as_flag). by eapply list_elem_of_lookup_2.
Qed.

End CliFacts.

Section CliRefine.
Context `{CC : CharClasses}.
Variable specs : list arg_spec.
Hypothesis Hok : parser_ok specs = true.

Lemma parser_ok_flags : forallb (fun sp => long_flag (as_flag sp)) specs = true.
Proof.
  apply andb_prop in Hok as [Hf _]. apply forallb_forall. intros sp Hsp.
  rewrite forallb_forall in Hf. by destruct (andb_prop _ _ (Hf sp Hsp)).
Qed.

Lemma parser_ok_spec i sp :
  specs !! i = Some sp ->
  long_flag (as_flag sp) = true /\ default_typed sp = true.
Proof.
  intros Hi. apply andb_prop in Hok as [Hf _]. rewrite forallb_forall in Hf.
  apply andb_prop, Hf. apply list_elem_of_In. by eapply list_elem_of_lookup_2.
Qed.

Lemma lookup_flag i sp : specs !! i = Some sp -> lookup_opt (option_strings specs) (as_flag sp) = Some (AStore i).
Proof.
  intros Hi. destruct (parser_ok_spec i sp Hi) as [Hl _].
  destruct (long_flag_shape _ Hl) as (r & Hr & Hh).
  unfold lookup_opt, option_strings. cbn [List.find fst].
  replace (String.eqb "-h" (as_flag sp)) with false by (rewrite Hr; reflexivity).
  rewrite String.eqb_sym, Hh.
  apply andb_prop in Hok as [_ Hnd%bool_decide_eq_true]. by rewrite (find_opts_from _ 0 i sp Hnd Hi).
Qed.

Lemma parse_optional_flag i sp :
  specs !! i = Some sp -> parse_optional (option_strings specs) (as_flag sp) = inr (Some (Some (AStore i), as_flag sp, None)).
Proof.
  intros Hi. assert (Hlk := lookup_flag i sp Hi). destruct (parser_ok_spec i sp Hi) as [Hl _].
  destruct (long_flag_shape _ Hl) as (r & Hr & _). unfold parse_optional. rewrite Hr in *. simpl. by rewrite Hlk.
Qed.

Lemma digit_char_props d : (d < 10)%N ->
  is_ascii_digit (digit_char d) = true /\ digit_char d <> "-"%char /\ digit_char d <> "h"%char.
Proof. intros Hd. destruct (digit_cases d Hd) as [->|[->|[->|[->|[->|[->|[->|[->|[->| ->]]]]]]]]]; done. Qed.

Lemma n_text_go_digits f n acc :
  str_forall is_ascii_digit acc = true -> str_forall is_ascii_digit (n_text_go f n acc) = true.
Proof.
  revert n acc. induction f as [|f IH]; intros n acc Ha; [done|]. cbn [n_text_go].
  assert (Hm : (n mod 10 < 10)%N) by (apply N.mod_lt; lia).
  assert (Hs : str_forall is_ascii_digit (String (digit_char (n mod 10)) acc) = true)
    by (simpl; rewrite (proj1 (digit_char_props _ Hm)); done).
  destruct (n <? 10)%N; auto.
Qed.

Lemma ascii_digit_not_eq c : is_ascii_digit c = true -> negb (Ascii.eqb "=" c) = true.
Proof. revert c. char_impl. Qed.

Lemma re_digits_ascii ds : ds <> [] -> Forall (fun d => (d < 10)%N) ds -> re_digits (map (N.add 48) ds) = true.
Proof.
  intros Hne Hf. unfold re_digits. rewrite bool_decide_false by (destruct ds; done). simpl.
  apply forallb_forall. intros x Hx. apply in_map_iff in Hx as (d & <- & Hd).
  rewrite List.Forall_forall in Hf. specialize (Hf d Hd).
  destruct (digit_cases d Hf) as [->|[->|[->|[->|[->|[->|[->|[->|[->| ->]]]]]]]]]; done.
Qed.

(** [str(z)] is read as a value: a negative one is a negative number. *)
Lemma z_text_value opts z :
  Forall opt_shape opts ->
  parse_optional opts (z_text z) = inr None /\ String.eqb (z_text z) "--" = false.
Proof.
  intros Hs. unfold z_text, n_text. set (m := if (z <? 0)%Z then Z.to_N (- z) else Z.to_N z).
  destruct (n_text_go_spec (S (N.to_nat m)) m EmptyString ltac:(lia)) as (ds & Hc & Hne & Hds & _ & d & t & Ht & Hd).
  destruct (digit_char_props d Hd) as (Hdig & Hdash & Hh).
  destruct (Z.ltb_spec z 0) as [Hz|Hz]; subst m; rewrite Ht.
  - destruct (dash_other_lookup opts (digit_char d) t Hs Hh Hdash) as [Hl Ht'].
    split; [|apply String.eqb_neq; intros [=]; auto].
    unfold parse_optional. cbn [Ascii.eqb negb]. rewrite Hl.
    cbn [is_empty String.eqb].
    assert (Hdt : str_forall is_ascii_digit (String (digit_char d) t) = true)
      by (rewrite <- Ht; apply n_text_go_digits; done).
    rewrite (str_has_avoid "=" (String "-" (String (digit_char d) t))).
    2: { exact (str_forall_impl _ _ _ ascii_digit_not_eq Hdt). }
    rewrite Ht'. unfold negative_number.
    assert (Hm : utf8_cps (String "-" (String (digit_char d) t)) = 45%N :: map (N.add 48) ds).
    { rewrite <- Ht. change (utf8_cps (String "-" (n_text_go (S (N.to_nat (Z.to_N (- z)))) (Z.to_N (- z)) EmptyString)))
        with (45%N :: utf8_cps (n_text_go (S (N.to_nat (Z.to_N (- z)))) (Z.to_N (- z)) EmptyString)).
      by rewrite Hc, app_nil_r. }
    rewrite Hm. rewrite <- map_rev. destruct (rev ds) as [|x r] eqn:E.
    + by apply (f_equal (@rev N)) in E; rewrite rev_involutive in E.
    + assert (Hx : (x < 10)%N) by (apply Forall_rev in Hds; rewrite E in Hds; by inversion Hds).
      cbn [map]. rewrite (proj2 (N.eqb_neq _ _)) by lia. by rewrite re_digits_ascii.
  - split; [by unfold parse_optional; destruct (Ascii.eqb_spec (digit_char d) "-")|].
    apply String.eqb_neq. intros [=]. auto.
Qed.

Lemma value_fits_value i sp v :
  specs !! i = Some sp -> value_fits sp v = true ->
  parse_optional (option_strings specs) (render_value v) = inr None /\ String.eqb (render_value v) "--" = false.
Proof.
  intros Hi Hv. unfold value_fits in Hv.
  destruct (as_type sp), v as [|s|z|]; try discriminate.
  - destruct s as [|c t]; [done|]. simpl in Hv. apply negb_true_iff in Hv.
    split; [by unfold parse_optional; simpl; rewrite Hv|]. apply String.eqb_neq. intros [= ->]. by rewrite Ascii.eqb_refl in Hv.
  - apply z_text_value, option_strings_shape, parser_ok_flags.
Qed.

Lemma flag_not_sep i sp : specs !! i = Some sp -> String.eqb (as_flag sp) "--" = false.
Proof.
  intros Hi. destruct (parser_ok_spec i sp Hi) as [Hl _].
  destruct (as_flag sp) as [|a [|b [|c r]]]; try discriminate. apply String.eqb_neq. by intros [=].
Qed.

Lemma classify_render given :
  given_ok specs given = true ->
  classify (option_strings specs) (render_args specs given) = inr (render_kinds specs given).
Proof.
  induction given as [|[i v] g IH]; intros Hg; [done|]. simpl in Hg.
  destruct (specs !! i) as [sp|] eqn:Hi; [|done]. apply andb_prop in Hg as [Hv Hg].
  destruct (value_fits_value i sp v Hi Hv) as [Hp He].
  cbn [render_args render_kinds List.flat_map fst snd]. rewrite Hi. cbn [fmap option_fmap option_map default id app].
  cbn [classify]. rewrite (flag_not_sep i sp Hi), (parse_optional_flag i sp Hi), He, Hp.
  fold (render_args specs g). by rewrite IH.
Qed.

Lemma take_store_fits i sp v ns :
  specs !! i = Some sp -> value_fits sp v = true -> take_store specs i [render_value v] ns = inr (<[i := v]> ns).
Proof.
  intros Hi Hv. unfold take_store. rewrite Hi. destruct (value_fits_value i sp v Hi Hv) as [_ ->].
  unfold value_fits in Hv. unfold convert. destruct (as_type sp), v as [|s|z|]; try discriminate; [done|].
  cbn [render_value]. rewrite py_int_of_z_text; [done|]. by apply Z.ltb_lt.
Qed.

Lemma consume_render given ns seen extras :
  given_ok specs given = true ->
  consume specs (render_kinds specs given) ns seen extras =
  CDone (fold_left (fun ns iv => <[iv.1 := iv.2]> ns) given ns) (rev (map fst given) ++ seen) extras.
Proof.
  revert ns seen. induction given as [|[i v] g IH]; intros ns seen Hg; [done|]. simpl in Hg.
  destruct (specs !! i) as [sp|] eqn:Hi; [|done]. apply andb_prop in Hg as [Hv Hg].
  cbn [render_kinds List.flat_map fst snd]. rewrite Hi. cbn [fmap option_fmap option_map default id app consume].
  rewrite (take_store_fits i sp v ns Hi Hv). fold (render_kinds specs g). rewrite IH by done.
  cbn [fold_left map rev fst snd]. by rewrite <- app_assoc.
Qed.

End CliRefine.

(** An index not given keeps its value. *)
Lemma fold_insert_other (given : list (nat * arg_value)) (ns : list arg_value) (j : nat) :
  j ∉ map fst given -> fold_left (fun ns iv => <[iv.1 := iv.2]> ns) given ns !! j = ns !! j.
Proof.
  revert ns. induction given as [|[i v] g IH]; intros ns Hj; [done|]. simpl in *.
  rewrite not_elem_of_cons in Hj. destruct Hj as [Hij Hj]. rewrite IH by done.
  by apply list_lookup_insert_ne.
Qed.

(** The defaults of the unseen arguments are already in the namespace,
    and the required unseen ones are the missing ones. *)
Lemma finish_spec `{CharClasses} sps k ns seen missing (given : list (nat * arg_value)) :
  (forall j, j ∈ seen <-> j ∈ map fst given) ->
  Forall (fun sp => default_typed sp = true) sps ->
  (forall j sp, sps !! j = Some sp -> k + j ∉ map fst given -> ns !! (k + j) = Some (as_default sp)) ->
  finish sps k ns seen missing =
  match missing ++ spec_missing sps k given with [] => inr ns | m => inl (ErrRequired m) end.
Proof.
  intros Hseen. revert k missing. induction sps as [|sp rest IH]; intros k missing Hd Hns; cbn [finish spec_missing].
  - rewrite app_nil_r. by destruct missing.
  - inversion Hd as [|? ? Hsp Hrest]; subst.
    assert (Hns' : forall j sp', rest !! j = Some sp' -> S k + j ∉ map fst given -> ns !! (S k + j) = Some (as_default sp')).
    { intros j sp' Hj. replace (S k + j) with (k + S j) by lia. by apply Hns. }
    destruct (decide (k ∈ map fst given)) as [Hk|Hk].
    + rewrite bool_decide_true by (by apply Hseen). rewrite bool_decide_true by done.
      rewrite andb_false_r. by apply IH.
    + rewrite bool_decide_false by (by rewrite Hseen). rewrite bool_decide_false by done.
      rewrite andb_true_r. destruct (as_required sp).
      * rewrite IH by done. by rewrite app_assoc.
      * cbn [app]. assert (Hk0 : ns !! k = Some (as_default sp)).
        { pose proof (Hns 0 sp eq_refl) as H0. rewrite Nat.add_0_r in H0. by apply H0. }
        unfold default_typed in Hsp. destruct (as_default sp) eqn:E; try by apply IH.
        unfold convert. destruct (as_type sp); [|done]. rewrite list_insert_id by done. by apply IH.
Qed.

(** C17. [parse_args] refines the abstract parse: a command line of
    [flag value] pairs, each flag one of the parser's and each value of
    its type (an [int] written as [str(z)], negative ones included, of
    at most [INT_MAX_STR_DIGITS] digits, which [str()] requires, a
    [str] not starting with [-]), gives the namespace of the defaults
    updated by the pairs in order, the last value of a flag winning, or,
    when a required flag is missing, the error listing the missing ones. *)
Theorem cli_parse_refines `{CharClasses} specs given :
  parser_ok specs = true -> given_ok specs given = true ->
  cli_parse specs (render_args specs given) = spec_parse specs given.
Proof.
  intros Hok Hg. unfold cli_parse, spec_parse. rewrite classify_render, consume_render by done.
  rewrite (finish_spec specs 0 _ _ [] given).
  - cbn [app]. by destruct (spec_missing specs 0 given).
  - intros j. by rewrite app_nil_r, !list_elem_of_In, <- in_rev.
  - apply andb_prop in Hok as [Hf _]. apply Forall_forall. intros sp Hsp%list_elem_of_In.
    rewrite forallb_forall in Hf. by destruct (andb_prop _ _ (Hf sp Hsp)).
  - intros j sp Hj Hnot. cbn [Nat.add]. rewrite fold_insert_other by done.
    by rewrite list_lookup_fmap, Hj.
Qed.

(** *** Every value has its type *)

(** An option string of a one-value argument is a long flag. *)
Definition store_long (p : string * action) : Prop :=
  match p.2 with AStore _ => long_flag p.1 = true | AHelp => True end.

Lemma opts_from_long sps k :
  forallb (fun sp => long_flag (as_flag sp)) sps = true -> Forall store_long (opts_from sps k).
Proof.
  revert k. induction sps as [|sp rest IH]; intros k H; simpl; [constructor|].
  apply andb_prop in H as [Hf Hr]. constructor; [done|by apply IH].
Qed.

Lemma option_tuples_store opts s i o e :
  Forall store_long opts -> (AStore i, o, Some e) ∈ option_tuples opts s -> e = snd (split_once "=" s).
Proof.
  intros Hl Hin. unfold option_tuples in Hin.
  destruct s as [|c1 [|c2 t]]; try by apply not_elem_of_nil in Hin.
  destruct (Ascii.eqb c1 "-" && Ascii.eqb c2 "-").
  - destruct (str_has "=" _).
    + destruct (split_once "=" _) as [p e0] eqn:E.
      apply list_elem_of_omap in Hin as ([o' a] & Ho & Hf). case_match; by simplify_eq.
    + apply list_elem_of_omap in Hin as ([o' a] & Ho & Hf). by case_match.
  - destruct (Ascii.eqb c1 "-"); [|by apply not_elem_of_nil in Hin].
    apply list_elem_of_omap in Hin as ([o' a] & Ho & Hf). rewrite List.Forall_forall in Hl.
    specialize (Hl _ (proj1 (list_elem_of_In _ _) Ho)). simpl in Hl.
    destruct (String.eqb o' _) eqn:Eq; [|by case_match].
    apply String.eqb_eq in Eq. subst. simplify_eq. done.
Qed.

Lemma parse_optional_store `{CC : CharClasses} opts a i f e :
  Forall store_long opts ->
  parse_optional opts a = inr (Some (Some (AStore i), f, Some e)) -> e = snd (split_once "=" a).
Proof.
  intros Hl H. unfold parse_optional in H. destruct a as [|c rest]; [done|].
  destruct (negb (Ascii.eqb c "-")); [done|]. destruct (lookup_opt opts _); [done|].
  destruct (is_empty rest); [done|]. destruct (str_has "=" _).
  - destruct (split_once "=" _) as [o e0] eqn:E. destruct (lookup_opt opts o).
    + by simplify_eq.
    + destruct (option_tuples opts _) as [|[[a1 o1] e1] [|? ?]] eqn:Et; repeat case_match; simplify_eq.
      rewrite <- E. apply (option_tuples_store opts _ i f); [done|]. rewrite Et. by left.
  - destruct (option_tuples opts _) as [|[[a1 o1] e1] [|? ?]] eqn:Et; repeat case_match; simplify_eq.
    apply (option_tuples_store opts _ i f); [done|]. rewrite Et. by left.
Qed.

Lemma classify_kinds_ok `{CC : CharClasses} specs argv ks :
  parser_ok specs = true -> no_eq_sep argv -> classify (option_strings specs) argv = inr ks -> kinds_ok ks.
Proof.
  intros Hok. assert (Hl : Forall store_long (option_strings specs)).
  { apply andb_prop in Hok as [Hf _]. repeat constructor. apply opts_from_long.
    apply forallb_forall. intros sp Hsp. rewrite forallb_forall in Hf. by destruct (andb_prop _ _ (Hf sp Hsp)). }
  revert ks. induction argv as [|a rest IH]; intros ks Hn H; simpl in H; [by simplify_eq|].
  inversion Hn as [|? ? Ha Hrest]; subst.
  destruct (String.eqb_spec a "--").
  - simplify_eq. simpl. apply List.Forall_forall. intros p Hp. apply in_map_iff in Hp as (? & <- & _). done.
  - destruct (parse_optional _ a) as [e|o] eqn:Ep; [done|].
    destruct (classify _ rest) as [e|ks'] eqn:Er; [by destruct o as [[[? ?] ?]|]|].
    assert (Hks := IH ks' Hrest eq_refl).
    destruct o as [[[act f] ex]|]; simplify_eq; simpl; [|done].
    destruct act as [[|i]|]; [done| |done]. destruct ex as [e|]; [|done].
    split; [|done]. rewrite (parse_optional_store _ _ i f e Hl Ep). done.
Qed.

Section ConsumeTyped.
Context `{CC : CharClasses}.
Variable specs : list arg_spec.

Lemma consume_all_pos ks ns seen extras :
  Forall (fun p => p.2 = KPos) ks -> consume specs ks ns seen extras = CDone ns seen (extras ++ map fst ks).
Proof.
  revert extras. induction ks as [|[s k] rest IH]; intros extras Hk; simpl; [by rewrite app_nil_r|].
  inversion Hk as [|? ? Hs Hr]; simpl in Hs; subst. rewrite IH by done. by rewrite <- app_assoc.
Qed.

Lemma take_store_typed i v ns ns' seen :
  v <> "--" -> ns_inv specs ns seen -> take_store specs i [v] ns = inr ns' -> ns_inv specs ns' (i :: seen).
Proof.
  intros Hv Hinv H. unfold take_store in H. destruct (specs !! i) as [sp|] eqn:Hi.
  - rewrite (proj2 (String.eqb_neq _ _) Hv) in H.
    destruct (convert sp v) as [e|x] eqn:Ec; [done|]. simplify_eq.
    intros j sp' Hj. destruct (Hinv j sp' Hj) as (w & Hw & Hs & Hu).
    destruct (decide (i = j)) as [<-|Hne].
    + rewrite Hi in Hj. simplify_eq. exists x. rewrite list_lookup_insert_eq by (by eapply lookup_lt_Some).
      split; [done|]. split; [|intros Hn; by destruct Hn; left].
      intros _. unfold convert in Ec. unfold value_stored. destruct (as_type sp'); [by simplify_eq|].
      by destruct (py_int_of v); simplify_eq.
    + exists w. rewrite list_lookup_insert_ne by done. split; [done|]. split.
      * intros [->|Hj']%elem_of_cons; [done|]. auto.
      * intros Hn. apply Hu. intros Hj'. apply Hn. by right.
  - simplify_eq. intros j sp' Hj. destruct (Hinv j sp' Hj) as (w & Hw & Hs & Hu).
    exists w. split; [done|]. split.
    + intros [->|Hj']%elem_of_cons; [congruence|]. auto.
    + intros Hn. apply Hu. intros Hj'. apply Hn. by right.
Qed.

Lemma consume_typed n ks ns seen extras ns' seen' extras' :
  length ks <= n -> kinds_ok ks -> ns_inv specs ns seen ->
  consume specs ks ns seen extras = CDone ns' seen' extras' -> ns_inv specs ns' seen'.
Proof.
  revert ks ns seen extras. induction n as [|n IH]; intros ks ns seen extras Hlen Hk Hinv H.
  { destruct ks; [simpl in H; by simplify_eq|simpl in Hlen; lia]. }
  destruct ks as [|[s k] rest]; [simpl in H; by simplify_eq|]. simpl in Hlen.
  destruct k as [| |[[|i]|] f [e|]]; simpl in H, Hk.
  - rewrite consume_all_pos in H by done. by simplify_eq.
  - destruct Hk as [_ Hk]. apply (IH rest ns seen (extras ++ [s])); [lia|done|done|done].
  - revert H. by repeat case_match.
  - done.
  - destruct Hk as [He Hk]. destruct (take_store specs i [e] ns) as [err|ns1] eqn:Et; [done|].
    apply (IH rest ns1 (i :: seen) extras); [lia|done|by eapply take_store_typed|done].
  - destruct rest as [|[v [| |a f' ex]] rest']; try done.
    destruct Hk as [Hv Hk]. destruct (take_store specs i [v] ns) as [err|ns1] eqn:Et; [done|].
    simpl in Hlen. apply (IH rest' ns1 (i :: seen) extras); [lia|done|by eapply take_store_typed|done].
  - apply (IH rest ns seen (extras ++ [s])); [lia|done|done|done].
  - apply (IH rest ns seen (extras ++ [s])); [lia|done|done|done].
Qed.

Lemma consume_length ks ns seen extras ns' seen' extras' :
  consume specs ks ns seen extras = CDone ns' seen' extras' -> length ns' = length ns.
Proof.
  remember (length ks) as n eqn:Hn. assert (Hle : length ks <= n) by lia. clear Hn.
  revert ks ns seen extras Hle. induction n as [|n IH]; intros ks ns seen extras Hle H.
  { destruct ks; [simpl in H; by simplify_eq|simpl in Hle; lia]. }
  destruct ks as [|[s k] rest]; [simpl in H; by simplify_eq|]. simpl in Hle.
  assert (Hts : forall i vs ns1, take_store specs i vs ns = inr ns1 -> length ns1 = length ns).
  { intros i vs ns1. unfold take_store. destruct (specs !! i); [|by intros [=<-]].
    repeat case_match; intros; simplify_eq; by rewrite length_insert. }
  destruct k as [| |[[|i]|] f [e|]]; simpl in H; try done.
  - eapply IH; [|exact H]. lia.
  - eapply IH; [|exact H]. lia.
  - revert H. by repeat case_match.
  - destruct (take_store specs i [e] ns) as [err|ns1] eqn:Et; [done|].
    rewrite <- (Hts _ _ _ Et). eapply IH; [|exact H]. lia.
  - destruct rest as [|[v [| |a f' ex]] rest']; try done.
    destruct (take_store specs i [v] ns) as [err|ns1] eqn:Et; [done|].
    rewrite <- (Hts _ _ _ Et). eapply IH; [|exact H]. simpl in Hle. lia.
  - eapply IH; [|exact H]. lia.
  - eapply IH; [|exact H]. lia.
Qed.

End ConsumeTyped.

Section FinishTyped.
Context `{CC : CharClasses}.

Lemma finish_missing sps k ns seen missing ns' :
  finish sps k ns seen missing = inr ns' -> missing = [].
Proof.
  revert k ns missing. induction sps as [|sp rest IH]; intros k ns missing H; simpl in H.
  - by destruct missing.
  - repeat case_match; simplify_eq; try by eapply IH.
    apply IH in H. by apply app_eq_nil in H as [-> _].
Qed.

Lemma finish_frame sps k ns seen missing ns' :
  finish sps k ns seen missing = inr ns' -> length ns' = length ns /\ forall idx, idx < k -> ns' !! idx = ns !! idx.
Proof.
  revert k ns missing. induction sps as [|sp rest IH]; intros k ns missing H; simpl in H.
  - destruct missing; by simplify_eq.
  - repeat case_match; simplify_eq; try (destruct (IH _ _ _ H) as [Hl Hf]; split; [done|intros; apply Hf; lia]).
    destruct (IH _ _ _ H) as [Hl Hf]. rewrite length_insert in Hl. split; [done|].
    intros idx Hidx. rewrite Hf by lia. apply list_lookup_insert_ne. lia.
Qed.

Lemma finish_typed sps k ns seen missing ns' :
  finish sps k ns seen missing = inr ns' -> Forall (fun sp => default_typed sp = true) sps ->
  (forall j sp, sps !! j = Some sp -> exists v, ns !! (k + j) = Some v /\
     (k + j ∈ seen -> value_stored sp v) /\ (k + j ∉ seen -> v = as_default sp)) ->
  forall j sp, sps !! j = Some sp -> exists v, ns' !! (k + j) = Some v /\ value_typed sp v.
Proof.
  revert k ns missing. induction sps as [|sp rest IH]; intros k ns missing H Hd Hns j sp' Hj; [done|].
  inversion Hd as [|? ? Hsp Hrest]; subst.
  assert (Hstored : forall v, value_stored sp' v -> value_typed sp' v)
    by (intros v; unfold value_stored, value_typed; by destruct (as_type sp'), v).
  destruct j as [|j].
  - simpl in Hj. simplify_eq. rewrite Nat.add_0_r in *. destruct (Hns 0 sp' eq_refl) as (v & Hv & Hs & Hu).
    rewrite Nat.add_0_r in Hv, Hs, Hu. simpl in H.
    destruct (decide (k ∈ seen)) as [Hk|Hk].
    + rewrite bool_decide_true in H by done. destruct (finish_frame _ _ _ _ _ _ H) as [_ Hf].
      exists v. rewrite Hf by lia. auto.
    + rewrite bool_decide_false in H by done. destruct (as_required sp') eqn:Er.
      * apply finish_missing in H. by destruct missing.
      * rewrite (Hu Hk) in Hv. unfold default_typed in Hsp.
        destruct (as_default sp') as [|d|z|] eqn:E.
        -- destruct (finish_frame _ _ _ _ _ _ H) as [_ Hf]. exists VNone. rewrite Hf by lia.
           split; [done|]. unfold value_typed. by destruct (as_type sp').
        -- unfold convert in H. destruct (as_type sp') eqn:Et; [|done].
           destruct (finish_frame _ _ _ _ _ _ H) as [_ Hf]. exists (VStr d). rewrite Hf by lia.
           rewrite list_lookup_insert_eq by (by eapply lookup_lt_Some). split; [done|]. by unfold value_typed; rewrite Et.
        -- destruct (finish_frame _ _ _ _ _ _ H) as [_ Hf]. exists (VInt z). rewrite Hf by lia.
           split; [done|]. unfold value_typed. by destruct (as_type sp').
        -- by destruct (as_type sp').
  - simpl in Hj. replace (k + S j) with (S k + j) by lia. simpl in H.
    assert (Hns' : forall ns1 : list arg_value, (forall idx, k < idx -> ns1 !! idx = ns !! idx) ->
      forall j sp, rest !! j = Some sp -> exists v, ns1 !! (S k + j) = Some v /\
        (S k + j ∈ seen -> value_stored sp v) /\ (S k + j ∉ seen -> v = as_default sp)).
    { intros ns1 Heq j' sp'' Hj'. rewrite Heq by lia. replace (S k + j') with (k + S j') by lia. by apply Hns. }
    repeat case_match; simplify_eq;
      try (eapply IH; [exact H|done| |exact Hj]; apply Hns'; intros; try done; apply list_lookup_insert_ne; lia).
Qed.

End FinishTyped.

(** C18. When [parse_args] returns, the namespace has one value per
    argument and each has the argument's type ([str] or [int]; [None]
    only for an optional argument without default), for the parsers of
    the crawlers, unless an argument's part after its first [=] is
    [--]: [_get_values] then removes it and stores an empty list. *)
Theorem cli_parse_typed `{CC : CharClasses} specs argv ns :
  parser_ok specs = true -> no_eq_sep argv -> cli_parse specs argv = CliArgs ns ->
  Forall2 value_typed specs ns.
Proof.
  intros Hok Hn Hp. unfold cli_parse in Hp.
  destruct (classify _ argv) as [e|ks] eqn:Ec; [done|].
  destruct (consume specs ks _ [] []) as [ns1 seen extras| |] eqn:Eco; try done.
  destruct (finish specs 0 ns1 seen []) as [e|ns2] eqn:Ef; [done|]. destruct extras; [|done]. simplify_eq.
  assert (Hinv0 : ns_inv specs (map as_default specs) []).
  { intros i sp Hi. exists (as_default sp). rewrite list_lookup_fmap, Hi. split; [done|]. split; [|done].
    by intros ?%not_elem_of_nil. }
  assert (Hinv := consume_typed specs (length ks) ks _ _ _ _ _ _ (le_n _) (classify_kinds_ok specs argv ks Hok Hn Ec) Hinv0 Eco).
  assert (Hd : Forall (fun sp => default_typed sp = true) specs).
  { apply andb_prop in Hok as [Hf _]. apply Forall_forall. intros sp Hsp%list_elem_of_In.
    rewrite forallb_forall in Hf. by destruct (andb_prop _ _ (Hf sp Hsp)). }
  assert (Ht := finish_typed specs 0 ns1 seen [] ns Ef Hd Hinv).
  apply Forall2_same_length_lookup. split.
  - destruct (finish_frame _ _ _ _ _ _ Ef) as [-> _]. rewrite (consume_length _ _ _ _ _ _ _ _ Eco). by rewrite length_map.
  - intros i sp v Hi Hv. destruct (Ht i sp Hi) as (v' & Hv' & Htv). simpl in Hv'. congruence.
Qed.

(** ** Examples *)

(** A value given twice and a negative [int]: [--max-pages -3 ...
    --max-pages 7] stores 7. *)
Lemma cli_parse_refines_witness :
  let given := [(0%nat, VStr "seeds"); (1%nat, VInt (-3)%Z); (2%nat, VStr "out"); (1%nat, VInt 7%Z)] in
  parser_ok seeds_dir_parser = true /\ given_ok seeds_dir_parser given = true /\
  cli_parse seeds_dir_parser (render_args seeds_dir_parser given) = spec_parse seeds_dir_parser given.
Proof.
  intros given. assert (H1 : parser_ok seeds_dir_parser = true) by (vm_compute; reflexivity).
  assert (H2 : given_ok seeds_dir_parser given = true) by (vm_compute; reflexivity).
  split; [exact H1|]. split; [exact H2|]. exact (cli_parse_refines seeds_dir_parser given H1 H2).
Defined.

(** An abbreviated flag: [--max 7] is [--max-pages 7]. *)
Lemma cli_parse_typed_witness :
  parser_ok seeds_dir_parser = true /\ no_eq_sep ["--seeds-dir"; "s"; "--max"; "7"] /\
  cli_parse seeds_dir_parser ["--seeds-dir"; "s"; "--max"; "7"] = CliArgs [VStr "s"; VInt 7; VStr "output"] /\
  Forall2 value_typed seeds_dir_parser [VStr "s"; VInt 7; VStr "output"].
Proof.
  assert (H1 : parser_ok seeds_dir_parser = true) by (vm_compute; reflexivity).
  assert (H2 : no_eq_sep ["--seeds-dir"; "s"; "--max"; "7"]) by (repeat constructor; cbv; intros Hc; discriminate Hc).
  assert (H3 : cli_parse seeds_dir_parser ["--seeds-dir"; "s"; "--max"; "7"] = CliArgs [VStr "s"; VInt 7; VStr "output"])
    by (vm_compute; reflexivity).
  split; [exact H1|]. split; [exact H2|]. split; [exact H3|].
  exact (cli_parse_typed seeds_dir_parser _ _ H1 H2 H3).
Defined.

(** [--seeds-dir=--] stores an empty list as the seeds directory, and
    [os.listdir([])] raises [TypeError]. *)
Example cli_equals_dashes :
  cli_parse seeds_dir_parser ["--seeds-dir=--"] = CliArgs [VEmptyList; VInt 100; VStr "output"] /\
  main12_cli shop_web seeds_fs ["--seeds-dir=--"] = RunRaises.
Proof. split; vm_compute; reflexivity. Qed.

(** A negative page budget is accepted and crawls nothing: the run
    makes no request and writes back the empty mapping. *)
Example cli_negative_pages :
  main12_cli shop_web seeds_fs ["--seeds-dir"; "seeds"; "--max-pages"; "-3"] =
    RunDone (Finished (Store ∅ EmptyString ∅ ∅ []), Some ∅).
Proof. vm_compute. reflexivity. Qed.

(** The strings are consumed in order: [-h] first shows the help, an
    invalid [int] first is the error. *)
Example cli_help_order :
  cli_parse seeds_dir_parser ["-h"; "--max-pages"; "x"] = CliHelp /\
  cli_parse seeds_dir_parser ["--max-pages"; "x"; "-h"] = CliError (ErrInvalidInt "--max-pages" "x").
Proof. split; vm_compute; reflexivity. Qed.
