(* ===== verification/Log.v ===== *)
(** * The console messages of the fetch of crawler-updated12.py

    Inside [crawl_seed] the retry loop (lines 67-94) prints a line before
    each of its sleeps and on each failure:
    {v
    429 Too Many Requests for {canonical}, waiting {wait}s     (line 75)
    Skipping {canonical} (HTTP {code})                         (line 84)
    HTTPError {code} on {canonical}, attempt {attempt}         (line 86)
    RequestException on {canonical}, attempt {attempt}: {rexc} (line 88)
    Retrying in {sleep}s...                                     (line 90)
    Failed to fetch {canonical} after {MAX_RETRIES} attempts, skipping.  (line 93)
    v}
    [fetch_attempts_log] is the loop of [Fetcher.fetch_attempts] with these
    [print] calls in their places, as [LPrint] entries among the effects;
    [fetch_log] adds the line printed after the loop when it ended without
    success.  An [int] is printed by [str] ([z_text] of Cli.v); [{rexc}]
    is the text of the [RequestException], which the network oracle
    [rexc] gives for each attempt.

    The theorems: erasing the printed lines gives [Fetcher.fetch] back,
    effects and outcome, so every theorem on [fetch] holds of the logged
    loop; every sleep is printed, with its duration, on the line just
    before it; and a 404 is reported as a failure after three attempts
    although one GET was made.  A 429 whose wait [time.sleep] refuses
    prints its line and then ends the crawl.

    Not modelled here: the lines of the page loop (line 122, which
    repeats the URL and the page count, and line 126, which prints the
    random delay) and of [main] (lines 175, 177, 185). *)

From S2P Require Import Prelude Fetcher Cli.

Local Open Scope crawl_scope.

(** ** The console among the effects *)

Inductive log_event :=
| LEv (e : event)
| LPrint (line : string).

(** The effects of a logged run, without its printed lines. *)
Definition erase (l : list log_event) : list event :=
  omap (fun x => match x with LEv e => Some e | LPrint _ => None end) l.

(** ** The messages, as the f-strings format them *)

Definition msg_429 (url : string) (wait : Z) : string :=
  "429 Too Many Requests for " +:+ url +:+ ", waiting " +:+ z_text wait +:+ "s".

Definition msg_skip (url : string) (code : Z) : string :=
  "Skipping " +:+ url +:+ " (HTTP " +:+ z_text code +:+ ")".

Definition msg_http_error (code : Z) (url : string) (attempt : nat) : string :=
  "HTTPError " +:+ z_text code +:+ " on " +:+ url +:+ ", attempt " +:+ z_text (Z.of_nat attempt).

Definition msg_request_exception (url : string) (attempt : nat) (rexc : string) : string :=
  "RequestException on " +:+ url +:+ ", attempt " +:+ z_text (Z.of_nat attempt) +:+ ": " +:+ rexc.

Definition msg_retry (sleep : Z) : string := "Retrying in " +:+ z_text sleep +:+ "s...".

Definition msg_failed (url : string) : string :=
  "Failed to fetch " +:+ url +:+ " after " +:+ z_text (Z.of_nat MAX_RETRIES) +:+ " attempts, skipping.".

(** ** The loop with its prints *)

(** Lines 69-91: [left] attempts remain, the next one is number
    [attempt]; [rexc a] is the text of the exception of the [a]-th GET. *)
Fixpoint fetch_attempts_log (net : nat -> attempt_result) (rexc : nat -> string) (url : string)
    (attempt left : nat) : list log_event * fetch_outcome :=
  match left with
  | O => ([], Exhausted)
  | S left' =>
      let backoff (msg : string) :=
        let sleep := (RETRY_BACKOFF * Z.of_nat attempt)%Z in
        let '(evs, o) := fetch_attempts_log net rexc url (S attempt) left' in
        (LEv (EvGet url attempt) :: LPrint msg :: LPrint (msg_retry sleep) :: LEv (EvSleep sleep) :: evs, o) in
      match net attempt with
      | NetError => backoff (msg_request_exception url attempt (rexc attempt))
      | Response status ra body =>
          if (status =? 429)%Z then
            match retry_wait ra attempt with
            | WaitFor w =>
                if sleep_overflows w then ([LEv (EvGet url attempt); LPrint (msg_429 url w)], Crashed)
                else
                  let '(evs, o) := fetch_attempts_log net rexc url (S attempt) left' in
                  (LEv (EvGet url attempt) :: LPrint (msg_429 url w) :: LEv (EvSleep w) :: evs, o)
            | WaitRaises => ([LEv (EvGet url attempt)], Crashed)
            end
          else if is_http_error status then
            if (status =? 404)%Z || (status =? 410)%Z
            then ([LEv (EvGet url attempt); LPrint (msg_skip url status)], Skipped status)
            else backoff (msg_http_error status url attempt)
          else ([LEv (EvGet url attempt)], Fetched body)
      end
  end.

(** Lines 67-94: the loop, then [if not success: print(...)] when it
    broke on a 404 or 410 or ran out of attempts; the [ValueError] of
    [int()] is not caught and prints nothing. *)
Definition fetch_log (net : nat -> attempt_result) (rexc : nat -> string) (url : string)
    : list log_event * fetch_outcome :=
  let '(evs, o) := fetch_attempts_log net rexc url 1 MAX_RETRIES in
  match o with
  | Skipped _ | Exhausted => (evs ++ [LPrint (msg_failed url)], o)
  | _ => (evs, o)
  end.

(** The line just before a sleep of [s] seconds announces it. *)
Definition announces (url : string) (s : Z) (line : string) : Prop :=
  line = msg_429 url s \/ line = msg_retry s.

(** Every sleep of [l] comes right after a line announcing it. *)
Definition sleeps_announced (url : string) (l : list log_event) : Prop :=
  forall j s, l !! j = Some (LEv (EvSleep s)) ->
  exists i line, j = S i /\ l !! i = Some (LPrint line) /\ announces url s line.

(** ** Theorems *)

Lemma erase_app l1 l2 : erase (l1 ++ l2) = erase l1 ++ erase l2.
Proof. apply omap_app. Qed.

Lemma fetch_attempts_log_erase net rexc url attempt left :
  erase (fetch_attempts_log net rexc url attempt left).1 = (fetch_attempts net url attempt left).1 /\
  (fetch_attempts_log net rexc url attempt left).2 = (fetch_attempts net url attempt left).2.
Proof.
  induction left as [|left IH] in attempt |- *; [done|]. simpl.
  destruct (IH (S attempt)) as [IHe IHo].
  destruct (fetch_attempts_log net rexc url (S attempt) left) as [l o].
  destruct (fetch_attempts net url (S attempt) left) as [evs o']. simpl in IHe, IHo. subst.
  destruct (net attempt) as [|status ra body]; [done|].
  repeat case_match; done.
Qed.

(** The console messages change nothing else: the logged fetch of
    lines 67-94, its printed lines erased, performs the GETs and sleeps of
    [fetch] in the same order and ends with the same outcome, so every
    theorem on [fetch] holds of the code with its [print] calls. *)
Theorem fetch_log_erase net rexc url :
  erase (fetch_log net rexc url).1 = (fetch net url).1 /\ (fetch_log net rexc url).2 = (fetch net url).2.
Proof.
  unfold fetch_log, fetch. destruct (fetch_attempts_log_erase net rexc url 1 MAX_RETRIES) as [He Ho].
  destruct (fetch_attempts_log net rexc url 1 MAX_RETRIES) as [l o].
  destruct (fetch_attempts net url 1 MAX_RETRIES) as [evs o']. cbn [fst snd] in He, Ho |- *. subst.
  destruct o'; cbn [fst snd]; try done; rewrite erase_app; simpl; by rewrite app_nil_r.
Qed.

Lemma sleeps_announced_app url l1 l2 :
  sleeps_announced url l1 -> sleeps_announced url l2 -> sleeps_announced url (l1 ++ l2).
Proof.
  intros H1 H2 j s Hj. apply lookup_app_Some in Hj as [Hj|[Hlen Hj]].
  - destruct (H1 j s Hj) as (i & line & -> & Hi & Ha). exists i, line. split_and!; [done| |done].
    by apply lookup_app_l_Some.
  - destruct (H2 _ _ Hj) as (i & line & Hji & Hi & Ha). exists (length l1 + i), line. split_and!; [lia| |done].
    rewrite lookup_app_r by lia. by replace (length l1 + i - length l1)%nat with i by lia.
Qed.

(** A block of the loop: its one sleep, if any, comes right after its
    announcement. *)
Ltac block_announced :=
  intros j s Hj;
  do 5 (destruct j as [|j];
    [simpl in Hj; first [discriminate | injection Hj as <-;
       eexists _, _; split_and!; [reflexivity|reflexivity|by (left + right)]]
    | simpl in Hj; try discriminate]).

Lemma backoff_block_announced url attempt msg sleep l :
  sleeps_announced url l ->
  sleeps_announced url (LEv (EvGet url attempt) :: LPrint msg :: LPrint (msg_retry sleep) :: LEv (EvSleep sleep) :: l).
Proof. apply (sleeps_announced_app url [_; _; _; _] l). block_announced. Qed.

Lemma wait_block_announced url attempt w l :
  sleeps_announced url l ->
  sleeps_announced url (LEv (EvGet url attempt) :: LPrint (msg_429 url w) :: LEv (EvSleep w) :: l).
Proof. apply (sleeps_announced_app url [_; _; _] l). block_announced. Qed.

Lemma fetch_attempts_log_announced net rexc url attempt left :
  sleeps_announced url (fetch_attempts_log net rexc url attempt left).1.
Proof.
  induction left as [|left IH] in attempt |- *; [by intros []|]. simpl.
  specialize (IH (S attempt)). destruct (fetch_attempts_log net rexc url (S attempt) left) as [l o].
  simpl in IH.
  repeat case_match; simpl;
    first [by apply backoff_block_announced | by apply wait_block_announced | block_announced].
Qed.

(** C23. Every sleep of the fetch is printed first: in the console and
    effects of lines 67-94, the event just before a [time.sleep(s)] is the
    printed line announcing [s] seconds, [waiting {s}s] after a 429 or
    [Retrying in {s}s...] after an error. *)
Theorem fetch_log_announced net rexc url : sleeps_announced url (fetch_log net rexc url).1.
Proof.
  unfold fetch_log. pose proof (fetch_attempts_log_announced net rexc url 1 MAX_RETRIES) as H.
  destruct (fetch_attempts_log net rexc url 1 MAX_RETRIES) as [l o]. simpl in H.
  destruct o; simpl; try done; apply sleeps_announced_app; try done; block_announced.
Qed.

(** C24. After a 404 or 410 on the first attempt the loop breaks after one
    GET and prints the [Skipping] line, then line 93 prints that the
    fetch failed after 3 attempts: the message names [MAX_RETRIES], not
    the one attempt made. *)
Theorem fetch_log_permanent_skip net rexc url status ra p :
  (status = 404%Z \/ status = 410%Z) -> net 1%nat = Response status ra p ->
  fetch_log net rexc url =
    ([LEv (EvGet url 1); LPrint (msg_skip url status);
      LPrint ("Failed to fetch " +:+ url +:+ " after 3 attempts, skipping.")], Skipped status).
Proof. intros [-> | ->] Hn; unfold fetch_log; simpl; by rewrite Hn. Qed.

Lemma fetch_log_permanent_skip_witness :
  (404%Z = 404%Z \/ 404%Z = 410%Z) /\
  fetch_log (fun _ => Response 404 None (Page [] [])) (fun _ => "") "https://site.test/gone" =
    ([LEv (EvGet "https://site.test/gone" 1);
      LPrint "Skipping https://site.test/gone (HTTP 404)";
      LPrint "Failed to fetch https://site.test/gone after 3 attempts, skipping."],
     Skipped 404).
Proof.
  split; [by left|].
  rewrite (fetch_log_permanent_skip _ _ _ 404 None (Page [] [])); [reflexivity|by left|reflexivity].
Defined.

(** A 503 then a 429 with [Retry-After: 7] then a page: the console and
    the sleeps of lines 67-94, in order. *)
Example fetch_log_503_429_200 :
  fetch_log (fun a => match a with
                      | 1 => Response 503 None (Page [] [])
                      | 2 => Response 429 (Some "7") (Page [] [])
                      | _ => Response 200 None (Page [104%N] [])
                      end) (fun _ => "") "https://site.test/a" =
    ([LEv (EvGet "https://site.test/a" 1);
      LPrint "HTTPError 503 on https://site.test/a, attempt 1";
      LPrint "Retrying in 2s...";
      LEv (EvSleep 2);
      LEv (EvGet "https://site.test/a" 2);
      LPrint "429 Too Many Requests for https://site.test/a, waiting 7s";
      LEv (EvSleep 7);
      LEv (EvGet "https://site.test/a" 3)],
     Fetched (Page [104%N] [])).
Proof. vm_compute. reflexivity. Qed.
